(* ===== verification/_CoqProject ===== *)
-Q . S2P
Prelude.v
Threads.v
ContainerHeap.v
Timer.v
Shard.v
TimerSpec.v
Message.v
Utf8.v
Codec.v
Tcp.v
Router.v
RouterSpec.v
World.v
Connection.v
Pool.v
Session.v
Typing.v
TypedOps.v
Demo.v
RegistryConc.v
ConnConc.v
ConnectionSpec.v
SessionSpec.v
Sync.v
SessionLife.v
ScannerConc.v
SessionConc.v
Pipeline.v
Uplink.v
UplinkSpec.v
Downlink.v
Layer.v
DownlinkSpec.v
Worker.v
PoolLife.v
Handler.v
Factory.v
FactorySpec.v
Node.v
NodeTyping.v
NodeSync.v
NodeSpec.v
NodeDrain.v
Journey.v
DistRouter.v
Kafka.v
Topics.v
Business.v
BusinessLife.v
Storage.v
Bootstrap.v
Admin.v
Auth.v
Login.v
WebSocket.v
Listeners.v
SdkTypes.v
SdkClient.v
SdkClientSpec.v
SdkPush.v
WsUrl.v
Routes.v
Observability.v
ServiceLog.v
Validate.v
ProtoCommon.v
ProtoEvents.v
ProtoService.v
ProtoDomains.v
ProtoSpec.v
