(* ===== verification/Prelude.v ===== *)
(** * long-gw: verification development

    long-gw is a long-connection gateway: clients hold a TCP or WebSocket
    connection to a gateway node, which authenticates them, forwards their
    business messages to a backend and delivers the backend's messages to all
    the connections they are addressed to, with acknowledgements and offline
    storage for QoS 1.  This library models the Go code of the node
    ([gateway/internal]), of the token service ([auth/internal/server]), of the
    demonstration backend ([business/internal]), of the client SDK ([sdk]) and of
    the validators of the protocol ([common-protocol/gen]), and proves what the
    parts do, alone and together.

    ** How the parts interact

    A transport delivers frames to a connection's reader.  The connection
    factory performs the handshake, finds the session of the (user, device)
    pair in the session registry, attaches the connection to it and registers
    the session with the local router.  Frames are dispatched to handlers;
    business frames run through the uplink chain into the queue of a worker
    pool, whose goroutines send them to the backend.  Messages of the backend
    are put into the downstream queue of a pool; the downlink chain resolves
    the address with the router and submits the message to every session found,
    which hands it to its connection's write queue, tracks it with the ACK
    scanner when it is QoS 1, and refuses it to the offline store when it cannot
    be delivered.  The scanner sets timers with the sharded scheduler; a timeout
    leads back into the session.  Messages of the backend come from Kafka
    consumers, and what goes up ends in a Kafka sender; the route of a user
    across nodes is kept in Redis; the bootstrap builds all of this from the
    configuration, and the process runs it behind one port, on which a
    multiplexer tells TCP, HTTP and gRPC connections apart.

    ** How it is modelled

    Stateful code is a computation [M S A := S -> outcome A * S]: a call returns
    or panics, and a panic keeps the writes made so far.  Objects that Go shares
    by pointer (messages, connections, sessions, timer tasks, response channels)
    live in stores of the state and are passed by location, so aliasing is
    visible: two connections that hold one message see each other's writes.
    For most theorems an operation is one atomic step, as if a lock were held
    throughout; goroutines are modelled by their turns, and turns interleave as a
    sequence of operations (lists) or a step relation (inductive).  Where the
    code runs several calls on one object at once, a second model goes below
    that: [Threads] has programs that stop between two accesses of the shared
    state, read-write locks, and pools of programs that interleave access by
    access; the programs of the registry, the connection, the scanner and the
    session are there, each proved to be its atomic operation when undisturbed ([alone]).  A [select] with several
    ready cases takes the choice as an argument.  Machine integers keep their
    width ([u8], [u32], [u64], [i64]); times are nanoseconds, and one operation
    reads the clock once.  Maps are [gmap]; the order in which Go ranges over a
    map is the interface [MapRange], of which only that it enumerates the map is
    known.

    Code outside the repository is a parameter: protobuf, JSON and gzip
    ([WireLib], with the laws [WireLaws]: a message whose strings are valid
    UTF-8 and whose numbers fit comes back, but that an empty header map and an
    absent one are not told apart), SHA-256, the generated payloads
    ([PayloadLib], [HandshakeLib], [BusinessProto]), the text of JSON documents
    ([JsonText], with [JsonTextLaws]: values whose strings are valid UTF-8 come
    back), Redis ([Redis], [RedisLaws]: keys that expire), Kafka ([KafkaReader],
    [KafkaWriter] and their laws: a fetch position that moves forward over
    records and gaps, a commit point, commits that may fail, and between two
    turns a rebalance that moves both; what each topic was handed), the database
    session ([Gorm], [GormLaws]), the multiplexer's tests ([CMux],
    [CMuxLaws]), the network and the clock.  Every such interface has an
    instance with its laws, on which the witnesses run.

    A whole node ([Node]) is the world with the connections that run on it and
    the workers left in each pool (none before [pool.Start], one less when a
    worker finds its context done); its events are logins, turns of readers,
    writers, watchdogs and workers, the start of a pool, calls
    of the session API, time-outs, messages of consumers and the end of the
    process.  An operation's typing is a Hoare triple ([good]) over a preorder
    of worlds that only grow ([ext]); an interface [session_stable] says which
    properties of worlds every operation of sessions keeps, so that typing,
    agreement with the router and the bootstrap's wiring are each proved once
    and lifted to the node.

    ** Files

    - [Prelude]: outcomes and the monad, [preserves], integers, tactics, hints.
    - [Threads]: programs of atomic actions, pools and schedules, the read-write
      lock, invariants of pools by phases and by rely and guarantee.
    - [ContainerHeap]: [container/heap] of the standard library over an
      interface ([HeapInterface], [HeapLaws]); heap order and permutation.
    - [Timer]: [timer/task.go], [metrics.go], [wheel.go]: the heap of tasks shared by
      pointer with its back indexes, [schedule], [cancel], [nextTask], [popDue],
      [run_turn].  [wf] is the invariant, [live] the finite map a wheel
      implements.
    - [Shard]: [timer/shard.go], [scheduler.go]; the class [Scheduler] and its
      laws, which the sharded scheduler satisfies for every number of shards.
    - [TimerSpec]: the loop of a wheel as a step relation, and the claims.
    - [Message]: the messages of the generated package with the fields that the
      node reads and writes.
    - [Codec]: [protocol/codec/codec.go].
    - [Tcp]: [access/tcp/transport.go] (module [Gateway]) and the transport of
      [sdk/tcp/client.go] (module [Sdk]).
    - [Router], [RouterSpec]: [router/local.go] and the set of registered
      addresses it implements.
    - [World]: the state of a node: stores and singletons.
    - [Connection], [ConnectionSpec]: [access/connruntime] but for the factory.
    - [Pool]: the queues of [worker/pool.go] and [manager.go].
    - [Session], [SessionSpec]: [session/session.go], [registry.go],
      [delivery/ack], [delivery/retry]; one message's delivery, acknowledgement,
      timeout.
    - [Typing], [TypedOps], [Layer]: typed worlds, and that the operations of
      connections, sessions and pipelines keep them.
    - [Sync], [SessionLife]: the invariant that ties sessions, registry and
      router over all reachable states of a node, and the life cycle claims.
    - [Demo]: the concrete node the examples run on.
    - [RegistryConc]: [GetOrCreate], [GetAllByUser] and [Count] of
      [session/registry.go] statement by statement under [mu];
      [ConnConc]: [Submit] of [connruntime/writer.go], [ScannerConc]: [Track],
      [Done] and [CancelAll] of [delivery/ack/scanner.go], [SessionConc]: the
      methods of [session/session.go], access by access.
    - [Pipeline]: [pipeline/pipeline.go].
    - [Uplink], [UplinkSpec]: [pipeline/uplink/stages.go].
    - [Downlink], [DownlinkSpec]: [pipeline/downlink/stages.go].
    - [Worker]: the turns of the goroutines of [worker/pool.go]; [PoolLife]: their
      life, with [Start] and [Stop] of [pool.go] and [manager.go].
    - [Handler]: [access/handler] (dispatch, heartbeat, logout, business).
    - [Factory], [FactorySpec]: [access/connruntime/factory.go],
      [access/handler/handshake.go].
    - [Node]: the node as a step relation, with [gs.cancel()] of
      [app/lifecycle.go]; [NodeTyping], [NodeSync], [NodeSpec]: typing, agreement
      of sessions and router, and exactly what panics, in every reachable state;
      [NodeDrain]: what leaves the queues, and what stays in them.
    - [Journey]: a message through consumer, worker, pipeline, session and
      writer, and through reader, pipeline, worker and sender.
    - [DistRouter]: [router/distributed.go], its specification by leases, and
      its calls in the factory.
    - [Kafka]: one turn of [utils/kafka/consumer.go] and of
      [worker/downstream/consumer.go], and what any run of such a loop leaves
      uncommitted.
    - [Topics]: [utils/kafka/topic_manager.go], the life of the consumer, and the
      senders of [worker/upstream].
    - [Business]: [business/internal/server.go], [consumer.go], [sender.go];
      [BusinessLife]: its [Start], [Run] and [Stop] with the goroutines of the
      consumer and the requests in flight.
    - [Storage]: [worker/storage/mysql.go].
    - [Bootstrap]: [app/bootstrap.go], [svc/svc.go], the options of
      [session/registry.go] and the worker pools of [app/lifecycle.go].
    - [Admin]: [handler].
    - [Auth]: [auth/internal/server/server.go]; [Login]: the JSON between
      [sdk/auth.go], the service and [access/handler/handshake.go].
    - [WebSocket]: [access/websocket/transport.go], [access/transport/errors.go].
    - [Listeners]: [Start] and [Stop] of [app/lifecycle.go], [app/listeners.go],
      [app/modules.go].
    - [SdkTypes], [SdkClient], [SdkClientSpec]: [sdk/types.go], [codec.go],
      [client.go], and the clients of [sdk/tcp] and [sdk/ws]; [SdkPush]:
      [sdk/grpc/client.go].
    - [WsUrl]: [getWsURL] of [sdk/ws/client.go] over a model of [net/url];
      [Routes]: the route tables of the three HTTP servers ([app/listeners.go],
      [auth/internal/server], [business/internal/server.go]) and the requests the
      program sends to them.
    - [Observability]: the handlers and the middleware of [logger], the counters
      and the collector of [metrics]; [ServiceLog]: the log package and the [main]
      of the two services.
    - [Utf8]: runes of a string.  [Validate]: the steps and errors of the generated
      validators, the rules of the [.proto] files as data, and what it means for a
      validator to be the one its rules ask for ([valid]), with the tactic
      ([follows]) that shows it field by field.
    - [ProtoCommon], [ProtoEvents], [ProtoService], [ProtoDomains]: the messages of
      [common-protocol/gen] with validators and rules; [ProtoSpec]: all of them
      together, and [handler/gatewaygrpc].

    ** What the theorems show

    Delivery: a message submitted to a session with an active connection is
    queued, numbered and tracked; messages leave a connection in the order of
    submission; fan-out reaches every deliverable target and no other; what is
    refused goes to the offline store under the documented conditions; an ACK
    ends the tracking, and exhausted retries give the message up.  Routing: the
    router implements sets of addresses, and in every reachable state it lists
    exactly the attached subscribers.  Timers: the scheduler implements a finite
    map, a turn runs the due tasks once and in order, and no deadline is slept
    past.  Uplink: a valid message is forwarded once or its failure reported;
    invalid ones are refused; no panic escapes.  Wire: the codec round trips, and
    the gateway reads what was sent up to the first frame that a piece of the
    stream cuts between its header and its end - as every frame of 4096 bytes is.  Access: the handshake authenticates and its failure has no effect;
    a token is valid exactly as long as granted, what a client asks the token
    service for is what the gateway takes it to be, and the requests of the
    clients are routed to the handlers they mean.  SDK: a request and
    its answer find each other in every interleaving.

    The node: every reachable state is typed, its addresses lead to the intended
    sessions, and a turn panics exactly for the listed reasons.  End to end,
    where nothing on the way is full, closed or expired: a message for a connected
    user reaches the wire, a client's message the sender and its failure the client.  Around the node: the cross-node router
    implements leases; a consumer queues or refuses, and exactly the tail of
    what it refused is read again; the backend answers what it consumes and its
    pushes say what happened; the gateway starts exactly for the configurations
    named, and stops unless it profiles or a module registered too late; the
    backend stops whatever its consumers and requests do; what is queued in a
    node leaves its queue as long as somebody is left to take it.

    Protocol: for every message type, [ValidateAll] reports exactly the
    violations of the rules in the [.proto] file, [Validate] the first of them.

    Concurrency inside operations: the registry is linearizable and no call of it
    waits for ever; concurrent submissions to a connection are each queued once
    with a number of their own, but not in the order of the numbers; under any
    interleaving of a session's methods what [Submit] accepted is in a queue and
    pending with its timer set, and what it refused was offered to the offline
    store.  Four races are theorems as well: a room joined across a disconnect, a
    disconnect across a reconnect, an acknowledgement that comes too early, and a
    timer that is set across the close of its session.

    A last group states behaviour that differs from what the comments and names
    of the code suggest: retries that never give up, the client that is cut off
    by its own reconnect, the reader that spins on a partial frame or a large
    one, framings of the two ends that do not match, the TCP client that cannot connect, the
    configuration whose address of Redis prevents the start, the node that has
    no worker, the jobs that workers leave behind, the port on which a race
    decides whether HTTP is served, the module that nothing ends, the
    offline store of blank rows, the [Stop] of the pools that waits only for the
    launching of their workers, the push that is accepted whatever it says, and
    so on.  They are theorems about the code as it is.

    ** Bounds and fuel

    Heap sifting recurses at most [length] times; [popDue] and [nextTask] recurse
    on the number of queued tasks; [Chain.Run] on the number of stages; in each
    case a lemma shows the measure to be enough.  The gateway's [Read] takes its
    number of turns as an argument, because it may not terminate:
    [tcp_reads_until_cut] says when one turn more than there are pieces is enough
    and when no number is.  Capacities are the code's:
    4096 messages per connection, 100 jobs per pool and direction, 4 MiB frames,
    one answer per response channel.  A run of the process's life cycle takes at
    most 28 turns, by a rank that every turn lowers; a call of the registry at
    most nine accesses.

    ** What is not modelled

    Reading the configuration and the command line (viper and cobra): their
    result is an argument.  The rotation of log files and the gRPC server, which
    are library set-up; the bodies of library calls.  Of the generated code, the
    encoding and the descriptors: they are calls of the protobuf runtime.  The
    generated package of the repository does not have the messages that the
    gateway imports, so [Message] has them with the fields the gateway uses.  The
    methods of the WebSocket client of the SDK are textually those of the TCP
    client and are modelled once.

    A gateway and an SDK client are not joined over a network: they do not share
    a format.  The SDK frames a signal of a package that is not in the repository
    and the gateway expects its own header and codec byte; the theorem on their
    framings says what comes of it.  Time-outs of the scanner are single steps
    between the methods of a session, also where those run access by access: a
    time-out works on the pending entry itself, which the session hands out by
    pointer, and the code does not synchronise the two.  The loop of
    [Registry.GCLoop] calls an empty body. *)

From stdpp Require Import base list gmap strings numbers pretty.

(** ** Notation scope of the development *)
Declare Scope gw_scope.
Delimit Scope gw_scope with gw.

(** ** Outcomes of Go code

    A Go call either returns a value or panics.  A panic keeps the writes made
    before it, so a computation always hands back a state. *)
Inductive outcome (A : Type) : Type :=
  | Ret (a : A)
  | Panic (why : string).
Arguments Ret {A} a.
Arguments Panic {A} why.

(** Stateful computations over a state [S] that may panic. *)
Definition M (S A : Type) : Type := S → outcome A * S.

#[export] Instance M_ret (S : Type) : MRet (M S) := λ A a s, (Ret a, s).
#[export] Instance M_bind (S : Type) : MBind (M S) := λ A B f m s,
  match m s with
  | (Ret a, s') => f a s'
  | (Panic why, s') => (Panic why, s')
  end.

Definition panic {S A} (why : string) : M S A := λ s, (Panic why, s).
Definition gets {S A} (f : S → A) : M S A := λ s, (Ret (f s), s).
Definition modify {S} (f : S → S) : M S unit := λ s, (Ret tt, f s).
Definition when {S} (b : bool) (m : M S unit) : M S unit := if b then m else mret tt.

(** Dereference of a possibly nil pointer. *)
Definition deref {S A} (o : option A) : M S A :=
  match o with
  | Some a => mret a
  | None => panic "invalid memory address or nil pointer dereference"
  end.

(** [for _, x := range xs { f(x) }] *)
Fixpoint for_each {S A} (f : A → M S unit) (xs : list A) : M S unit :=
  match xs with
  | [] => mret tt
  | x :: xs' => f x ≫= λ _, for_each f xs'
  end.

(** [defer func() { if r := recover(); r != nil { h(r) } }(); m()] *)
Definition with_recover {S} (m : M S unit) (h : string → M S unit) : M S unit := λ s,
  match m s with
  | (Ret a, s') => (Ret a, s')
  | (Panic why, s') => h why s'
  end.

(** Run a computation on a part of a larger state. *)
Definition zoom {W S A} (get : W → S) (set : S → W → W) (m : M S A) : M W A := λ w,
  let '(r, s') := m (get w) in (r, set s' w).

(** A Go [error]: nil or a message. *)
Abbreviation error := (option string).

Lemma ret_run {S A} (a : A) (s : S) : (mret a : M S A) s = (Ret a, s).
Proof. reflexivity. Qed.

Lemma bind_run {S A B} (m : M S A) (f : A → M S B) (s : S) :
  (m ≫= f) s = match m s with
               | (Ret a, s') => f a s'
               | (Panic why, s') => (Panic why, s')
               end.
Proof. reflexivity. Qed.

Lemma bind_ret_run {S A B} (m : M S A) (f : A → M S B) (s s' : S) (a : A) :
  m s = (Ret a, s') → (m ≫= f) s = f a s'.
Proof. intros E. rewrite bind_run, E. reflexivity. Qed.

Lemma bind_panic_run {S A B} (m : M S A) (f : A → M S B) (s s' : S) why :
  m s = (Panic why, s') → (m ≫= f) s = (Panic why, s').
Proof. intros E. rewrite bind_run, E. reflexivity. Qed.

(** ** Computations that stay within a relation

    [preserves R m]: whatever [m] does, panics included, takes a state to an
    [R]-related one. *)
Section preserves.
Context {S : Type} (R : relation S) `{!PreOrder R}.

Definition preserves {A} (m : M S A) : Prop := ∀ s, R s (m s).2.

Lemma preserves_ret {A} (a : A) : preserves (mret a).
Proof. intros s. simpl. reflexivity. Qed.
Lemma preserves_gets {A} (f : S → A) : preserves (gets f).
Proof. intros s. simpl. reflexivity. Qed.
Lemma preserves_panic {A} why : preserves (A:=A) (panic why).
Proof. intros s. simpl. reflexivity. Qed.
Lemma preserves_deref {A} (o : option A) : preserves (deref o).
Proof. intros s. destruct o; simpl; reflexivity. Qed.
Lemma preserves_bind {A B} (m : M S A) (f : A → M S B) :
  preserves m → (∀ a, preserves (f a)) → preserves (m ≫= f).
Proof.
  intros Hm Hf s. rewrite bind_run. specialize (Hm s). destruct (m s) as [[a|why] s1]; simpl in *; [|done].
  etrans; [exact Hm|apply Hf].
Qed.
Lemma preserves_when b (m : M S unit) : preserves m → preserves (when b m).
Proof. intros Hm. destruct b; [done|apply preserves_ret]. Qed.
Lemma preserves_for_each {A} (f : A → M S unit) l : (∀ a, preserves (f a)) → preserves (for_each f l).
Proof. intros Hf. induction l as [|a l IH]; simpl; [apply preserves_ret|]. by apply preserves_bind. Qed.
Lemma preserves_modify (f : S → S) : (∀ s, R s (f s)) → preserves (modify f).
Proof. intros Hf s. apply Hf. Qed.
Lemma preserves_with_recover (m : M S unit) (h : string → M S unit) :
  preserves m → (∀ why, preserves (h why)) → preserves (with_recover m h).
Proof.
  intros Hm Hh s. unfold with_recover. specialize (Hm s). destruct (m s) as [[a|why] s1]; simpl in *; [done|].
  etrans; [exact Hm|apply Hh].
Qed.
End preserves.

Create HintDb gw.
#[export] Hint Extern 1 (preserves _ (mret _)) => apply preserves_ret; apply _ : gw.
#[export] Hint Extern 1 (preserves _ (gets _)) => apply preserves_gets; apply _ : gw.
#[export] Hint Extern 1 (preserves _ (panic _)) => apply preserves_panic; apply _ : gw.
#[export] Hint Extern 1 (preserves _ (deref _)) => apply preserves_deref; apply _ : gw.
Create Rewrite HintDb gw.
#[export] Hint Rewrite @ret_run : gw.

(** ** Updating a map through a pointer *)
Section alter.
Context {K A : Type} `{Countable K}.
Implicit Types (f : A → A) (m : gmap K A).

Lemma alter_Some f m p a : m !! p = Some a → alter f p m = <[p := f a]> m.
Proof.
  intros E. apply map_eq. intros q. rewrite lookup_alter, lookup_insert.
  case_decide; [subst; by rewrite E|done].
Qed.

Lemma alter_None f m p : m !! p = None → alter f p m = m.
Proof.
  intros E. apply map_eq. intros q. rewrite lookup_alter. case_decide; [subst; by rewrite E|done].
Qed.

Lemma alter_same f m p : (∀ a, f a = a) → alter f p m = m.
Proof.
  intros E. apply map_eq. intros q. rewrite lookup_alter. case_decide; [subst|done].
  destruct (m !! q); simpl; by rewrite ?E.
Qed.
End alter.

(** ** Strings *)
Lemma append_assoc (a b c : string) : (a +:+ b) +:+ c = a +:+ (b +:+ c).
Proof. induction a as [|x a IH]; [done|]. exact (f_equal (String x) IH). Qed.
Lemma append_nil_r (a : string) : a +:+ EmptyString = a.
Proof. induction a as [|x a IH]; [done|]. exact (f_equal (String x) IH). Qed.

(** ** Machine integers *)
Definition u8 (z : Z) : Z := z mod 2 ^ 8.
Definition u32 (z : Z) : Z := z mod 2 ^ 32.
Definition u64 (z : Z) : Z := z mod 2 ^ 64.
(** Two's complement wrap of an [int64]. *)
Definition i64 (z : Z) : Z := (z + 2 ^ 63) mod 2 ^ 64 - 2 ^ 63.

Lemma u32_bound z : (0 ≤ u32 z < 2 ^ 32)%Z.
Proof. unfold u32. apply Z.mod_pos_bound. lia. Qed.
Lemma u64_bound z : (0 ≤ u64 z < 2 ^ 64)%Z.
Proof. unfold u64. apply Z.mod_pos_bound. lia. Qed.
Lemma u64_small z : (0 ≤ z < 2 ^ 64)%Z → u64 z = z.
Proof. apply Z.mod_small. Qed.
Lemma i64_small z : (- 2 ^ 63 ≤ z < 2 ^ 63)%Z → i64 z = z.
Proof. intros H. unfold i64. rewrite Z.mod_small; lia. Qed.
Lemma i64_mod z : u64 (i64 z) = u64 z.
Proof.
  unfold i64, u64. rewrite Zminus_mod_idemp_l. f_equal. lia.
Qed.
Lemma u64_add_l a b : u64 (u64 a + b) = u64 (a + b).
Proof. apply Zplus_mod_idemp_l. Qed.
#[export] Hint Resolve u32_bound u64_bound : gw.

(** ** Tactics *)

(** Case analysis on every [match] of the goal, cleaning up after each. *)
Ltac split_cases := repeat (case_match; simplify_eq/=; try done).

(** Decompose a computation into primitives for a [preserves] goal. *)
Ltac preserves_tac :=
  repeat first
    [ solve [auto with gw nocore]
    | case_match
    | apply preserves_bind; [try apply _|..|intros ?]
    | apply preserves_when; [try apply _|..]
    | apply preserves_for_each; [try apply _|..|intros ?]
    | match goal with |- preserves _ (let _ := _ in _) => cbv zeta end ].
