(* ===== verification/Threads.v ===== *)
(** * Goroutines below the level of operations

    Elsewhere in the development an operation is one atomic step.  Here an
    operation is a program of atomic actions - one access to shared memory, one
    call of a method that holds its own lock, one operation on a lock - and the
    programs of several goroutines interleave action by action.  A program run
    [alone] is the operation of the other files; the files that use this one
    prove it for each of their programs. *)

From stdpp Require Import base list list_numbers strings relations.
From S2P Require Import Prelude.

Section programs.
Context {W : Type}.

(** An action gives a result and the next state, panics, or ([None]) waits. *)
Definition action (B : Type) : Type := W → option (outcome B * W).

Inductive prog (A : Type) : Type :=
  | Finish (a : A)
  | Crashed (why : string)
  | Act (B : Type) (m : action B) (k : B → prog A).
Arguments Finish {A} a. Arguments Crashed {A} why. Arguments Act {A B} m k.

Fixpoint prog_bind {A B} (t : prog A) (f : A → prog B) : prog B :=
  match t with
  | Finish a => f a
  | Crashed why => Crashed why
  | Act m k => Act m (λ b, prog_bind (k b) f)
  end.

(** An atomic action that never waits. *)
Definition atomically {A} (m : M W A) : action A := λ w, Some (m w).
Definition act {A} (m : M W A) : prog A := Act (atomically m) Finish.
Definition wait_for {A} (m : action A) : prog A := Act m Finish.

(** Nobody interferes; waiting for ever is a deadlock. *)
Fixpoint alone {A} (t : prog A) : M W A := λ w,
  match t with
  | Finish a => (Ret a, w)
  | Crashed why => (Panic why, w)
  | Act m k =>
      match m w with
      | Some (Ret b, w') => alone (k b) w'
      | Some (Panic why, w') => (Panic why, w')
      | None => (Panic "all goroutines are asleep - deadlock!", w)
      end
  end.

Lemma alone_bind {A B} (t : prog A) (f : A → prog B) w :
  alone (prog_bind t f) w = (alone t ≫= λ a, alone (f a)) w.
Proof.
  revert w. induction t as [a|why|C m k IH]; intros w; [done|done|]. cbn. rewrite bind_run. cbn.
  destruct (m w) as [[[b|why] w']|]; [|done|done]. by rewrite IH, bind_run.
Qed.

Lemma alone_act {A B} (m : M W A) (f : A → prog B) w :
  alone (prog_bind (act m) f) w = (m ≫= λ a, alone (f a)) w.
Proof. cbn. unfold atomically. rewrite bind_run. by destruct (m w) as [[a|why] w']. Qed.

Lemma alone_only {A} (m : M W A) w : alone (act m) w = m w.
Proof. cbn. unfold atomically. by destruct (m w) as [[a|why] w']. Qed.

(** ** A pool of goroutines *)
Context {A : Type}.
Abbreviation pool := (list (prog A)).

(** One action of one program. *)
Definition prog_step (t : prog A) (w : W) : option (prog A * W) :=
  match t with
  | Act m k =>
      match m w with
      | Some (Ret b, w') => Some (k b, w')
      | Some (Panic why, w') => Some (Crashed why, w')
      | None => None
      end
  | _ => None
  end.

Inductive pool_step : pool * W → pool * W → Prop :=
  | pool_act i ts w t t' w' :
      ts !! i = Some t → prog_step t w = Some (t', w') →
      pool_step (ts, w) (<[i := t']> ts, w').

Lemma act_step {B} (m : M W B) (f : B → prog A) w b w' :
  m w = (Ret b, w') → prog_step (prog_bind (act m) f) w = Some (f b, w').
Proof. intros E. cbn. unfold atomically. by rewrite E. Qed.

Lemma act_last_step (m : M W A) w b w' : m w = (Ret b, w') → prog_step (act m) w = Some (Finish b, w').
Proof. intros E. cbn. unfold atomically. by rewrite E. Qed.

(** Nobody else is scheduled while one of them runs to its end. *)
Lemma pool_alone ts w i t a w' : ts !! i = Some t → alone t w = (Ret a, w') →
  rtc pool_step (ts, w) (<[i := Finish a]> ts, w').
Proof.
  revert ts w. induction t as [a0|why|B m k IH]; intros ts w Et E; cbn in E; [|done|].
  - simplify_eq. by rewrite list_insert_id.
  - destruct (m w) as [[[b|why] w1]|] eqn:Em; try done.
    assert (prog_step (Act m k) w = Some (k b, w1)) as Ep by (cbn; by rewrite Em).
    eapply rtc_l; [by econstructor|].
    rewrite <-(list_insert_insert_eq ts i (Finish a) (k b)). apply (IH b); [|done].
    apply list_lookup_insert_eq. by eapply lookup_lt_Some.
Qed.

(** A schedule names who takes the next action. *)
Fixpoint run_schedule (sched : list nat) (s : pool * W) : option (pool * W) :=
  match sched with
  | [] => Some s
  | i :: sched' =>
      t ← s.1 !! i;
      '(t', w') ← prog_step t s.2;
      run_schedule sched' (<[i := t']> s.1, w')
  end.

Lemma run_schedule_nsteps sched s s' : run_schedule sched s = Some s' → nsteps pool_step (length sched) s s'.
Proof.
  revert s. induction sched as [|i sched IH]; intros [ts w] E; cbn in E; [simplify_eq; constructor|].
  destruct (ts !! i) as [t|] eqn:Et; [|done]. cbn in E.
  destruct (prog_step t w) as [[t' w']|] eqn:Ep; [|done]. cbn in E.
  econstructor; [by econstructor|by apply IH].
Qed.
Lemma run_schedule_steps sched s s' : run_schedule sched s = Some s' → rtc pool_step s s'.
Proof. intros E. eapply rtc_nsteps_2, run_schedule_nsteps, E. Qed.

Lemma run_schedule_app s1 s2 c : run_schedule (s1 ++ s2) c = run_schedule s1 c ≫= run_schedule s2.
Proof.
  revert c. induction s1 as [|i s1 IH]; intros [ts w]; [done|]. cbn.
  destruct (ts !! i) as [t|]; [|done]. cbn. destruct (prog_step t w) as [[t' w']|]; [apply IH|done].
Qed.
Lemma run_schedule_cons i sched ts w t t' w' : ts !! i = Some t → prog_step t w = Some (t', w') →
  run_schedule (i :: sched) (ts, w) = run_schedule sched (<[i := t']> ts, w').
Proof. intros Et Ep. cbn. rewrite Et. cbn. by rewrite Ep. Qed.
(** Who is not scheduled stays where it is. *)
Lemma run_schedule_other sched s s' i : run_schedule sched s = Some s' → i ∉ sched → s'.1 !! i = s.1 !! i.
Proof.
  revert s. induction sched as [|j sched IH]; intros [ts w] E Hi; cbn in E; [by simplify_eq|].
  apply not_elem_of_cons in Hi as [Hne Hi].
  destruct (ts !! j) as [t|] eqn:Et; [|done]. cbn in E.
  destruct (prog_step t w) as [[t' w']|] eqn:Ep; [|done]. cbn in E.
  rewrite (IH _ E Hi). cbn. by rewrite list_lookup_insert_ne.
Qed.

Definition result (t : prog A) : option A := match t with Finish a => Some a | _ => None end.
(** Every goroutine has returned. *)
Definition all_done (ts : pool) (rs : list A) : Prop := result <$> ts = Some <$> rs.

Lemma all_done_lookup ts rs i t : all_done ts rs → ts !! i = Some t → ∃ a, t = Finish a ∧ rs !! i = Some a.
Proof.
  intros Hd Et. assert ((result <$> ts) !! i = (Some <$> rs) !! i) as E by (unfold all_done in Hd; congruence).
  rewrite !list_lookup_fmap, Et in E. cbn in E. destruct (rs !! i) as [a|]; [|done]. cbn in E.
  destruct t as [a'| |]; cbn in E; simplify_eq. by exists a.
Qed.
Lemma all_done_at ts rs i a : all_done ts rs → rs !! i = Some a → ts !! i = Some (Finish a).
Proof.
  intros Hd Ea. assert ((result <$> ts) !! i = (Some <$> rs) !! i) as E by (unfold all_done in Hd; congruence).
  rewrite !list_lookup_fmap, Ea in E. destruct (ts !! i) as [[r|why|B m k]|]; try discriminate E.
  by injection E as ->.
Qed.
End programs.
Arguments prog W A : clear implicits.
Arguments Finish {W A} a. Arguments Crashed {W A} why. Arguments Act {W A B} m k.

(** Sequencing in the order of the code. *)
Notation "x <~ t ;; u" := (prog_bind t (λ x, u)) (at level 100, t at next level, right associativity) : gw_scope.
Notation "t ~> u" := (prog_bind t (λ _, u)) (at level 100, right associativity) : gw_scope.

(** ** A reader-writer lock ([sync.RWMutex]) next to what it guards *)
Record rwlock := mkRW { rw_readers : nat; rw_writer : bool }.
Definition unlocked : rwlock := mkRW 0 false.

Section lock.
Context {W : Type}.
Abbreviation L := (rwlock * W)%type.

Definition RLock : action (W:=L) unit := λ '(l, w),
  if rw_writer l then None else Some (Ret tt, (mkRW (S (rw_readers l)) false, w)).
Definition RUnlock : action (W:=L) unit := λ '(l, w),
  Some (Ret tt, (mkRW (pred (rw_readers l)) (rw_writer l), w)).
Definition Lock : action (W:=L) unit := λ '(l, w),
  if rw_writer l || negb (bool_decide (rw_readers l = 0)) then None
  else Some (Ret tt, (mkRW 0 true, w)).
Definition Unlock : action (W:=L) unit := λ '(l, w),
  Some (Ret tt, (mkRW (rw_readers l) false, w)).

(** An access to what the lock guards. *)
Definition guarded {A} (m : M W A) : M L A := zoom snd (λ w '(l, _), (l, w)) m.
End lock.

(** ** Calls that go through phases

    The goroutines of a pool run the calls [calls]; where call [c] is in phase
    [ph], its goroutine still has to run [code c ph]. *)
Section phases.
Context {P : Type}.
Implicit Types (f : P → nat) (phs : list P).

Definition total f phs : nat := sum_list_with f phs.

Lemma total_insert f phs i ph ph' : phs !! i = Some ph →
  total f (<[i := ph']> phs) + f ph = total f phs + f ph'.
Proof.
  revert i. unfold total. induction phs as [|a phs IH]; intros [|i] E; simplify_eq/=; [lia|].
  specialize (IH _ E). lia.
Qed.

Lemma total_one f phs i ph : phs !! i = Some ph → f ph ≤ total f phs.
Proof.
  revert i. unfold total. induction phs as [|a phs IH]; intros [|i] E; simplify_eq/=; [lia|].
  specialize (IH _ E). lia.
Qed.

Lemma total_two f phs i j ph ph' : phs !! i = Some ph → phs !! j = Some ph' → i ≠ j →
  f ph + f ph' ≤ total f phs.
Proof.
  revert i j. induction phs as [|a phs IH]; intros [|i] [|j] Ei Ej Hne; simplify_eq/=.
  - apply (total_one f) in Ej. unfold total in *. cbn. lia.
  - apply (total_one f) in Ei. unfold total in *. cbn. lia.
  - specialize (IH i j Ei Ej). unfold total in *. cbn. lia.
Qed.

Lemma all_zero f phs : (∀ i ph, phs !! i = Some ph → f ph = 0) → total f phs = 0.
Proof.
  unfold total. induction phs as [|a phs IH]; intros Hz; cbn; [done|].
  rewrite (Hz 0 a eq_refl), IH; [done|]. intros i ph E. by apply (Hz (S i)).
Qed.
Lemma some_positive f phs : 0 < total f phs → ∃ i ph, phs !! i = Some ph ∧ 0 < f ph.
Proof.
  unfold total. induction phs as [|a phs IH]; cbn; [lia|]. intros Hp.
  destruct (decide (f a = 0)) as [Hz|Hz]; [|exists 0, a; split; [done|lia]].
  destruct IH as (i & ph & ? & ?); [lia|]. by exists (S i), ph.
Qed.
Lemma total_le f k phs : (∀ ph, f ph ≤ k) → total f phs ≤ k * length phs.
Proof. intros Hf. unfold total. induction phs as [|a phs IH]; cbn; [lia|]. specialize (Hf a). lia. Qed.
Lemma total_replicate f n ph : total f (replicate n ph) = n * f ph.
Proof. unfold total. induction n as [|n IH]; cbn; [done|]. lia. Qed.
End phases.

Lemma lookup_insert_cases {A} (xs : list A) i j x y : <[i := x]> xs !! j = Some y →
  j = i ∧ y = x ∨ j ≠ i ∧ xs !! j = Some y.
Proof.
  destruct (decide (j = i)) as [->|Hne]; [|rewrite list_lookup_insert_ne by done; by right].
  intros E. left. split; [done|]. pose proof (lookup_lt_Some _ _ _ E) as Hl. rewrite length_insert in Hl.
  rewrite list_lookup_insert_eq in E by done. by simplify_eq.
Qed.

Section calls.
Context {W A C P : Type} (code : C → P → prog W A) (calls : list C).

Definition pool_at (phs : list P) : list (prog W A) := zip_with code calls phs.

Lemma pool_at_lookup phs i t : pool_at phs !! i = Some t →
  ∃ c ph, calls !! i = Some c ∧ phs !! i = Some ph ∧ t = code c ph.
Proof. intros (c & ph & -> & Ec & Eph)%lookup_zip_with_Some. eauto. Qed.

Lemma pool_at_lookup_2 phs i c ph : calls !! i = Some c → phs !! i = Some ph →
  pool_at phs !! i = Some (code c ph).
Proof. intros Ec Eph. unfold pool_at. by rewrite lookup_zip_with, Ec, Eph. Qed.

Lemma pool_at_insert phs i c ph : calls !! i = Some c →
  <[i := code c ph]> (pool_at phs) = pool_at (<[i := ph]> phs).
Proof.
  intros Ec. unfold pool_at. rewrite insert_zip_with. by rewrite (list_insert_id calls i c Ec).
Qed.

Lemma pool_at_start (start : C → prog W A) ph : (∀ c, start c = code c ph) →
  start <$> calls = pool_at (replicate (length calls) ph).
Proof.
  intros Hs. unfold pool_at. clear -Hs. induction calls as [|c cs IH]; cbn; [done|]. by rewrite IH, Hs.
Qed.

(** A step of the pool is a step of the code of one call. *)
Lemma pool_at_step phs s s' : pool_step (pool_at phs, s) s' → ∃ i c ph t' w',
  calls !! i = Some c ∧ phs !! i = Some ph ∧ prog_step (code c ph) s = Some (t', w') ∧
  s' = (<[i := t']> (pool_at phs), w').
Proof.
  intros Hst. inversion Hst as [i ts w t t' w' Et Ep]; subst.
  apply pool_at_lookup in Et as (c & ph & Ec & Eph & ->). eauto 10.
Qed.

Lemma pool_at_done phs rs i c ph : all_done (pool_at phs) rs → calls !! i = Some c → phs !! i = Some ph →
  ∃ a, code c ph = Finish a ∧ rs !! i = Some a.
Proof. intros Hd Ec Eph. eapply all_done_lookup; [done|by apply pool_at_lookup_2]. Qed.

Lemma pool_at_done_length phs rs : length phs = length calls → all_done (pool_at phs) rs →
  length rs = length calls.
Proof.
  intros Hl Hd. apply (f_equal length) in Hd. rewrite !length_fmap in Hd.
  unfold pool_at in Hd. rewrite length_zip_with in Hd. lia.
Qed.
End calls.

(** Collecting over the goroutines, up to order: one of them gets a value. *)
Lemma omap_insert {A B} (f : A → option B) (l : list A) i x y b :
  l !! i = Some x → f x = None → f y = Some b → omap f (<[i := y]> l) ≡ₚ b :: omap f l.
Proof.
  revert i. induction l as [|a l IH]; intros [|i] E Hx Hy; simplify_eq/=; [by rewrite Hx, Hy|].
  destruct (f a); rewrite (IH i) by done; [apply Permutation_swap|done].
Qed.
Lemma omap_insert_same {A B} (f : A → option B) (l : list A) i x y :
  l !! i = Some x → f x = f y → omap f (<[i := y]> l) = omap f l.
Proof.
  revert i. induction l as [|a l IH]; intros [|i] E Hf; simplify_eq/=; [by rewrite Hf|].
  by rewrite (IH i).
Qed.

Lemma length_omap_le {A B} (f : A → option B) (l : list A) : length (omap f l) ≤ length l.
Proof. induction l as [|a l IH]; cbn; [done|]. destruct (f a); cbn; lia. Qed.

(** All goroutines have returned if each has. *)
Lemma all_done_intro {W A} (ts : list (prog W A)) :
  (∀ i t, ts !! i = Some t → ∃ r, result t = Some r) → ∃ rs, all_done ts rs.
Proof.
  intros Hall. unfold all_done. induction ts as [|t ts IH]; [by exists []|].
  destruct (Hall 0 t eq_refl) as [r Hr]. destruct IH as [rs Hrs]; [intros i t' E; by apply (Hall (S i))|].
  exists (r :: rs). cbn. by rewrite Hr, Hrs.
Qed.

(** What has been returned at the end of a run. *)
Definition results {W A} (o : option (list (prog W A) * W)) : option (list (option A)) :=
  match o with Some (ts, _) => Some (result <$> ts) | None => None end.

(** ** Loops and programs after each other *)
Fixpoint each {W A} (f : A → prog W unit) (xs : list A) : prog W unit :=
  match xs with
  | [] => Finish tt
  | x :: xs' => prog_bind (f x) (λ _, each f xs')
  end.

(** Computations that do the same. *)
Lemma bind_same {S A B} (m m' : M S A) (f f' : A → M S B) (s : S) :
  m s = m' s → (∀ a s', m' s = (Ret a, s') → f a s' = f' a s') → (m ≫= f) s = (m' ≫= f') s.
Proof. intros E Hf. rewrite !bind_run, E. destruct (m' s) as [[a|why] s'] eqn:E'; [by apply Hf|done]. Qed.

Lemma alone_each {W A} (J : W → Prop) (f : A → prog W unit) (g : A → M W unit) (xs : list A) (w : W) :
  (∀ x w, J w → alone (f x) w = g x w) → (∀ x w w', J w → alone (f x) w = (Ret tt, w') → J w') →
  J w → alone (each f xs) w = for_each g xs w ∧ (∀ w', for_each g xs w = (Ret tt, w') → J w').
Proof.
  intros Hf HJ. revert w. induction xs as [|x xs IH]; intros w Hw; [by split; [|intros w' [= <-]]|].
  cbn [each for_each]. rewrite alone_bind, bind_run, (bind_run (g x)). pose proof (HJ x w) as Hx.
  rewrite (Hf x w Hw) in *. destruct (g x w) as [[[]|why] w1]; [|done]. apply IH. by apply Hx.
Qed.

(** ** Rely and guarantee

    Every action of every goroutine takes the state to an [R]-related one, so
    what the others do between two actions of one of them is in [R] too.
    [always R Q t w]: from [w] and whatever the others do, [t] keeps to [R] and
    returns only with [Q]. *)
Section rely.
Context {W : Type} (R : relation W) `{!PreOrder R}.

Fixpoint always {A} (Q : A → W → Prop) (t : prog W A) (w : W) : Prop :=
  match t with
  | Finish a => Q a w
  | Crashed _ => True
  | Act m k => ∀ w1, R w w1 → ∃ o w2, m w1 = Some (o, w2) ∧ R w1 w2 ∧
      match o with Ret b => always Q (k b) w2 | Panic _ => True end
  end.

Definition stable {A} (Q : A → W → Prop) : Prop := ∀ a w w', R w w' → Q a w → Q a w'.

Lemma always_stable {A} (Q : A → W → Prop) t w w' : stable Q → R w w' → always Q t w → always Q t w'.
Proof.
  intros HQ Hr. destruct t as [a|why|B m k]; [by apply HQ|done|]. cbn. intros Ht w1 Hr1. apply Ht. by etrans.
Qed.

Lemma always_step {A} (Q : A → W → Prop) t w t' w' :
  always Q t w → prog_step t w = Some (t', w') → R w w' ∧ always Q t' w'.
Proof.
  destruct t as [a|why|B m k]; [done..|]. cbn. intros Ht E.
  destruct (Ht w (reflexivity w)) as (o & w2 & Em & Hr & Hk). rewrite Em in E. destruct o; by simplify_eq.
Qed.

(** Nobody waits. *)
Lemma always_moves {A} (Q : A → W → Prop) t w : always Q t w →
  (∃ a, t = Finish a) ∨ (∃ why, t = Crashed why) ∨ is_Some (prog_step t w).
Proof.
  destruct t as [a|why|B m k]; cbn; intros Ht; [by eauto..|]. right. right.
  destruct (Ht w (reflexivity w)) as ([b|why] & w2 & Em & _); rewrite Em; by eexists.
Qed.

Lemma always_bind {A B} (P : A → W → Prop) (Q : B → W → Prop) t f w :
  always P t w → (∀ a w', R w w' → P a w' → always Q (f a) w') → always Q (prog_bind t f) w.
Proof.
  revert w. induction t as [a|why|C m k IH]; cbn; intros w Ht Hf; [by apply Hf|done|].
  intros w1 Hr. destruct (Ht _ Hr) as (o & w2 & Hm & Hr2 & Hk). exists o, w2. split; [done|]. split; [done|].
  destruct o as [b|why]; [|done].
  apply IH; [done|]. intros a w' Hr'. apply Hf. etrans; [done|]. by etrans.
Qed.

Lemma always_act {A} (Q : A → W → Prop) (m : M W A) w : preserves R m →
  (∀ w1 a w2, R w w1 → m w1 = (Ret a, w2) → Q a w2) → always Q (act m) w.
Proof.
  intros Hm HQ w1 Hr. specialize (Hm w1). unfold atomically. destruct (m w1) as [o w2] eqn:E. exists o, w2.
  split; [done|]. split; [done|]. destruct o; [by eapply HQ|done].
Qed.
Lemma always_act_any {A} (m : M W A) w : preserves R m → always (λ _ _, True) (act m) w.
Proof. intros Hm. by apply always_act. Qed.

Lemma always_mono {A} (P Q : A → W → Prop) t w : (∀ a w, P a w → Q a w) → always P t w → always Q t w.
Proof.
  intros HPQ. revert w. induction t as [a|why|B m k IH]; cbn; intros w Ht; [by apply HPQ|done|].
  intros w1 Hr. destruct (Ht _ Hr) as (o & w2 & Hm & Hr2 & Hk). exists o, w2. split_and!; try done.
  destruct o; [by apply IH|done].
Qed.

Lemma always_each {A} (f : A → prog W unit) xs w : (∀ x w, always (λ _ _, True) (f x) w) →
  always (λ _ _, True) (each f xs) w.
Proof.
  intros Hf. revert w. induction xs as [|x xs IH]; intros w; [done|]. cbn.
  eapply always_bind; [apply Hf|]. auto.
Qed.

Lemma always_alone {A} (Q : A → W → Prop) t w a w' : always Q t w → alone t w = (Ret a, w') →
  R w w' ∧ Q a w'.
Proof.
  revert w. induction t as [a0|why|B m k IH]; cbn; intros w Ht E; [by simplify_eq|done|].
  destruct (Ht w (reflexivity w)) as (o & w1 & Em & Hr & Hk). rewrite Em in E.
  destruct o as [b|why]; [|done]. destruct (IH _ _ Hk E). split; [by etrans|done].
Qed.

(** Each goroutine with its own promise. *)
Lemma pool_always {A} (Q : nat → A → W → Prop) (ts : list (prog W A)) w s :
  (∀ i, stable (Q i)) → (∀ i t, ts !! i = Some t → always (Q i) t w) → rtc pool_step (ts, w) s →
  R w s.2 ∧ ∀ i t, s.1 !! i = Some t → always (Q i) t s.2.
Proof.
  intros HQ Hts Hst. remember (ts, w) as s0 eqn:E0. revert ts w Hts E0.
  induction Hst as [s0|s0 s1 s2 H1 _ IH]; intros ts w Hts ->; [done|].
  inversion H1 as [i ts0 w0 t t' w' Et Ep]; subst.
  destruct (always_step _ _ _ _ _ (Hts _ _ Et) Ep) as [Hr Ht'].
  assert (∀ j u, <[i := t']> ts !! j = Some u → always (Q j) u w') as Hts'.
  { intros j u [[-> ->]|[_ Ej]]%lookup_insert_cases; [done|]. by eapply always_stable; [..|apply Hts]. }
  destruct (IH _ w' Hts' eq_refl) as [Hr' Hall]. split; [by etrans|done].
Qed.
End rely.
