(* ===== verification/ContainerHeap.v ===== *)
(** * Go's [container/heap], over an interface

    [timer/wheel.go] keeps its tasks in a binary heap and calls
    [heap.Push] and [heap.Pop].  This file models those two functions of Go's
    standard library once and for all over a typeclass that mirrors
    [heap.Interface] (Len, Less, Swap, Push, Pop), and proves, against the laws
    of the interface, that they keep the heap order, permute the contents and
    that [Pop] hands out a minimum.  [Timer.v] instantiates the interface with
    [taskHeap]. *)

From stdpp Require Import base list numbers sorting.
From S2P Require Import Prelude.

(** ** [heap.Interface] *)
Class HeapInterface (S X : Type) : Type := {
  Len : S → nat;
  Less : S → nat → nat → bool;
  Swap : S → nat → nat → S;
  Push : S → X → S;
  (** [None] when the slice is empty ([old[n-1]] panics there). *)
  Pop : S → option (X * S);
}.

(** ** The algorithms of [container/heap] *)
Section algorithms.
Context {S X : Type} `{HeapInterface S X}.

Definition parent (j : nat) : nat := (j - 1) `div` 2.

(** Sift towards the root; [fuel] bounds the number of levels. *)
Fixpoint up (fuel : nat) (h : S) (j : nat) : S :=
  match fuel with
  | O => h
  | Datatypes.S fuel' =>
      let i := parent j in
      if (i =? j) || negb (Less h j i) then h else up fuel' (Swap h i j) i
  end.

(** Sift towards the leaves inside the prefix of length [n]. *)
Fixpoint down (fuel : nat) (h : S) (i n : nat) : S :=
  match fuel with
  | O => h
  | Datatypes.S fuel' =>
      let j1 := 2 * i + 1 in
      if n <=? j1 then h else
      let j := if (j1 + 1 <? n) && Less h (j1 + 1) j1 then j1 + 1 else j1 in
      if negb (Less h j i) then h else down fuel' (Swap h i j) j n
  end.

Definition heap_Push (h : S) (x : X) : S :=
  let h1 := Push h x in up (Len h1) h1 (Len h1 - 1).

Definition heap_Pop (h : S) : option (X * S) :=
  match Len h with
  | O => None
  | Datatypes.S n => Pop (down n (Swap h 0 n) 0 n)
  end.
End algorithms.

(** ** Laws

    The contents of a heap are viewed as a list of identifiers with their
    ordering key.  [hvalid] is the representation invariant. *)
Class HeapLaws (S X I : Type) `{HeapInterface S X} : Type := {
  hvalid : S → Prop;
  hview : S → list (I * Z);
  hid : X → I;
  hpushable : S → X → Z → Prop;
  law_len s : hvalid s → Len s = length (hview s);
  law_less s i j a b : hvalid s → hview s !! i = Some a → hview s !! j = Some b →
    Less s i j = bool_decide (a.2 < b.2)%Z;
  law_swap s i j a b : hvalid s → hview s !! i = Some a → hview s !! j = Some b →
    hvalid (Swap s i j) ∧ hview (Swap s i j) = <[i:=b]> (<[j:=a]> (hview s));
  law_push s x k : hvalid s → hpushable s x k →
    hvalid (Push s x) ∧ hview (Push s x) = hview s ++ [(hid x, k)];
  law_pop s l a : hvalid s → hview s = l ++ [a] →
    ∃ x s', Pop s = Some (x, s') ∧ hid x = a.1 ∧ hvalid s' ∧ hview s' = l;
}.

(** ** Keys and heap order of a list *)
Section keys.
Context {I : Type}.
Implicit Types l : list (I * Z).

Definition key l (i : nat) : Z := from_option snd 0%Z (l !! i).

Definition heap_ordered l : Prop :=
  ∀ i, 0 < i < length l → (key l (parent i) ≤ key l i)%Z.

(** Ordered but for the edge above [j]. *)
Definition ordered_above l (j : nat) : Prop :=
  (∀ i, 0 < i < length l → i ≠ j → (key l (parent i) ≤ key l i)%Z) ∧
  (∀ i, 0 < i < length l → parent i = j → 0 < j → (key l (parent j) ≤ key l i)%Z).

(** Ordered inside the prefix of length [n], but for the edges below [i]. *)
Definition ordered_below l (i n : nat) : Prop :=
  (∀ x, 0 < x < n → parent x ≠ i → (key l (parent x) ≤ key l x)%Z) ∧
  (∀ x, 0 < x < n → parent x = i → 0 < i → (key l (parent i) ≤ key l x)%Z).

Lemma parent_lt j : 0 < j → parent j < j.
Proof. intros. unfold parent. apply Nat.Div0.div_lt_upper_bound. lia. Qed.

Lemma parent_children x i : 0 < x → parent x = i ↔ x = 2 * i + 1 ∨ x = 2 * i + 2.
Proof.
  intros Hx. unfold parent. pose proof (Nat.div_mod_eq (x - 1) 2).
  pose proof (Nat.mod_upper_bound (x - 1) 2). lia.
Qed.

Lemma lookup_key l i : i < length l → ∃ x, l !! i = Some (x, key l i).
Proof.
  intros [[x k] E]%lookup_lt_is_Some. exists x. unfold key. rewrite E. done.
Qed.

Lemma key_lookup l i a : l !! i = Some a → key l i = a.2.
Proof. intros E. unfold key. by rewrite E. Qed.

Lemma key_swap l i j a b x :
  l !! i = Some a → l !! j = Some b →
  key (<[i:=b]> (<[j:=a]> l)) x =
    if decide (x = i) then key l j else if decide (x = j) then key l i else key l x.
Proof.
  intros Ei Ej. pose proof (lookup_lt_Some _ _ _ Ei). pose proof (lookup_lt_Some _ _ _ Ej).
  unfold key. case_decide as D1; [subst x|case_decide as D2; [subst x|]].
  - rewrite list_lookup_insert_eq by (rewrite length_insert; lia). by rewrite Ej.
  - rewrite list_lookup_insert_ne, list_lookup_insert_eq by done. by rewrite Ei.
  - by rewrite !list_lookup_insert_ne by done.
Qed.

Lemma swap_Permutation l i j a b :
  l !! i = Some a → l !! j = Some b → <[i:=b]> (<[j:=a]> l) ≡ₚ l.
Proof. intros Ei Ej. by apply Permutation_insert_swap. Qed.

(** The root of an ordered list is a minimum. *)
Lemma heap_ordered_root l i : heap_ordered l → i < length l → (key l 0 ≤ key l i)%Z.
Proof.
  intros Ho. induction i as [i IH] using lt_wf_ind. intros Hi.
  destruct (decide (i = 0)) as [->|]; [lia|].
  pose proof (parent_lt i). specialize (Ho i). specialize (IH (parent i)). lia.
Qed.
End keys.

(** ** Correctness of the algorithms, from the laws *)
Section correctness.
Context {S X I : Type} `{HeapLaws S X I}.
Implicit Types s : S.

(** One exchange keeps the invariant and permutes the contents. *)
Lemma swap_ok s i j :
  hvalid s → i < length (hview s) → j < length (hview s) →
  hvalid (Swap s i j) ∧ hview (Swap s i j) ≡ₚ hview s ∧
  length (hview (Swap s i j)) = length (hview s) ∧
  (∀ x, key (hview (Swap s i j)) x =
     if decide (x = i) then key (hview s) j
     else if decide (x = j) then key (hview s) i else key (hview s) x) ∧
  (∀ x, x ≠ i → x ≠ j → hview (Swap s i j) !! x = hview s !! x).
Proof.
  intros Hv [a Ei]%lookup_lt_is_Some [b Ej]%lookup_lt_is_Some.
  destruct (law_swap s i j a b Hv Ei Ej) as [Hv' ->]. split_and!; try done.
  - by apply swap_Permutation.
  - by rewrite !length_insert.
  - intros x. by apply key_swap.
  - intros x ??. by rewrite !list_lookup_insert_ne by done.
Qed.

Lemma less_key s i j :
  hvalid s → i < length (hview s) → j < length (hview s) →
  Less s i j = bool_decide (key (hview s) i < key (hview s) j)%Z.
Proof.
  intros Hv [a Ei]%lookup_lt_is_Some [b Ej]%lookup_lt_is_Some.
  rewrite (law_less s i j a b) by done. by rewrite !(key_lookup _ _ _ Ei), (key_lookup _ _ _ Ej).
Qed.

(** Exchanging [j] with its parent moves the only possible disorder up. *)
Lemma ordered_above_step s j :
  hvalid s → j < length (hview s) → 0 < j →
  (key (hview s) j < key (hview s) (parent j))%Z →
  ordered_above (hview s) j → ordered_above (hview (Swap s (parent j) j)) (parent j).
Proof.
  intros Hv Hj Hj0 Hlt [H1 H2]. pose proof (parent_lt j Hj0) as Hp.
  destruct (swap_ok s (parent j) j) as (_ & _ & Hlen & Hk & _); [done|lia..|].
  split; rewrite Hlen; intros x Hx.
  - intros Hne. rewrite !Hk. pose proof (parent_lt x ltac:(lia)).
    pose proof (H1 x Hx). pose proof (H2 x Hx).
    assert (parent x = parent j → x ≠ j → (key (hview s) (parent j) ≤ key (hview s) x)%Z)
      by (intros E ?; rewrite <-E; auto).
    repeat case_decide; subst; try lia; intuition lia.
  - intros Hpx Hp0. rewrite !Hk. pose proof (parent_lt (parent j) Hp0).
    pose proof (H1 (parent j) ltac:(lia)). pose proof (H1 x Hx) as Hx1.
    rewrite Hpx in Hx1. repeat case_decide; subst; try lia; intuition lia.
Qed.

Lemma up_ok fuel s j :
  hvalid s → j < length (hview s) → j ≤ fuel → ordered_above (hview s) j →
  hvalid (up fuel s j) ∧ heap_ordered (hview (up fuel s j)) ∧
  hview (up fuel s j) ≡ₚ hview s.
Proof.
  revert s j. induction fuel as [|fuel IH]; intros s j Hv Hj Hf Ho; simpl.
  - split_and!; [done| |done]. intros i Hi. destruct Ho as [H1 _]. apply H1; lia.
  - destruct (Nat.eqb_spec (parent j) j) as [E|E]; simpl.
    { assert (j = 0) as -> by (destruct j; [done|]; pose proof (parent_lt (Datatypes.S j)); lia).
      split_and!; [done| |done]. intros i Hi. destruct Ho as [H1 _]. apply H1; lia. }
    assert (0 < j) as Hj0 by (destruct j; [done|lia]).
    pose proof (parent_lt j Hj0) as Hp.
    rewrite less_key by (done || lia). case_bool_decide as D; simpl.
    + destruct (swap_ok s (parent j) j) as (Hv' & HP & Hlen & _); [done|lia..|].
      destruct (IH (Swap s (parent j) j) (parent j)) as (? & ? & HP'); [done|lia|lia| |].
      { by apply ordered_above_step. }
      split_and!; [done..|]. by rewrite HP'.
    + split_and!; [done| |done]. intros i Hi. destruct Ho as [H1 _].
      destruct (decide (i = j)) as [->|]; [lia|]. by apply H1.
Qed.

(** Exchanging [i] with its smaller child moves the disorder down. *)
Lemma ordered_below_step s i j n :
  hvalid s → n ≤ length (hview s) → i < j < n → parent j = i →
  (∀ x, 0 < x < n → parent x = i → (key (hview s) j ≤ key (hview s) x)%Z) →
  (key (hview s) j < key (hview s) i)%Z →
  ordered_below (hview s) i n → ordered_below (hview (Swap s i j)) j n.
Proof.
  intros Hv Hn Hj Hpj Hmin Hlt [H1 H2].
  destruct (swap_ok s i j) as (_ & _ & _ & Hk & _); [done|lia..|].
  split; intros x Hx Hpx; pose proof (parent_lt x ltac:(lia)).
  - rewrite !Hk. pose proof (H1 x Hx). pose proof (Hmin x Hx).
    assert (x = i → (key (hview s) (parent i) ≤ key (hview s) j)%Z)
      by (intros ->; apply H2; lia).
    repeat case_decide; subst; try lia; intuition lia.
  - intros _. rewrite !Hk. rewrite Hpj. pose proof (H1 x Hx) as Hx1.
    rewrite Hpx in Hx1. repeat case_decide; subst; try lia; intuition lia.
Qed.

Lemma down_ok fuel s i n :
  hvalid s → n ≤ length (hview s) → n ≤ fuel + i → ordered_below (hview s) i n →
  hvalid (down fuel s i n) ∧
  (∀ x, 0 < x < n → (key (hview (down fuel s i n)) (parent x) ≤ key (hview (down fuel s i n)) x)%Z) ∧
  hview (down fuel s i n) ≡ₚ hview s ∧
  (∀ x, n ≤ x → hview (down fuel s i n) !! x = hview s !! x).
Proof.
  revert s i. induction fuel as [|fuel IH]; intros s i Hv Hn Hf Ho.
  { simpl. split_and!; try done. intros x Hx. destruct Ho as [H1 _]. apply H1; [done|].
    intros E. pose proof (parent_lt x). lia. }
  cbn [down]. destruct (Nat.leb_spec n (2 * i + 1)) as [L|L].
  { split_and!; try done. intros x Hx. destruct Ho as [H1 _]. apply H1; [done|].
    intros E%parent_children; lia. }
  set (j := if (2 * i + 1 + 1 <? n) && Less s (2 * i + 1 + 1) (2 * i + 1)
            then 2 * i + 1 + 1 else 2 * i + 1).
  assert (i < j < n ∧ parent j = i ∧
    ∀ x, 0 < x < n → parent x = i → (key (hview s) j ≤ key (hview s) x)%Z)
    as (Hj & Hpj & Hmin).
  { subst j. destruct (Nat.ltb_spec (2 * i + 1 + 1) n) as [L'|L']; cbn [andb].
    - rewrite less_key by (done || lia). case_bool_decide; split_and!; try lia;
        try (apply parent_children; lia);
        intros x Hx [E|E]%parent_children; try lia; subst x;
        replace (2 * i + 2) with (2 * i + 1 + 1) by lia; lia.
    - split_and!; try lia; [apply parent_children; lia|].
      intros x Hx [E|E]%parent_children; try lia; subst x; lia. }
  clearbody j. rewrite less_key by (done || lia). case_bool_decide as D; simpl.
  - destruct (swap_ok s i j) as (Hv' & HP & Hlen & _ & Hsame); [done|lia..|].
    destruct (IH (Swap s i j) j) as (? & ? & HP' & Hsame'); [done|lia|lia| |].
    { by apply ordered_below_step. }
    split_and!; [done..|by rewrite HP'|].
    intros x Hx. rewrite Hsame' by done. apply Hsame; lia.
  - split_and!; try done. intros x Hx. destruct Ho as [H1 _].
    destruct (decide (parent x = i)) as [E|]; [|by apply H1].
    specialize (Hmin x Hx E). rewrite E. lia.
Qed.

(** [heap.Push]: the new element joins the contents and the order is kept. *)
Lemma heap_Push_ok s x k :
  hvalid s → heap_ordered (hview s) → hpushable s x k →
  hvalid (heap_Push s x) ∧ heap_ordered (hview (heap_Push s x)) ∧
  hview (heap_Push s x) ≡ₚ (hid x, k) :: hview s.
Proof.
  intros Hv Ho Hx. unfold heap_Push. destruct (law_push s x k Hv Hx) as [Hv1 E].
  rewrite law_len, E, length_app by done. simpl.
  replace (length (hview s) + 1 - 1) with (length (hview s)) by lia.
  destruct (up_ok (length (hview s) + 1) (Push s x) (length (hview s))) as (? & ? & HP);
    [done|rewrite E, length_app; simpl; lia|lia| |].
  { rewrite E. assert (∀ i, i < length (hview s) →
      key (hview s ++ [(hid x, k)]) i = key (hview s) i) as Hkey.
    { intros i Hi. unfold key. by rewrite lookup_app_l. }
    split; intros i; rewrite length_app; simpl; intros Hi.
    - intros Hne. pose proof (parent_lt i). rewrite !Hkey by lia. apply Ho. lia.
    - intros Hp. pose proof (parent_lt i). lia. }
  split_and!; [done..|]. rewrite HP, E. by rewrite Permutation_app_comm.
Qed.

(** [heap.Pop] on a non-empty heap: it returns an element whose key is a
    minimum, the rest stays ordered. *)
Lemma heap_Pop_ok s :
  hvalid s → heap_ordered (hview s) → hview s ≠ [] →
  ∃ x s' k, heap_Pop s = Some (x, s') ∧ hview s !! 0 = Some (hid x, k) ∧
    hvalid s' ∧ heap_ordered (hview s') ∧ hview s ≡ₚ (hid x, k) :: hview s'.
Proof.
  intros Hv Ho Hne. unfold heap_Pop. rewrite law_len by done.
  destruct (length (hview s)) as [|n] eqn:Hlen.
  { destruct (hview s); done. }
  destruct (swap_ok s 0 n) as (Hv1 & HP1 & Hlen1 & Hk1 & _); [done|lia..|].
  destruct (down_ok n (Swap s 0 n) 0 n) as (Hv2 & Ho2 & HP2 & Hs2);
    [done|lia|lia| |].
  { split; [|lia]. intros x Hx Hp. rewrite !Hk1. pose proof (parent_lt x ltac:(lia)).
    repeat case_decide; subst; try lia. apply Ho. lia. }
  set (s2 := down n (Swap s 0 n) 0 n) in *.
  assert (length (hview s2) = Datatypes.S n) as Hlen2 by (apply Permutation_length in HP2; lia).
  destruct (lookup_lt_is_Some_2 (hview s) 0) as [[i0 k0] E0]; [lia|].
  assert (hview s2 !! n = Some (i0, k0)) as En.
  { rewrite Hs2 by done.
    destruct (lookup_lt_is_Some_2 (hview s) n) as [b Eb]; [lia|].
    destruct (law_swap s 0 n _ _ Hv E0 Eb) as [_ ->].
    destruct (decide (n = 0)) as [->|].
    - rewrite E0 in Eb. injection Eb as <-. rewrite list_lookup_insert_eq; [done|].
      rewrite length_insert. lia.
    - rewrite list_lookup_insert_ne, list_lookup_insert_eq by lia. done. }
  assert (hview s2 = take n (hview s2) ++ [(i0, k0)]) as Esplit.
  { rewrite <-(take_drop n (hview s2)) at 1. f_equal.
    rewrite (drop_S _ _ _ En), drop_ge by lia. done. }
  destruct (law_pop s2 _ _ Hv2 Esplit) as (x & s' & EP & Hid & Hv' & Hview').
  exists x, s', k0. simpl in Hid. rewrite Hid. split_and!; try done.
  - rewrite Hview'. intros i. rewrite length_take. intros Hi. pose proof (parent_lt i ltac:(lia)).
    unfold key. rewrite !lookup_take_lt by lia. apply Ho2. lia.
  - rewrite <-HP1, <-HP2, Esplit at 1. rewrite Hview'. by rewrite Permutation_app_comm.
Qed.
End correctness.

(** ** Frame: what the three primitives leave alone, [heap.Push] and
    [heap.Pop] leave alone *)
Class HeapFrame {S X : Type} `{HeapInterface S X} (R : relation S) : Prop := {
  frame_preorder :: PreOrder R;
  frame_swap s i j : R s (Swap s i j);
  frame_push s x : R s (Push s x);
  frame_pop s x s' : Pop s = Some (x, s') → R s s';
}.

Section frame.
Context {S X : Type} `{HeapInterface S X} (R : relation S) `{!HeapFrame R}.

Lemma up_frame fuel s j : R s (up fuel s j).
Proof.
  revert s j. induction fuel as [|fuel IH]; intros s j; simpl; [done|].
  case_match; [done|]. etrans; [apply (frame_swap (R:=R))|apply IH].
Qed.

Lemma down_frame fuel s i n : R s (down fuel s i n).
Proof.
  revert s i. induction fuel as [|fuel IH]; intros s i; [done|]. cbn [down].
  repeat case_match; done || (etrans; [apply (frame_swap (R:=R))|apply IH]).
Qed.

Lemma heap_Push_frame s x : R s (heap_Push s x).
Proof. etrans; [apply (frame_push (R:=R) s x)|apply up_frame]. Qed.

Lemma heap_Pop_frame s x s' : heap_Pop s = Some (x, s') → R s s'.
Proof.
  unfold heap_Pop. destruct (Len s) as [|n]; [done|]. intros E%frame_pop.
  etrans; [|exact E]. etrans; [apply (frame_swap (R:=R) s 0 n)|apply down_frame].
Qed.
End frame.
