(* ===== verification/Timer.v ===== *)
(** * The timer: tasks, wheel, shards ([gateway/internal/timer])

    A wheel keeps its pending tasks twice: in [tasks], the map from key to the
    live task, and in [queue], a heap ordered by due time in which cancelled
    and replaced tasks stay behind as tombstones.  The wheel is modelled with
    its pointers: a [*wheelTask] is a location of the store [th_items], so that
    marking a task cancelled through the map is seen through the queue.
    Times are nanoseconds since the Unix epoch. *)

From stdpp Require Import base list gmap strings numbers sorting.
From S2P Require Import Prelude ContainerHeap.

(** [time.Time{}], the instant [IsZero] recognises: January 1 of year 1. *)
Definition zeroTime : Z := (-62135596800 * 10 ^ 9)%Z.

Inductive TaskType : Set :=
  | TaskHeartbeat | TaskAckTimeout | TaskRetry | TaskSessionSuspend | TaskDrainKick.

Record Metrics := mkMetrics { Scheduled : Z; Executed : Z; Cancelled : Z; Overdue : Z }.
Definition NewMetrics : Metrics := mkMetrics 0 0 0 0.
(** [atomic.Int64.Add(1)] on one counter. *)
Definition Scheduled_Add (m : Metrics) : Metrics :=
  mkMetrics (i64 (Scheduled m + 1)) (Executed m) (Cancelled m) (Overdue m).
Definition Executed_Add (m : Metrics) : Metrics :=
  mkMetrics (Scheduled m) (i64 (Executed m + 1)) (Cancelled m) (Overdue m).
Definition Cancelled_Add (m : Metrics) : Metrics :=
  mkMetrics (Scheduled m) (Executed m) (i64 (Cancelled m + 1)) (Overdue m).

(** [P] is the type of payloads, [H] the type of handlers ([None] is a nil
    handler). *)
Record Task (P H : Type) := mkTask {
  Key : string; TType : TaskType; DueAt : Z; Payload : P; Handler : option H;
}.
Arguments mkTask {P H}. Arguments Key {P H}. Arguments TType {P H}.
Arguments DueAt {P H}. Arguments Payload {P H}. Arguments Handler {P H}.

Record wheelTask (P H : Type) := mkWheelTask {
  wt_Task : Task P H; cancelled : bool; index : Z;
}.
Arguments mkWheelTask {P H}. Arguments wt_Task {P H}.
Arguments cancelled {P H}. Arguments index {P H}.

(** [taskHeap] with the [wheelTask] structs it points to. *)
Record taskHeap (P H : Type) := mkTaskHeap {
  th_items : gmap positive (wheelTask P H); th_ptrs : list positive;
}.
Arguments mkTaskHeap {P H}. Arguments th_items {P H}. Arguments th_ptrs {P H}.

Section heap_methods.
Context {P H : Type}.
Implicit Types h : taskHeap P H.

Definition set_index (i : Z) (t : wheelTask P H) : wheelTask P H :=
  mkWheelTask (wt_Task t) (cancelled t) i.

(** The due time behind a pointer. *)
Definition due h (p : positive) : Z := from_option (λ t, DueAt (wt_Task t)) 0%Z (th_items h !! p).

Definition taskHeap_Len h : nat := length (th_ptrs h).

Definition taskHeap_Less h (i j : nat) : bool :=
  match th_ptrs h !! i, th_ptrs h !! j with
  | Some p, Some q => (due h p <? due h q)%Z
  | _, _ => false
  end.

Definition taskHeap_Swap h (i j : nat) : taskHeap P H :=
  match th_ptrs h !! i, th_ptrs h !! j with
  | Some p, Some q =>
      mkTaskHeap (alter (set_index (Z.of_nat j)) p (alter (set_index (Z.of_nat i)) q (th_items h)))
                 (<[i:=q]> (<[j:=p]> (th_ptrs h)))
  | _, _ => h
  end.

Definition taskHeap_Push h (x : positive) : taskHeap P H :=
  mkTaskHeap (alter (set_index (Z.of_nat (length (th_ptrs h)))) x (th_items h)) (th_ptrs h ++ [x]).

Definition taskHeap_Pop h : option (positive * taskHeap P H) :=
  match last (th_ptrs h) with
  | None => None
  | Some p => Some (p, mkTaskHeap (alter (set_index (-1)) p (th_items h))
                                  (take (length (th_ptrs h) - 1) (th_ptrs h)))
  end.

#[export] Instance taskHeap_Interface : HeapInterface (taskHeap P H) positive := {|
  Len := taskHeap_Len; Less := taskHeap_Less; Swap := taskHeap_Swap;
  Push := taskHeap_Push; Pop := taskHeap_Pop;
|}.
End heap_methods.

(** ** [taskHeap] satisfies the laws of the heap interface *)
Section heap_laws.
Context {P H : Type}.
Implicit Types h : taskHeap P H.

(** What a heap operation never changes in a [wheelTask]. *)
Definition core (t : wheelTask P H) : Task P H * bool := (wt_Task t, cancelled t).
Definition same_core h h' : Prop := ∀ p, core <$> th_items h' !! p = core <$> th_items h !! p.

(** The [index] field of each queued task is its position. *)
Definition index_coherent h : Prop :=
  ∀ i p, th_ptrs h !! i = Some p → ∃ t, th_items h !! p = Some t ∧ index t = Z.of_nat i.

Definition view h : list (positive * Z) := (λ p, (p, due h p)) <$> th_ptrs h.

#[export] Instance same_core_preorder : PreOrder same_core.
Proof. split; [by intros h p|]. intros h1 h2 h3 E1 E2 p. by rewrite E2. Qed.

Lemma core_alter_index (items : gmap positive (wheelTask P H)) i p q :
  core <$> alter (set_index i) p items !! q = core <$> items !! q.
Proof.
  rewrite lookup_alter. case_decide; [subst|done]. by destruct (items !! q).
Qed.

Lemma same_core_due h h' p : same_core h h' → due h' p = due h p.
Proof.
  intros E. specialize (E p). unfold due.
  destruct (th_items h' !! p) as [[]|], (th_items h !! p) as [[]|]; unfold core in E; naive_solver.
Qed.

#[export] Instance taskHeap_frame : HeapFrame (S:=taskHeap P H) same_core.
Proof.
  split; [apply _|..]; simpl.
  - intros h i j p. unfold taskHeap_Swap. repeat case_match; simpl; [|done..].
    by rewrite !core_alter_index.
  - intros h x p. simpl. by rewrite core_alter_index.
  - intros h x h'. unfold taskHeap_Pop. destruct (last _) as [y|]; [|done].
    intros [= <- <-] p. simpl.
    by rewrite core_alter_index.
Qed.

Lemma index_coherent_NoDup h : index_coherent h → NoDup (th_ptrs h).
Proof.
  intros Hc. apply NoDup_alt. intros i j p Ei Ej.
  destruct (Hc _ _ Ei) as (t & E & Hi), (Hc _ _ Ej) as (t' & E' & Hj). simplify_eq. lia.
Qed.

Lemma view_lookup h i a :
  view h !! i = Some a ↔ ∃ p, th_ptrs h !! i = Some p ∧ a = (p, due h p).
Proof. unfold view. rewrite list_lookup_fmap, fmap_Some. naive_solver. Qed.

Lemma swap_index_coherent h i j : index_coherent h → index_coherent (taskHeap_Swap h i j).
Proof.
  intros Hc. pose proof (index_coherent_NoDup h Hc) as Hnd. unfold taskHeap_Swap.
  destruct (th_ptrs h !! i) as [p|] eqn:Ep; [|done].
  destruct (th_ptrs h !! j) as [q|] eqn:Eq; [|done].
  pose proof (lookup_lt_Some _ _ _ Ep). pose proof (lookup_lt_Some _ _ _ Eq).
  destruct (Hc _ _ Ep) as (tp & Tp & Ip), (Hc _ _ Eq) as (tq & Tq & Iq).
  intros k r. simpl. rewrite !lookup_alter.
  destruct (decide (k = i)) as [->|Hki].
  { rewrite list_lookup_insert_eq by (rewrite length_insert; lia). intros [= <-].
    destruct (decide (p = q)) as [->|]; [|rewrite decide_True, Tq by done; simpl; eauto].
    assert (i = j) as <- by exact (NoDup_lookup _ _ _ _ Hnd Ep Eq).
    rewrite decide_True, Tq by done. simpl. eauto. }
  rewrite list_lookup_insert_ne by done. destruct (decide (k = j)) as [->|Hkj].
  { rewrite list_lookup_insert_eq by done. intros [= <-].
    rewrite decide_True by done. rewrite decide_False; [rewrite Tp; simpl; eauto|].
    intros <-. apply Hki. exact (NoDup_lookup _ _ _ _ Hnd Eq Ep). }
  rewrite list_lookup_insert_ne by done. intros Er.
  rewrite !decide_False; [by apply Hc| |]; intros <-.
  - apply Hkj. exact (NoDup_lookup _ _ _ _ Hnd Er Eq).
  - apply Hki. exact (NoDup_lookup _ _ _ _ Hnd Er Ep).
Qed.

Lemma view_same_core h h' :
  same_core h h' → view h' = (λ p, (p, due h p)) <$> th_ptrs h'.
Proof.
  intros E. unfold view. apply list_fmap_ext. intros i p _. by rewrite (same_core_due h h').
Qed.

Lemma push_index_coherent h x t :
  index_coherent h → x ∉ th_ptrs h → th_items h !! x = Some t →
  index_coherent (taskHeap_Push h x).
Proof.
  intros Hc Hx Hi k r. simpl. rewrite lookup_alter. intros Ek. case_decide as D.
  - subst r. rewrite Hi. simpl. apply lookup_app_Some in Ek as [Ek|[Hge Ek]].
    + by apply list_elem_of_lookup_2 in Ek.
    + apply list_lookup_singleton_Some in Ek as [Hk _].
      eexists; split; [done|]. simpl. lia.
  - apply lookup_app_Some in Ek as [Ek|[_ Ek]]; [by apply Hc|].
    by apply list_lookup_singleton_Some in Ek as [_ <-].
Qed.

Lemma pop_index_coherent h l p :
  index_coherent h → th_ptrs h = l ++ [p] →
  index_coherent (mkTaskHeap (alter (set_index (-1)) p (th_items h)) l).
Proof.
  intros Hc E k r Ek. simpl in *. pose proof (index_coherent_NoDup h Hc) as Hnd.
  rewrite E in Hnd. apply NoDup_app in Hnd as (_ & Hnd & _).
  rewrite lookup_alter_ne.
  - apply Hc. rewrite E. by apply lookup_app_l_Some.
  - intros <-. apply (Hnd p); [by apply list_elem_of_lookup_2 in Ek|set_solver].
Qed.

#[export] Program Instance taskHeap_Laws : HeapLaws (taskHeap P H) positive positive := {|
  hvalid := index_coherent;
  hview := view;
  hid := (λ p, p);
  hpushable := (λ h x k, (x ∉ th_ptrs h) ∧ (∃ t, th_items h !! x = Some t ∧ DueAt (wt_Task t) = k));
|}.
Next Obligation. intros h _. unfold view. by rewrite length_fmap. Qed.
Next Obligation.
  intros h i j a b _ (p & Ep & ->)%view_lookup (q & Eq & ->)%view_lookup.
  simpl. unfold taskHeap_Less. rewrite Ep, Eq. case_bool_decide; [by apply Z.ltb_lt|by apply Z.ltb_ge, Z.nlt_ge].
Qed.
Next Obligation.
  intros h i j a b Hc (p & Ep & ->)%view_lookup (q & Eq & ->)%view_lookup. split.
  - by apply swap_index_coherent.
  - rewrite (view_same_core h) by apply (frame_swap (R:=same_core) h i j).
    simpl. unfold taskHeap_Swap. rewrite Ep, Eq. simpl. unfold view.
    by rewrite !list_fmap_insert.
Qed.
Next Obligation.
  intros h x k Hc [Hx (t & Hi & <-)]. split.
  - by eapply push_index_coherent.
  - rewrite (view_same_core h) by apply (frame_push (R:=same_core) h x).
    simpl. rewrite fmap_app. unfold view. simpl. unfold due. by rewrite Hi.
Qed.
Next Obligation.
  intros h l a Hc E. unfold view in E.
  apply fmap_app_inv in E as (l1 & l2 & -> & E & Hptrs). symmetry in E.
  apply fmap_cons_inv in E as (p & l3 & -> & E & ->).
  symmetry in E. apply fmap_nil_inv in E as ->.
  pose proof (pop_index_coherent h l1 p Hc Hptrs) as Hc'.
  exists p, (mkTaskHeap (alter (set_index (-1)) p (th_items h)) l1). split_and!; try done.
  - simpl. unfold taskHeap_Pop. rewrite Hptrs, last_snoc. do 3 f_equal.
    rewrite length_app. simpl. replace (length l1 + 1 - 1) with (length l1) by lia.
    by rewrite take_app_length.
  - rewrite (view_same_core h); [done|]. intros q. simpl. by rewrite core_alter_index.
Qed.
End heap_laws.

(** ** The wheel *)
Record wheel (P H : Type) := mkWheel {
  tasks : gmap string positive;
  queue : taskHeap P H;
  (** Whether the one-slot wake channel holds a token. *)
  wakeCh : bool;
  (** Next free location of the store. *)
  next_ptr : positive;
}.
Arguments mkWheel {P H}. Arguments tasks {P H}. Arguments queue {P H}.
Arguments wakeCh {P H}. Arguments next_ptr {P H}.

Section wheel_ops.
Context {P H : Type}.
Implicit Types (w : wheel P H) (m : Metrics) (t : Task P H).

Definition newWheel : wheel P H := mkWheel ∅ (mkTaskHeap ∅ []) false 1.

Definition signal w : wheel P H := mkWheel (tasks w) (queue w) true (next_ptr w).

Definition set_cancelled (i : wheelTask P H) : wheelTask P H :=
  mkWheelTask (wt_Task i) true (index i).

(** [item.cancelled = true] through the pointer. *)
Definition mark_cancelled (p : positive) (q : taskHeap P H) : taskHeap P H :=
  mkTaskHeap (alter set_cancelled p (th_items q)) (th_ptrs q).

(** [item := &wheelTask{...}]: a new struct at a fresh location. *)
Definition alloc (item : positive) (i : wheelTask P H) (q : taskHeap P H) : taskHeap P H :=
  mkTaskHeap (<[item := i]> (th_items q)) (th_ptrs q).

(** [if task.DueAt.IsZero() { task.DueAt = time.Now() }] *)
Definition default_due (now : Z) t : Task P H :=
  if (DueAt t =? zeroTime)%Z then mkTask (Key t) (TType t) now (Payload t) (Handler t) else t.

Definition schedule (now : Z) t w m : error * (wheel P H * Metrics) :=
  if decide (Key t = "") then (Some "timer: empty task key", (w, m)) else
  match Handler t with
  | None => (Some "timer: nil task handler", (w, m))
  | Some _ =>
      let t := default_due now t in
      let q := match tasks w !! Key t with
               | Some current => mark_cancelled current (queue w)
               | None => queue w
               end in
      let item := next_ptr w in
      let q := alloc item (mkWheelTask t false 0) q in
      (None, (signal (mkWheel (<[Key t := item]> (tasks w)) (heap_Push q item)
                              (wakeCh w) (Pos.succ item)),
              Scheduled_Add m))
  end.

Definition cancel (key : string) w m : bool * (wheel P H * Metrics) :=
  if decide (key = "") then (false, (w, m)) else
  match tasks w !! key with
  | Some item =>
      (true, (signal (mkWheel (delete key (tasks w)) (mark_cancelled item (queue w))
                              (wakeCh w) (next_ptr w)),
              Cancelled_Add m))
  | None => (false, (w, m))
  end.

Definition set_queue (q : taskHeap P H) w : wheel P H :=
  mkWheel (tasks w) q (wakeCh w) (next_ptr w).

(** The earliest live task; tombstones met on the way are dropped.  One unit
    of fuel per queued pointer. *)
Fixpoint nextTask_loop (fuel : nat) w : option (wheelTask P H) * wheel P H :=
  match fuel, th_ptrs (queue w) with
  | S fuel', p :: _ =>
      match th_items (queue w) !! p with
      | Some item =>
          if cancelled item then
            match heap_Pop (queue w) with
            | Some (_, q') => nextTask_loop fuel' (set_queue q' w)
            | None => (None, w)
            end
          else (Some item, w)
      | None => (None, w)
      end
  | _, _ => (None, w)
  end.

Definition nextTask w : option (wheelTask P H) * wheel P H :=
  nextTask_loop (length (th_ptrs (queue w))) w.

Definition drop_current (key : string) (p : positive) (ts : gmap string positive) :
    gmap string positive :=
  if decide (ts !! key = Some p) then delete key ts else ts.

Fixpoint popDue_loop (fuel : nat) (now : Z) w : list positive * wheel P H :=
  match fuel, th_ptrs (queue w) with
  | S fuel', p :: _ =>
      match th_items (queue w) !! p with
      | Some item =>
          if cancelled item then
            match heap_Pop (queue w) with
            | Some (_, q') => popDue_loop fuel' now (set_queue q' w)
            | None => ([], w)
            end
          else if (now <? DueAt (wt_Task item))%Z then ([], w)
          else
            match heap_Pop (queue w) with
            | Some (_, q') =>
                let w' := mkWheel (drop_current (Key (wt_Task item)) p (tasks w)) q'
                                  (wakeCh w) (next_ptr w) in
                let '(ready, w'') := popDue_loop fuel' now w' in (p :: ready, w'')
            | None => ([], w)
            end
      | None => ([], w)
      end
  | _, _ => ([], w)
  end.

Definition popDue (now : Z) w : list positive * wheel P H :=
  popDue_loop (length (th_ptrs (queue w))) now w.

(** One turn of [run] once its timer has fired, in a state [W] that contains
    the wheel: pop what is due, then run the handlers one after the other.
    The [cancelled] flag is read when the turn of the task comes. *)
Definition exec_ready {W} (get : W → wheel P H) (executed : W → W)
    (fire : H → Task P H → M W unit) (ready : list positive) : M W unit :=
  for_each (λ p,
    o ← gets (λ s, th_items (queue (get s)) !! p);
    item ← deref o;
    match Handler (wt_Task item) with
    | Some handler =>
        if cancelled item then mret tt
        else modify executed ≫= λ _, fire handler (wt_Task item)
    | None => mret tt
    end) ready.

Definition run_turn {W} (get : W → wheel P H) (set : wheel P H → W → W) (executed : W → W)
    (fire : H → Task P H → M W unit) (now : Z) : M W unit :=
  ready ← (λ s, let '(ready, w') := popDue now (get s) in (Ret ready, set w' s));
  exec_ready get executed fire ready.
End wheel_ops.

(** ** The invariant of the wheel and its abstraction

    Abstractly the wheel is a finite map from keys to tasks. *)
Section wheel_spec.
Context {P H : Type}.
Implicit Types (w : wheel P H) (m : Metrics) (t : Task P H) (q : taskHeap P H).

Record wf w : Prop := {
  wf_coherent : index_coherent (queue w);
  wf_ordered : heap_ordered (view (queue w));
  wf_tasks k p : tasks w !! k = Some p →
    p ∈ th_ptrs (queue w) ∧
    ∃ i, th_items (queue w) !! p = Some i ∧ cancelled i = false ∧ Key (wt_Task i) = k;
  wf_live p i : p ∈ th_ptrs (queue w) → th_items (queue w) !! p = Some i →
    cancelled i = false → tasks w !! Key (wt_Task i) = Some p;
  wf_fresh p : (next_ptr w ≤ p)%positive → th_items (queue w) !! p = None;
}.

Definition task_at q (p : positive) : option (Task P H) := wt_Task <$> th_items q !! p.

(** The abstract scheduler. *)
Definition live w : gmap string (Task P H) := omap (task_at (queue w)) (tasks w).

Lemma live_lookup w k : live w !! k = tasks w !! k ≫= task_at (queue w).
Proof. unfold live. by rewrite lookup_omap. Qed.

Lemma same_core_task_at q q' p : same_core q q' → task_at q' p = task_at q p.
Proof.
  intros E. specialize (E p). unfold task_at.
  destruct (th_items q' !! p) as [[]|], (th_items q !! p) as [[]|]; unfold core in E; naive_solver.
Qed.

Lemma same_core_lookup q q' p i :
  same_core q q' → th_items q' !! p = Some i →
  ∃ i', th_items q !! p = Some i' ∧ core i = core i'.
Proof.
  intros E Hi. specialize (E p). rewrite Hi in E. simpl in E.
  destruct (th_items q !! p) as [i'|]; [|done]. apply (inj Some) in E. eauto.
Qed.

Lemma same_core_sym q q' : same_core q q' → same_core q' q.
Proof. intros E p. by rewrite E. Qed.

(** Every task of the abstract map sits under its own key. *)
Lemma live_Key w k t : wf w → live w !! k = Some t → Key t = k.
Proof.
  intros Hwf. rewrite live_lookup. intros (p & Hp & Ht)%bind_Some.
  destruct (wf_tasks w Hwf k p Hp) as (_ & i & Hi & _ & Hk).
  unfold task_at in Ht. rewrite Hi in Ht. simpl in Ht. congruence.
Qed.

Lemma wf_newWheel : wf newWheel.
Proof. by split. Qed.

Lemma view_fst q : fst <$> view q = th_ptrs q.
Proof. unfold view. rewrite <-list_fmap_compose. apply list_fmap_id. Qed.

Lemma view_Permutation q q' p k : view q ≡ₚ (p, k) :: view q' → th_ptrs q ≡ₚ p :: th_ptrs q'.
Proof. intros E. apply (fmap_Permutation fst) in E. by rewrite fmap_cons, !view_fst in E. Qed.

(** [heap.Pop] on a well-formed wheel removes the head. *)
Lemma pop_head w p l :
  wf w → th_ptrs (queue w) = p :: l →
  ∃ q', heap_Pop (queue w) = Some (p, q') ∧ index_coherent q' ∧ heap_ordered (view q') ∧
    th_ptrs (queue w) ≡ₚ p :: th_ptrs q' ∧ same_core (queue w) q'.
Proof.
  intros Hwf Hl.
  destruct (heap_Pop_ok (queue w)) as (x & q' & k & Hpop & H0 & Hc & Ho & HP).
  - apply (wf_coherent w Hwf).
  - apply (wf_ordered w Hwf).
  - simpl. unfold view. by rewrite Hl.
  - simpl in *. unfold view in H0. rewrite Hl in H0. simpl in H0. simplify_eq.
    exists q'. split_and!; try done.
    + by eapply view_Permutation.
    + eapply (heap_Pop_frame same_core); exact Hpop.
Qed.

(** The head is due no later than any queued task. *)
Lemma head_minimal w p l p' : wf w → th_ptrs (queue w) = p :: l → p' ∈ th_ptrs (queue w) →
  (due (queue w) p ≤ due (queue w) p')%Z.
Proof.
  intros Hwf Hl [i Hi]%list_elem_of_lookup.
  pose proof (heap_ordered_root (view (queue w)) i (wf_ordered w Hwf)) as Hr.
  unfold view in Hr at 1. rewrite length_fmap in Hr.
  specialize (Hr (lookup_lt_Some _ _ _ Hi)).
  rewrite (key_lookup _ i (p', due (queue w) p')), (key_lookup _ 0 (p, due (queue w) p)) in Hr;
    [done|apply view_lookup; eexists; by rewrite Hl|by apply view_lookup; eauto].
Qed.

Lemma queued_item w p : wf w → p ∈ th_ptrs (queue w) → ∃ i, th_items (queue w) !! p = Some i.
Proof.
  intros Hwf [i Hi]%list_elem_of_lookup.
  destruct (wf_coherent w Hwf _ _ Hi) as (t & Ht & _). eauto.
Qed.

Lemma live_ext w w' : tasks w' = tasks w → same_core (queue w) (queue w') → live w' = live w.
Proof.
  intros Ht Hc. apply map_eq. intros k. rewrite !live_lookup, Ht.
  destruct (tasks w !! k) as [p|]; [|done]. simpl. by apply same_core_task_at.
Qed.

(** A new queue that lost one pointer: what is left to check. *)
Lemma wf_pop w ts q' p :
  wf w → index_coherent q' → heap_ordered (view q') → th_ptrs (queue w) ≡ₚ p :: th_ptrs q' →
  same_core (queue w) q' →
  (∀ k r, ts !! k = Some r ↔ tasks w !! k = Some r ∧ r ≠ p) →
  wf (mkWheel ts q' (wakeCh w) (next_ptr w)).
Proof.
  intros Hwf Hc Ho HP Hs Hts. pose proof (index_coherent_NoDup _ (wf_coherent w Hwf)) as Hnd.
  rewrite HP in Hnd. apply NoDup_cons in Hnd as [Hp _].
  split; simpl; try done.
  - intros k r [Hr Hne]%Hts. destruct (wf_tasks w Hwf k r Hr) as (Hin & i & Hi & Hic & Hk).
    rewrite HP in Hin. split; [by apply elem_of_cons in Hin as [->|]|].
    apply same_core_sym in Hs. destruct (same_core_lookup _ _ _ _ Hs Hi) as (i' & Hi' & E).
    exists i'. injection E as E1 E2. split_and!; [done|congruence|congruence].
  - intros r i Hr Hi Hic. apply Hts. split; [|by intros ->].
    destruct (same_core_lookup _ _ _ _ Hs Hi) as (i' & Hi' & E). injection E as E1 E2.
    rewrite E1. apply (wf_live w Hwf); [rewrite HP; by right|done|congruence].
  - intros r Hr. specialize (Hs r). rewrite (wf_fresh w Hwf r Hr) in Hs.
    by destruct (th_items q' !! r).
Qed.

Lemma mark_cancelled_view p q : view (mark_cancelled p q) = view q.
Proof.
  unfold view, mark_cancelled. simpl. apply list_fmap_ext. intros _ r _. f_equal.
  unfold due. simpl. rewrite lookup_alter. case_decide; [subst|done].
  by destruct (th_items q !! r).
Qed.

Lemma mark_cancelled_coherent p q : index_coherent q → index_coherent (mark_cancelled p q).
Proof.
  intros Hc i r Hr. destruct (Hc i r Hr) as (t & Ht & Hi). simpl. rewrite lookup_alter.
  case_decide; [subst r|by eauto]. rewrite Ht. simpl. eauto.
Qed.

Lemma mark_cancelled_lookup p q r :
  core <$> th_items (mark_cancelled p q) !! r =
    (λ c, if decide (p = r) then (c.1, true) else c) <$> (core <$> th_items q !! r).
Proof.
  simpl. rewrite lookup_alter. case_decide; [subst r|]; by destruct (th_items q !! _).
Qed.

Lemma alloc_view item i q : item ∉ th_ptrs q → view (alloc item i q) = view q.
Proof.
  intros Hni. unfold view. simpl. apply list_fmap_ext. intros j r Hr. f_equal.
  unfold due. simpl. rewrite lookup_insert_ne; [done|]. intros <-.
  by apply list_elem_of_lookup_2 in Hr.
Qed.

Lemma alloc_coherent item i q :
  item ∉ th_ptrs q → index_coherent q → index_coherent (alloc item i q).
Proof.
  intros Hni Hc j r Hr. simpl. rewrite lookup_insert_ne; [by apply Hc|]. intros <-.
  by apply list_elem_of_lookup_2 in Hr.
Qed.

(** What [schedule] does to the queue: the former task of the key is
    cancelled, the new one pushed. *)
Lemma push_queue w t (o : option positive) :
  wf w →
  let q1 := match o with Some p => mark_cancelled p (queue w) | None => queue w end in
  let q' := heap_Push (alloc (next_ptr w) (mkWheelTask t false 0) q1) (next_ptr w) in
  index_coherent q' ∧ heap_ordered (view q') ∧ th_ptrs q' ≡ₚ next_ptr w :: th_ptrs (queue w) ∧
  (∀ r, core <$> th_items q' !! r =
    if decide (r = next_ptr w) then Some (t, false)
    else (λ c, if decide (o = Some r) then (c.1, true) else c) <$>
         (core <$> th_items (queue w) !! r)).
Proof.
  intros Hwf q1 q'.
  assert (next_ptr w ∉ th_ptrs (queue w)) as Hni.
  { intros (i & Hi)%queued_item; [|done]. rewrite (wf_fresh w Hwf) in Hi; done. }
  assert (th_ptrs q1 = th_ptrs (queue w) ∧ view q1 = view (queue w) ∧ index_coherent q1 ∧
    ∀ r, core <$> th_items q1 !! r = (λ c, if decide (o = Some r) then (c.1, true) else c) <$>
         (core <$> th_items (queue w) !! r)) as (Hp1 & Hv1 & Hc1 & Hl1).
  { pose proof (wf_coherent w Hwf). subst q1. destruct o as [p|]; split_and!; try done.
    - apply mark_cancelled_view.
    - by apply mark_cancelled_coherent.
    - intros r. rewrite mark_cancelled_lookup. destruct (th_items (queue w) !! r); [|done].
      simpl. f_equal. repeat case_decide; naive_solver.
    - intros r. by destruct (th_items (queue w) !! r). }
  set (q2 := alloc (next_ptr w) (mkWheelTask t false 0) q1) in *.
  rewrite <-Hp1 in Hni.
  destruct (heap_Push_ok q2 (next_ptr w) (DueAt t)) as (Hc & Ho & HP).
  - by apply alloc_coherent.
  - simpl. unfold q2. rewrite alloc_view by done. rewrite Hv1. apply (wf_ordered w Hwf).
  - simpl. split; [done|]. rewrite lookup_insert_eq. eauto.
  - split_and!; [done..| |].
    + apply (fmap_Permutation fst) in HP. simpl in HP.
      unfold q2 in HP. by rewrite (alloc_view _ _ q1 Hni), !view_fst, Hp1 in HP.
    + intros r. etrans; [exact (heap_Push_frame same_core q2 (next_ptr w) r)|]. unfold q2. simpl.
      destruct (decide (r = next_ptr w)) as [->|]; [by rewrite lookup_insert_eq|].
      rewrite lookup_insert_ne by done. apply Hl1.
Qed.

Definition pushed w t q' : Prop :=
  index_coherent q' ∧ heap_ordered (view q') ∧ th_ptrs q' ≡ₚ next_ptr w :: th_ptrs (queue w) ∧
  (∀ r, core <$> th_items q' !! r =
    if decide (r = next_ptr w) then Some (t, false)
    else (λ c, if decide (tasks w !! Key t = Some r) then (c.1, true) else c) <$>
         (core <$> th_items (queue w) !! r)).

Lemma pushed_wf w t q' b :
  wf w → pushed w t q' →
  wf (mkWheel (<[Key t := next_ptr w]> (tasks w)) q' b (Pos.succ (next_ptr w))).
Proof.
  intros Hwf (Hc & Ho & HP & Hl). split; simpl; try done.
  - intros k p. rewrite HP. rewrite lookup_insert. case_decide as D.
    + intros [= <-]. split; [by left|]. specialize (Hl (next_ptr w)).
      rewrite decide_True in Hl by done. destruct (th_items q' !! _) as [i|]; [|done].
      injection Hl as ? ?. exists i. split_and!; congruence.
    + intros Hp. destruct (wf_tasks w Hwf k p Hp) as (Hin & i & Hi & Hic & Hik).
      split; [by right|]. specialize (Hl p). rewrite decide_False in Hl.
      2:{ intros ->. rewrite (wf_fresh w Hwf) in Hi; done. }
      rewrite Hi in Hl. simpl in Hl. rewrite decide_False in Hl.
      2:{ intros E. destruct (wf_tasks w Hwf _ _ E) as (_ & j & Hj & _ & Hjk). congruence. }
      destruct (th_items q' !! p) as [i'|]; [|done]. injection Hl as ? ?.
      exists i'. split_and!; congruence.
  - intros p i. rewrite HP. intros Hin Hi Hic. specialize (Hl p). rewrite Hi in Hl.
    simpl in Hl. case_decide as D.
    + subst p. injection Hl as Et _. rewrite Et. apply lookup_insert_eq.
    + apply elem_of_cons in Hin as [->|Hin]; [done|].
      destruct (th_items (queue w) !! p) as [i'|] eqn:Hi'; [|done]. simpl in Hl.
      case_decide as D'; injection Hl as ? ?; [congruence|].
      assert (tasks w !! Key (wt_Task i') = Some p) by (apply (wf_live w Hwf); congruence).
      rewrite lookup_insert_ne; [congruence|]. intros E. apply D'. rewrite E. congruence.
  - intros p Hp. specialize (Hl p). rewrite decide_False in Hl by lia.
    rewrite (wf_fresh w Hwf) in Hl by lia. by destruct (th_items q' !! p).
Qed.

Lemma pushed_live w t q' b n :
  wf w → pushed w t q' →
  live (mkWheel (<[Key t := next_ptr w]> (tasks w)) q' b n) = <[Key t := t]> (live w).
Proof.
  intros Hwf (Hc & Ho & HP & Hl). apply map_eq. intros k.
  rewrite live_lookup. simpl. rewrite lookup_insert. case_decide as D.
  - subst k. rewrite lookup_insert_eq. simpl. unfold task_at. specialize (Hl (next_ptr w)).
    rewrite decide_True in Hl by done. destruct (th_items q' !! _); [|done].
    injection Hl as ? ?. simpl. congruence.
  - rewrite lookup_insert_ne by done. rewrite live_lookup.
    destruct (tasks w !! k) as [p|] eqn:Hp; [|done]. simpl.
    destruct (wf_tasks w Hwf k p Hp) as (_ & i & Hi & _).
    unfold task_at. specialize (Hl p). rewrite decide_False in Hl.
    2:{ intros ->. rewrite (wf_fresh w Hwf) in Hi; done. }
    destruct (th_items q' !! p), (th_items (queue w) !! p); simpl in *; try done.
    case_decide; injection Hl as ? ?; congruence.
Qed.

Lemma default_due_Key now t : Key (default_due now t) = Key t.
Proof. unfold default_due. by case_match. Qed.

(** [schedule] keeps the invariant and updates the abstract map. *)
Lemma schedule_spec now t h w m :
  wf w → Key t ≠ "" → Handler t = Some h →
  ∃ w', schedule now t w m = (None, (w', Scheduled_Add m)) ∧ wf w' ∧ wakeCh w' = true ∧
    live w' = <[Key t := default_due now t]> (live w).
Proof.
  intros Hwf Hk Hh. unfold schedule. rewrite decide_False, Hh by done.
  eexists; split; [reflexivity|].
  pose proof (push_queue w (default_due now t) (tasks w !! Key t) Hwf) as Hq.
  rewrite <-(default_due_Key now t) in *. split_and!; [|done|].
  - by apply (pushed_wf w (default_due now t)).
  - by apply (pushed_live w (default_due now t)).
Qed.

(** An invalid task is refused and nothing changes. *)
Lemma schedule_invalid now t w m :
  Key t = "" ∨ Handler t = None → ∃ e, schedule now t w m = (Some e, (w, m)).
Proof. unfold schedule. intros [->|E]; [|rewrite E]; simpl; [by eauto|case_decide; eauto]. Qed.

Lemma mark_cancelled_wf w k p b :
  wf w → tasks w !! k = Some p →
  wf (mkWheel (delete k (tasks w)) (mark_cancelled p (queue w)) b (next_ptr w)).
Proof.
  intros Hwf Hp. pose proof (mark_cancelled_lookup p (queue w)) as Hl. split; simpl.
  - by apply mark_cancelled_coherent, (wf_coherent w Hwf).
  - rewrite mark_cancelled_view. apply (wf_ordered w Hwf).
  - intros k' r. rewrite lookup_delete_Some. intros [Hne Hr].
    destruct (wf_tasks w Hwf k' r Hr) as (Hin & i & Hi & Hic & Hk). split; [done|].
    rewrite lookup_alter_ne; [eauto|]. intros <-.
    destruct (wf_tasks w Hwf k p Hp) as (_ & j & Hj & _ & Hjk). congruence.
  - intros r i Hin Hi Hic.
    pose proof (eq_trans (f_equal (fmap core) (eq_sym Hi)) (Hl r)) as Hr.
    destruct (th_items (queue w) !! r) as [i'|] eqn:Hi'; [|done].
    simpl in Hr. case_decide; injection Hr as E1 E2; [congruence|].
    assert (tasks w !! Key (wt_Task i') = Some r) by (apply (wf_live w Hwf); congruence).
    rewrite E1. rewrite lookup_delete_ne; congruence.
  - intros r Hr. specialize (Hl r). rewrite (wf_fresh w Hwf r Hr) in Hl.
    by apply fmap_None in Hl.
Qed.

(** [cancel] answers whether the key was live and removes it. *)
Lemma cancel_spec k w m :
  wf w → k ≠ "" →
  ∃ w', cancel k w m = (bool_decide (is_Some (live w !! k)),
          (w', if bool_decide (is_Some (live w !! k)) then Cancelled_Add m else m)) ∧
    wf w' ∧ live w' = delete k (live w) ∧
    wakeCh w' = wakeCh w || bool_decide (is_Some (live w !! k)).
Proof.
  intros Hwf Hk. unfold cancel. rewrite decide_False by done. rewrite live_lookup.
  destruct (tasks w !! k) as [p|] eqn:Hp.
  - destruct (wf_tasks w Hwf k p Hp) as (_ & i & Hi & _ & Hik).
    rewrite bool_decide_true by (simpl; unfold task_at; rewrite Hi; by eexists).
    eexists; split; [reflexivity|]. split_and!.
    + by apply (mark_cancelled_wf w k p true).
    + apply map_eq. intros k'. rewrite lookup_delete, !live_lookup. simpl. rewrite lookup_delete.
      case_decide; [done|]. destruct (tasks w !! k') as [r|] eqn:Hr; [|done]. simpl.
      unfold task_at. simpl. rewrite lookup_alter_ne; [done|]. intros <-.
      destruct (wf_tasks w Hwf k' p Hr) as (_ & j & Hj & _ & Hjk). congruence.
    + simpl. by rewrite orb_true_r.
  - rewrite bool_decide_false by (simpl; intros [? ?]; done).
    eexists; split; [reflexivity|]. split_and!; [done| |by rewrite orb_false_r].
    apply map_eq. intros k'. rewrite lookup_delete. case_decide; [|done]. subst.
    rewrite live_lookup. by rewrite Hp.
Qed.

(** A tombstone at the head is dropped without touching the live tasks. *)
Lemma pop_tombstone w p l i :
  wf w → th_ptrs (queue w) = p :: l → th_items (queue w) !! p = Some i → cancelled i = true →
  ∃ q', heap_Pop (queue w) = Some (p, q') ∧ wf (set_queue q' w) ∧
    live (set_queue q' w) = live w ∧ same_core (queue w) q' ∧ length (th_ptrs q') = length l.
Proof.
  intros Hwf Hl Hi Hic. destruct (pop_head w p l Hwf Hl) as (q' & Hpop & Hc & Ho & HP & Hs).
  exists q'. split_and!; try done.
  - apply (wf_pop w (tasks w) q' p); try done. intros k r. split; [|intuition].
    intros Hr. split; [done|]. intros ->.
    destruct (wf_tasks w Hwf k p Hr) as (_ & j & Hj & Hjc & _). congruence.
  - by apply live_ext.
  - apply Permutation_length in HP. rewrite Hl in HP. simpl in HP. lia.
Qed.

(** A live task at the head leaves the queue and the map together. *)
Lemma pop_live w p l i :
  wf w → th_ptrs (queue w) = p :: l → th_items (queue w) !! p = Some i → cancelled i = false →
  ∃ q', heap_Pop (queue w) = Some (p, q') ∧
    let w' := mkWheel (drop_current (Key (wt_Task i)) p (tasks w)) q' (wakeCh w) (next_ptr w) in
    wf w' ∧ live w !! Key (wt_Task i) = Some (wt_Task i) ∧
    live w' = delete (Key (wt_Task i)) (live w) ∧
    same_core (queue w) q' ∧ length (th_ptrs q') = length l.
Proof.
  intros Hwf Hl Hi Hic. destruct (pop_head w p l Hwf Hl) as (q' & Hpop & Hc & Ho & HP & Hs).
  assert (tasks w !! Key (wt_Task i) = Some p) as Hp.
  { apply (wf_live w Hwf); [rewrite Hl; by left|done..]. }
  exists q'. split; [done|]. unfold drop_current. rewrite decide_True by done. split_and!; try done.
  - apply (wf_pop w _ q' p); try done. intros k r. rewrite lookup_delete_Some. split.
    + intros [Hne Hr]. split; [done|]. intros ->.
      destruct (wf_tasks w Hwf k p Hr) as (_ & j & Hj & _ & Hjk). congruence.
    + intros [Hr Hne]. split; congruence.
  - rewrite live_lookup, Hp. simpl. unfold task_at. by rewrite Hi.
  - apply map_eq. intros k. rewrite lookup_delete, !live_lookup. simpl. rewrite lookup_delete.
    case_decide; [done|]. destruct (tasks w !! k); [|done]. simpl. by apply same_core_task_at.
  - apply Permutation_length in HP. rewrite Hl in HP. simpl in HP. lia.
Qed.

(** Every live task is queued, so it is due no earlier than the head. *)
Lemma live_after_head w p l i k t :
  wf w → th_ptrs (queue w) = p :: l → th_items (queue w) !! p = Some i →
  live w !! k = Some t → (DueAt (wt_Task i) ≤ DueAt t)%Z.
Proof.
  intros Hwf Hl Hi. rewrite live_lookup. intros (r & Hr & Ht)%bind_Some.
  destruct (wf_tasks w Hwf k r Hr) as (Hin & j & Hj & _).
  pose proof (head_minimal w p l r Hwf Hl Hin) as Hle. unfold due in Hle.
  unfold task_at in Ht. rewrite Hi, Hj in *. simpl in *. by simplify_eq.
Qed.

Lemma live_empty_queue w : wf w → th_ptrs (queue w) = [] → live w = ∅.
Proof.
  intros Hwf Hl. apply map_empty. intros k. rewrite live_lookup.
  destruct (tasks w !! k) as [p|] eqn:Hp; [|done].
  destruct (wf_tasks w Hwf k p Hp) as [Hin _]. rewrite Hl in Hin. by apply elem_of_nil in Hin.
Qed.

Definition is_due (now : Z) (kt : string * Task P H) : Prop := (DueAt kt.2 ≤ now)%Z.
#[export] Instance is_due_dec now kt : Decision (is_due now kt).
Proof. unfold is_due. apply _. Defined.
Definition earlier (t1 t2 : Task P H) : Prop := (DueAt t1 ≤ DueAt t2)%Z.

(** What a call of [popDue] returns and leaves. *)
Record popped (now : Z) w (ready : list positive) w' (ts : list (Task P H)) : Prop := {
  popped_wf : wf w';
  popped_core : same_core (queue w) (queue w');
  popped_wake : wakeCh w' = wakeCh w;
  popped_live : live w' = filter (λ kt, ¬ is_due now kt) (live w);
  popped_items : Forall2 (λ p t, core <$> th_items (queue w') !! p = Some (t, false)) ready ts;
  popped_tasks : ((λ t, (Key t, t)) <$> ts) ≡ₚ map_to_list (filter (is_due now) (live w));
  popped_sorted : StronglySorted earlier ts;
}.

Lemma popped_nothing now w :
  wf w → (∀ k t, live w !! k = Some t → (now < DueAt t)%Z) → popped now w [] w [].
Proof.
  intros Hwf Hall. split; try done.
  - symmetry. apply map_filter_id. intros k t Ht. unfold is_due. simpl. specialize (Hall k t Ht). lia.
  - rewrite (proj2 (map_empty_filter _ _)); [by rewrite map_to_list_empty|].
    intros k t Ht. unfold is_due. simpl. specialize (Hall k t Ht). lia.
  - constructor.
Qed.

Lemma popped_step now w p i w1 ready w' ts :
  wf w → same_core (queue w) (queue w1) → wakeCh w1 = wakeCh w →
  th_items (queue w) !! p = Some i → cancelled i = false →
  live w !! Key (wt_Task i) = Some (wt_Task i) →
  live w1 = delete (Key (wt_Task i)) (live w) → (DueAt (wt_Task i) ≤ now)%Z →
  (∀ k t, live w !! k = Some t → (DueAt (wt_Task i) ≤ DueAt t)%Z) →
  popped now w1 ready w' ts → popped now w (p :: ready) w' (wt_Task i :: ts).
Proof.
  intros Hwf Hs Hw Hi Hic Hlive Hdel Hdue Hmin [Pwf Pcore Pwake Plive Pitems Ptasks Psorted].
  assert (filter (is_due now) (live w) =
    <[Key (wt_Task i) := wt_Task i]> (filter (is_due now) (live w1))) as Efilter.
  { rewrite Hdel. rewrite map_filter_delete, insert_delete_eq, insert_id; [done|].
    by apply map_lookup_filter_Some_2. }
  assert (filter (is_due now) (live w1) !! Key (wt_Task i) = None) as Enone.
  { apply map_lookup_filter_None_2. left. rewrite Hdel. apply lookup_delete_eq. }
  split; try done.
  - by etrans.
  - by rewrite Pwake.
  - rewrite Plive, Hdel, map_filter_delete_not; [done|].
    intros t Ht. unfold is_due. simpl. simplify_eq. lia.
  - constructor; [|done]. rewrite (Pcore p), (Hs p), Hi. simpl. unfold core. by rewrite Hic.
  - rewrite Efilter, map_to_list_insert by done. simpl. by rewrite Ptasks.
  - constructor; [done|]. apply Forall_forall. intros t Ht. apply (Hmin (Key t)).
    assert ((Key t, t) ∈ map_to_list (filter (is_due now) (live w1))) as Hin.
    { rewrite <-Ptasks. by apply (list_elem_of_fmap_2 (λ t, (Key t, t))). }
    apply elem_of_map_to_list in Hin. apply map_lookup_filter_Some in Hin as [Hin _].
    rewrite Hdel in Hin.
    by apply lookup_delete_Some in Hin as [_ ?].
Qed.

Lemma popDue_loop_spec fuel now w :
  wf w → length (th_ptrs (queue w)) ≤ fuel →
  ∃ ready w' ts, popDue_loop fuel now w = (ready, w') ∧ popped now w ready w' ts.
Proof.
  revert w. induction fuel as [|fuel IH]; intros w Hwf Hlen; simpl.
  { exists [], w, []. split; [done|]. apply popped_nothing; [done|].
    intros k t. rewrite live_empty_queue; [done..|]. by apply nil_length_inv; lia. }
  destruct (th_ptrs (queue w)) as [|p l] eqn:Hl.
  { exists [], w, []. split; [done|]. apply popped_nothing; [done|].
    intros k t. by rewrite live_empty_queue. }
  destruct (queued_item w p Hwf) as [i Hi]; [rewrite Hl; by left|]. rewrite Hi.
  simpl in Hlen. destruct (cancelled i) eqn:Hic.
  - destruct (pop_tombstone w p l i Hwf Hl Hi Hic) as (q' & -> & Hwf' & Hlv & Hs & Hlen').
    destruct (IH (set_queue q' w) Hwf') as (ready & w' & ts & E & [? Hc ? ? ? ? ?]); [simpl; lia|].
    exists ready, w', ts. split; [done|]. split; try done.
    + by etrans.
    + congruence.
    + by rewrite <-Hlv.
  - case_match eqn:Hnow; [apply Z.ltb_lt in Hnow|apply Z.ltb_ge in Hnow].
    + exists [], w, []. split; [done|]. apply popped_nothing; [done|].
      intros k t Ht. pose proof (live_after_head w p l i k t Hwf Hl Hi Ht). lia.
    + destruct (pop_live w p l i Hwf Hl Hi Hic) as (q' & -> & Hwf' & Hlv & Hdel & Hs & Hlen').
      set (w1 := mkWheel (drop_current (Key (wt_Task i)) p (tasks w)) q' _ _) in *.
      destruct (IH w1 Hwf') as (ready & w' & ts & -> & HP); [simpl; lia|].
      exists (p :: ready), w', (wt_Task i :: ts). split; [done|].
      refine (popped_step now w p i w1 ready w' ts Hwf Hs eq_refl Hi Hic Hlv Hdel Hnow _ HP).
      intros k t. exact (live_after_head w p l i k t Hwf Hl Hi).
Qed.

Lemma popDue_spec now w :
  wf w → ∃ ready w' ts, popDue now w = (ready, w') ∧ popped now w ready w' ts.
Proof. intros. by apply popDue_loop_spec. Qed.

Lemma nextTask_loop_spec fuel w :
  wf w → length (th_ptrs (queue w)) ≤ fuel →
  ∃ o w', nextTask_loop fuel w = (o, w') ∧ wf w' ∧ live w' = live w ∧ wakeCh w' = wakeCh w ∧
    match o with
    | Some i => cancelled i = false ∧ live w !! Key (wt_Task i) = Some (wt_Task i) ∧
                ∀ k t, live w !! k = Some t → (DueAt (wt_Task i) ≤ DueAt t)%Z
    | None => live w = ∅
    end.
Proof.
  revert w. induction fuel as [|fuel IH]; intros w Hwf Hlen; simpl.
  { exists None, w. split_and!; try done. apply live_empty_queue; [done|].
    by apply nil_length_inv; lia. }
  destruct (th_ptrs (queue w)) as [|p l] eqn:Hl.
  { exists None, w. split_and!; try done. by apply live_empty_queue. }
  destruct (queued_item w p Hwf) as [i Hi]; [rewrite Hl; by left|]. rewrite Hi.
  simpl in Hlen. destruct (cancelled i) eqn:Hic.
  - destruct (pop_tombstone w p l i Hwf Hl Hi Hic) as (q' & -> & Hwf' & Hlv & Hs & Hlen').
    destruct (IH (set_queue q' w) Hwf') as (o & w' & E & ? & ? & ? & Ho); [simpl; lia|].
    exists o, w'. rewrite Hlv in *. split_and!; done.
  - exists (Some i), w. split_and!; try done.
    + by destruct (pop_live w p l i Hwf Hl Hi Hic) as (? & _ & _ & ? & _).
    + intros k t. by apply (live_after_head w p l).
Qed.
End wheel_spec.
