(* ===== verification/Shard.v ===== *)
(** * The sharded scheduler ([gateway/internal/timer/shard.go, scheduler.go])

    [shardedScheduler] spreads the tasks over wheels by an FNV-1a hash of the
    key; all wheels count into one [Metrics].  The file also states what the
    rest of the gateway relies on, as the class [SchedulerLaws]: a scheduler is
    a finite map from keys to pending tasks.  [shardedScheduler] implements
    it. *)

From Stdlib Require Import Ascii.
From stdpp Require Import base list gmap strings numbers sorting.
From S2P Require Import Prelude ContainerHeap Timer.

(** ** The interface of [scheduler.go] *)
Class Scheduler (S P H : Type) : Type := {
  (** [Schedule(task) error]; the clock is read by the callee. *)
  Schedule : Z → Task P H → S → error * S;
  (** [Cancel(key) bool] *)
  Cancel : string → S → bool * S;
}.

Class SchedulerLaws (S P H : Type) `{Scheduler S P H} : Type := {
  sched_ok : S → Prop;
  pending : S → string → option (Task P H);
  law_schedule now t h s : sched_ok s → Key t ≠ "" → Handler t = Some h →
    ∃ s', Schedule now t s = (None, s') ∧ sched_ok s' ∧
      ∀ k, pending s' k = if decide (k = Key t) then Some (default_due now t) else pending s k;
  law_schedule_invalid now t s : Key t = "" ∨ Handler t = None →
    ∃ e, Schedule now t s = (Some e, s);
  law_cancel k s : sched_ok s →
    ∃ s', Cancel k s = (bool_decide (k ≠ "" ∧ is_Some (pending s k)), s') ∧ sched_ok s' ∧
      ∀ k', pending s' k' = if decide (k ≠ "" ∧ k' = k) then None else pending s k';
}.

(** ** [hash/fnv], 32 bits, FNV-1a *)
Definition fnv_offset32 : Z := 2166136261.
Definition fnv_prime32 : Z := 16777619.

(** [hash ^= uint32(c); hash *= prime32] over the bytes of the key. *)
Fixpoint fnv32a (hash : Z) (key : string) : Z :=
  match key with
  | EmptyString => hash
  | String c key' => fnv32a (u32 (Z.lxor hash (Z.of_N (N_of_ascii c)) * fnv_prime32)) key'
  end.

Definition hashKey (key : string) (shardCount : Z) : Z :=
  if (shardCount <=? 1)%Z then 0 else (fnv32a fnv_offset32 key) mod (u32 shardCount).

(** ** [shardedScheduler] *)
Record shardedScheduler (P H : Type) := mkSharded {
  shards : list (wheel P H); metrics : Metrics;
}.
Arguments mkSharded {P H}. Arguments shards {P H}. Arguments metrics {P H}.

Section sharded.
Context {P H : Type}.
Implicit Types s : shardedScheduler P H.

Definition newShardedScheduler (shardCount : nat) : shardedScheduler P H :=
  mkSharded (replicate shardCount newWheel) NewMetrics.

Definition NewScheduler (shardCount : Z) : shardedScheduler P H :=
  newShardedScheduler (Z.to_nat (if (shardCount <=? 0)%Z then 64 else shardCount)).

(** The position of [s.shard(key)]. *)
Definition shard (key : string) s : nat := Z.to_nat (hashKey key (Z.of_nat (length (shards s)))).

(** Run one operation on the wheel of a key.  Without shards [s.shard]
    hands out a wheel (and metrics) of its own, which is dropped. *)
Definition on_shard {A} (key : string) (f : wheel P H → Metrics → A * (wheel P H * Metrics)) s :
    A * shardedScheduler P H :=
  match shards s !! shard key s with
  | Some w =>
      let '(a, (w', m')) := f w (metrics s) in
      (a, mkSharded (<[shard key s := w']> (shards s)) m')
  | None => ((f newWheel NewMetrics).1, s)
  end.

Definition sharded_Schedule (now : Z) (t : Task P H) s : error * shardedScheduler P H :=
  on_shard (Key t) (schedule now t) s.

Definition sharded_Cancel (key : string) s : bool * shardedScheduler P H :=
  on_shard key (cancel key) s.

#[export] Instance sharded_Scheduler : Scheduler (shardedScheduler P H) P H :=
  {| Schedule := sharded_Schedule; Cancel := sharded_Cancel |}.

(** Every wheel is well formed and holds only keys that hash to it. *)
Definition sharded_ok s : Prop :=
  (0 < Z.of_nat (length (shards s)) < 2 ^ 32)%Z ∧
  ∀ i w, shards s !! i = Some w → wf w ∧ ∀ k t, live w !! k = Some t → shard k s = i.

Definition sharded_pending s (k : string) : option (Task P H) :=
  shards s !! shard k s ≫= λ w, live w !! k.
End sharded.

(** ** The hash picks a shard *)
Lemma fnv32a_bound key h : (0 ≤ h < 2 ^ 32)%Z → (0 ≤ fnv32a h key < 2 ^ 32)%Z.
Proof. revert h. induction key as [|c key IH]; intros h Hh; simpl; [done|]. apply IH, u32_bound. Qed.

Lemma hashKey_bound key n : (0 < n < 2 ^ 32)%Z → (0 ≤ hashKey key n < n)%Z.
Proof.
  intros Hn. unfold hashKey. case_match eqn:E; [apply Z.leb_le in E; lia|].
  unfold u32. rewrite (Z.mod_small n) by lia. apply Z.mod_pos_bound. lia.
Qed.

Section sharded_spec.
Context {P H : Type}.
Implicit Types s : shardedScheduler P H.

Lemma shard_lookup k s : sharded_ok s → ∃ w, shards s !! shard k s = Some w.
Proof.
  intros [Hlen _]. apply lookup_lt_is_Some. unfold shard.
  pose proof (hashKey_bound k _ Hlen). lia.
Qed.

(** An operation that updates one key of one wheel updates that key. *)
Lemma on_shard_ok {A} key (f : wheel P H → Metrics → A * (wheel P H * Metrics)) s w a w' m' v :
  sharded_ok s → shards s !! shard key s = Some w → f w (metrics s) = (a, (w', m')) → wf w' →
  (∀ k, live w' !! k = if decide (k = key) then v else live w !! k) →
  on_shard key f s = (a, mkSharded (<[shard key s := w']> (shards s)) m') ∧
  sharded_ok (mkSharded (<[shard key s := w']> (shards s)) m') ∧
  ∀ k, sharded_pending (mkSharded (<[shard key s := w']> (shards s)) m') k =
       if decide (k = key) then v else sharded_pending s k.
Proof.
  intros [Hlen Hs] Hw Hf Hwf Hlv. unfold on_shard. rewrite Hw, Hf. split; [done|].
  pose proof (lookup_lt_Some _ _ _ Hw) as Hlt.
  assert (∀ k, shard k (mkSharded (<[shard key s := w']> (shards s)) m') = shard k s) as Hsh.
  { intros k. unfold shard at 1. simpl. by rewrite length_insert. }
  split.
  - split; [simpl; by rewrite length_insert|]. intros i wi. cbn [shards].
    intros [(Ei & <- & _)|[Hne Hi]]%list_lookup_insert_Some.
    + split; [done|]. intros k t. rewrite Hsh, Hlv. case_decide; [congruence|].
      rewrite <-Ei. by apply (proj2 (Hs _ w Hw)).
    + destruct (Hs i wi Hi) as [? Hk]. split; [done|]. intros k t Ht. rewrite Hsh. eauto.
  - intros k. unfold sharded_pending. rewrite Hsh. cbn [shards].
    destruct (decide (shard k s = shard key s)) as [E|E].
    + rewrite E, list_lookup_insert_eq, Hw by done. simpl. apply Hlv.
    + rewrite list_lookup_insert_ne by done. rewrite decide_False; [done|]. by intros ->.
Qed.

#[export] Program Instance sharded_Laws : SchedulerLaws (shardedScheduler P H) P H :=
  {| sched_ok := sharded_ok; pending := sharded_pending |}.
Next Obligation.
  intros now t h s Hok Hk Hh. destruct (shard_lookup (Key t) s Hok) as [w Hw].
  destruct (proj2 Hok _ _ Hw) as [Hwf _].
  destruct (schedule_spec now t h w (metrics s) Hwf Hk Hh) as (w' & E & Hwf' & _ & Hlv).
  destruct (on_shard_ok (Key t) (schedule now t) s w None w' _ (Some (default_due now t))
    Hok Hw E Hwf') as (? & ? & ?); [|by eauto].
  intros k. rewrite Hlv, lookup_insert. repeat case_decide; congruence.
Qed.
Next Obligation.
  intros now t s Hbad. simpl. unfold sharded_Schedule, on_shard.
  destruct (shards s !! shard (Key t) s) as [w|] eqn:Hw.
  - destruct (schedule_invalid now t w (metrics s) Hbad) as [e ->]. exists e.
    rewrite list_insert_id by done. by destruct s.
  - destruct (schedule_invalid now t newWheel NewMetrics Hbad) as [e ->]. by exists e.
Qed.
Next Obligation.
  intros k s Hok. simpl. destruct (shard_lookup k s Hok) as [w Hw].
  destruct (proj2 Hok _ _ Hw) as [Hwf _].
  destruct (decide (k = "")) as [->|Hk].
  - exists s. rewrite bool_decide_false by naive_solver. split_and!; [|done|].
    + unfold sharded_Cancel, on_shard. rewrite Hw. unfold cancel. rewrite decide_True by done.
      rewrite list_insert_id by done. by destruct s.
    + intros k'. rewrite decide_False by naive_solver. done.
  - destruct (cancel_spec k w (metrics s) Hwf Hk) as (w' & E & Hwf' & Hlv & _).
    destruct (on_shard_ok k (cancel k) s w _ w' _ None Hok Hw E Hwf') as (Ho & ? & Hp).
    { intros k'. rewrite Hlv, lookup_delete. repeat case_decide; congruence. }
    eexists; split; [|split; [done|]].
    + unfold sharded_Cancel. rewrite Ho. f_equal. apply bool_decide_ext.
      unfold sharded_pending. rewrite Hw. simpl. tauto.
    + intros k'. rewrite Hp. repeat case_decide; naive_solver.
Qed.

Lemma newSharded_ok n : (0 < n)%nat → (Z.of_nat n < 2 ^ 32)%Z →
  sharded_ok (P:=P) (H:=H) (newShardedScheduler n) ∧
  ∀ k, sharded_pending (P:=P) (H:=H) (newShardedScheduler n) k = None.
Proof.
  intros H0 Hn. split; [split|].
  - simpl. rewrite length_replicate. lia.
  - intros i w [-> _]%lookup_replicate. split; [apply wf_newWheel|].
    intros k t. by rewrite live_lookup.
  - intros k. unfold sharded_pending. destruct (_ !! shard k _) as [w|] eqn:E; [|done].
    apply lookup_replicate in E as [-> _]. simpl. by rewrite live_lookup.
Qed.
End sharded_spec.
