(* ===== verification/TimerSpec.v ===== *)
(** * Correctness of the timer wheel and of the sharded scheduler

    The wheel of [Timer.v] refines a finite map from keys to tasks; one turn of
    its loop executes exactly the tasks that are due, earliest first, whatever
    the handlers schedule and cancel meanwhile; the loop neither sleeps past a
    due task nor loses a wake-up. *)

From stdpp Require Import base list gmap strings numbers sorting.
From S2P Require Import Prelude ContainerHeap Timer Shard.

(** ** Operations as data *)
Inductive wheel_op (P H : Type) : Type :=
  | OpSchedule (now : Z) (t : Task P H)
  | OpCancel (key : string).
Arguments OpSchedule {P H}. Arguments OpCancel {P H}.

Section turns.
Context {P H : Type}.
Implicit Types (w : wheel P H) (m : Metrics) (t : Task P H) (op : wheel_op P H).

Definition do_op op (wm : wheel P H * Metrics) : wheel P H * Metrics :=
  match op with
  | OpSchedule now t => (schedule now t wm.1 wm.2).2
  | OpCancel key => (cancel key wm.1 wm.2).2
  end.

(** The same operation on the abstract map. *)
Definition abs_op op (l : gmap string (Task P H)) : gmap string (Task P H) :=
  match op with
  | OpSchedule now t =>
      if decide (Key t = "" ∨ Handler t = None) then l else <[Key t := default_due now t]> l
  | OpCancel key => if decide (key = "") then l else delete key l
  end.

Definition do_ops (ops : list (wheel_op P H)) (wm : wheel P H * Metrics) := foldl (flip do_op) wm ops.
Definition abs_ops (ops : list (wheel_op P H)) l := foldl (flip abs_op) l ops.

(** A task that left the queue and was not cancelled. *)
Definition detached (p : positive) t w : Prop :=
  p ∉ th_ptrs (queue w) ∧ core <$> th_items (queue w) !! p = Some (t, false).

#[local] Instance handler_none_dec t : Decision (Handler t = None).
Proof. destruct (Handler t); [right|left]; done. Defined.

Lemma detached_untouched p t w k : wf w → detached p t w → tasks w !! k ≠ Some p.
Proof. intros Hwf [Hp _] E. by destruct (wf_tasks w Hwf k p E). Qed.

Lemma schedule_detached p t w now t0 m :
  wf w → detached p t w → detached p t (schedule now t0 w m).2.1.
Proof.
  intros Hwf Hd. unfold schedule. case_decide; [done|]. destruct (Handler t0); [|done]. simpl.
  destruct (push_queue w (default_due now t0) (tasks w !! Key (default_due now t0)) Hwf)
    as (_ & _ & HP & Hl).
  assert (p ≠ next_ptr w) as Hne.
  { intros ->. destruct Hd as [_ Hd]. by rewrite (wf_fresh w Hwf) in Hd. }
  split; simpl.
  - rewrite HP. intros [?|?]%elem_of_cons; [done|]. by destruct Hd.
  - rewrite Hl. rewrite decide_False by done. rewrite (proj2 Hd). simpl.
    rewrite decide_False; [done|]. by apply (detached_untouched p t).
Qed.

Lemma cancel_detached p t w k m : wf w → detached p t w → detached p t (cancel k w m).2.1.
Proof.
  intros Hwf Hd. unfold cancel. case_decide; [done|]. destruct (tasks w !! k) as [q|] eqn:Hq; [|done].
  split; simpl; [apply Hd|]. rewrite lookup_alter_ne; [apply Hd|].
  intros ->. by apply (detached_untouched p t w k).
Qed.

(** One operation keeps the invariant, refines the abstract one and leaves
    popped tasks alone. *)
Lemma do_op_spec op w m : wf w →
  let '(w', m') := do_op op (w, m) in
  wf w' ∧ live w' = abs_op op (live w) ∧ Executed m' = Executed m ∧
  ∀ p t, detached p t w → detached p t w'.
Proof.
  intros Hwf. destruct op as [now t|key]; simpl.
  - pose proof (λ p t', schedule_detached p t' w now t m Hwf) as Hd.
    case_decide as D.
    + destruct (schedule_invalid now t w m D) as [e E]. rewrite E in *. done.
    + destruct (Handler t) as [h|] eqn:Hh; [|naive_solver].
      destruct (schedule_spec now t h w m Hwf) as (w' & E & ? & _ & ?); [naive_solver|done|].
      rewrite E in *. done.
  - pose proof (λ p t', cancel_detached p t' w key m Hwf) as Hd. case_decide as D.
    + subst. unfold cancel in *. simpl in *. done.
    + destruct (cancel_spec key w m Hwf D) as (w' & E & ? & ? & _). rewrite E in *. simpl in *.
      split_and!; try done. by case_match.
Qed.

Lemma do_ops_spec ops w m : wf w →
  let '(w', m') := do_ops ops (w, m) in
  wf w' ∧ live w' = abs_ops ops (live w) ∧ Executed m' = Executed m ∧
  ∀ p t, detached p t w → detached p t w'.
Proof.
  revert w m. induction ops as [|op ops IH]; intros w m Hwf; [done|].
  pose proof (do_op_spec op w m Hwf) as Hop. unfold do_ops, abs_ops in *. cbn [foldl flip].
  destruct (do_op op (w, m)) as [w1 m1]. destruct Hop as (Hwf1 & Hl1 & Hx1 & Hd1).
  specialize (IH w1 m1 Hwf1). destruct (foldl _ (w1, m1) ops) as [w2 m2].
  destruct IH as (? & -> & ? & Hd). rewrite Hl1. split_and!; try done; [congruence|eauto].
Qed.

(** ** A turn of [run] *)
Record RunState := mkRunState { rs_wheel : wheel P H; rs_metrics : Metrics; rs_log : list (Task P H) }.

Definition rs_set w (r : RunState) : RunState := mkRunState w (rs_metrics r) (rs_log r).
Definition rs_executed (r : RunState) : RunState :=
  mkRunState (rs_wheel r) (Executed_Add (rs_metrics r)) (rs_log r).

(** What a handler does with the scheduler: any sequence of operations. *)
Context (act : H → Task P H → list (wheel_op P H)).

Definition fire (h : H) t : M RunState unit := modify (λ r,
  let '(w, m) := do_ops (act h t) (rs_wheel r, rs_metrics r) in mkRunState w m (rs_log r ++ [t])).

Definition turn (now : Z) : M RunState unit := run_turn rs_wheel rs_set rs_executed fire now.

Definition acts t : list (wheel_op P H) := match Handler t with Some h => act h t | None => [] end.

Lemma fire_run h t w m log : fire h t (mkRunState w m log) =
  (Ret tt, mkRunState (do_ops (act h t) (w, m)).1 (do_ops (act h t) (w, m)).2 (log ++ [t])).
Proof. unfold fire, modify. simpl. by destruct (do_ops _ _). Qed.

Lemma exec_ready_spec ready ts : ∀ w m log,
  wf w → Forall2 (λ p t, detached p t w ∧ is_Some (Handler t)) ready ts →
  ∃ w' m', exec_ready rs_wheel rs_executed fire ready (mkRunState w m log) =
      (Ret tt, mkRunState w' m' (log ++ ts)) ∧ wf w' ∧
    live w' = abs_ops (ts ≫= acts) (live w) ∧ u64 (Executed m') = u64 (Executed m + Z.of_nat (length ts)).
Proof.
  revert ts. induction ready as [|p ready IH]; intros ts w m log Hwf Hall.
  { apply Forall2_nil_inv_l in Hall as ->. exists w, m. simpl. rewrite app_nil_r, Z.add_0_r. done. }
  apply Forall2_cons_inv_l in Hall as (t & ts' & [Hd [h Hh]] & Hall & ->).
  unfold exec_ready in *. cbn [for_each]. rewrite bind_run.
  erewrite (bind_ret_run (gets _)) by reflexivity. cbn [rs_wheel].
  pose proof (proj2 Hd) as Hi. destruct (th_items (queue w) !! p) as [i|] eqn:Ei; [|done].
  injection Hi as Et Ec. rewrite bind_run. cbn [deref mret M_ret].
  rewrite Et, Hh, Ec.
  pose proof (do_ops_spec (act h t) w (Executed_Add m) Hwf) as Hop.
  rewrite bind_run. cbn [modify rs_executed rs_wheel rs_metrics rs_log]. unfold rs_executed at 1. cbn [rs_wheel rs_metrics rs_log]. rewrite fire_run.
  destruct (do_ops _ _) as [w1 m1]. cbn [fst snd]. destruct Hop as (Hwf1 & Hl1 & Hx1 & Hd1).
  destruct (IH ts' w1 m1 (log ++ [t]) Hwf1) as (w2 & m2 & E & Hwf2 & Hl2 & Hx2).
  { eapply Forall2_impl; [exact Hall|]. intros q u [? ?]. eauto. }
  rewrite E. exists w2, m2. rewrite <-app_assoc. split; [done|]. split; [done|]. split.
  - assert ((t :: ts') ≫= acts = act h t ++ (ts' ≫= acts)) as ->.
    { simpl. unfold acts at 1. by rewrite Hh. }
    rewrite Hl2, Hl1. unfold abs_ops. by rewrite foldl_app.
  - rewrite Hx2, Hx1. cbn [Executed Executed_Add length].
    rewrite <-u64_add_l, i64_mod, u64_add_l. f_equal. lia.
Qed.

(** Every queued task has a handler, as [schedule] demands. *)
Definition handled w : Prop := ∀ k t, live w !! k = Some t → is_Some (Handler t).

Lemma popped_detached now w ready w' ts :
  handled w → popped now w ready w' ts →
  Forall2 (λ p t, detached p t w' ∧ is_Some (Handler t)) ready ts.
Proof.
  intros Hh [Hwf _ _ Hlive Hitems Htasks _].
  assert (∀ t, t ∈ ts → live w !! Key t = Some t ∧ is_due now (Key t, t)) as Hts.
  { intros t Ht. assert ((Key t, t) ∈ map_to_list (filter (is_due now) (live w))) as Hin.
    { rewrite <-Htasks. by apply (list_elem_of_fmap_2 (λ t, (Key t, t))). }
    by apply elem_of_map_to_list, map_lookup_filter_Some in Hin. }
  clear Htasks. induction Hitems as [|p t ready ts Hp _ IH]; constructor.
  - destruct (Hts t) as [Ht Hdue]; [by left|]. split; [|by eapply Hh]. split; [|done]. intros Hin.
    destruct (th_items (queue w') !! p) as [i|] eqn:Ei; [|done]. injection Hp as <- Ec.
    pose proof (wf_live w' Hwf p i Hin Ei Ec) as Hlv.
    assert (live w' !! Key (wt_Task i) = Some (wt_Task i)) as Hl.
    { rewrite live_lookup, Hlv. simpl. unfold task_at. by rewrite Ei. }
    rewrite Hlive in Hl. apply map_lookup_filter_Some in Hl as [_ Hnd]. by apply Hnd.
  - apply IH. intros u Hu. apply Hts. by right.
Qed.

Lemma turn_spec now w m log : wf w → handled w →
  ∃ w' m' ts, turn now (mkRunState w m log) = (Ret tt, mkRunState w' m' (log ++ ts)) ∧
    ((λ t, (Key t, t)) <$> ts) ≡ₚ map_to_list (filter (is_due now) (live w)) ∧
    StronglySorted earlier ts ∧ u64 (Executed m') = u64 (Executed m + Z.of_nat (length ts)) ∧ wf w' ∧
    live w' = abs_ops (ts ≫= acts) (filter (λ kt, ¬ is_due now kt) (live w)).
Proof.
  intros Hwf Hh. destruct (popDue_spec now w Hwf) as (ready & w1 & ts & E & Hp).
  destruct (exec_ready_spec ready ts w1 m log (popped_wf _ _ _ _ _ Hp)
    (popped_detached _ _ _ _ _ Hh Hp)) as (w' & m' & Ex & Hwf' & Hl & Hx).
  exists w', m', ts. unfold turn, run_turn. rewrite bind_run. cbn [rs_wheel]. rewrite E.
  unfold rs_set. cbn [rs_metrics rs_log]. split; [exact Ex|].
  split_and!; [apply Hp|apply Hp|done..|]. by rewrite Hl, (popped_live _ _ _ _ _ Hp).
Qed.
End turns.

(** ** The loop of a wheel and the goroutines around it

    [run] is at the head of its loop, waits in its second [select] with the
    deadline of the task [nextTask] gave it (in the first one when there was
    none), or has returned.  Meanwhile other goroutines call [schedule] and
    [cancel], and time passes. *)
Inductive pc : Set := AtHead | Waiting (deadline : option Z) | Returned.

Record LoopState (P H : Type) := mkLoop {
  l_pc : pc; l_clock : Z; l_run : RunState (P:=P) (H:=H); l_ctxDone : bool;
}.
Arguments mkLoop {P H}. Arguments l_pc {P H}. Arguments l_clock {P H}.
Arguments l_run {P H}. Arguments l_ctxDone {P H}.

(** [<-w.wakeCh] *)
Definition take_token {P H} (w : wheel P H) : wheel P H :=
  mkWheel (tasks w) (queue w) false (next_ptr w).

Section loop.
Context {P H : Type}.
Implicit Types (w : wheel P H) (r : RunState (P:=P) (H:=H)) (x y : LoopState P H).

Inductive loop_step : relation (LoopState P H) :=
  | step_next c r b o w' :
      nextTask (rs_wheel r) = (o, w') →
      loop_step (mkLoop AtHead c r b)
        (mkLoop (Waiting ((λ i, DueAt (wt_Task i)) <$> o)) c (rs_set w' r) b)
  | step_done d c r : loop_step (mkLoop (Waiting d) c r true) (mkLoop Returned c r true)
  | step_wake d c r b : wakeCh (rs_wheel r) = true →
      loop_step (mkLoop (Waiting d) c r b) (mkLoop AtHead c (rs_set (take_token (rs_wheel r)) r) b)
  | step_fire d c r b act r' : (d ≤ c)%Z → turn act c r = (Ret tt, r') →
      loop_step (mkLoop (Waiting (Some d)) c r b) (mkLoop AtHead c r' b)
  | step_op p c r b op : loop_step (mkLoop p c r b)
      (mkLoop p c (let '(w, m) := do_op op (rs_wheel r, rs_metrics r) in mkRunState w m (rs_log r)) b)
  | step_tick p c r b c' : (c ≤ c')%Z → loop_step (mkLoop p c r b) (mkLoop p c' r b)
  | step_cancelCtx p c r b : loop_step (mkLoop p c r b) (mkLoop p c r true).

(** The deadline the loop waits for is the earliest one. *)
Definition earliest (d : option Z) w : Prop :=
  match d with
  | None => live w = ∅
  | Some d => (∃ k t, live w !! k = Some t ∧ DueAt t = d) ∧
              ∀ k t, live w !! k = Some t → (d ≤ DueAt t)%Z
  end.

Record loop_inv x : Prop := {
  li_wf : wf (rs_wheel (l_run x));
  li_handled : handled (rs_wheel (l_run x));
  li_wait d : l_pc x = Waiting d →
    wakeCh (rs_wheel (l_run x)) = true ∨ earliest d (rs_wheel (l_run x));
}.

Lemma abs_op_handled op (l : gmap string (Task P H)) :
  (∀ k t, l !! k = Some t → is_Some (Handler t)) →
  ∀ k t, abs_op op l !! k = Some t → is_Some (Handler t).
Proof.
  intros Hl k t. destruct op as [now t0|key]; simpl; case_decide as D; [apply Hl| |apply Hl|].
  - intros [[? <-]|[_ ?]]%lookup_insert_Some; [|by eapply Hl].
    assert (Handler (default_due now t0) = Handler t0) as -> by (unfold default_due; by case_match).
    apply not_eq_None_Some. naive_solver.
  - intros [_ ?]%lookup_delete_Some. by eapply Hl.
Qed.

Lemma abs_ops_handled ops (l : gmap string (Task P H)) :
  (∀ k t, l !! k = Some t → is_Some (Handler t)) →
  ∀ k t, abs_ops ops l !! k = Some t → is_Some (Handler t).
Proof.
  revert l. induction ops as [|op ops IH]; intros l Hl; [done|].
  apply IH. by apply abs_op_handled.
Qed.

(** An operation that changes the tasks leaves a token. *)
Lemma do_op_wake op w (m : Metrics) : wf w →
  let w' := (do_op op (w, m)).1 in
  wakeCh w' = true ∨ (wakeCh w' = wakeCh w ∧ live w' = live w).
Proof.
  intros Hwf. destruct op as [now t|key]; simpl.
  - unfold schedule. case_decide; [by right|]. destruct (Handler t); [by left|by right].
  - unfold cancel. case_decide; [by right|]. destruct (tasks w !! key); [by left|by right].
Qed.

Lemma nextTask_earliest w o w' : wf w → nextTask w = (o, w') →
  wf w' ∧ live w' = live w ∧ earliest ((λ i, DueAt (wt_Task i)) <$> o) w'.
Proof.
  intros Hwf E. destruct (nextTask_loop_spec _ w Hwf (le_n _)) as (o' & w1 & E' & Hwf' & Hl & _ & Ho).
  unfold nextTask in E. rewrite E' in E. simplify_eq. split_and!; [done..|].
  destruct o as [i|]; simpl; rewrite Hl; [|done]. destruct Ho as (_ & Hi & Hmin). eauto.
Qed.

Lemma loop_step_inv x y : loop_step x y → loop_inv x → loop_inv y.
Proof.
  intros Hs [Hwf Hh Hw]. destruct Hs as
    [c r b o w' E|d c r|d c r b _|d c [w m log] b act r' Hd E|p c [w m log] b op|p c r b c' _|p c r b];
    cbn [l_run l_pc rs_wheel rs_set] in *; try by split.
  - destruct (nextTask_earliest _ _ _ Hwf E) as (Hwf' & Hl & He). split; cbn; [done| |].
    + unfold handled. by rewrite Hl.
    + intros d [= <-]. by right.
  - split; cbn; [|by intros k t ?; eapply Hh|done]. by destruct Hwf.
  - destruct (turn_spec act c w m log Hwf Hh) as (w' & m' & ts & E' & _ & _ & _ & Hwf' & Hl).
    rewrite E' in E. simplify_eq. split; cbn; [done| |done].
    unfold handled. rewrite Hl. apply abs_ops_handled.
    intros k t [? _]%map_lookup_filter_Some. by eapply Hh.
  - pose proof (do_op_spec op w m Hwf) as Hop. pose proof (do_op_wake op w m Hwf) as Hk.
    cbn [rs_wheel rs_metrics rs_log] in *. destruct (do_op op (w, m)) as [w' m'].
    destruct Hop as (Hwf' & Hl & _). split; cbn in *; [done| |].
    + unfold handled. rewrite Hl. by apply abs_op_handled.
    + intros d E. destruct Hk as [?|[-> Hsame]]; [by left|].
      destruct (Hw d E) as [?|He]; [by left|right].
      unfold earliest in *. by rewrite Hsame.
Qed.

Definition start : LoopState P H := mkLoop AtHead 0 (mkRunState newWheel NewMetrics []) false.

Lemma start_inv : loop_inv start.
Proof.
  split; cbn; [apply wf_newWheel| |done]. intros k t. by rewrite live_lookup.
Qed.

Lemma reachable_inv x : rtc loop_step start x → loop_inv x.
Proof.
  intros Hr. pose proof start_inv as Hi. revert Hi. induction Hr; [done|]. eauto using loop_step_inv.
Qed.
End loop.

(** ** Operations on the sharded scheduler *)
Section sharded_ops.
Context {P H : Type}.
Implicit Types (s : shardedScheduler P H) (ops : list (wheel_op P H)).

Definition sharded_op (op : wheel_op P H) s : shardedScheduler P H :=
  match op with
  | OpSchedule now t => (Schedule now t s).2
  | OpCancel key => (Cancel key s).2
  end.
Definition sharded_ops ops s := foldl (flip sharded_op) s ops.

Lemma sharded_ops_spec ops s (l : gmap string (Task P H)) :
  sched_ok s → (∀ k, pending s k = l !! k) →
  sched_ok (sharded_ops ops s) ∧ ∀ k, pending (sharded_ops ops s) k = abs_ops ops l !! k.
Proof.
  revert s l. induction ops as [|op ops IH]; intros s l Hok Hl; [done|].
  cbn [sharded_ops abs_ops foldl flip]. apply IH.
  - destruct op as [now t|key]; unfold sharded_op.
    + destruct (decide (Key t = "" ∨ Handler t = None)) as [D|D].
      * destruct (law_schedule_invalid now t s D) as [e ->]. done.
      * destruct (Handler t) as [h|] eqn:Hh; [|naive_solver].
        destruct (law_schedule now t h s Hok) as (s' & -> & ? & _); naive_solver.
    + destruct (law_cancel key s Hok) as (s' & -> & ? & _). done.
  - intros k. destruct op as [now t|key]; unfold sharded_op, abs_op.
    + case_decide as D.
      * destruct (law_schedule_invalid now t s D) as [e ->]. apply Hl.
      * destruct (Handler t) as [h|] eqn:Hh; [|naive_solver].
        destruct (law_schedule now t h s Hok) as (s' & -> & _ & Hp); [naive_solver|done|].
        cbn [snd]. rewrite Hp, Hl, lookup_insert. repeat case_decide; congruence.
    + destruct (law_cancel key s Hok) as (s' & -> & _ & Hp). cbn [snd]. rewrite Hp, Hl.
      destruct (decide (key = "")); [rewrite decide_False by naive_solver; done|].
      rewrite lookup_delete. repeat case_decide; naive_solver.
Qed.

Lemma NewScheduler_ok (n : Z) : (n < 2 ^ 32)%Z →
  sched_ok (NewScheduler (P:=P) (H:=H) n) ∧ ∀ k, pending (NewScheduler (P:=P) (H:=H) n) k = None.
Proof. intros Hn. apply newSharded_ok; case_match eqn:E; rewrite ?Z.leb_gt in E; lia. Qed.
End sharded_ops.

(** * Claims *)

(** C11.  After any sequence of [Schedule] and [Cancel] calls, the sharded
    scheduler holds exactly the tasks a finite map would: a valid task replaces
    the one of its key, a cancelled key is gone, an invalid task changes
    nothing.  [Cancel] answers whether the key was pending, [Schedule] fails
    exactly on an empty key or a nil handler.  The number of shards is not
    observable. *)
Theorem scheduler_refines_map {P H : Type} (n : Z) (ops : list (wheel_op P H)) :
  (n < 2 ^ 32)%Z →
  let s := sharded_ops ops (NewScheduler n) in
  (∀ k, sharded_pending s k = abs_ops ops ∅ !! k) ∧
  (∀ key, (sharded_Cancel key s).1 = bool_decide (key ≠ "" ∧ is_Some (abs_ops ops ∅ !! key))) ∧
  (∀ now t, (sharded_Schedule now t s).1 = None ↔ Key t ≠ "" ∧ is_Some (Handler t)).
Proof.
  intros Hn s. destruct (NewScheduler_ok (P:=P) (H:=H) n Hn) as [Hok Hnone].
  destruct (sharded_ops_spec ops (NewScheduler n) ∅ Hok) as [Hok' Hp]; [done|]. split_and!.
  - exact Hp.
  - intros key. destruct (law_cancel key s Hok') as (s' & E & _). simpl in E. rewrite E. simpl.
    apply bool_decide_ext. by rewrite <-Hp.
  - intros now t. destruct (decide (Key t = "" ∨ Handler t = None)) as [D|D].
    + destruct (law_schedule_invalid now t s D) as [e E]. simpl in E. rewrite E. simpl.
      split; [done|]. intros [? [h Hh]]. destruct D; congruence.
    + destruct (Handler t) as [h|] eqn:Hh; [|naive_solver].
      destruct (law_schedule now t h s Hok') as (s' & E & _); [naive_solver|done|]. simpl in E. rewrite E.
      split; [|done]. split; [naive_solver|done].
Qed.

Definition demo_task (key : string) (due : Z) : Task nat unit := mkTask key TaskRetry due 0 (Some tt).

Lemma scheduler_refines_map_witness :
  let ops := [OpSchedule 0 (demo_task "a" 5); OpSchedule 0 (demo_task "b" 3);
              OpSchedule 1 (demo_task "a" 7); OpCancel "b"] in
  sharded_pending (sharded_ops ops (NewScheduler 0)) "a" = Some (demo_task "a" 7) ∧
  (sharded_Cancel "b" (sharded_ops ops (NewScheduler 0))).1 = false.
Proof.
  split.
  - rewrite (proj1 (scheduler_refines_map 0 _ eq_refl)). vm_compute. reflexivity.
  - rewrite (proj1 (proj2 (scheduler_refines_map 0 _ eq_refl))). vm_compute. reflexivity.
Defined.

(** C12.  One turn of the loop of a wheel runs every task that is due exactly once
    and no other, in order of their deadlines, whatever the handlers schedule
    and cancel while the turn runs; a task a handler cancels after it was popped
    still runs.  Afterwards the wheel holds the tasks that were not due, updated
    by what the handlers did, and [Executed] has grown by the number of tasks
    (modulo 2^64). *)
Theorem run_turn_executes_due {P H : Type} (act : H → Task P H → list (wheel_op P H)) now w m log :
  wf w → handled w →
  ∃ w' m' ts, turn act now (mkRunState w m log) = (Ret tt, mkRunState w' m' (log ++ ts)) ∧
    ((λ t, (Key t, t)) <$> ts) ≡ₚ map_to_list (filter (is_due now) (live w)) ∧
    StronglySorted earlier ts ∧ u64 (Executed m') = u64 (Executed m + Z.of_nat (length ts)) ∧ wf w' ∧
    live w' = abs_ops (ts ≫= acts act) (filter (λ kt, ¬ is_due now kt) (live w)).
Proof. apply turn_spec. Qed.

(** A wheel with tasks due at 5, 3 and 9; the handler of "b" cancels "a" and
    schedules "d". *)
Definition demo_wheel : wheel nat unit :=
  (do_ops [OpSchedule 0 (demo_task "a" 5); OpSchedule 0 (demo_task "b" 3); OpSchedule 0 (demo_task "c" 9)]
    (newWheel, NewMetrics)).1.
Definition demo_act (_ : unit) (t : Task nat unit) : list (wheel_op nat unit) :=
  if decide (Key t = "b") then [OpCancel "a"; OpSchedule 0 (demo_task "d" 20)] else [].

Lemma run_turn_executes_due_witness :
  ∃ w' m' ts, turn demo_act 6 (mkRunState demo_wheel NewMetrics []) = (Ret tt, mkRunState w' m' ts) ∧
    ts = [demo_task "b" 3; demo_task "a" 5] ∧
    live w' = <["d" := demo_task "d" 20]> {[ "c" := demo_task "c" 9 ]}.
Proof.
  assert (wf demo_wheel ∧ handled demo_wheel) as [Hwf Hh].
  { pose proof (do_ops_spec [OpSchedule 0 (demo_task "a" 5); OpSchedule 0 (demo_task "b" 3);
      OpSchedule 0 (demo_task "c" 9)] newWheel NewMetrics wf_newWheel) as Hs.
    unfold demo_wheel. destruct (do_ops _ _) as [w m]. destruct Hs as (Hwf & Hl & _). split; [exact Hwf|].
    unfold handled. simpl. rewrite Hl. apply abs_ops_handled. intros k t. by rewrite live_lookup. }
  destruct (run_turn_executes_due demo_act 6 demo_wheel NewMetrics [] Hwf Hh)
    as (w' & m' & ts & E & _ & _ & _ & _ & Hl).
  exists w', m', ts. split; [exact E|]. assert (ts = [demo_task "b" 3; demo_task "a" 5]) as Ets.
  { apply (f_equal (λ x, rs_log x.2)) in E. simpl in E. rewrite <-E. vm_compute. reflexivity. }
  split; [exact Ets|]. rewrite Hl, Ets. vm_compute. reflexivity.
Defined.

(** C13.  No deadline is missed: in every state the loop and the goroutines around
    it can reach, when [run] is blocked (no token in the wake channel, its timer
    not yet expired) no pending task is due.  In particular a task scheduled
    while [run] sleeps is not slept past. *)
Theorem no_missed_deadline {P H : Type} (x : LoopState P H) (d : option Z) :
  rtc loop_step start x → l_pc x = Waiting d → wakeCh (rs_wheel (l_run x)) = false →
  (∀ d', d = Some d' → (l_clock x < d')%Z) →
  ∀ k t, live (rs_wheel (l_run x)) !! k = Some t → (l_clock x < DueAt t)%Z.
Proof.
  intros Hr Hpc Hk Hd k t Ht. destruct (li_wait x (reachable_inv x Hr) d Hpc) as [?|He]; [congruence|].
  destruct d as [d|]; simpl in He; [|by rewrite He in Ht].
  destruct He as [_ Hmin]. specialize (Hmin k t Ht). specialize (Hd d eq_refl). lia.
Qed.

(** The loop has gone to sleep with one task due at 5; another goroutine then
    scheduled one due at 3, and the loop took the token and slept again. *)
Definition demo_loop : LoopState nat unit :=
  let w := (do_ops [OpSchedule 0 (demo_task "a" 5); OpSchedule 0 (demo_task "b" 3)] (newWheel, NewMetrics)) in
  mkLoop (Waiting (Some 3%Z)) 2 (mkRunState (take_token w.1) w.2 []) false.

Lemma demo_loop_reachable : rtc loop_step start demo_loop.
Proof.
  unfold start.
  eapply rtc_l; [exact (step_op _ _ _ _ (OpSchedule 0 (demo_task "a" 5)))|].
  eapply rtc_l; [eapply step_next; vm_compute; reflexivity|].
  eapply rtc_l; [exact (step_op _ _ _ _ (OpSchedule 0 (demo_task "b" 3)))|].
  eapply rtc_l; [eapply step_wake; vm_compute; reflexivity|].
  eapply rtc_l; [eapply step_next; vm_compute; reflexivity|].
  eapply rtc_l; [apply (step_tick _ _ _ _ 2); lia|]. vm_compute. apply rtc_refl.
Qed.

Lemma no_missed_deadline_witness :
  live (rs_wheel (l_run demo_loop)) !! "a" = Some (demo_task "a" 5) ∧ (2 < DueAt (demo_task "a" 5))%Z.
Proof.
  assert (live (rs_wheel (l_run demo_loop)) !! "a" = Some (demo_task "a" 5)) as Ht by (vm_compute; reflexivity).
  split; [exact Ht|].
  refine (no_missed_deadline demo_loop (Some 3%Z) demo_loop_reachable eq_refl eq_refl _ "a" _ Ht).
  intros d' [= <-]. vm_compute. reflexivity.
Defined.
