(* ===== verification/Message.v ===== *)
(** * Messages of the gateway protocol

    [gateway.Message] is the envelope every layer of the gateway passes around
    by pointer.  The record below has the fields the gateway's own code reads
    or writes; a field that is a pointer in Go is an [option], a map that may
    be nil is an [option] of a finite map.  The generated package
    ([common-protocol/gen/gateway/v1]) declares the parts [TraceContext],
    [RouteTarget], [Delivery] and the enumerations; the envelope itself, its
    [Body] and [FrameType] are used by the code but are not declared there at
    this commit, so only what their uses determine is modelled: names of
    fields, their types and distinct frame types. *)

From stdpp Require Import base list gmap strings numbers countable.
From S2P Require Import Prelude.

(** The frame types the gateway's code names; every other value is
    [FrameType_other]. *)
Inductive FrameType : Set :=
  | FrameType_HANDSHAKE | FrameType_HANDSHAKE_ACK | FrameType_PING | FrameType_PONG
  | FrameType_BUSINESS | FrameType_ERROR | FrameType_KICK
  | FrameType_other (n : Z).

#[export] Instance FrameType_eq_dec : EqDecision FrameType.
Proof. solve_decision. Defined.

(** [type QosClass int32]: any number can be on the wire. *)
Definition QosClass : Type := Z.
Definition QosClass_UNSPECIFIED : QosClass := 0%Z.
Definition QosClass_AT_MOST_ONCE : QosClass := 1%Z.
Definition QosClass_AT_LEAST_ONCE : QosClass := 2%Z.

Definition Codec_PROTOBUF : Z := 2.
Definition CompressAlgo_NONE : Z := 1.

(** [RouteTargetType_CONNECTION] has no declaration to take its number from;
    the code only writes it. *)
Inductive RouteTargetType : Set :=
  | RouteTargetType_CONNECTION
  | RouteTargetType_other (n : Z).

Record TraceContext := mkTraceContext { TraceId : string }.
Record RouteTarget := mkRouteTarget { rt_Type : RouteTargetType; rt_Key : string }.
Record Delivery := mkDelivery { Qos : QosClass; Offline : bool; AckId : option string }.
(** Bytes are numbers between 0 and 255. *)
Record Body := mkBody { b_Codec : Z; b_CompressAlgo : Z; b_Data : list Z }.

Record Message := mkMessage {
  m_Type : FrameType;
  m_MsgId : string;
  m_BizCode : string;
  m_From : option RouteTarget;
  m_To : option RouteTarget;
  m_SeqId : Z;
  m_ExpireAt : Z;
  m_Headers : option (gmap string string);
  m_Delivery : option Delivery;
  m_TraceContext : option TraceContext;
  m_Body : option Body;
}.

(** [&gateway.Message{}] *)
Definition zeroMessage : Message :=
  mkMessage (FrameType_other 0) "" "" None None 0 0 None None None None.

(** Field assignments [msg.F = v]. *)
Definition set_SeqId (v : Z) (m : Message) : Message :=
  mkMessage (m_Type m) (m_MsgId m) (m_BizCode m) (m_From m) (m_To m) v (m_ExpireAt m)
    (m_Headers m) (m_Delivery m) (m_TraceContext m) (m_Body m).
Definition set_Headers (v : option (gmap string string)) (m : Message) : Message :=
  mkMessage (m_Type m) (m_MsgId m) (m_BizCode m) (m_From m) (m_To m) (m_SeqId m) (m_ExpireAt m)
    v (m_Delivery m) (m_TraceContext m) (m_Body m).
Definition set_From (v : option RouteTarget) (m : Message) : Message :=
  mkMessage (m_Type m) (m_MsgId m) (m_BizCode m) v (m_To m) (m_SeqId m) (m_ExpireAt m)
    (m_Headers m) (m_Delivery m) (m_TraceContext m) (m_Body m).
Definition set_TraceContext (v : option TraceContext) (m : Message) : Message :=
  mkMessage (m_Type m) (m_MsgId m) (m_BizCode m) (m_From m) (m_To m) (m_SeqId m) (m_ExpireAt m)
    (m_Headers m) (m_Delivery m) v (m_Body m).

(** [if msg.Headers == nil { msg.Headers = make(...) }; msg.Headers[k] = v] *)
Definition put_header (k v : string) (m : Message) : Message :=
  set_Headers (Some (<[k := v]> (default ∅ (m_Headers m)))) m.

(** [msg.Headers[k]]: reading a nil map or a missing key yields [""]. *)
Definition get_header (k : string) (m : Message) : string :=
  default "" (default ∅ (m_Headers m) !! k).

(** [msg.Delivery != nil && msg.Delivery.Qos == AT_LEAST_ONCE] *)
Definition at_least_once (m : Message) : bool :=
  match m_Delivery m with
  | Some d => (Qos d =? QosClass_AT_LEAST_ONCE)%Z
  | None => false
  end.

(** [time.Now().UnixMilli()] of an instant in nanoseconds (floor division). *)
Definition UnixMilli (now : Z) : Z := (now `div` 10 ^ 6)%Z.

(** [expireAt > 0 && time.Now().UnixMilli() > expireAt]: the same test is
    written in the reader, in both pipelines and in the worker pool. *)
Definition IsExpired (now expireAt : Z) : bool := ((0 <? expireAt) && (expireAt <? UnixMilli now))%Z.

(** ** Messages can be told apart and numbered *)
#[export] Instance RouteTargetType_eq_dec : EqDecision RouteTargetType.
Proof. solve_decision. Defined.
#[export] Instance TraceContext_eq_dec : EqDecision TraceContext.
Proof. solve_decision. Defined.
#[export] Instance RouteTarget_eq_dec : EqDecision RouteTarget.
Proof. solve_decision. Defined.
#[export] Instance Delivery_eq_dec : EqDecision Delivery.
Proof. unfold EqDecision, QosClass. intros [] []. solve_decision. Defined.
#[export] Instance Body_eq_dec : EqDecision Body.
Proof. solve_decision. Defined.
#[export] Instance Message_eq_dec : EqDecision Message.
Proof. solve_decision. Defined.

#[export] Instance FrameType_countable : Countable FrameType.
Proof.
  refine (inj_countable' (λ f, match f with
    | FrameType_HANDSHAKE => inl 0 | FrameType_HANDSHAKE_ACK => inl 1 | FrameType_PING => inl 2
    | FrameType_PONG => inl 3 | FrameType_BUSINESS => inl 4 | FrameType_ERROR => inl 5
    | FrameType_KICK => inl 6 | FrameType_other n => inr n end)
   (λ x, match x with
    | inl 0 => FrameType_HANDSHAKE | inl 1 => FrameType_HANDSHAKE_ACK | inl 2 => FrameType_PING
    | inl 3 => FrameType_PONG | inl 4 => FrameType_BUSINESS | inl 5 => FrameType_ERROR
    | inl _ => FrameType_KICK | inr n => FrameType_other n end) _).
  abstract (by intros []).
Defined.
#[export] Instance RouteTarget_countable : Countable RouteTarget.
Proof.
  refine (inj_countable'
   (λ r, (match rt_Type r with RouteTargetType_CONNECTION => None | RouteTargetType_other n => Some n end,
          rt_Key r))
   (λ x, mkRouteTarget (match x.1 with None => RouteTargetType_CONNECTION
                                     | Some n => RouteTargetType_other n end) x.2) _).
  abstract (by intros [[] ?]).
Defined.
#[export] Instance Message_countable : Countable Message.
Proof.
  refine (inj_countable'
   (λ m, (m_Type m, m_MsgId m, m_BizCode m, m_From m, m_To m, m_SeqId m, m_ExpireAt m,
          map_to_list <$> m_Headers m,
          (λ d, (Qos d : Z, Offline d, AckId d)) <$> m_Delivery m, TraceId <$> m_TraceContext m,
          (λ b, (b_Codec b, b_CompressAlgo b, b_Data b)) <$> m_Body m))
   (λ '(ty, id, biz, from, to, seq, exp, hdr, del, tr, body),
      mkMessage ty id biz from to seq exp (list_to_map <$> hdr)
        ((λ '(q, o, a), mkDelivery q o a) <$> del) (mkTraceContext <$> tr)
        ((λ '(c, k, d), mkBody c k d) <$> body)) _).
  abstract (intros [??????? [h|] [[]|] [[]|] [[]|]]; simpl; by rewrite ?list_to_map_to_list).
Defined.

Lemma put_header_get k v m : get_header k (put_header k v m) = v.
Proof. unfold get_header, put_header. simpl. by rewrite lookup_insert_eq. Qed.

Lemma put_header_get_ne k k' v m : k ≠ k' → get_header k' (put_header k v m) = get_header k' m.
Proof. intros. unfold get_header, put_header. simpl. by rewrite lookup_insert_ne. Qed.

Lemma set_SeqId_at_least_once n m : at_least_once (set_SeqId n m) = at_least_once m.
Proof. reflexivity. Qed.

Lemma put_header_at_least_once k v m : at_least_once (put_header k v m) = at_least_once m.
Proof. reflexivity. Qed.

Lemma IsExpired_spec now e : IsExpired now e = true ↔ (0 < e < UnixMilli now)%Z.
Proof. unfold IsExpired. rewrite andb_true_iff, !Z.ltb_lt. done. Qed.

(** A message that expired stays expired. *)
Lemma IsExpired_mono now now' e : (now ≤ now')%Z → IsExpired now e = true → IsExpired now' e = true.
Proof.
  rewrite !IsExpired_spec. unfold UnixMilli. intros Hle ?.
  pose proof (Z.div_le_mono now now' (10 ^ 6) ltac:(lia) Hle). lia.
Qed.
