(* ===== verification/Utf8.v ===== *)
(** * Runes of a string ([unicode/utf8] as the validators use it)

    The generated validators measure strings with [utf8.RuneCountInString]: the
    number of turns of Go's [range] over the bytes, which decodes UTF-8 and
    takes a byte that starts no valid encoding as one rune of width one.
    [encoding/json] and [proto] keep strings as they are only if they are valid
    UTF-8: [valid_utf8]. *)

From Stdlib Require Import Ascii String.
From stdpp Require Import base list strings numbers.
From S2P Require Import Prelude.
Local Open Scope Z_scope.

Definition byte_of (c : ascii) : Z := Z.of_N (N_of_ascii c).
Definition char_of (z : Z) : ascii := ascii_of_N (Z.to_N z).

Definition between (lo hi z : Z) : bool := (lo <=? z) && (z <=? hi).
(** A continuation byte. *)
Definition cont : Z → bool := between 128 191.

(** The width of the rune at the head of a string, by its bytes. *)
Definition rune_width (s : string) : nat :=
  match s with
  | EmptyString => 0%nat
  | String c0 s1 =>
      let b0 := byte_of c0 in
      if b0 <? 128 then 1%nat
      else match s1 with
      | EmptyString => 1%nat
      | String c1 s2 =>
          let b1 := byte_of c1 in
          if between 194 223 b0 then (if cont b1 then 2%nat else 1%nat)
          else match s2 with
          | EmptyString => 1%nat
          | String c2 s3 =>
              let b2 := byte_of c2 in
              if between 224 239 b0 then
                (if between (if b0 =? 224 then 160 else 128) (if b0 =? 237 then 159 else 191) b1
                    && cont b2 then 3%nat else 1%nat)
              else match s3 with
              | EmptyString => 1%nat
              | String c3 _ =>
                  if between 240 244 b0
                     && between (if b0 =? 240 then 144 else 128) (if b0 =? 244 then 143 else 191) b1
                     && cont b2 && cont (byte_of c3) then 4%nat else 1%nat
              end
          end
      end
  end.

(** [for range s { n++ }]; [skip] counts the bytes left of the current rune. *)
Fixpoint rune_count (skip : nat) (s : string) : nat :=
  match s with
  | EmptyString => 0%nat
  | String _ s' =>
      match skip with
      | S k => rune_count k s'
      | O => S (rune_count (pred (rune_width s)) s')
      end
  end.
Definition RuneCountInString (s : string) : Z := Z.of_nat (rune_count 0 s).

(** ** UTF-8 of a rune: what strings of valid text are made of *)
Definition valid_rune (r : Z) : Prop := 0 ≤ r ≤ 55295 ∨ 57344 ≤ r ≤ 1114111.
Definition utf8_bytes (r : Z) : list Z :=
  if r <? 128 then [r]
  else if r <? 2048 then [192 + r / 64; 128 + r mod 64]
  else if r <? 65536 then [224 + r / 4096; 128 + r / 64 mod 64; 128 + r mod 64]
  else [240 + r / 262144; 128 + r / 4096 mod 64; 128 + r / 64 mod 64; 128 + r mod 64].
Definition bytes_string (bs : list Z) : string :=
  fold_right (λ b s, String (char_of b) s) EmptyString bs.
Definition text (rs : list Z) : string := bytes_string (mjoin (utf8_bytes <$> rs)).

Lemma byte_of_char_of (z : Z) : 0 ≤ z < 256 → byte_of (char_of z) = z.
Proof. intros Hz. unfold byte_of, char_of. rewrite N_ascii_embedding by lia. lia. Qed.

Lemma bytes_string_length (bs : list Z) : String.length (bytes_string bs) = length bs.
Proof. induction bs as [|b bs IH]; simpl; congruence. Qed.
Lemma bytes_string_app (a b : list Z) : bytes_string (a ++ b) = bytes_string a +:+ bytes_string b.
Proof. induction a as [|x a IH]; [done|]. simpl. by rewrite IH. Qed.

(** The quotients and remainders of an encoding, with their bounds. *)
Lemma utf8_digits (r : Z) : 0 ≤ r →
  r = 64 * (r / 64) + r mod 64 ∧ 0 ≤ r mod 64 < 64 ∧
  r / 64 = 64 * (r / 4096) + r / 64 mod 64 ∧ 0 ≤ r / 64 mod 64 < 64 ∧
  r / 4096 = 64 * (r / 262144) + r / 4096 mod 64 ∧ 0 ≤ r / 4096 mod 64 < 64 ∧ 0 ≤ r / 262144.
Proof.
  intros Hr. change 4096 with (64 * 64). change 262144 with (64 * 64 * 64).
  rewrite <- !Zdiv_Zdiv by lia.
  repeat split; try (apply Z.div_mod; lia); try (apply Z.mod_pos_bound; lia); repeat apply Z.div_pos; lia.
Qed.

(** Decoding finds the width that encoding produced, whatever follows. *)
Lemma rune_width_utf8 (r : Z) (s : string) :
  valid_rune r → rune_width (bytes_string (utf8_bytes r) +:+ s) = length (utf8_bytes r).
Proof.
  intros Hr. assert (0 ≤ r) as Hpos by (unfold valid_rune in Hr; lia).
  destruct (utf8_digits r Hpos) as (?&?&?&?&?&?&?). unfold utf8_bytes, valid_rune in *.
  destruct (r <? 128) eqn:?; [|destruct (r <? 2048) eqn:?; [|destruct (r <? 65536) eqn:?]];
    cbn [bytes_string fold_right length];
    repeat match goal with |- context [String ?c ?a +:+ s] => change (String c a +:+ s) with (String c (a +:+ s)) end;
    cbn [rune_width]; cbv zeta;
    rewrite !byte_of_char_of by lia; unfold cont, between;
    repeat match goal with |- context [?a =? ?b] => destruct (Z.eqb_spec a b) end;
    repeat match goal with |- context [if ?b then _ else _] => destruct b eqn:? end; try done; try lia.
Qed.

Lemma rune_count_skip (a s : string) : rune_count (String.length a) (a +:+ s) = rune_count 0 s.
Proof. induction a as [|c a IH]; done. Qed.

(** A text of valid runes counts as many runes as it has. *)
Lemma RuneCount_text (rs : list Z) :
  Forall valid_rune rs → RuneCountInString (text rs) = Z.of_nat (length rs).
Proof.
  unfold RuneCountInString. intros Hrs. f_equal. induction Hrs as [|r rs Hr _ IH]; [done|].
  change (text (r :: rs)) with (bytes_string (utf8_bytes r ++ mjoin (utf8_bytes <$> rs))).
  rewrite bytes_string_app. change (bytes_string (mjoin _)) with (text rs).
  pose proof (rune_width_utf8 r (text rs) Hr) as Hw.
  destruct (bytes_string (utf8_bytes r)) as [|c u] eqn:Hu.
  { unfold utf8_bytes in Hu. by repeat case_match. }
  assert (Hl : length (utf8_bytes r) = S (String.length u)).
  { by rewrite <- bytes_string_length, Hu. }
  rewrite Hl in Hw. change (String c u +:+ ?t) with (String c (u +:+ t)) in *.
  cbn [rune_count]. rewrite Hw. cbn [pred length]. f_equal. rewrite <- IH. apply rune_count_skip.
Qed.

(** ** [utf8.ValidString]: every rune of the string starts a valid encoding *)
Fixpoint utf8_ok (skip : nat) (s : string) : bool :=
  match s with
  | EmptyString => true
  | String c s' =>
      match skip with
      | S k => utf8_ok k s'
      | O => ((byte_of c <? 128) || (2 <=? rune_width s)%nat) && utf8_ok (pred (rune_width s)) s'
      end
  end.
Definition valid_utf8 (s : string) : bool := utf8_ok 0 s.

Lemma utf8_ok_skip (a s : string) : utf8_ok (String.length a) (a +:+ s) = utf8_ok 0 s.
Proof. induction a as [|c a IH]; done. Qed.

(** A rune and its encoding: one byte below 128, or more than one. *)
Lemma utf8_bytes_head (r : Z) : valid_rune r →
  ∃ b bs, utf8_bytes r = b :: bs ∧ 0 ≤ b < 256 ∧ ((b <? 128) || (2 <=? length (b :: bs))%nat) = true.
Proof.
  intros Hr. assert (0 ≤ r) as Hpos by (unfold valid_rune in Hr; lia).
  destruct (utf8_digits r Hpos) as (?&?&?&?&?&?&?). unfold utf8_bytes, valid_rune in *.
  destruct (r <? 128) eqn:Hs; [|destruct (r <? 2048) eqn:?; [|destruct (r <? 65536) eqn:?]];
    eexists _, _; (split; [reflexivity|]); (split; [lia|]); rewrite ?Hs; by rewrite ?orb_true_r.
Qed.

(** A text of valid runes is valid. *)
Lemma valid_utf8_cons (r : Z) (s : string) : valid_rune r →
  valid_utf8 (bytes_string (utf8_bytes r) +:+ s) = valid_utf8 s.
Proof.
  intros Hr. destruct (utf8_bytes_head r Hr) as (b & bs & Eb & Hb & Hhead).
  pose proof (rune_width_utf8 r s Hr) as Hw. rewrite Eb in Hw |- *.
  change (bytes_string (b :: bs)) with (String (char_of b) (bytes_string bs)) in *.
  change (String ?c ?u +:+ s) with (String c (u +:+ s)) in *. unfold valid_utf8. cbn [utf8_ok].
  rewrite Hw, byte_of_char_of, Hhead by done. cbn [andb length pred].
  by rewrite <-(bytes_string_length bs), utf8_ok_skip.
Qed.
Lemma valid_utf8_text (rs : list Z) : Forall valid_rune rs → valid_utf8 (text rs) = true.
Proof.
  induction 1 as [|r rs Hr _ IH]; [done|].
  change (text (r :: rs)) with (bytes_string (utf8_bytes r ++ mjoin (utf8_bytes <$> rs))).
  rewrite bytes_string_app. change (bytes_string (mjoin _)) with (text rs). by rewrite valid_utf8_cons.
Qed.

(** ASCII text is valid. *)
Definition ascii_only (s : string) : bool := forallb (λ c, byte_of c <? 128) (list_ascii_of_string s).
Lemma valid_utf8_ascii_app (a s : string) : ascii_only a = true → valid_utf8 (a +:+ s) = valid_utf8 s.
Proof.
  unfold ascii_only. induction a as [|c a IH]; [done|]. cbn [list_ascii_of_string forallb].
  intros [Hc Ha]%andb_true_iff. change (String c a +:+ s) with (String c (a +:+ s)). unfold valid_utf8 in *.
  cbn [utf8_ok]. rewrite Hc. replace (rune_width _) with 1%nat by (cbn [rune_width]; by rewrite Hc).
  cbn [orb andb pred]. by apply IH.
Qed.
Lemma valid_utf8_ascii (s : string) : ascii_only s = true → valid_utf8 s = true.
Proof.
  intros Hs. assert (s +:+ "" = s) as E by (clear; induction s as [|c s IH]; [done|exact (f_equal (String c) IH)]).
  rewrite <-E. by apply valid_utf8_ascii_app.
Qed.

Lemma ascii_only_app (a b : string) : ascii_only (a +:+ b) = ascii_only a && ascii_only b.
Proof.
  unfold ascii_only. induction a as [|c a IH]; [done|]. change (String c a +:+ b) with (String c (a +:+ b)).
  cbn [list_ascii_of_string forallb]. by rewrite IH, andb_assoc.
Qed.

(** A string has at most as many runes as bytes. *)
Lemma rune_count_le (s : string) (k : nat) : (rune_count k s ≤ String.length s)%nat.
Proof.
  revert k. induction s as [|c s IH]; intros k; [simpl; lia|]. cbn [rune_count String.length].
  destruct k as [|k]; [specialize (IH (pred (rune_width (String c s))))|specialize (IH k)]; lia.
Qed.
Lemma RuneCount_le_length (s : string) : 0 ≤ RuneCountInString s ≤ Z.of_nat (String.length s).
Proof. unfold RuneCountInString. pose proof (rune_count_le s 0). lia. Qed.

(** ... and at least a quarter as many. *)
Lemma rune_width_le (s : string) : (rune_width s ≤ 4)%nat.
Proof. unfold rune_width. repeat case_match; lia. Qed.
Lemma rune_count_ge (s : string) (k : nat) : (String.length s ≤ k + 4 * rune_count k s)%nat.
Proof.
  revert k. induction s as [|c s IH]; intros k; [simpl; lia|]. cbn [rune_count String.length].
  destruct k as [|k].
  - pose proof (rune_width_le (String c s)). specialize (IH (pred (rune_width (String c s)))). lia.
  - specialize (IH k). lia.
Qed.
Lemma length_le_RuneCount (s : string) : Z.of_nat (String.length s) ≤ 4 * RuneCountInString s.
Proof. unfold RuneCountInString. pose proof (rune_count_ge s 0). lia. Qed.

(** Two runes in five bytes; a stray continuation byte counts; a surrogate
    encoded in three bytes counts as three. *)
Example runes_of_text : RuneCountInString (text [233; 26085]) = 2.
Proof. reflexivity. Qed.
Example bad_bytes_invalid : valid_utf8 (bytes_string [97; 128; 237; 160; 128]) = false.
Proof. reflexivity. Qed.
Example runes_of_bad_bytes : RuneCountInString (bytes_string [97; 128; 237; 160; 128]) = 5.
Proof. reflexivity. Qed.
