(* ===== verification/Codec.v ===== *)
(** * The frame codec ([gateway/internal/protocol/codec/codec.go])

    A frame is one byte that names codec and compression, then the payload.
    Serialisation (JSON, protobuf) and gzip are library code: they are the
    fields of [WireLib].  [WireLaws] says what they keep: a message whose strings
    are valid UTF-8 and whose numbers have their width comes back, except that an
    empty header map may come back absent, and an absent one empty. *)

From stdpp Require Import base list gmap strings numbers pretty countable.
From S2P Require Import Prelude Message Utf8.

Definition CodecJSON : Z := 1.
Definition CodecProtobuf : Z := 2.
Definition CodecMsgpack : Z := 3.
Definition CompressNone : Z := 0.
Definition CompressGzip : Z := 1.
Definition CompressZstd : Z := 2.
Definition CompressSnappy : Z := 3.

(** [(byte(ca) << 4) | byte(ct)] on bytes. *)
Definition makeFrameCodecByte (ct ca : Z) : Z := Z.lor (u8 (Z.shiftl ca 4)) ct.
Definition frame_CodecType (f : Z) : Z := Z.land f 15.
Definition frame_CompressAlgo (f : Z) : Z := Z.land (Z.shiftr f 4) 15.

(** [encoding/json], [google.golang.org/protobuf/proto] and [compress/gzip]:
    [inl] is an error. *)
Class WireLib : Type := {
  json_Marshal : Message → string + list Z;
  json_Unmarshal : list Z → string + Message;
  proto_Marshal : Message → string + list Z;
  proto_Unmarshal : list Z → string + Message;
  gzip_compress : list Z → string + list Z;
  gzip_decompress : list Z → string + list Z;
}.

(** ** What survives the wire

    [encoding/json] replaces invalid UTF-8 by U+FFFD and [proto.Marshal] refuses
    it, so only valid text is kept.  (A [FrameType_other] or [RouteTargetType_other]
    stands for a number that none of the named values has.) *)
Definition int32_ok (z : Z) : bool := ((- 2 ^ 31 <=? z) && (z <? 2 ^ 31))%Z.
Definition target_ok (t : RouteTarget) : bool :=
  valid_utf8 (rt_Key t) && match rt_Type t with RouteTargetType_other n => int32_ok n | _ => true end.
Definition wire_ok (m : Message) : bool :=
  match m_Type m with FrameType_other n => int32_ok n | _ => true end &&
  valid_utf8 (m_MsgId m) && valid_utf8 (m_BizCode m) &&
  from_option target_ok true (m_From m) && from_option target_ok true (m_To m) &&
  ((0 <=? m_SeqId m) && (m_SeqId m <? 2 ^ 64))%Z &&
  ((- 2 ^ 63 <=? m_ExpireAt m) && (m_ExpireAt m <? 2 ^ 63))%Z &&
  forallb (λ kv, valid_utf8 kv.1 && valid_utf8 kv.2) (map_to_list (default ∅ (m_Headers m))) &&
  from_option (λ d, int32_ok (Qos d) && from_option valid_utf8 true (AckId d)) true (m_Delivery m) &&
  from_option (λ tc, valid_utf8 (TraceId tc)) true (m_TraceContext m) &&
  from_option (λ b, int32_ok (b_Codec b) && int32_ok (b_CompressAlgo b) &&
                    forallb (λ x, (0 <=? x) && (x <? 256))%Z (b_Data b)) true (m_Body m).

(** The message with its header map made, if it was nil: what the code can tell
    of the map is the same ([get_header_canonical]). *)
Definition canonical (m : Message) : Message := set_Headers (Some (default ∅ (m_Headers m))) m.
Definition same_message (m m' : Message) : Prop := canonical m = canonical m'.

#[export] Instance same_message_equiv : Equivalence same_message.
Proof. unfold same_message. split; [by intros m|by intros m m'|intros m1 m2 m3; congruence]. Qed.

Lemma get_header_canonical m m' k : same_message m m' → get_header k m = get_header k m'.
Proof. intros E. apply (f_equal (get_header k)) in E. exact E. Qed.

(** A message with a header that is set is the same as itself only. *)
Lemma same_message_headers m m' h : m_Headers m = Some h → h ≠ ∅ → same_message m' m → m' = m.
Proof.
  intros Eh Hh E. destruct m as [??????? hm ???], m' as [??????? hm' ???].
  unfold same_message, canonical, set_Headers in E. cbn in *. subst hm. injection E as -> -> -> -> -> -> -> E -> -> ->.
  f_equal. destruct hm'; cbn in E; congruence.
Qed.

Class WireLaws `{WireLib} : Prop := {
  json_roundtrip m d : wire_ok m = true → json_Marshal m = inr d →
    ∃ m', json_Unmarshal d = inr m' ∧ same_message m' m;
  proto_roundtrip m d : wire_ok m = true → proto_Marshal m = inr d →
    ∃ m', proto_Unmarshal d = inr m' ∧ same_message m' m;
  gzip_roundtrip d z : gzip_compress d = inr z → gzip_decompress z = inr d;
}.

(** [FrameCodec]; the pool of gzip writers carries no state between calls
    ([Reset] before every use). *)
Record FrameCodec := mkFrameCodec { codecType : Z; compressAlgo : Z }.
Definition Config : Type := FrameCodec.
Definition DefaultConfig : Config := mkFrameCodec CodecProtobuf CompressZstd.
Definition JSONConfig : Config := mkFrameCodec CodecJSON CompressNone.
Definition NewCodec (cfg : Config) : FrameCodec := mkFrameCodec (codecType cfg) (compressAlgo cfg).

(** [fmt.Errorf("p: %w", err)] *)
Definition wrap_err {A} (p : string) (r : string + A) : string + A :=
  match r with inl e => inl (p +:+ ": " +:+ e) | inr a => inr a end.

Section codec.
Context `{WireLib}.

Definition marshal (fc : FrameCodec) (msg : Message) : string + list Z :=
  if (codecType fc =? CodecJSON)%Z then json_Marshal msg
  else if (codecType fc =? CodecProtobuf)%Z then proto_Marshal msg
  else inl ("codec: unsupported codec type " +:+ pretty (codecType fc)).

Definition unmarshal (ct : Z) (data : list Z) : string + Message :=
  if (ct =? CodecJSON)%Z then json_Unmarshal data
  else if (ct =? CodecProtobuf)%Z then proto_Unmarshal data
  else inl ("codec: unsupported codec type " +:+ pretty ct +:+ " for decode").

Definition compress (fc : FrameCodec) (data : list Z) : string + list Z :=
  if (compressAlgo fc =? CompressNone)%Z then inr data
  else if (compressAlgo fc =? CompressGzip)%Z then gzip_compress data
  else if (compressAlgo fc =? CompressZstd)%Z then inr data
  else if (compressAlgo fc =? CompressSnappy)%Z then inr data
  else inl ("codec: unsupported compress algo " +:+ pretty (compressAlgo fc)).

Definition decompress (algo : Z) (data : list Z) : string + list Z :=
  if (algo =? CompressNone)%Z then inr data
  else if (algo =? CompressGzip)%Z then gzip_decompress data
  else if (algo =? CompressZstd)%Z then inr data
  else if (algo =? CompressSnappy)%Z then inr data
  else inl ("codec: unsupported decompress algo " +:+ pretty algo).

Definition Encode (fc : FrameCodec) (msg : Message) : string + list Z :=
  match wrap_err ("codec: marshal (" +:+ pretty (codecType fc) +:+ ")") (marshal fc msg) with
  | inl e => inl e
  | inr payload =>
      match wrap_err ("codec: compress (" +:+ pretty (compressAlgo fc) +:+ ")")
                     (compress fc payload) with
      | inl e => inl e
      | inr compressed => inr (makeFrameCodecByte (codecType fc) (compressAlgo fc) :: compressed)
      end
  end.

Definition Decode (fc : FrameCodec) (data : list Z) : string + Message :=
  match data with
  | [] => inl "codec: frame too short (0 bytes)"
  | cb :: payload =>
      match wrap_err ("codec: decompress (" +:+ pretty (frame_CompressAlgo cb) +:+ ")")
                     (decompress (frame_CompressAlgo cb) payload) with
      | inl e => inl e
      | inr decompressed =>
          wrap_err ("codec: unmarshal (" +:+ pretty (frame_CodecType cb) +:+ ")")
                   (unmarshal (frame_CodecType cb) decompressed)
      end
  end.
End codec.

(** ** The codec byte packs two nibbles *)
Definition codec_byte_packs (ct ca : Z) : bool :=
  bool_decide (makeFrameCodecByte ct ca = 16 * ca + ct)%Z &&
  bool_decide (frame_CodecType (makeFrameCodecByte ct ca) = ct) &&
  bool_decide (frame_CompressAlgo (makeFrameCodecByte ct ca) = ca).

(** All 256 pairs, by evaluation. *)
Lemma codec_byte_packs_all :
  forallb (λ ct, forallb (codec_byte_packs ct) (seqZ 0 16)) (seqZ 0 16) = true.
Proof. vm_compute. reflexivity. Qed.

Lemma codec_byte_pack ct ca : (0 ≤ ct < 16)%Z → (0 ≤ ca < 16)%Z →
  makeFrameCodecByte ct ca = (16 * ca + ct)%Z ∧
  frame_CodecType (makeFrameCodecByte ct ca) = ct ∧
  frame_CompressAlgo (makeFrameCodecByte ct ca) = ca.
Proof.
  intros Hct Hca. pose proof codec_byte_packs_all as Hall.
  rewrite forallb_forall in Hall. specialize (Hall ct).
  rewrite forallb_forall in Hall.
  assert (codec_byte_packs ct ca = true) as E.
  { apply Hall; apply list_elem_of_In, elem_of_seqZ; lia. }
  unfold codec_byte_packs in E. rewrite !andb_true_iff, !bool_decide_eq_true in E. tauto.
Qed.

Section codec_correct.
Context `{WireLib} `{!WireLaws}.

Lemma marshal_supported fc m d : marshal fc m = inr d →
  codecType fc = CodecJSON ∨ codecType fc = CodecProtobuf.
Proof. unfold marshal. repeat case_match; rewrite ?Z.eqb_eq in *; naive_solver. Qed.

Lemma compress_supported fc d z : compress fc d = inr z → (0 ≤ compressAlgo fc < 4)%Z.
Proof.
  unfold compress, CompressNone, CompressGzip, CompressZstd, CompressSnappy.
  repeat case_match; rewrite ?Z.eqb_eq in *; simplify_eq; intros; simplify_eq; lia.
Qed.

Lemma unmarshal_marshal fc m d : wire_ok m = true → marshal fc m = inr d →
  ∃ m', unmarshal (codecType fc) d = inr m' ∧ same_message m' m.
Proof.
  unfold marshal, unmarshal. repeat case_match; [apply json_roundtrip|apply proto_roundtrip|done].
Qed.

Lemma decompress_compress fc d z : compress fc d = inr z → decompress (compressAlgo fc) z = inr d.
Proof. unfold compress, decompress. repeat case_match; try naive_solver. apply gzip_roundtrip. Qed.
End codec_correct.

(** A concrete wire library to run the codec with: a message travels as its
    number, JSON leaves an empty header map out and replaces an invalid ID,
    protobuf refuses one, and gzip adds one marker byte. *)
Definition toy_json (m : Message) : Message :=
  let m := match m_Headers m with Some h => if decide (h = ∅) then set_Headers None m else m | None => m end in
  if valid_utf8 (m_MsgId m) then m
  else mkMessage (m_Type m) "?" (m_BizCode m) (m_From m) (m_To m) (m_SeqId m) (m_ExpireAt m)
         (m_Headers m) (m_Delivery m) (m_TraceContext m) (m_Body m).
Definition toyWire : WireLib := {|
  json_Marshal := λ m, inr [123%Z; Z.pos (encode (toy_json m))];
  json_Unmarshal := λ d, match d with
    | [_; Z.pos p] => match decode p with Some m => inr m | None => inl "json" end
    | _ => inl "json" end;
  proto_Marshal := λ m, if valid_utf8 (m_MsgId m) then inr [Z.pos (encode m)] else inl "invalid UTF-8";
  proto_Unmarshal := λ d, match d with
    | [Z.pos p] => match decode p with Some m => inr m | None => inl "proto" end
    | _ => inl "proto" end;
  gzip_compress := λ d, inr (31%Z :: d);
  gzip_decompress := λ d, match d with _ :: z => inr z | [] => inl "EOF" end;
|}.

Lemma toy_json_same m : valid_utf8 (m_MsgId m) = true → same_message (toy_json m) m.
Proof.
  unfold toy_json, same_message, canonical, set_Headers. destruct m as [??????? [h|] ???]; cbn; intros Hid;
    [case_decide; cbn|]; rewrite Hid; cbn; by subst.
Qed.

Lemma wire_ok_id m : wire_ok m = true → valid_utf8 (m_MsgId m) = true.
Proof. unfold wire_ok. rewrite !andb_true_iff. tauto. Qed.

Lemma toyWire_laws : WireLaws (H:=toyWire).
Proof.
  split; simpl.
  - intros m d Hm%wire_ok_id [= <-]. rewrite decode_encode. eauto using toy_json_same.
  - intros m d Hm%wire_ok_id. rewrite Hm. intros [= <-]. rewrite decode_encode. by eexists.
  - by intros d z [= <-].
Qed.



(** Without headers the receiver cannot tell nil from empty. *)
Example empty_headers_left_out :
  let m := set_Headers (Some ∅) zeroMessage in
  ∃ d, Encode (H:=toyWire) JSONConfig m = inr d ∧ Decode (H:=toyWire) JSONConfig d = inr zeroMessage.
Proof. eexists. split; vm_compute; reflexivity. Qed.

(** Frames marked zstd are not compressed: with the default configuration
    the payload follows the codec byte [0x22] as it was serialised. *)
Theorem default_config_uncompressed `{WireLib} (m : Message) (p : list Z) :
  proto_Marshal m = inr p → Encode (NewCodec DefaultConfig) m = inr (34%Z :: p).
Proof. intros E. unfold Encode, marshal. simpl. by rewrite E. Qed.

Lemma default_config_uncompressed_witness :
  Encode (H:=toyWire) (NewCodec DefaultConfig) zeroMessage = inr [34%Z; Z.pos (encode zeroMessage)].
Proof. apply (default_config_uncompressed (H:=toyWire)). reflexivity. Defined.
