(* ===== verification/Tcp.v ===== *)
(** * TCP framing ([gateway/internal/access/tcp/transport.go],
      [sdk/tcp/client.go])

    Both ends cut a byte stream into frames.  The network is the list of what
    arrives: a chunk of bytes or an error.  A call of [conn.Read] gets at most
    the 4096 bytes of its buffer of the first chunk and leaves the rest; when the
    list is used up, it blocks.  The gateway's frame is
    [magic(2) length(4) body], the SDK's is [magic(2) version(1) type(1)
    length(4) body]. *)

From stdpp Require Import base list strings numbers pretty.
From S2P Require Import Prelude Message.

(** What a call of [Read] comes to.  [OutOfFuel] means that the loop is still
    running after the given number of turns. *)
Inductive read_result (A : Type) : Type :=
  | Frame (a : A)
  | ReadErr (e : string)
  | Waiting
  | OutOfFuel.
Arguments Frame {A} a. Arguments ReadErr {A} e. Arguments Waiting {A}. Arguments OutOfFuel {A}.

(** What arrives on the connection, in order. *)
Definition network : Type := list (string + list Z).

(** [readBuf := make([]byte, 4096); n, err := conn.Read(readBuf)]; [None] blocks. *)
Definition readBuf_len : nat := 4096.
Definition conn_Read (net : network) : option ((string + list Z) * network) :=
  match net with
  | [] => None
  | inl e :: net' => Some (inl e, net')
  | inr chunk :: net' =>
      Some (inr (take readBuf_len chunk),
            if decide (length chunk ≤ readBuf_len) then net' else inr (drop readBuf_len chunk) :: net')
  end.

(** A bound on the calls that return. *)
Definition net_size (net : network) : nat :=
  sum_list_with (λ x, match x with inl _ => 1 | inr chunk => S (length chunk) end) net.

(** ** [encoding/binary], big endian *)
Definition put_be16 (n : Z) : list Z := [(n `div` 2 ^ 8) `mod` 2 ^ 8; n `mod` 2 ^ 8]%Z.
Definition put_be32 (n : Z) : list Z :=
  [(n `div` 2 ^ 24) `mod` 2 ^ 8; (n `div` 2 ^ 16) `mod` 2 ^ 8;
   (n `div` 2 ^ 8) `mod` 2 ^ 8; n `mod` 2 ^ 8]%Z.
Definition get_be (l : list Z) : Z := foldl (λ acc b, acc * 2 ^ 8 + b)%Z 0%Z l.

(** [buf[i:j]] *)
Definition slice (i j : nat) (buf : list Z) : list Z := take (j - i) (drop i buf).

(** The verb [%x] on a 16-bit number. *)
Definition hex_digit (d : Z) : string :=
  match String.get (Z.to_nat d) "0123456789abcdef" with Some c => String c "" | None => "" end.
Fixpoint hex_loop (fuel : nat) (n : Z) (acc : string) : string :=
  match fuel with
  | O => acc
  | S fuel' =>
      let acc := hex_digit (n `mod` 16) +:+ acc in
      if decide (n `div` 16 = 0)%Z then acc else hex_loop fuel' (n `div` 16) acc
  end.
Definition hex (n : Z) : string := hex_loop 4 n "".

Definition Magic : Z := 4660. (* 0x1234 *)
(** [4 << 20] *)
Definition MaxFrame : Z := Z.shiftl 4 20.

(** ** The gateway's end *)
Module Gateway.
Definition HeaderLen : nat := 6.

Fixpoint Read_loop (fuel : nat) (net : network) (packetBuf : list Z) :
    read_result (list Z) * network * list Z :=
  match fuel with
  | O => (OutOfFuel, net, packetBuf)
  | S fuel' =>
      if decide (length packetBuf < HeaderLen) then
        match conn_Read net with
        | None => (Waiting, [], packetBuf)
        | Some (inl e, net') => (ReadErr ("read tcp failed: " +:+ e), net', packetBuf)
        | Some (inr readBuf, net') => Read_loop fuel' net' (packetBuf ++ readBuf)
        end
      else if decide (get_be (slice 0 2 packetBuf) ≠ Magic) then
        (ReadErr "invalid magic byte", net, packetBuf)
      else
        let protobufLen := get_be (slice 2 6 packetBuf) in
        if decide (MaxFrame < protobufLen)%Z then
          (ReadErr ("protobuf body too large: " +:+ pretty protobufLen), net, packetBuf)
        else
          let totalPacketLen := HeaderLen + Z.to_nat protobufLen in
          if decide (length packetBuf < totalPacketLen) then Read_loop fuel' net packetBuf
          else (Frame (slice HeaderLen totalPacketLen packetBuf), net, drop totalPacketLen packetBuf)
  end.

Definition Read (fuel : nat) (ctx_err : error) (net : network) (packetBuf : list Z) :
    read_result (list Z) * network * list Z :=
  match ctx_err with
  | Some e => (ReadErr e, net, packetBuf)
  | None => Read_loop fuel net packetBuf
  end.

(** The bytes [Write] hands to the socket. *)
Definition packet (data : list Z) : list Z :=
  put_be16 Magic ++ put_be32 (u32 (Z.of_nat (length data))) ++ data.

(** [Write]: the error, and the bytes sent on the socket [out].  A failing
    [conn.Write] reports its error and how many bytes went out. *)
Definition Write (ctx_err : error) (conn_err : option (string * nat)) (data out : list Z) :
    error * list Z :=
  match ctx_err with
  | Some e => (Some e, out)
  | None =>
      match conn_err with
      | Some (e, n) => (Some e, out ++ take n (packet data))
      | None => (None, out ++ packet data)
      end
  end.
End Gateway.

(** ** The SDK's end *)
Module Sdk.
Definition HeaderLen : nat := 8.
(** [1024 * 1024] *)
Definition MaxBodyLen : Z := 1048576.
Definition Version : Z := 1.

Section transport.
(** [ClientSignal] and its protobuf encoding are generated code. *)
Context {Signal : Type} (Marshal : Signal → string + list Z) (Unmarshal : list Z → string + Signal).

Definition read_error (e : string) : string :=
  if decide (e = "EOF") then "connection closed" else "read tcp failed: " +:+ e.

Fixpoint Read_loop (fuel : nat) (ctx_err : error) (net : network) (packetBuf : list Z) :
    read_result Signal * network * list Z :=
  match fuel with
  | O => (OutOfFuel, net, packetBuf)
  | S fuel' =>
      match ctx_err with
      | Some e => (ReadErr e, net, packetBuf)
      | None =>
          let more :=
            match conn_Read net with
            | None => (Waiting, [], packetBuf)
            | Some (inl e, net') => (ReadErr (read_error e), net', packetBuf)
            | Some (inr readBuf, net') => Read_loop fuel' ctx_err net' (packetBuf ++ readBuf)
            end in
          if decide (length packetBuf < HeaderLen) then more
          else if decide (get_be (slice 0 2 packetBuf) ≠ Magic) then
            (ReadErr ("invalid magic: 0x" +:+ hex (get_be (slice 0 2 packetBuf))), net, packetBuf)
          else
            let protobufLen := get_be (slice 4 8 packetBuf) in
            if decide (MaxBodyLen < protobufLen)%Z then
              (ReadErr ("protobuf body too large: " +:+ pretty protobufLen), net, packetBuf)
            else
              let totalPacketLen := HeaderLen + Z.to_nat protobufLen in
              if decide (length packetBuf < totalPacketLen) then more
              else
                let rest := drop totalPacketLen packetBuf in
                match Unmarshal (slice HeaderLen totalPacketLen packetBuf) with
                | inl e => (ReadErr ("unmarshal protobuf failed: " +:+ e), net, rest)
                | inr signal => (Frame signal, net, rest)
                end
      end
  end.

(** Every turn that does not return makes the network smaller. *)
Definition Read (ctx_err : error) (net : network) (packetBuf : list Z) :
    read_result Signal * network * list Z :=
  Read_loop (S (net_size net)) ctx_err net packetBuf.

Definition packet (protobufBody : list Z) : list Z :=
  put_be16 Magic ++ [Version; 0%Z] ++ put_be32 (u32 (Z.of_nat (length protobufBody))) ++ protobufBody.

Definition Write (ctx_err : error) (conn_err : option (string * nat)) (signal : Signal)
    (out : list Z) : error * list Z :=
  match ctx_err with
  | Some e => (Some e, out)
  | None =>
      match Marshal signal with
      | inl e => (Some ("marshal protobuf failed: " +:+ e), out)
      | inr protobufBody =>
          match conn_err with
          | Some (e, n) => (Some ("write tcp failed: " +:+ e), out ++ take n (packet protobufBody))
          | None => (None, out ++ packet protobufBody)
          end
      end
  end.
End transport.
End Sdk.

(** ** Headers *)
Lemma get_put_be32 n : (0 ≤ n < 2 ^ 32)%Z → get_be (put_be32 n) = n.
Proof. intros Hn. unfold get_be, put_be32. simpl foldl. Z.div_mod_to_equations. lia. Qed.

Lemma slice_app_r i j a b : length a ≤ i → slice i j (a ++ b) = slice (i - length a) (j - length a) b.
Proof.
  intros. unfold slice. rewrite drop_app_ge by done.
  f_equal. lia.
Qed.

Lemma slice_prefix i j a b : j ≤ length a → slice i j (a ++ b) = slice i j a.
Proof.
  intros Hj. destruct (decide (i ≤ j)).
  - unfold slice. rewrite drop_app_le by lia. rewrite take_app_le; [done|].
    rewrite length_drop. lia.
  - unfold slice. by replace (j - i) with 0 by lia.
Qed.

Lemma slice_app_l j a b : j = length a → slice 0 j (a ++ b) = a.
Proof. intros ->. unfold slice. rewrite drop_0, Nat.sub_0_r. apply take_app_length. Qed.

Lemma length_put_be16 n : length (put_be16 n) = 2.
Proof. reflexivity. Qed.
Lemma length_put_be32 n : length (put_be32 n) = 4.
Proof. reflexivity. Qed.

(** ** The gateway reads back what the gateway writes *)
Section gateway_framing.
Import Gateway.

Lemma length_packet data : length (packet data) = HeaderLen + length data.
Proof. unfold packet. rewrite !length_app, length_put_be16, length_put_be32. done. Qed.

Lemma packet_header data rest : (Z.of_nat (length data) ≤ MaxFrame)%Z →
  get_be (slice 0 2 (packet data ++ rest)) = Magic ∧
  get_be (slice 2 6 (packet data ++ rest)) = Z.of_nat (length data).
Proof.
  intros Hlen. unfold packet. rewrite <-!app_assoc. split; [done|].
  rewrite slice_app_r by done. rewrite length_put_be16. rewrite slice_app_l by done.
  assert (MaxFrame = 4194304)%Z as E by reflexivity.
  unfold u32. rewrite Z.mod_small by lia. apply get_put_be32. lia.
Qed.

(** A whole frame in the buffer is returned at once, the rest is kept. *)
Lemma Read_whole_frame fuel net data rest : (Z.of_nat (length data) ≤ MaxFrame)%Z →
  Read_loop (S fuel) net (packet data ++ rest) = (Frame data, net, rest).
Proof.
  intros Hlen. destruct (packet_header data rest Hlen) as [Hm Hl]. cbn [Read_loop].
  rewrite decide_False by (rewrite length_app, length_packet; lia).
  rewrite Hm, Hl. rewrite decide_False by (intros []; done). rewrite decide_False by lia.
  rewrite Nat2Z.id. rewrite decide_False by (rewrite length_app, length_packet; lia).
  f_equal; [f_equal; f_equal|].
  - unfold packet. rewrite app_assoc, <-(app_assoc _ data rest).
    rewrite slice_app_r by done. simpl length. rewrite Nat.sub_diag.
    apply slice_app_l. unfold HeaderLen. lia.
  - rewrite <-(length_packet data). apply drop_app_length.
Qed.

(** As long as the header is short, a piece is appended. *)
Lemma Read_fill fuel c net buf : length buf < HeaderLen → length c ≤ readBuf_len →
  Read_loop (S fuel) (inr c :: net) buf = Read_loop fuel net (buf ++ c).
Proof.
  intros Hb Hc. cbn [Read_loop conn_Read]. rewrite decide_True by done. by rewrite decide_True, take_ge.
Qed.

(** A complete header before an incomplete body: nothing is read any more. *)
Lemma Read_spins fuel net buf : HeaderLen ≤ length buf →
  get_be (slice 0 2 buf) = Magic → (get_be (slice 2 6 buf) ≤ MaxFrame)%Z →
  length buf < HeaderLen + Z.to_nat (get_be (slice 2 6 buf)) →
  Read_loop fuel net buf = (OutOfFuel, net, buf).
Proof.
  intros Hh Hm Hl Hp. induction fuel as [|fuel IH]; [done|]. cbn [Read_loop].
  rewrite decide_False by lia. rewrite decide_False by (intros []; done).
  rewrite decide_False by lia. rewrite decide_True by done. done.
Qed.

(** [n] successive calls of [Read] on the same transport, on pieces that fit its
    buffer. *)
Fixpoint read_frames (n : nat) (net : network) (buf : list Z) : list (read_result (list Z)) * network * list Z :=
  match n with
  | O => ([], net, buf)
  | S n' =>
      let '(r, net1, buf1) := Read (S (length net)) None net buf in
      let '(rs, net2, buf2) := read_frames n' net1 buf1 in (r :: rs, net2, buf2)
  end.

(** The stream is cut after the header of a frame and before its end: some call
    of [conn.Read] ended there.  The frame starts at [a] and has [len] bytes. *)
Definition cut_at (cs : list (list Z)) (a len : nat) : bool :=
  existsb (λ k, let b := length (concat (take k cs)) in
    (a + HeaderLen <=? b) && (b <? a + HeaderLen + len)) (seq 0 (S (length cs))).
Definition starts_at (frames : list (list Z)) : nat := length (concat (packet <$> frames)).

Lemma cut_at_spec cs a len : cut_at cs a len = true ↔
  ∃ p q, cs = p ++ q ∧ a + HeaderLen ≤ length (concat p) < a + HeaderLen + len.
Proof.
  unfold cut_at. rewrite existsb_exists. split.
  - intros (k & _ & [H1%Nat.leb_le H2%Nat.ltb_lt]%andb_true_iff).
    exists (take k cs), (drop k cs). by rewrite take_drop.
  - intros (p & q & -> & H1 & H2). exists (length p). rewrite take_app_length. split.
    + apply in_seq. rewrite length_app. lia.
    + by apply andb_true_iff; rewrite Nat.leb_le, Nat.ltb_lt.
Qed.

(** What has been read when the header of the frame at [a] is complete: [p] is
    the first cut of the stream from there on. *)
Definition first_cut (a : nat) (p : list (list Z)) : Prop :=
  ∀ p1 p2, p = p1 ++ p2 → p2 ≠ [] → length (concat p1) < a + HeaderLen.

Lemma first_cut_step a p c : length (concat p) < a + HeaderLen → first_cut a (p ++ [c]).
Proof.
  intros Hp p1 p2 E Hne. destruct p2 as [|x p2 _] using rev_ind; [done|].
  rewrite app_assoc in E. apply app_inj_tail in E as [-> ->].
  rewrite concat_app, length_app in Hp. lia.
Qed.

Lemma fill_header a cs : ∀ p, Forall (λ c, length c ≤ readBuf_len) cs → first_cut a p → a ≤ length (concat p) →
  a + HeaderLen ≤ length (concat (p ++ cs)) →
  ∃ r cs', cs = r ++ cs' ∧ first_cut a (p ++ r) ∧ a + HeaderLen ≤ length (concat (p ++ r)) ∧
    (∀ fuel, Read_loop (length r + fuel) (inr <$> cs) (drop a (concat p)) =
             Read_loop fuel (inr <$> cs') (drop a (concat (p ++ r)))) ∧
    (∀ fuel, fuel < length r → (Read_loop fuel (inr <$> cs) (drop a (concat p))).1.1 = OutOfFuel).
Proof.
  induction cs as [|c cs IH]; intros p Hall Hf Ha Hlen.
  - rewrite app_nil_r in Hlen. exists [], []. rewrite !app_nil_r. split_and!; try done. intros fuel Hlt. cbn in Hlt. lia.
  - destruct (decide (a + HeaderLen ≤ length (concat p))) as [Hd|Hd].
    { exists [], (c :: cs). rewrite !app_nil_r. split_and!; try done. intros fuel Hlt. cbn in Hlt. lia. }
    apply Forall_cons in Hall as [Hc Hall].
    destruct (IH (p ++ [c]) Hall) as (r & cs' & -> & Hf' & Ha' & Hrun & Hout).
    { apply first_cut_step. lia. } { rewrite concat_app, length_app. lia. } { by rewrite <-app_assoc. }
    assert (drop a (concat p) ++ c = drop a (concat (p ++ [c]))) as Eb.
    { rewrite concat_app. cbn. rewrite app_nil_r. by rewrite drop_app_le. }
    assert (length (drop a (concat p)) < HeaderLen) as Hshort by (rewrite length_drop; lia).
    rewrite <-app_assoc in Hf', Ha', Hrun. exists (c :: r), cs'. split_and!; [done..| |].
    + intros fuel. cbn [length Nat.add fmap list_fmap]. rewrite Read_fill by done. rewrite Eb. apply Hrun.
    + intros [|fuel] Hlt; [done|]. cbn [fmap list_fmap]. rewrite Read_fill by done. rewrite Eb. apply Hout.
      cbn in Hlt. lia.
Qed.

(** One call of [Read] at the start of a frame. *)
Section one_frame.
Context (p cs : list (list Z)) (before d after : list Z).
Context (Hall : Forall (λ c, length c ≤ readBuf_len) (p ++ cs)) (Hd : (Z.of_nat (length d) ≤ MaxFrame)%Z).
Context (Estream : concat (p ++ cs) = before ++ packet d ++ after).
Let a := length before.
Context (Hfirst : first_cut a p) (Ha : a ≤ length (concat p)).

(** The pieces read before the body is there decide. *)
Lemma first_cut_decides p' cs' : p ++ cs = p' ++ cs' → first_cut a p' → a + HeaderLen ≤ length (concat p') →
  cut_at (p ++ cs) a (length d) = true ↔ length (concat p') < a + HeaderLen + length d.
Proof using.
  clear. intros E Hf' Ha'. rewrite cut_at_spec. split.
  - intros (q & r & Eq & H1 & H2). destruct (decide (length (concat p') < a + HeaderLen + length d)) as [|Hge]; [done|].
    rewrite E in Eq. apply app_eq_inv in Eq as [(l & -> & _)|(l & -> & _)].
    + destruct (decide (l = [])) as [->|Hl0]; [rewrite app_nil_r in *; lia|].
      specialize (Hf' q l eq_refl Hl0). lia.
    + rewrite concat_app, length_app in H2. lia.
  - intros Hlt. exists p', cs'. done.
Qed.

(** A body of the buffer's size or more does not come with its header in one
    piece. *)
Lemma large_is_cut p' cs' : p ++ cs = p' ++ cs' → first_cut a p' → a + HeaderLen ≤ length (concat p') →
  readBuf_len ≤ length d → cut_at (p ++ cs) a (length d) = true.
Proof using Ha Hall.
  intros E Hf' Ha' Hbig. apply (first_cut_decides p' cs' E Hf' Ha').
  destruct p' as [|c p'' _] using rev_ind; [unfold HeaderLen in Ha'; cbn in Ha'; lia|].
  specialize (Hf' p'' [c] eq_refl ltac:(done)). rewrite concat_app, length_app. cbn [concat]. rewrite app_nil_r.
  rewrite E in Hall. apply Forall_app in Hall as [[_ [Hc _]%Forall_cons]%Forall_app _].
  unfold HeaderLen in Hf', Ha' |- *. lia.
Qed.

Lemma one_frame : ∃ r cs', cs = r ++ cs' ∧ first_cut (a + HeaderLen + length d) (p ++ r) ∧
  (readBuf_len ≤ length d → cut_at (p ++ cs) a (length d) = true) ∧
  if cut_at (p ++ cs) a (length d)
  then ∀ fuel, (Read_loop fuel (inr <$> cs) (drop a (concat p))).1.1 = OutOfFuel
  else a + HeaderLen + length d ≤ length (concat (p ++ r)) ∧
       ∀ fuel, length cs < fuel →
         Read_loop fuel (inr <$> cs) (drop a (concat p)) =
           (Frame d, inr <$> cs', drop (a + HeaderLen + length d) (concat (p ++ r))).
Proof using Estream Ha Hall Hd Hfirst.
  pose proof Hall as [_ Hcs]%Forall_app.
  destruct (fill_header a cs p Hcs Hfirst Ha) as (r & cs' & E & Hf' & Ha' & Hrun & Hout).
  { rewrite Estream, !length_app, length_packet. unfold a. lia. }
  assert (p ++ cs = (p ++ r) ++ cs') as E' by (by rewrite E, app_assoc).
  pose proof (first_cut_decides _ _ E' Hf' Ha') as Hcut. pose proof (large_is_cut _ _ E' Hf' Ha') as Hlarge.
  set (buf := drop a (concat (p ++ r))) in *.
  assert (buf ++ concat cs' = packet d ++ after) as Ebuf.
  { unfold buf. rewrite <-drop_app_le by lia. rewrite <-concat_app, <-E', Estream. apply drop_app_length. }
  assert (length buf = length (concat (p ++ r)) - a) as Hlb by (unfold buf; apply length_drop).
  destruct (packet_header d after Hd) as [Hm Hl]. rewrite <-Ebuf in Hm, Hl.
  unfold HeaderLen in Ha'. rewrite slice_prefix in Hm, Hl by lia.
  exists r, cs'. split_and!; [done| |done|].
  - intros p1 p2 E1 Hne. specialize (Hf' p1 p2 E1 Hne). lia.
  - destruct (cut_at (p ++ cs) a (length d)) eqn:Ec.
    + assert (length (concat (p ++ r)) < a + HeaderLen + length d) as Hlt by (by apply Hcut).
      intros fuel. destruct (decide (fuel < length r)); [by apply Hout|].
      replace fuel with (length r + (fuel - length r)) by lia. rewrite Hrun, Read_spins; try done.
      * unfold HeaderLen. lia.
      * by rewrite Hl.
      * rewrite Hl, Nat2Z.id. lia.
    + assert (a + HeaderLen + length d ≤ length (concat (p ++ r))) as Hge.
      { destruct (decide (length (concat (p ++ r)) < a + HeaderLen + length d)) as [Hlt|]; [|lia].
        apply Hcut in Hlt. congruence. }
      split; [done|]. intros fuel Hfuel. rewrite E, length_app in Hfuel.
      replace fuel with (length r + S (fuel - length r - 1)) by lia. rewrite Hrun.
      assert (buf = packet d ++ drop (a + HeaderLen + length d) (concat (p ++ r))) as ->.
      { rewrite <-(take_drop (length (packet d)) buf) at 1. f_equal.
        - apply (f_equal (take (length (packet d)))) in Ebuf. rewrite take_app_length in Ebuf.
          rewrite take_app_le in Ebuf; [done|]. rewrite length_packet. lia.
        - unfold buf. rewrite drop_drop, length_packet. f_equal. lia. }
      by apply Read_whole_frame.
Qed.
End one_frame.

(** All frames that are not cut, one after the other. *)
Lemma uncut_frames ds : ∀ p cs before after,
  Forall (λ c, length c ≤ readBuf_len) (p ++ cs) → Forall (λ d, Z.of_nat (length d) ≤ MaxFrame)%Z ds →
  concat (p ++ cs) = before ++ concat (packet <$> ds) ++ after →
  first_cut (length before) p → length before ≤ length (concat p) →
  (∀ ds1 d ds2, ds = ds1 ++ d :: ds2 → cut_at (p ++ cs) (length before + starts_at ds1) (length d) = false) →
  ∃ p' cs', p ++ cs = p' ++ cs' ∧
    read_frames (length ds) (inr <$> cs) (drop (length before) (concat p)) =
      (Frame <$> ds, inr <$> cs', drop (length before + starts_at ds) (concat p')) ∧
    first_cut (length before + starts_at ds) p' ∧ length before + starts_at ds ≤ length (concat p').
Proof.
  induction ds as [|d ds IH]; intros p cs before after Hall Hds E Hf Ha Hcut.
  { exists p, cs. unfold starts_at. cbn. rewrite Nat.add_0_r. done. }
  apply Forall_cons in Hds as [Hd Hds]. cbn [fmap list_fmap concat] in E. rewrite <-app_assoc in E.
  destruct (one_frame p cs before d (concat (packet <$> ds) ++ after) Hall Hd E Hf Ha)
    as (r & cs' & -> & Hf' & _ & Hrun).
  pose proof (Hcut [] d ds eq_refl) as H0. change (starts_at []) with 0 in H0. rewrite Nat.add_0_r in H0.
  rewrite H0 in Hrun. destruct Hrun as [Ha' Hrun].
  rewrite (app_assoc p r cs') in Hall, E, Hcut |- *.
  assert (length (before ++ packet d) = length before + HeaderLen + length d) as El
    by (rewrite length_app, length_packet; lia).
  destruct (IH (p ++ r) cs' (before ++ packet d) after) as (p' & cs2 & E2 & Hr2 & Hf2 & Ha2).
  { done. } { done. } { by rewrite <-(app_assoc before). } { by rewrite El. } { by rewrite El. }
  { intros ds1 d1 ds2 ->. specialize (Hcut (d :: ds1) d1 ds2 eq_refl). unfold starts_at in *.
    cbn [fmap list_fmap concat] in Hcut. rewrite length_app, length_packet in Hcut. rewrite El.
    rewrite <-Hcut. f_equal. lia. }
  exists p', cs2. split; [done|]. unfold starts_at in *. cbn [fmap list_fmap concat]. rewrite length_app, length_packet.
  rewrite El in Hr2, Hf2, Ha2. rewrite !Nat.add_assoc. split_and!; [|done|done].
  cbn [length read_frames Read]. rewrite Hrun by (rewrite length_fmap; lia).
  by rewrite Hr2.
Qed.
End gateway_framing.

(** ** The SDK reassembles a frame from any chunks *)
Section sdk_framing.
Import Sdk.
Context {Signal : Type} (Marshal : Signal → string + list Z) (Unmarshal : list Z → string + Signal).

Lemma sdk_length_packet body : length (packet body) = HeaderLen + length body.
Proof. unfold packet. rewrite !length_app, length_put_be16, length_put_be32. done. Qed.

Lemma sdk_packet_header body rest : (Z.of_nat (length body) ≤ MaxBodyLen)%Z →
  get_be (slice 0 2 (packet body ++ rest)) = Magic ∧
  get_be (slice 4 8 (packet body ++ rest)) = Z.of_nat (length body).
Proof.
  intros Hlen. unfold packet. rewrite <-!app_assoc. split; [done|].
  unfold MaxBodyLen in Hlen.
  rewrite !slice_app_r by (simpl; lia). simpl Nat.sub.
  rewrite slice_app_l by done. unfold u32. rewrite Z.mod_small by lia. apply get_put_be32. lia.
Qed.

Lemma sdk_packet_split body rest :
  slice HeaderLen (HeaderLen + length body) (packet body ++ rest) = body ∧
  drop (HeaderLen + length body) (packet body ++ rest) = rest.
Proof.
  split.
  - unfold packet. rewrite !app_assoc, <-(app_assoc _ body rest).
    rewrite slice_app_r by done. simpl length. rewrite Nat.sub_diag.
    apply slice_app_l. unfold HeaderLen. lia.
  - rewrite <-(sdk_length_packet body). apply drop_app_length.
Qed.

(** A buffer that is a prefix of the stream either lets [Read] return or
    makes it ask for more. *)
Lemma Read_loop_turn fuel net buf more body rest signal :
  buf ++ more = packet body ++ rest →
  (Z.of_nat (length body) ≤ MaxBodyLen)%Z → Unmarshal body = inr signal →
  Read_loop Unmarshal (S fuel) None net buf =
    if decide (length buf < HeaderLen + length body) then
      match conn_Read net with
      | None => (Waiting, [], buf)
      | Some (inl e, net') => (ReadErr (read_error e), net', buf)
      | Some (inr readBuf, net') => Read_loop Unmarshal fuel None net' (buf ++ readBuf)
      end
    else (Frame signal, net, drop (HeaderLen + length body) buf).
Proof.
  intros E Hlen Hu. cbn [Read_loop].
  destruct (decide (length buf < HeaderLen)) as [|Hh]; [rewrite decide_True by lia; done|].
  destruct (sdk_packet_header body rest Hlen) as [Hm Hl]. rewrite <-E in Hm, Hl.
  unfold HeaderLen in Hh. rewrite slice_prefix in Hm, Hl by lia. rewrite Hm, Hl.
  rewrite decide_False by (intros []; done). rewrite decide_False by lia. rewrite Nat2Z.id.
  case_decide as D; [done|].
  destruct (sdk_packet_split body rest) as [Hs _]. rewrite <-E, slice_prefix in Hs by lia.
  by rewrite Hs, Hu.
Qed.

(** What a call of [conn.Read] takes of the chunks, it does not leave. *)
Lemma conn_Read_chunks (c : list Z) (chunks : list (list Z)) : ∃ readBuf chunks',
  conn_Read (inr <$> c :: chunks) = Some (inr readBuf, inr <$> chunks') ∧
  readBuf ++ concat chunks' = concat (c :: chunks) ∧
  net_size (inr <$> chunks') < net_size (inr <$> c :: chunks).
Proof.
  cbn [fmap list_fmap conn_Read net_size sum_list_with]. case_decide as Hc.
  - exists c, chunks. rewrite take_ge by done. split_and!; [done..|]. unfold net_size. lia.
  - exists (take readBuf_len c), (drop readBuf_len c :: chunks). split_and!; [done| |].
    + cbn [concat]. by rewrite app_assoc, take_drop.
    + cbn [net_size sum_list_with fmap list_fmap]. rewrite length_drop. unfold readBuf_len in *. lia.
Qed.

Lemma Read_loop_reassembles (chunks : list (list Z)) buf body rest signal fuel :
  net_size (inr <$> chunks) < fuel → buf ++ concat chunks = packet body ++ rest →
  (Z.of_nat (length body) ≤ MaxBodyLen)%Z → Unmarshal body = inr signal →
  ∃ chunks' buf', Read_loop Unmarshal fuel None (inr <$> chunks) buf =
    (Frame signal, inr <$> chunks', buf') ∧ buf' ++ concat chunks' = rest.
Proof.
  intros Hf E Hlen Hu. revert chunks buf Hf E.
  induction fuel as [|fuel IH]; intros chunks buf Hf E; [lia|].
  rewrite (Read_loop_turn _ _ _ _ _ _ _ E Hlen Hu). case_decide as D.
  - destruct chunks as [|c chunks].
    { apply (f_equal length) in E. rewrite !length_app, sdk_length_packet in E. cbn [concat length] in E. lia. }
    destruct (conn_Read_chunks c chunks) as (readBuf & chunks' & -> & Ec & Hlt).
    apply IH; [lia|]. by rewrite <-app_assoc, Ec.
  - exists chunks, (drop (HeaderLen + length body) buf). split; [done|].
    rewrite <-drop_app_le by lia. rewrite E. apply sdk_packet_split.
Qed.
End sdk_framing.

(** ** Claims *)

(** C22.  Which frames the gateway's [Read] returns, exactly.  Whatever pieces the
    calls of [conn.Read] cut the stream into, each of at most the 4096 bytes of
    their buffer: successive calls of [Read] return the frames (of at most
    [MaxFrame] bytes), in order and unchanged - however many arrive in one piece,
    and also when their headers are cut - up to the first frame for which a piece
    ended after its header and before its end.  There [Read] never returns,
    whatever number of turns it is given and whatever has arrived.  Every frame
    of 4096 bytes or more is such a frame. *)
Theorem tcp_reads_until_cut (ds : list (list Z)) (d rest : list Z) (cs : list (list Z)) :
  Forall (λ c, length c ≤ readBuf_len) cs →
  Forall (λ d, Z.of_nat (length d) ≤ MaxFrame)%Z ds → (Z.of_nat (length d) ≤ MaxFrame)%Z →
  concat cs = concat (Gateway.packet <$> ds) ++ Gateway.packet d ++ rest →
  (∀ ds1 d1 ds2, ds = ds1 ++ d1 :: ds2 → cut_at cs (starts_at ds1) (length d1) = false) →
  ∃ net buf, read_frames (length ds) (inr <$> cs) [] = (Frame <$> ds, net, buf) ∧
    (if cut_at cs (starts_at ds) (length d)
     then ∀ fuel, (Gateway.Read fuel None net buf).1.1 = OutOfFuel
     else (Gateway.Read (S (length net)) None net buf).1.1 = Frame d) ∧
    (readBuf_len ≤ length d → cut_at cs (starts_at ds) (length d) = true).
Proof.
  intros Hall Hds Hd E Hcut.
  destruct (uncut_frames ds [] cs [] (Gateway.packet d ++ rest) Hall Hds E) as (p & cs' & E2 & Hr & Hf & Ha).
  { intros p1 p2 [-> ->]%eq_sym%app_eq_nil Hne. done. } { cbn. lia. } { exact Hcut. }
  change ([] ++ cs) with cs in E2. subst cs. change (drop (length []) (concat [])) with (@nil Z) in Hr. cbn [length Nat.add] in Hr, Hf, Ha.
  eexists _, _. split; [exact Hr|].
  destruct (one_frame p cs' (concat (Gateway.packet <$> ds)) d rest Hall Hd E Hf Ha) as (r & cs2 & -> & _ & Hbig & Hrun).
  unfold starts_at. split; [|exact Hbig]. destruct (cut_at _ _ _); [exact Hrun|].
  destruct Hrun as [_ Hrun]. cbn [Gateway.Read]. rewrite Hrun by (rewrite length_fmap; lia). done.
Qed.

(** Two frames in pieces: the first header is cut, and the second frame after its
    header. *)
Lemma tcp_reads_until_cut_witness : ∃ net buf,
  read_frames 1 (inr <$> [[18]; [52; 0; 0; 0; 1; 7; 18; 52; 0; 0; 0; 2; 8]; [9]]%Z) [] = ([Frame [7%Z]], net, buf) ∧
  ∀ fuel, (Gateway.Read fuel None net buf).1.1 = OutOfFuel.
Proof.
  destruct (tcp_reads_until_cut [[7%Z]] [8; 9]%Z [] [[18]; [52; 0; 0; 0; 1; 7; 18; 52; 0; 0; 0; 2; 8]; [9]]%Z)
    as (net & buf & Hr & Hs & _).
  - repeat constructor; unfold readBuf_len; cbn; lia.
  - repeat constructor; vm_compute; done.
  - vm_compute. done.
  - reflexivity.
  - intros [|x ds1] d1 ds2 E.
    + injection E as <- <-. vm_compute. reflexivity.
    + injection E as _ E. destruct ds1; discriminate E.
  - exists net, buf. split; [exact Hr|]. exact Hs.
Defined.

(** A frame whose header is buffered but whose body is not complete makes
    the gateway's [Read] loop for ever: whatever number of turns it is given
    and whatever the network still holds, it does not return and does not read
    the connection again. *)
Theorem tcp_partial_body_spins (fuel : nat) (net : network) (buf : list Z) :
  Gateway.HeaderLen ≤ length buf →
  get_be (slice 0 2 buf) = Magic → (get_be (slice 2 6 buf) ≤ MaxFrame)%Z →
  length buf < Gateway.HeaderLen + Z.to_nat (get_be (slice 2 6 buf)) →
  Gateway.Read fuel None net buf = (OutOfFuel, net, buf).
Proof. apply Read_spins. Qed.

Lemma tcp_partial_body_spins_witness :
  Gateway.Read 1000 None [inr [8%Z]] [18; 52; 0; 0; 0; 2; 7]%Z
    = (OutOfFuel, [inr [8%Z]], [18; 52; 0; 0; 0; 2; 7]%Z).
Proof.
  apply tcp_partial_body_spins; [vm_compute; lia|reflexivity|vm_compute; done|vm_compute; lia].
Defined.

(** The SDK's [Read] reassembles a frame from any sequence of chunks,
    however the stream was cut, and keeps what follows the frame. *)
Theorem sdk_read_reassembles {Signal : Type} (Unmarshal : list Z → string + Signal)
    (chunks : list (list Z)) (buf body rest : list Z) (signal : Signal) :
  buf ++ concat chunks = Sdk.packet body ++ rest →
  (Z.of_nat (length body) ≤ Sdk.MaxBodyLen)%Z → Unmarshal body = inr signal →
  ∃ chunks' buf', Sdk.Read Unmarshal None (inr <$> chunks) buf =
    (Frame signal, inr <$> chunks', buf') ∧ buf' ++ concat chunks' = rest.
Proof.
  intros E Hlen Hu. apply (Read_loop_reassembles Unmarshal chunks buf body rest signal); try done. lia.
Qed.

Lemma sdk_read_reassembles_witness :
  ∃ chunks' buf', Sdk.Read inr None (inr <$> [[18; 52; 1]; [0; 0; 0]; [0; 2; 7]; [8; 18]]%Z) [] =
    (Frame [7; 8]%Z, inr <$> chunks', buf') ∧ buf' ++ concat chunks' = [18%Z].
Proof. apply (sdk_read_reassembles inr _ _ [7; 8]%Z); [reflexivity|vm_compute; done|reflexivity]. Defined.

(** The two ends do not speak the same framing: whatever the SDK sends,
    the gateway takes the SDK's version and type bytes for the top of the
    length and refuses the frame as too large. *)
Theorem sdk_frame_refused_by_gateway (fuel : nat) (net : network) (body rest : list Z) :
  ∃ n, (MaxFrame < n)%Z ∧
    Gateway.Read (S fuel) None net (Sdk.packet body ++ rest) =
      (ReadErr ("protobuf body too large: " +:+ pretty n), net, Sdk.packet body ++ rest).
Proof.
  exists (get_be (slice 2 6 (Sdk.packet body ++ rest))).
  set (n := u32 (Z.of_nat (length body))).
  assert (get_be (slice 2 6 (Sdk.packet body ++ rest)) =
    2 ^ 24 + (n `div` 2 ^ 24) `mod` 2 ^ 8 * 2 ^ 8 + (n `div` 2 ^ 16) `mod` 2 ^ 8)%Z as E.
  { subst n. change (slice 2 6 (Sdk.packet body ++ rest)) with
      [1; 0; (u32 (Z.of_nat (length body)) `div` 2 ^ 24) `mod` 2 ^ 8;
       (u32 (Z.of_nat (length body)) `div` 2 ^ 16) `mod` 2 ^ 8]%Z.
    unfold get_be. cbn [foldl]. lia. }
  assert (MaxFrame < get_be (slice 2 6 (Sdk.packet body ++ rest)))%Z as Hbig.
  { rewrite E. change MaxFrame with 4194304%Z.
    pose proof (Z.mod_pos_bound (n `div` 2 ^ 24) (2 ^ 8) ltac:(lia)).
    pose proof (Z.mod_pos_bound (n `div` 2 ^ 16) (2 ^ 8) ltac:(lia)). lia. }
  split; [done|]. cbn [Gateway.Read Gateway.Read_loop].
  rewrite decide_False by (rewrite length_app, sdk_length_packet; unfold Sdk.HeaderLen, Gateway.HeaderLen; lia).
  change (get_be (slice 0 2 (Sdk.packet body ++ rest))) with Magic.
  rewrite decide_False by (intros []; done). by rewrite decide_True.
Qed.
