(* ===== verification/Router.v ===== *)
(** * The local router ([gateway/internal/router/local.go])

    Three indexes from an address to the sessions behind it: user fan-out,
    rooms and topics, plus the device index used to kick.  The router is
    written against the interface [SessionTarget]; here it is parametric in
    the type of targets and in what they answer about their identity.

    Iterating over a Go map is unordered: the order is the parameter
    [map_range], of which only a permutation law is known. *)

From stdpp Require Import base list gmap strings numbers.
From S2P Require Import Prelude.

(** ** [for k, v := range m] *)
Class MapRange : Type := {
  map_range {V : Type} : gmap string V → list (string * V);
  map_range_perm {V : Type} (m : gmap string V) : map_range m ≡ₚ map_to_list m;
}.

(** The order of stdpp's maps, to run the definitions. *)
Definition canonical_range : MapRange :=
  {| map_range := λ V m, map_to_list m; map_range_perm := λ V m, reflexivity _ |}.

(** [types.SessionTarget]: the identity of a session. *)
Class SessionTarget (T : Type) : Type := {
  SessionID : T → string;
  UserID : T → string;
  DeviceID : T → string;
}.

Record LocalRouter (T : Type) := mkRouter {
  userConns : gmap string (gmap string T);
  deviceConn : gmap string T;
  rooms : gmap string (gmap string T);
  topics : gmap string (gmap string T);
}.
Arguments mkRouter {T}. Arguments userConns {T}. Arguments deviceConn {T}.
Arguments rooms {T}. Arguments topics {T}.

(** ** Two-level indexes *)
Section index.
Context {T : Type}.
Implicit Types ix : gmap string (gmap string T).

(** [if m[a] == nil { m[a] = make(...) }; m[a][k] = t] *)
Definition index_add (a k : string) (t : T) ix : gmap string (gmap string T) :=
  <[a := <[k := t]> (default ∅ (ix !! a))]> ix.

(** [if m, ok := ix[a]; ok { delete(m, k); if len(m) == 0 { delete(ix, a) } }] *)
Definition index_remove (a k : string) ix : gmap string (gmap string T) :=
  match ix !! a with
  | Some m => if decide (delete k m = ∅) then delete a ix else <[a := delete k m]> ix
  | None => ix
  end.

(** The inner loop of [UnregisterAll]: delete [k] from every inner map. *)
Definition index_purge (k : string) ix : gmap string (gmap string T) := delete k <$> ix.

(** The member of address [a] under key [k]. *)
Definition member ix (a k : string) : option T := ix !! a ≫= (.!! k).
End index.

Section router.
Context {T : Type} `{SessionTarget T} `{MapRange}.
Implicit Types r : LocalRouter T.

Definition NewLocalRouter : LocalRouter T := mkRouter ∅ ∅ ∅ ∅.

Definition set_rooms (ix : gmap string (gmap string T)) r : LocalRouter T :=
  mkRouter (userConns r) (deviceConn r) ix (topics r).
Definition set_topics (ix : gmap string (gmap string T)) r : LocalRouter T :=
  mkRouter (userConns r) (deviceConn r) (rooms r) ix.

(** The kicked session and the new router.  The argument [deviceID] of the
    source is not used by its body. *)
Definition RegisterSession (userID deviceID : string) (sess : T) r : option T * LocalRouter T :=
  let kicked :=
    match deviceConn r !! DeviceID sess with
    | Some old => if decide (SessionID old = SessionID sess) then Some old else None
    | None => None
    end in
  (kicked, mkRouter (index_add userID (DeviceID sess) sess (userConns r))
                    (<[DeviceID sess := sess]> (deviceConn r)) (rooms r) (topics r)).

Definition UnregisterSession (userID deviceID : string) r : LocalRouter T :=
  mkRouter (index_remove userID deviceID (userConns r)) (delete deviceID (deviceConn r))
           (rooms r) (topics r).

Definition JoinRoom (roomID : string) (sess : T) r : LocalRouter T :=
  set_rooms (index_add roomID (SessionID sess) sess (rooms r)) r.
Definition LeaveRoom (roomID : string) (sess : T) r : LocalRouter T :=
  set_rooms (index_remove roomID (SessionID sess) (rooms r)) r.
Definition Subscribe (topic : string) (sess : T) r : LocalRouter T :=
  set_topics (index_add topic (SessionID sess) sess (topics r)) r.
Definition Unsubscribe (topic : string) (sess : T) r : LocalRouter T :=
  set_topics (index_remove topic (SessionID sess) (topics r)) r.

Definition UnregisterAll (sess : T) r : LocalRouter T :=
  mkRouter (userConns r) (deviceConn r) (index_purge (SessionID sess) (rooms r))
           (index_purge (SessionID sess) (topics r)).

(** [for _, conn := range m { conns = append(conns, conn) }] for an address
    that may be missing. *)
Definition targets (m : option (gmap string T)) : list T :=
  match m with Some m => (map_range m).*2 | None => [] end.

Definition Resolve (to : string) r : list T * bool :=
  let conns := targets (userConns r !! to) ++ targets (rooms r !! to) ++ targets (topics r !! to) in
  match conns with
  | [] => ([], false)
  | _ => (conns, true)
  end.
End router.

(** ** Lemmas on the indexes *)
Section index_lemmas.
Context {T : Type}.
Implicit Types ix : gmap string (gmap string T).

Lemma member_add ix a k t a' k' :
  member (index_add a k t ix) a' k' = if decide (a' = a ∧ k' = k) then Some t else member ix a' k'.
Proof.
  unfold member, index_add. rewrite lookup_insert. case_decide as D; [subst a'; simpl|].
  - rewrite lookup_insert. case_decide as D'; [subst; by rewrite decide_True|].
    rewrite decide_False by naive_solver. by destruct (ix !! a).
  - by rewrite decide_False by naive_solver.
Qed.

Lemma member_remove ix a k a' k' :
  member (index_remove a k ix) a' k' = if decide (a' = a ∧ k' = k) then None else member ix a' k'.
Proof.
  unfold member, index_remove. destruct (ix !! a) as [m|] eqn:E.
  - assert (∀ (ix' : gmap string (gmap string T)),
      (∀ j, default ∅ (ix' !! a) !! j = delete k m !! j) → (∀ b, b ≠ a → ix' !! b = ix !! b) →
      (ix' !! a' ≫= (.!! k')) =
        (if decide (a' = a ∧ k' = k) then None else ix !! a' ≫= (.!! k'))) as Hgen.
    { intros ix' Ha Hb. destruct (decide (a' = a)) as [->|Hne].
      - rewrite E. simpl. specialize (Ha k').
        destruct (ix' !! a) as [m'|]; simpl in *; rewrite ?lookup_empty in Ha; rewrite Ha || rewrite <-Ha;
          rewrite lookup_delete; repeat case_decide; naive_solver.
      - rewrite Hb by done. rewrite decide_False by naive_solver. done. }
    destruct (decide (delete k m = ∅)) as [D|D]; apply Hgen.
    + intros j. by rewrite lookup_delete_eq, D.
    + intros b ?. by rewrite lookup_delete_ne.
    + intros j. by rewrite lookup_insert_eq.
    + intros b ?. by rewrite lookup_insert_ne.
  - case_decide as D; [|done]. destruct D as [-> ->]. by rewrite E.
Qed.

Lemma member_purge ix k a' k' :
  member (index_purge k ix) a' k' = if decide (k' = k) then None else member ix a' k'.
Proof.
  unfold member, index_purge. rewrite lookup_fmap. destruct (ix !! a') as [m|]; simpl.
  - rewrite lookup_delete. repeat case_decide; congruence.
  - by case_decide.
Qed.
End index_lemmas.

(** ** The abstract router

    What the indexes mean: who is behind an address, through which index. *)
Section router_spec.
Context {T : Type} `{SessionTarget T} `{MapRange}.
Implicit Types r : LocalRouter T.

(** Every inner map is keyed by the identity of its values, no user is
    listed without a device, and the device index agrees with the keys. *)
Record router_wf r : Prop := {
  wf_users a d t : member (userConns r) a d = Some t → DeviceID t = d;
  wf_devices d t : deviceConn r !! d = Some t → DeviceID t = d;
  wf_rooms a k t : member (rooms r) a k = Some t → SessionID t = k;
  wf_topics a k t : member (topics r) a k = Some t → SessionID t = k;
  wf_users_nonempty a m : userConns r !! a = Some m → m ≠ ∅;
}.

Lemma wf_new : router_wf NewLocalRouter.
Proof. split; done. Qed.

Lemma index_add_nonempty (ix : gmap string (gmap string T)) a k t b m :
  (∀ b m, ix !! b = Some m → m ≠ ∅) → index_add a k t ix !! b = Some m → m ≠ ∅.
Proof.
  intros Hne. unfold index_add. rewrite lookup_insert_Some. intros [[<- <-]|[_ Hb]]; [|by eauto].
  apply insert_non_empty.
Qed.

Lemma index_remove_nonempty (ix : gmap string (gmap string T)) a k b m :
  (∀ b m, ix !! b = Some m → m ≠ ∅) → index_remove a k ix !! b = Some m → m ≠ ∅.
Proof.
  intros Hne. unfold index_remove. destruct (ix !! a) as [m'|]; [|by eauto].
  case_decide as D.
  - rewrite lookup_delete_Some. intros [_ Hb]. eauto.
  - rewrite lookup_insert_Some. intros [[<- <-]|[_ Hb]]; eauto.
Qed.

Lemma RegisterSession_wf uid did t r : router_wf r → router_wf (RegisterSession uid did t r).2.
Proof.
  intros [Hu Hd Hr Ht Hn]. split; simpl; try done.
  - intros a d t'. rewrite member_add. case_decide as D; [|by apply Hu].
    destruct D as [_ ->]. by intros [= <-].
  - intros d t' [[<- <-]|[_ ?]]%lookup_insert_Some; eauto.
  - intros a m. by apply index_add_nonempty.
Qed.

Lemma UnregisterSession_wf uid did r : router_wf r → router_wf (UnregisterSession uid did r).
Proof.
  intros [Hu Hd Hr Ht Hn]. split; simpl; try done.
  - intros a d t'. rewrite member_remove. case_decide; [done|apply Hu].
  - intros d t' [_ ?]%lookup_delete_Some. eauto.
  - intros a m. by apply index_remove_nonempty.
Qed.

Lemma JoinRoom_wf a t r : router_wf r → router_wf (JoinRoom a t r).
Proof.
  intros [Hu Hd Hr Ht Hn]. split; simpl; try done.
  intros b k t'. rewrite member_add. case_decide as D; [|by apply Hr].
  destruct D as [_ ->]. by intros [= <-].
Qed.

Lemma Subscribe_wf a t r : router_wf r → router_wf (Subscribe a t r).
Proof.
  intros [Hu Hd Hr Ht Hn]. split; simpl; try done.
  intros b k t'. rewrite member_add. case_decide as D; [|by apply Ht].
  destruct D as [_ ->]. by intros [= <-].
Qed.

Lemma LeaveRoom_wf a t r : router_wf r → router_wf (LeaveRoom a t r).
Proof.
  intros [Hu Hd Hr Ht Hn]. split; simpl; try done.
  intros b k t'. rewrite member_remove. case_decide; [done|apply Hr].
Qed.

Lemma Unsubscribe_wf a t r : router_wf r → router_wf (Unsubscribe a t r).
Proof.
  intros [Hu Hd Hr Ht Hn]. split; simpl; try done.
  intros b k t'. rewrite member_remove. case_decide; [done|apply Ht].
Qed.

Lemma UnregisterAll_wf t r : router_wf r → router_wf (UnregisterAll t r).
Proof.
  intros [Hu Hd Hr Ht Hn]. split; simpl; try done; intros b k t'; rewrite member_purge;
    (case_decide; [done|]); [apply Hr|apply Ht].
Qed.

Lemma elem_of_targets (ix : gmap string (gmap string T)) a t :
  t ∈ targets (ix !! a) ↔ ∃ k, member ix a k = Some t.
Proof.
  unfold targets, member. destruct (ix !! a) as [m|]; simpl; [|set_solver].
  rewrite map_range_perm, list_elem_of_fmap. split.
  - intros ([k t'] & -> & Hk%elem_of_map_to_list). eauto.
  - intros (k & Hk). exists (k, t). split; [done|]. by apply elem_of_map_to_list.
Qed.

(** Who a [Resolve] finds: exactly the members of the three indexes. *)
Lemma Resolve_spec to r :
  (∀ t, t ∈ (Resolve to r).1 ↔
     (∃ d, member (userConns r) to d = Some t) ∨ (∃ k, member (rooms r) to k = Some t) ∨
     (∃ k, member (topics r) to k = Some t)) ∧
  (Resolve to r).2 = bool_decide ((Resolve to r).1 ≠ []).
Proof.
  unfold Resolve.
  set (l := targets (userConns r !! to) ++ targets (rooms r !! to) ++ targets (topics r !! to)).
  assert (∀ t, t ∈ l ↔ (∃ d, member (userConns r) to d = Some t) ∨
     (∃ k, member (rooms r) to k = Some t) ∨ (∃ k, member (topics r) to k = Some t)) as Hl.
  { intros t. subst l. by rewrite !elem_of_app, !elem_of_targets. }
  destruct l as [|t0 l]; simpl; split; done.
Qed.
End router_spec.
