(* ===== verification/RouterSpec.v ===== *)
(** * Correctness of the local router

    After any history of calls, [Resolve] finds exactly the sessions an
    abstract router of three finite relations finds: which device of a user,
    which session of a room, which session of a topic. *)

From stdpp Require Import base list gmap strings numbers.
From S2P Require Import Prelude Router.

Inductive router_op (T : Type) : Type :=
  | RRegister (userID deviceID : string) (sess : T)
  | RUnregister (userID deviceID : string)
  | RJoin (roomID : string) (sess : T)
  | RLeave (roomID : string) (sess : T)
  | RSubscribe (topic : string) (sess : T)
  | RUnsubscribe (topic : string) (sess : T)
  | RUnregisterAll (sess : T).
Arguments RRegister {T}. Arguments RUnregister {T}. Arguments RJoin {T}. Arguments RLeave {T}.
Arguments RSubscribe {T}. Arguments RUnsubscribe {T}. Arguments RUnregisterAll {T}.

(** The abstract router: [(address, key) ↦ session] for each kind of address. *)
Record ARouter (T : Type) := mkARouter {
  a_users : gmap (string * string) T;
  a_devices : gmap string T;
  a_rooms : gmap (string * string) T;
  a_topics : gmap (string * string) T;
}.
Arguments mkARouter {T}. Arguments a_users {T}. Arguments a_devices {T}.
Arguments a_rooms {T}. Arguments a_topics {T}.

Section refinement.
Context {T : Type} `{SessionTarget T} `{MapRange}.
Implicit Types (r : LocalRouter T) (a : ARouter T) (op : router_op T).

Definition do_rop op r : LocalRouter T :=
  match op with
  | RRegister uid did s => (RegisterSession uid did s r).2
  | RUnregister uid did => UnregisterSession uid did r
  | RJoin room s => JoinRoom room s r
  | RLeave room s => LeaveRoom room s r
  | RSubscribe topic s => Subscribe topic s r
  | RUnsubscribe topic s => Unsubscribe topic s r
  | RUnregisterAll s => UnregisterAll s r
  end.

(** Drop every entry of a session. *)
Definition purge (sid : string) (m : gmap (string * string) T) : gmap (string * string) T :=
  filter (λ kv, kv.1.2 ≠ sid) m.

Definition abs_rop op a : ARouter T :=
  let '(mkARouter u d r t) := a in
  match op with
  | RRegister uid _ s => mkARouter (<[(uid, DeviceID s) := s]> u) (<[DeviceID s := s]> d) r t
  | RUnregister uid did => mkARouter (delete (uid, did) u) (delete did d) r t
  | RJoin room s => mkARouter u d (<[(room, SessionID s) := s]> r) t
  | RLeave room s => mkARouter u d (delete (room, SessionID s) r) t
  | RSubscribe topic s => mkARouter u d r (<[(topic, SessionID s) := s]> t)
  | RUnsubscribe topic s => mkARouter u d r (delete (topic, SessionID s) t)
  | RUnregisterAll s => mkARouter u d (purge (SessionID s) r) (purge (SessionID s) t)
  end.

Definition do_rops (ops : list (router_op T)) r := foldl (flip do_rop) r ops.
Definition abs_rops (ops : list (router_op T)) a := foldl (flip abs_rop) a ops.

Definition same_index (ix : gmap string (gmap string T)) (m : gmap (string * string) T) : Prop :=
  ∀ x k, member ix x k = m !! (x, k).

Record refines r a : Prop := {
  ref_users : same_index (userConns r) (a_users a);
  ref_devices : deviceConn r = a_devices a;
  ref_rooms : same_index (rooms r) (a_rooms a);
  ref_topics : same_index (topics r) (a_topics a);
}.

Lemma same_index_add ix m x k t : same_index ix m → same_index (index_add x k t ix) (<[(x, k) := t]> m).
Proof. intros E y j. rewrite member_add, lookup_insert, E. repeat case_decide; naive_solver. Qed.

Lemma same_index_remove ix m x k : same_index ix m → same_index (index_remove x k ix) (delete (x, k) m).
Proof. intros E y j. rewrite member_remove, lookup_delete, E. repeat case_decide; naive_solver. Qed.

Lemma same_index_purge ix m k : same_index ix m → same_index (index_purge k ix) (purge k m).
Proof.
  intros E y j. rewrite member_purge, E. unfold purge. rewrite map_lookup_filter. simpl.
  destruct (m !! (y, j)); simpl; [|by case_decide]. repeat case_decide; simplify_option_eq; naive_solver.
Qed.

#[local] Hint Resolve same_index_add same_index_remove same_index_purge : gw.

Lemma do_rop_refines op r a : refines r a → refines (do_rop op r) (abs_rop op a).
Proof.
  intros [Hu Hd Hr Ht]. destruct a as [u d rm t]. simpl in *.
  destruct op; split; simpl; subst; auto with gw.
Qed.

Lemma do_rop_wf op r : router_wf r → router_wf (do_rop op r).
Proof.
  intros Hr. destruct op; cbn [do_rop]; auto using RegisterSession_wf, UnregisterSession_wf, JoinRoom_wf, LeaveRoom_wf,
    Subscribe_wf, Unsubscribe_wf, UnregisterAll_wf.
Qed.

Lemma do_rops_refines ops r a : refines r a → refines (do_rops ops r) (abs_rops ops a).
Proof. revert r a. induction ops as [|op ops IH]; intros r a Hr; [done|]. by apply IH, do_rop_refines. Qed.

Lemma do_rops_wf ops r : router_wf r → router_wf (do_rops ops r).
Proof. revert r. induction ops as [|op ops IH]; intros r Hr; [done|]. by apply IH, do_rop_wf. Qed.

Definition empty_abs : ARouter T := mkARouter ∅ ∅ ∅ ∅.

Lemma new_refines : refines NewLocalRouter empty_abs.
Proof. split; simpl; try done; intros x k; by rewrite lookup_empty. Qed.
End refinement.

(** * Claims *)

(** C14.  After any sequence of registrations, room and topic operations,
    [Resolve to] returns exactly the sessions that are registered under the user
    [to], joined to the room [to] or subscribed to the topic [to] and have not
    been removed since; its flag says whether there is one; the keys of the
    indexes are the identities of the sessions they hold. *)
Theorem resolve_exact {T : Type} `{SessionTarget T} `{MapRange} (ops : list (router_op T)) (to : string) :
  let r := do_rops ops NewLocalRouter in
  let a := abs_rops ops empty_abs in
  router_wf r ∧
  (∀ t, t ∈ (Resolve to r).1 ↔
     (∃ d, a_users a !! (to, d) = Some t) ∨ (∃ s, a_rooms a !! (to, s) = Some t) ∨
     (∃ s, a_topics a !! (to, s) = Some t)) ∧
  (Resolve to r).2 = bool_decide ((Resolve to r).1 ≠ []).
Proof.
  intros r a. destruct (do_rops_refines ops _ _ new_refines) as [Hu _ Hr Ht].
  destruct (Resolve_spec to r) as [Hin Hok]. split_and!; [apply do_rops_wf, wf_new| |exact Hok].
  intros t. rewrite Hin. subst r a. unfold same_index in *. by setoid_rewrite Hu; setoid_rewrite Hr; setoid_rewrite Ht.
Qed.

(** The session that [RegisterSession] hands back to be kicked is the one
    registered for the device when it has the same session ID as the new one;
    the session of the device that has another ID is displaced from the device
    index and never handed back. *)
Theorem register_kicks_only_itself {T : Type} `{SessionTarget T} (uid did : string) (sess old : T) r :
  deviceConn r !! DeviceID sess = Some old →
  (RegisterSession uid did sess r).1 = (if decide (SessionID old = SessionID sess) then Some old else None) ∧
  deviceConn (RegisterSession uid did sess r).2 !! DeviceID sess = Some sess ∧
  member (userConns (RegisterSession uid did sess r).2) uid (DeviceID sess) = Some sess.
Proof.
  intros E. unfold RegisterSession. cbn [fst snd deviceConn userConns]. rewrite E. split_and!; [done|..].
  - apply lookup_insert_eq.
  - rewrite member_add. by rewrite decide_True.
Qed.

(** Targets that are their own identity: session, user and device. *)
Definition demo_target : SessionTarget (string * string * string) :=
  {| SessionID := λ t, t.1.1; UserID := λ t, t.1.2; DeviceID := λ t, t.2 |}.

Lemma register_kicks_only_itself_witness :
  let r := (RegisterSession (H:=demo_target) "u1" "d1" ("s1", "u1", "d1") NewLocalRouter).2 in
  (RegisterSession (H:=demo_target) "u1" "d1" ("s2", "u1", "d1") r).1 = None ∧
  (RegisterSession (H:=demo_target) "u1" "d1" ("s1", "u1", "d1") r).1 = Some ("s1", "u1", "d1").
Proof.
  set (r := (RegisterSession _ _ _ NewLocalRouter).2). split.
  - rewrite (proj1 (register_kicks_only_itself (H:=demo_target) "u1" "d1" ("s2", "u1", "d1")
      ("s1", "u1", "d1") r eq_refl)). reflexivity.
  - rewrite (proj1 (register_kicks_only_itself (H:=demo_target) "u1" "d1" ("s1", "u1", "d1")
      ("s1", "u1", "d1") r eq_refl)). reflexivity.
Defined.
