(* ===== verification/World.v ===== *)
(** * The state of a gateway node

    Go objects that are shared by pointer live in stores of the world:
    messages, connections and sessions are addressed by locations.  The world
    also holds the singletons the components share: the local router, the
    session registry, the ACK scanner with its scheduler, the worker pools, the
    connection registry and the log of what was handed to the offline store.

    Operations are computations [M World A] that may panic.  One clock reading
    [now] is used by each of them. *)

From stdpp Require Import base list gmap strings numbers infinite fin_maps.
From S2P Require Import Prelude Message Router.

(** ** Connections ([access/connruntime/connection.go]) *)
Inductive ConnState : Set :=
  | ConnHandshaking | ConnActive | ConnClosing | ConnClosed.
#[export] Instance ConnState_eq_dec : EqDecision ConnState.
Proof. solve_decision. Defined.

(** The identity fields, the write queue [writeCh] (pointers to messages), the
    counters, and the three signals of the life cycle: the context is done, the
    transport is closed, [doneCh] is closed. *)
Record Connection := mkConnection {
  ConnID : string; c_UserID : string; c_AppID : string; c_DeviceID : string;
  c_DeviceType : string; c_BizCode : string;
  writeCh : list positive; c_state : ConnState;
  lastPingAt : Z; lastRecvSeq : Z; nextSendSeq : Z;
  ctx_done : bool; tp_closed : bool; doneCh_closed : bool;
  (** Frames the transport accepted, oldest first. *)
  c_out : list (list Z);
}.

(** [consts.WriteChannelSize] *)
Definition WriteChannelSize : nat := 4096.

Definition upd_writeCh (q : list positive) (c : Connection) : Connection :=
  mkConnection (ConnID c) (c_UserID c) (c_AppID c) (c_DeviceID c) (c_DeviceType c) (c_BizCode c)
    q (c_state c) (lastPingAt c) (lastRecvSeq c) (nextSendSeq c) (ctx_done c) (tp_closed c)
    (doneCh_closed c) (c_out c).
Definition upd_c_state (s : ConnState) (c : Connection) : Connection :=
  mkConnection (ConnID c) (c_UserID c) (c_AppID c) (c_DeviceID c) (c_DeviceType c) (c_BizCode c)
    (writeCh c) s (lastPingAt c) (lastRecvSeq c) (nextSendSeq c) (ctx_done c) (tp_closed c)
    (doneCh_closed c) (c_out c).
Definition upd_nextSendSeq (n : Z) (c : Connection) : Connection :=
  mkConnection (ConnID c) (c_UserID c) (c_AppID c) (c_DeviceID c) (c_DeviceType c) (c_BizCode c)
    (writeCh c) (c_state c) (lastPingAt c) (lastRecvSeq c) n (ctx_done c) (tp_closed c)
    (doneCh_closed c) (c_out c).
Definition upd_lastPingAt (t : Z) (c : Connection) : Connection :=
  mkConnection (ConnID c) (c_UserID c) (c_AppID c) (c_DeviceID c) (c_DeviceType c) (c_BizCode c)
    (writeCh c) (c_state c) t (lastRecvSeq c) (nextSendSeq c) (ctx_done c) (tp_closed c)
    (doneCh_closed c) (c_out c).
Definition upd_lastRecvSeq (n : Z) (c : Connection) : Connection :=
  mkConnection (ConnID c) (c_UserID c) (c_AppID c) (c_DeviceID c) (c_DeviceType c) (c_BizCode c)
    (writeCh c) (c_state c) (lastPingAt c) n (nextSendSeq c) (ctx_done c) (tp_closed c)
    (doneCh_closed c) (c_out c).
(** The deferred part of [Run]: state Closed, transport closed, [doneCh] closed. *)
Definition upd_torn_down (c : Connection) : Connection :=
  mkConnection (ConnID c) (c_UserID c) (c_AppID c) (c_DeviceID c) (c_DeviceType c) (c_BizCode c)
    (writeCh c) ConnClosed (lastPingAt c) (lastRecvSeq c) (nextSendSeq c) (ctx_done c) true true (c_out c).
Definition upd_tp_closed (c : Connection) : Connection :=
  mkConnection (ConnID c) (c_UserID c) (c_AppID c) (c_DeviceID c) (c_DeviceType c) (c_BizCode c)
    (writeCh c) (c_state c) (lastPingAt c) (lastRecvSeq c) (nextSendSeq c) (ctx_done c) true
    (doneCh_closed c) (c_out c).

Definition upd_c_out (o : list (list Z)) (c : Connection) : Connection :=
  mkConnection (ConnID c) (c_UserID c) (c_AppID c) (c_DeviceID c) (c_DeviceType c) (c_BizCode c)
    (writeCh c) (c_state c) (lastPingAt c) (lastRecvSeq c) (nextSendSeq c) (ctx_done c) (tp_closed c)
    (doneCh_closed c) o.

(** ** Sessions ([session/session.go]) *)
Inductive SessState : Set :=
  | StateAuthenticating | StateActive | StateSuspended | StateClosed.
#[export] Instance SessState_eq_dec : EqDecision SessState.
Proof. solve_decision. Defined.

(** [map[string]struct{}] is a map to [unit]. *)
Record subscriptionSet := mkSubs { sub_rooms : gmap string unit; sub_topics : gmap string unit }.

Record pendingEntry := mkEntry {
  pe_msg : positive; retryCount : Z; firstSentAt : Z; lastRetryAt : Z;
}.

(** Which of the session's dependencies are non-nil, and its retry policy
    ([retry.Policy.MaxRetries]).  [LocalRouter] is always set by the
    bootstrap. *)
Record Deps := mkDeps {
  d_Worker : bool; d_Offline : bool; d_Acker : bool; d_MaxRetries : Z;
}.

Record Session := mkSession {
  sessionID : string; AppID : string; userID : string; deviceID : string;
  DeviceType : string; s_BizCode : string;
  s_conn : option positive; subs : subscriptionSet;
  lastDeliveredSeq : Z; s_state : SessState; suspendedAt : Z;
  pendingAcks : gmap string pendingEntry; deps : Deps;
  (** [once.Do] has run. *)
  s_once : bool;
}.

Definition upd_s_conn (c : option positive) (s : Session) : Session :=
  mkSession (sessionID s) (AppID s) (userID s) (deviceID s) (DeviceType s) (s_BizCode s)
    c (subs s) (lastDeliveredSeq s) (s_state s) (suspendedAt s) (pendingAcks s) (deps s) (s_once s).
Definition upd_subs (v : subscriptionSet) (s : Session) : Session :=
  mkSession (sessionID s) (AppID s) (userID s) (deviceID s) (DeviceType s) (s_BizCode s)
    (s_conn s) v (lastDeliveredSeq s) (s_state s) (suspendedAt s) (pendingAcks s) (deps s) (s_once s).
Definition upd_lastDeliveredSeq (v : Z) (s : Session) : Session :=
  mkSession (sessionID s) (AppID s) (userID s) (deviceID s) (DeviceType s) (s_BizCode s)
    (s_conn s) (subs s) v (s_state s) (suspendedAt s) (pendingAcks s) (deps s) (s_once s).
(** [s.state.Store(v); s.suspendedAt.Store(t)] *)
Definition upd_s_state (v : SessState) (t : Z) (s : Session) : Session :=
  mkSession (sessionID s) (AppID s) (userID s) (deviceID s) (DeviceType s) (s_BizCode s)
    (s_conn s) (subs s) (lastDeliveredSeq s) v t (pendingAcks s) (deps s) (s_once s).
Definition upd_pendingAcks (v : gmap string pendingEntry) (s : Session) : Session :=
  mkSession (sessionID s) (AppID s) (userID s) (deviceID s) (DeviceType s) (s_BizCode s)
    (s_conn s) (subs s) (lastDeliveredSeq s) (s_state s) (suspendedAt s) v (deps s) (s_once s).
Definition upd_s_once (s : Session) : Session :=
  mkSession (sessionID s) (AppID s) (userID s) (deviceID s) (DeviceType s) (s_BizCode s)
    (s_conn s) (subs s) (lastDeliveredSeq s) (s_state s) (suspendedAt s) (pendingAcks s) (deps s) true.

(** A [*Session] with the part of it that never changes, which is what the
    router asks for. *)
Record SessionRef := mkRef { ref_ptr : positive; ref_sid : string; ref_uid : string; ref_did : string }.
#[export] Instance SessionRef_eq_dec : EqDecision SessionRef.
Proof. solve_decision. Defined.
#[export] Instance SessionRef_target : SessionTarget SessionRef :=
  {| SessionID := ref_sid; UserID := ref_uid; DeviceID := ref_did |}.

Definition ref_of (p : positive) (s : Session) : SessionRef :=
  mkRef p (sessionID s) (userID s) (deviceID s).

(** ** The ACK scanner, the registries, the pools *)
Record timeoutPayload := mkPayload { tp_SessID : string; tp_MsgID : string }.

(** [delivery/ack/scanner.go]; [onTimeout] is set or nil. *)
Record Scanner := mkScanner {
  ackTimeout : Z; sessAcks : gmap string (gmap string unit); onTimeout : bool;
}.

(** [session/registry.go] *)
Record SessRegistry := mkSessRegistry {
  sr_sessions : gmap string SessionRef;
  userIndex : gmap string (gmap string SessionRef);
  sr_deps : Deps; sr_ackScanner : bool;
}.

(** [worker/pool.go]: a job holds the session to answer to and a message. *)
Record UpstreamJob := mkUpJob { uj_Sess : SessionRef; uj_Msg : positive }.
(** A pool with its two channels; [pool_store] says whether it was configured
    with an offline store, [pool_done] that its context was cancelled and
    [pool_closed] that its channels were closed. *)
Record WorkerPool := mkPool {
  upstreamCh : list UpstreamJob; downstreamCh : list positive;
  pool_store : bool; pool_done : bool; pool_closed : bool;
}.
Definition upd_upstreamCh (q : list UpstreamJob) (p : WorkerPool) : WorkerPool :=
  mkPool q (downstreamCh p) (pool_store p) (pool_done p) (pool_closed p).
Definition upd_downstreamCh (q : list positive) (p : WorkerPool) : WorkerPool :=
  mkPool (upstreamCh p) q (pool_store p) (pool_done p) (pool_closed p).

Record World (TS : Type) := mkWorld {
  now : Z;
  msgs : gmap positive Message;
  conns : gmap positive Connection;
  sessions : gmap positive Session;
  router : LocalRouter SessionRef;
  registry : SessRegistry;
  scanner : Scanner;
  (** The [timer.Scheduler]. *)
  timer : TS;
  pools : gmap string WorkerPool;
  (** [connruntime.Registry]: ConnID to connection. *)
  conn_registry : gmap string positive;
  (** What [OfflineStore.Store] was called with, oldest first. *)
  offline : list Message;
}.
Arguments mkWorld {TS}. Arguments now {TS}. Arguments msgs {TS}. 
Arguments conns {TS}. Arguments sessions {TS}. Arguments router {TS}. Arguments registry {TS}.
Arguments scanner {TS}. Arguments timer {TS}. Arguments pools {TS}.
Arguments conn_registry {TS}. Arguments offline {TS}.

Section accessors.
Context {TS : Type}.
Implicit Types w : World TS.

Definition upd_msgs f w : World TS :=
  mkWorld (now w) (f (msgs w)) (conns w) (sessions w) (router w) (registry w)
    (scanner w) (timer w) (pools w) (conn_registry w) (offline w).
Definition upd_conns f w : World TS :=
  mkWorld (now w) (msgs w) (f (conns w)) (sessions w) (router w) (registry w)
    (scanner w) (timer w) (pools w) (conn_registry w) (offline w).
Definition upd_sessions f w : World TS :=
  mkWorld (now w) (msgs w) (conns w) (f (sessions w)) (router w) (registry w)
    (scanner w) (timer w) (pools w) (conn_registry w) (offline w).
Definition upd_router f w : World TS :=
  mkWorld (now w) (msgs w) (conns w) (sessions w) (f (router w)) (registry w)
    (scanner w) (timer w) (pools w) (conn_registry w) (offline w).
Definition upd_registry f w : World TS :=
  mkWorld (now w) (msgs w) (conns w) (sessions w) (router w) (f (registry w))
    (scanner w) (timer w) (pools w) (conn_registry w) (offline w).
Definition upd_scanner f w : World TS :=
  mkWorld (now w) (msgs w) (conns w) (sessions w) (router w) (registry w)
    (f (scanner w)) (timer w) (pools w) (conn_registry w) (offline w).
Definition upd_timer f w : World TS :=
  mkWorld (now w) (msgs w) (conns w) (sessions w) (router w) (registry w)
    (scanner w) (f (timer w)) (pools w) (conn_registry w) (offline w).
Definition upd_pools f w : World TS :=
  mkWorld (now w) (msgs w) (conns w) (sessions w) (router w) (registry w)
    (scanner w) (timer w) (f (pools w)) (conn_registry w) (offline w).
Definition upd_conn_registry f w : World TS :=
  mkWorld (now w) (msgs w) (conns w) (sessions w) (router w) (registry w)
    (scanner w) (timer w) (pools w) (f (conn_registry w)) (offline w).
Definition upd_offline f w : World TS :=
  mkWorld (now w) (msgs w) (conns w) (sessions w) (router w) (registry w)
    (scanner w) (timer w) (pools w) (conn_registry w) (f (offline w)).

(** Loads and stores through a pointer. *)
Definition get_msg (p : positive) : M (World TS) Message := gets (λ w, msgs w !! p) ≫= deref.
Definition get_conn (p : positive) : M (World TS) Connection := gets (λ w, conns w !! p) ≫= deref.
Definition get_sess (p : positive) : M (World TS) Session := gets (λ w, sessions w !! p) ≫= deref.
Definition on_msg (p : positive) (f : Message → Message) : M (World TS) unit :=
  modify (upd_msgs (alter f p)).
Definition on_conn (p : positive) (f : Connection → Connection) : M (World TS) unit :=
  modify (upd_conns (alter f p)).
Definition on_sess (p : positive) (f : Session → Session) : M (World TS) unit :=
  modify (upd_sessions (alter f p)).

(** [&gateway.Message{...}] *)
Definition new_msg (m : Message) : M (World TS) positive := λ w,
  let p := fresh (dom (msgs w)) in (Ret p, upd_msgs <[p := m]> w).
(** What they do where the pointer is good. *)
Lemma get_msg_run p w m : msgs w !! p = Some m → get_msg p w = (Ret m, w).
Proof. intros E. unfold get_msg. rewrite bind_run. cbn. by rewrite E. Qed.
Lemma get_conn_run p w k : conns w !! p = Some k → get_conn p w = (Ret k, w).
Proof. intros E. unfold get_conn. rewrite bind_run. cbn. by rewrite E. Qed.
Lemma get_sess_run p w s : sessions w !! p = Some s → get_sess p w = (Ret s, w).
Proof. intros E. unfold get_sess. rewrite bind_run. cbn. by rewrite E. Qed.
Lemma on_conn_run p f w k : conns w !! p = Some k → on_conn p f w = (Ret tt, upd_conns <[p := f k]> w).
Proof. intros E. unfold on_conn, modify, upd_conns. by rewrite (alter_Some f (conns w) p k E). Qed.
Lemma on_sess_run p f w s : sessions w !! p = Some s → on_sess p f w = (Ret tt, upd_sessions <[p := f s]> w).
Proof. intros E. unfold on_sess, modify, upd_sessions. by rewrite (alter_Some f (sessions w) p s E). Qed.
End accessors.
