(* ===== verification/Connection.v ===== *)
(** * Connections at run time ([gateway/internal/access/connruntime])

    [outbound.go], [writer.go], [reader.go], [connection.go] and
    [registry.go].  The queue to the client is the bounded channel [writeCh];
    the two goroutines of [Run] are modelled by their turns. *)

From stdpp Require Import base list gmap strings numbers.
From S2P Require Import Prelude Message Codec Router World.

(** Unfold the monad and the accessors of the world. *)
Ltac mrun :=
  cbv [mbind M_bind mret M_ret gets modify deref when get_msg get_conn get_sess on_msg on_conn on_sess];
  cbn [fst snd].

Section outbound.
Context {TS : Type}.
Abbreviation MW := (M (World TS)).

Definition conn_IsActive (c : Connection) : bool := bool_decide (c_state c = ConnActive).

(** [newConnection], with the identity the factory fills in. *)
Definition newConnection (now : Z) (connID userID appID deviceID deviceType bizCode : string) :
    Connection :=
  mkConnection connID userID appID deviceID deviceType bizCode [] ConnHandshaking
    (UnixMilli now) 0 0 false false false [].

(** [CompareAndSwap(Handshaking, Active)] *)
Definition Activate (c : positive) : MW unit :=
  on_conn c (λ k, if decide (c_state k = ConnHandshaking) then upd_c_state ConnActive k else k).

(** The body of [Close] is empty. *)
Definition conn_Close (c : positive) : MW unit := mret tt.

(** [select { case c.writeCh <- msg: return true; default: return false }] *)
Definition enqueue (c m : positive) : MW bool :=
  k ← get_conn c;
  if decide (length (writeCh k) < WriteChannelSize)
  then on_conn c (upd_writeCh (writeCh k ++ [m])) ≫= λ _, mret true
  else mret false.

Definition conn_Submit (c m : positive) : MW bool :=
  k ← get_conn c;
  if conn_IsActive k then
    on_conn c (upd_nextSendSeq (u64 (nextSendSeq k + 1))) ≫= λ _,
    on_msg m (set_SeqId (u64 (nextSendSeq k + 1))) ≫= λ _,
    enqueue c m
  else mret false.

Definition conn_Send (c m : positive) : MW error :=
  k ← get_conn c;
  if conn_IsActive k then
    ok ← enqueue c m;
    mret (if (ok : bool) then None else Some "connection: write buffer full")
  else mret (Some "connection: not active").

(** [registry.go] *)
Definition RegisterConn (connID : string) (c : positive) : MW error :=
  if decide (connID = "") then mret (Some "registry: empty ConnID")
  else modify (upd_conn_registry <[connID := c]>) ≫= λ _, mret None.
Definition UnregisterConn (connID : string) : MW unit :=
  modify (upd_conn_registry (delete connID)).
Definition GetConn (connID : string) : MW (option positive) := gets (λ w, conn_registry w !! connID).
Definition conn_Count : MW nat := gets (λ w, size (conn_registry w)).
End outbound.

(** ** The two loops *)
Inductive turn : Set :=
  | Continue   (* the loop goes round again *)
  | Exit       (* the loop returns *)
  | Block.     (* nothing is ready: the goroutine sleeps in [select] *)

#[export] Instance turn_eq_dec : EqDecision turn.
Proof. solve_decision. Defined.

Section loops.
Context {TS : Type} `{WireLib} (fc : FrameCodec).
(** [tp.Write(c.ctx, data)]: the transport is told whether the context is
    done. *)
Context (tp_Write : bool → list Z → error).
Abbreviation MW := (M (World TS)).

Definition encodeAndWrite (c m : positive) : MW error :=
  k ← get_conn c;
  msg ← get_msg m;
  match Encode fc msg with
  | inl e => mret (Some ("connection: encode err: " +:+ e))
  | inr data =>
      match tp_Write (ctx_done k) data with
      | Some e => mret (Some e)
      | None => on_conn c (λ k, upd_c_out (c_out k ++ [data]) k) ≫= λ _, mret None
      end
  end.

(** [case msg := <-c.writeCh: c.encodeAndWrite(msg)] until the queue is empty. *)
Definition drain (c : positive) : MW unit :=
  k ← get_conn c;
  on_conn c (upd_writeCh []) ≫= λ _,
  for_each (λ m, encodeAndWrite c m ≫= λ _, mret tt) (writeCh k).

(** One turn of [writeLoop].  When the context is done and a message is
    queued, [select] may take either case: [pick_done] says which. *)
Definition writeLoop_turn (pick_done : bool) (c : positive) : MW turn :=
  k ← get_conn c;
  match writeCh k with
  | m :: q =>
      if ctx_done k && pick_done then drain c ≫= λ _, mret Exit
      else
        on_conn c (upd_writeCh q) ≫= λ _,
        e ← encodeAndWrite c m;
        mret (match e with Some _ => Exit | None => Continue end)
  | [] => if ctx_done k then mret Exit else mret Block
  end.

(** One turn of [readLoop]: [deadline] is what [SetReadDeadline] returns,
    [input] what [tp.Read] returns. *)
Definition readLoop_turn (onMessage : positive → positive → MW unit)
    (deadline : error) (input : string + list Z) (c : positive) : MW turn :=
  k ← get_conn c;
  if ctx_done k then mret Exit else
  match deadline, input with
  | Some _, _ => mret Exit
  | None, inl _ => mret Exit
  | None, inr raw =>
      t ← gets now;
      on_conn c (upd_lastPingAt (UnixMilli t)) ≫= λ _,
      match Decode fc raw with
      | inl _ => mret Continue
      | inr msg =>
          m ← new_msg msg;
          when (0 <? m_SeqId msg)%Z (on_conn c (upd_lastRecvSeq (m_SeqId msg))) ≫= λ _,
          if IsExpired t (m_ExpireAt msg) then mret Continue
          else onMessage c m ≫= λ _, mret Continue
      end
  end.

(** [time.NewTicker] panics unless its interval is positive. *)
Definition ticker_panics (timeout : Z) : bool := (Z.quot timeout 2 <=? 0)%Z.

(** One tick of [HeartbeatWatchdog]: whether the goroutine ends.  It does not get
    to its first tick when the ticker cannot be made. *)
Definition HeartbeatWatchdog_tick (timeout : Z) (c : positive) : MW turn :=
  if ticker_panics timeout then panic "non-positive interval for NewTicker" else
  k ← get_conn c;
  t ← gets now;
  if ctx_done k then mret Exit
  else if (timeout <? t - lastPingAt k * 10 ^ 6)%Z then conn_Close c ≫= λ _, mret Exit
  else mret Continue.

(** ** [Run]: the reader in the foreground, the writer in a goroutine *)
Record runState := mkRun {
  reader_done : bool;   (* [readLoop] has returned *)
  writer_done : bool;   (* [writeLoopDone] is closed *)
  run_done : bool;      (* the deferred function has run *)
}.

Definition run_cleanup (onClose : positive → MW unit) (c : positive) : MW unit :=
  on_conn c upd_torn_down ≫= λ _, onClose c.

(** The steps [Run] can take by itself, for every input of the transport. *)
Inductive run_step (onMessage : positive → positive → MW unit) (onClose : positive → MW unit)
    (c : positive) : runState * World TS → runState * World TS → Prop :=
  | step_read b wd w deadline input t w' :
      readLoop_turn onMessage deadline input c w = (Ret t, w') →
      b = bool_decide (t = Exit) →
      run_step onMessage onClose c (mkRun false wd false, w) (mkRun b wd false, w')
  | step_write rd w pick t w' :
      writeLoop_turn pick c w = (Ret t, w') → t ≠ Block →
      run_step onMessage onClose c (mkRun rd false false, w)
               (mkRun rd (bool_decide (t = Exit)) false, w')
  | step_finish w w' :
      run_cleanup onClose c w = (Ret tt, w') →
      run_step onMessage onClose c (mkRun true true false, w) (mkRun true true true, w').
End loops.

(** ** What the operations do *)
Section connection_spec.
Context {TS : Type}.
Implicit Types (w : World TS) (k : Connection).

(** A connection takes a message when it is active and its queue has room. *)
Definition accepts k : bool := conn_IsActive k && bool_decide (length (writeCh k) < WriteChannelSize).

(** The connection after [Submit]. *)
Definition submitted (m : positive) k : Connection :=
  if conn_IsActive k then
    let k' := upd_nextSendSeq (u64 (nextSendSeq k + 1)) k in
    if decide (length (writeCh k) < WriteChannelSize) then upd_writeCh (writeCh k ++ [m]) k' else k'
  else k.

(** The stamp [Submit] leaves on the message, also when the queue is full. *)
Definition stamped k (msg : Message) : Message :=
  if conn_IsActive k then set_SeqId (u64 (nextSendSeq k + 1)) msg else msg.

Definition after_submit (c m : positive) k w : World TS :=
  upd_msgs (alter (stamped k) m) (upd_conns <[c := submitted m k]> w).

Lemma conn_Submit_run c m w k : conns w !! c = Some k →
  conn_Submit c m w = (Ret (accepts k), after_submit c m k w).
Proof.
  intros E. unfold conn_Submit, enqueue, after_submit, accepts, submitted, stamped. mrun.
  rewrite E. destruct (conn_IsActive k); cbn [andb].
  - destruct w as [t ms cs ss r rg sc ti po cr off]. cbn in *. rewrite lookup_alter_eq, E. cbn.
    rewrite (bool_decide_decide (length (writeCh k) < WriteChannelSize)).
    case_decide; cbn; f_equal; unfold upd_msgs, upd_conns; cbn; f_equal.
    + by rewrite (alter_Some _ cs c k E), (alter_Some _ _ c _ (lookup_insert_eq _ _ _)), insert_insert_eq.
    + by rewrite (alter_Some _ cs c k E).
  - f_equal. destruct w. unfold upd_msgs, upd_conns. cbn in *. f_equal.
    + symmetry. by apply alter_same.
    + by rewrite insert_id.
Qed.

Lemma submitted_state m k : c_state (submitted m k) = c_state k.
Proof. unfold submitted. by repeat case_match. Qed.

(** The write queue never exceeds its capacity. *)
Definition queue_bounded w : Prop :=
  ∀ c k, conns w !! c = Some k → length (writeCh k) ≤ WriteChannelSize.

Lemma after_submit_bounded c m k w : queue_bounded w → conns w !! c = Some k →
  queue_bounded (after_submit c m k w).
Proof.
  intros Hb E c' k'. simpl. rewrite lookup_insert_Some. intros [[<- <-]|[_ ?]]; [|by eapply Hb].
  specialize (Hb c k E). unfold submitted. repeat case_match; simpl; try done.
  rewrite length_app. simpl. lia.
Qed.
End connection_spec.
