(* ===== verification/Pool.v ===== *)
(** * Worker pools: the queues ([gateway/internal/worker/pool.go, manager.go])

    Each business domain has a pool with one bounded channel per direction.
    Submitting never blocks: a full channel is reported to the caller.  The
    goroutines that empty the channels are in [Worker.v]. *)

From stdpp Require Import base list gmap strings numbers.
From S2P Require Import Prelude Message Router World Connection.

(** Both channels are made with this capacity. *)
Definition pool_cap : nat := 100.

(** [PoolConfig]: what the pool keeps of it here. *)
Record PoolConfig := mkPoolConfig {
  cfg_BizCode : string; UpstreamWorkers : Z; UpstreamChanCap : Z;
  DownstreamWorkers : Z; DownstreamChanCap : Z; cfg_OfflineStore : bool;
}.

Definition newWorkerPool (cfg : PoolConfig) : WorkerPool := mkPool [] [] (cfg_OfflineStore cfg) false false.

Section pool.
Context {TS : Type}.
Abbreviation MW := (M (World TS)).

Definition on_pool (biz : string) (f : WorkerPool → WorkerPool) : MW unit :=
  modify (upd_pools (alter f biz)).

Definition AddPool (cfg : PoolConfig) : MW unit :=
  modify (upd_pools <[cfg_BizCode cfg := newWorkerPool cfg]>).

(** [WorkerPool.SubmitUpstream]: a send on a closed channel panics, also
    inside [select]. *)
Definition pool_SubmitUpstream (biz : string) (pool : WorkerPool) (job : UpstreamJob) : MW error :=
  if pool_closed pool then panic "send on closed channel"
  else if decide (length (upstreamCh pool) < pool_cap) then
    on_pool biz (upd_upstreamCh (upstreamCh pool ++ [job])) ≫= λ _, mret None
  else mret (Some "worker: pool channel full").

Definition pool_SubmitDownstream (biz : string) (pool : WorkerPool) (m : positive) : MW bool :=
  if pool_closed pool then panic "send on closed channel"
  else if decide (length (downstreamCh pool) < pool_cap) then
    on_pool biz (upd_downstreamCh (downstreamCh pool ++ [m])) ≫= λ _, mret true
  else mret false.

(** [Manager.SubmitUpstream] *)
Definition mgr_SubmitUpstream (biz : string) (sess : SessionRef) (m : positive) : MW error :=
  o ← gets (λ w, pools w !! biz);
  match o with
  | None => mret (Some "ErrUnknownBizCode")
  | Some pool => pool_SubmitUpstream biz pool (mkUpJob sess m)
  end.

(** [Manager.SubmitDownstream], with [GetPool]. *)
Definition mgr_SubmitDownstream (biz : string) (m : positive) : MW bool :=
  o ← gets (λ w, pools w !! biz);
  match o with
  | None => mret false
  | Some pool => pool_SubmitDownstream biz pool m
  end.

(** [WorkerPool.Stop]: cancel, close both channels, then [wg.Wait()], which
    does not wait because every worker calls [wg.Done()] before it starts.
    Closing a closed channel panics. *)
Definition pool_Stop (biz : string) : MW unit :=
  o ← gets (λ w, pools w !! biz);
  pool ← deref o;
  if pool_closed pool then panic "close of closed channel"
  else on_pool biz (λ p, mkPool (upstreamCh p) (downstreamCh p) (pool_store p) true true).

(** [Manager.Stop]: every pool is stopped in a goroutine of its own and all
    are awaited; one after the other here, in some order. *)
Definition mgr_Stop `{MapRange} : MW unit :=
  ps ← gets pools;
  for_each pool_Stop (map_range ps).*1.
End pool.

(** ** The channels stay within their capacity *)
Definition pools_bounded {TS} (w : World TS) : Prop :=
  ∀ b p, pools w !! b = Some p → length (upstreamCh p) ≤ pool_cap ∧ length (downstreamCh p) ≤ pool_cap.

Section pool_lemmas.
Context {TS : Type}.
Implicit Types w : World TS.

Lemma on_pool_run biz f w p : pools w !! biz = Some p →
  on_pool biz f w = (Ret tt, upd_pools <[biz := f p]> w).
Proof. intros E. unfold on_pool, modify, upd_pools. by rewrite (alter_Some _ _ _ _ E). Qed.

Lemma pools_bounded_update biz (p' : WorkerPool) w :
  pools_bounded w → length (upstreamCh p') ≤ pool_cap → length (downstreamCh p') ≤ pool_cap →
  pools_bounded (upd_pools <[biz := p']> w).
Proof.
  intros Hb H1 H2 b q. simpl. rewrite lookup_insert_Some. intros [[<- <-]|[_ Hq]]; [done|].
  by apply (Hb b).
Qed.

(** Submitting in one business domain leaves every other one alone. *)
Lemma mgr_SubmitUpstream_isolated biz sess m w b :
  b ≠ biz → pools (mgr_SubmitUpstream biz sess m w).2 !! b = pools w !! b.
Proof.
  intros Hne. unfold mgr_SubmitUpstream, pool_SubmitUpstream, on_pool. mrun.
  destruct (pools w !! biz) as [pool|]; [|done]. destruct (pool_closed pool); [done|].
  case_decide; [|done]. simpl. by rewrite lookup_alter_ne.
Qed.

Lemma mgr_SubmitUpstream_bounded biz sess m w :
  pools_bounded w → pools_bounded (mgr_SubmitUpstream biz sess m w).2.
Proof.
  intros Hb. unfold mgr_SubmitUpstream, pool_SubmitUpstream. mrun.
  destruct (pools w !! biz) as [pool|] eqn:E; [|done]. destruct (pool_closed pool); [done|].
  case_decide; [|done]. rewrite (on_pool_run _ _ _ _ E). cbn [snd].
  destruct (Hb _ _ E). apply pools_bounded_update; simpl; try done.
  rewrite length_app. simpl. lia.
Qed.
End pool_lemmas.
