(* ===== verification/Session.v ===== *)
(** * Sessions, their registry and the ACK scanner
      ([gateway/internal/session], [gateway/internal/delivery])

    A session survives its connections: it keeps subscriptions and the QoS-1
    messages that were not acknowledged, and hands downlink messages to the
    connection it is attached to.  The operations are written over the world of
    [World.v]; the scheduler behind the ACK timers is any implementation of
    [Scheduler] ([Shard.v]). *)

From stdpp Require Import base list gmap strings numbers pretty.
From S2P Require Import Prelude Timer Shard Message Codec Router World Connection Pool.

(** ** [delivery/retry], [delivery/ack/retry_task.go] *)
Record Policy := mkPolicy { p_Interval : Z; p_MaxRetries : Z }.
Definition DefaultPolicy : Policy := mkPolicy (5 * 10 ^ 9) 5.

(** [if maxRetries <= 0 { maxRetries = 5 }] *)
Definition effective_max (n : Z) : Z := if (n <=? 0)%Z then p_MaxRetries DefaultPolicy else n.

Definition NewPendingEntry (now : Z) (msg : positive) : pendingEntry := mkEntry msg 0 now now.
Definition ShouldGiveUp (e : pendingEntry) (p : Policy) : bool :=
  (effective_max (p_MaxRetries p) <? retryCount e)%Z.
Definition ensureRetryHeader (n : Z) (m : Message) : Message := put_header "x-retry-count" (pretty n) m.

(** [entry.retryCount++; entry.lastRetryAt = time.Now()] *)
Definition bump (now : Z) (e : pendingEntry) : pendingEntry :=
  mkEntry (pe_msg e) (retryCount e + 1) (firstSentAt e) now.

(** ["ack:" + sessID + ":" + msgID] *)
Definition ackKey (sessID msgID : string) : string := "ack:" +:+ sessID +:+ ":" +:+ msgID.

Section session.
Context {TS : Type} `{Scheduler TS timeoutPayload unit} `{MapRange}.
Abbreviation MW := (M (World TS)).

(** ** The ACK scanner ([delivery/ack/scanner.go]) *)
Definition NewScanner (timeout : Z) : Scanner :=
  mkScanner (if (timeout <=? 0)%Z then 5 * 10 ^ 9 else timeout) ∅ false.

Definition upd_sessAcks f (s : Scanner) : Scanner :=
  mkScanner (ackTimeout s) (f (sessAcks s)) (onTimeout s).

Definition SetTimeoutHandler : MW unit :=
  modify (upd_scanner (λ s, mkScanner (ackTimeout s) (sessAcks s) true)).

(** The task [Track] schedules. *)
Definition ack_task (due : Z) (sessID msgID : string) : Task timeoutPayload unit :=
  mkTask (ackKey sessID msgID) TaskAckTimeout due (mkPayload sessID msgID) (Some tt).

Definition Track (m : positive) (sess : SessionRef) : MW unit :=
  msg ← get_msg m;
  if at_least_once msg then
    modify (upd_scanner (upd_sessAcks (index_add (ref_sid sess) (m_MsgId msg) tt))) ≫= λ _,
    modify (λ w, upd_timer (λ t,
      (Schedule (now w)
         (ack_task (now w + ackTimeout (scanner w)) (ref_sid sess) (m_MsgId msg)) t).2) w)
  else mret tt.

Definition Done (msgID sessID : string) : MW unit :=
  modify (upd_timer (λ t, (Cancel (ackKey sessID msgID) t).2)) ≫= λ _,
  modify (upd_scanner (upd_sessAcks (index_remove sessID msgID))).

Definition CancelAll (sessID : string) : MW unit :=
  ids ← gets (λ w, default ∅ (sessAcks (scanner w) !! sessID));
  modify (upd_scanner (upd_sessAcks (delete sessID))) ≫= λ _,
  for_each (λ id, modify (upd_timer (λ t, (Cancel (ackKey sessID id) t).2))) (map_range ids).*1.

(** ** Sessions ([session/session.go]) *)
Definition NewSession (sid uid did appID deviceType bizCode : string) (d : Deps) : Session :=
  mkSession sid appID uid did deviceType bizCode None (mkSubs ∅ ∅) 0 StateAuthenticating 0 ∅ d false.

Definition OfflineStore_Store (m : positive) : MW unit :=
  msg ← get_msg m; modify (upd_offline (λ l, l ++ [msg])).

(** [msg.Delivery] is dereferenced without a test. *)
Definition handleUndelivered (p m : positive) : MW unit :=
  s ← get_sess p;
  msg ← get_msg m;
  d ← deref (m_Delivery msg);
  if negb (Offline d) || negb (d_Offline (deps s)) then mret tt
  else if (Qos d =? QosClass_AT_MOST_ONCE)%Z then mret tt
  else OfflineStore_Store m.

Definition Submit (p m : positive) : MW bool :=
  s ← get_sess p;
  match s_conn s with
  | None => handleUndelivered p m ≫= λ _, mret false
  | Some c =>
      k ← get_conn c;
      if conn_IsActive k then
        ok ← conn_Submit c m;
        if (ok : bool) then
          msg ← get_msg m;
          t ← gets now;
          on_sess p (upd_lastDeliveredSeq (m_SeqId msg)) ≫= λ _,
          when (d_Acker (deps s) && at_least_once msg)
            (on_sess p (λ s, upd_pendingAcks (<[m_MsgId msg := mkEntry m 0 t t]> (pendingAcks s)) s)
             ≫= λ _, Track m (ref_of p s)) ≫= λ _,
          mret true
        else handleUndelivered p m ≫= λ _, mret false
      else handleUndelivered p m ≫= λ _, mret false
  end.

Definition Ack (p : positive) (msgID : string) : MW unit :=
  s ← get_sess p;
  on_sess p (λ s, upd_pendingAcks (delete msgID (pendingAcks s)) s) ≫= λ _,
  when (d_Acker (deps s)) (Done msgID (sessionID s)).

Definition on_router (f : LocalRouter SessionRef → LocalRouter SessionRef) : MW unit :=
  modify (upd_router f).

(** [withConn]: run [fn] only while a connection is attached. *)
Definition withConn (p : positive) (fn : SessionRef → MW unit) : MW unit :=
  s ← get_sess p;
  match s_conn s with Some _ => fn (ref_of p s) | None => mret tt end.

Definition addRoom (r : string) (v : subscriptionSet) : subscriptionSet :=
  mkSubs (<[r := tt]> (sub_rooms v)) (sub_topics v).
Definition removeRoom (r : string) (v : subscriptionSet) : subscriptionSet :=
  mkSubs (delete r (sub_rooms v)) (sub_topics v).
Definition addTopic (t : string) (v : subscriptionSet) : subscriptionSet :=
  mkSubs (sub_rooms v) (<[t := tt]> (sub_topics v)).
Definition removeTopic (t : string) (v : subscriptionSet) : subscriptionSet :=
  mkSubs (sub_rooms v) (delete t (sub_topics v)).

Definition on_subs (p : positive) (f : subscriptionSet → subscriptionSet) : MW unit :=
  on_sess p (λ s, upd_subs (f (subs s)) s).

Definition sess_JoinRoom (p : positive) (r : string) : MW unit :=
  on_subs p (addRoom r) ≫= λ _, withConn p (λ ref, on_router (JoinRoom r ref)).
Definition sess_LeaveRoom (p : positive) (r : string) : MW unit :=
  on_subs p (removeRoom r) ≫= λ _, withConn p (λ ref, on_router (LeaveRoom r ref)).
Definition sess_Subscribe (p : positive) (t : string) : MW unit :=
  on_subs p (addTopic t) ≫= λ _, withConn p (λ ref, on_router (Subscribe t ref)).
Definition sess_Unsubscribe (p : positive) (t : string) : MW unit :=
  on_subs p (removeTopic t) ≫= λ _, withConn p (λ ref, on_router (Unsubscribe t ref)).

(** [snapshot()] *)
Definition snapshot (v : subscriptionSet) : list string * list string :=
  ((map_range (sub_rooms v)).*1, (map_range (sub_topics v)).*1).

(** One pending message re-sent by [AttachConn]: the entry is bumped in
    place, the retry header written, the message submitted (whatever the
    answer) and its timer set again. *)
Definition flush_entry (p c : positive) (s : Session) (id : string) : MW unit :=
  o ← gets (λ w, sessions w !! p ≫= λ s, pendingAcks s !! id);
  match o with
  | None => mret tt
  | Some e =>
      t ← gets now;
      let e' := bump t e in
      on_sess p (λ s, upd_pendingAcks (<[id := e']> (pendingAcks s)) s) ≫= λ _,
      on_msg (pe_msg e) (ensureRetryHeader (retryCount e')) ≫= λ _,
      conn_Submit c (pe_msg e) ≫= λ _,
      when (d_Acker (deps s)) (Track (pe_msg e) (ref_of p s))
  end.

Definition AttachConn (p c : positive) : MW Z :=
  on_sess p (upd_s_conn (Some c)) ≫= λ _,
  on_sess p (upd_s_state StateActive 0) ≫= λ _,
  s ← get_sess p;
  let '(rs, ts) := snapshot (subs s) in
  for_each (λ r, on_router (JoinRoom r (ref_of p s))) rs ≫= λ _,
  for_each (λ t, on_router (Subscribe t (ref_of p s))) ts ≫= λ _,
  for_each (flush_entry p c s) (map_range (pendingAcks s)).*1 ≫= λ _,
  s' ← get_sess p;
  mret (lastDeliveredSeq s').

Definition DetachConn (p : positive) : MW unit :=
  s ← get_sess p;
  t ← gets now;
  on_sess p (upd_s_conn None) ≫= λ _,
  when (bool_decide (is_Some (s_conn s))) (on_router (UnregisterAll (ref_of p s))) ≫= λ _,
  on_sess p (upd_s_state StateSuspended (UnixMilli t)).

Definition sess_Close (p : positive) : MW unit :=
  s ← get_sess p;
  if s_once s then mret tt else
  on_sess p upd_s_once ≫= λ _,
  on_sess p (λ s, upd_s_state StateClosed (suspendedAt s) s) ≫= λ _,
  match s_conn s with
  | Some c => conn_Close c ≫= λ _, on_router (UnregisterAll (ref_of p s))
  | None => mret tt
  end ≫= λ _,
  on_router (UnregisterSession (userID s) (deviceID s)) ≫= λ _,
  when (d_Acker (deps s)) (CancelAll (sessionID s)) ≫= λ _,
  on_sess p (upd_pendingAcks ∅).

(** Reading and dropping pending entries. *)
Definition GetPendingAck (p : positive) (msgID : string) : MW (option pendingEntry) :=
  s ← get_sess p; mret (pendingAcks s !! msgID).
Definition PendingAckSnapshot (p : positive) : MW (gmap string pendingEntry) :=
  s ← get_sess p; mret (pendingAcks s).
Definition RemovePendingAck (p : positive) (msgID : string) : MW unit :=
  on_sess p (λ s, upd_pendingAcks (delete msgID (pendingAcks s)) s).
Definition pendingAckCount (p : positive) : MW nat :=
  s ← get_sess p; mret (size (pendingAcks s)).

Definition sess_IsActive (p : positive) : MW bool :=
  s ← get_sess p; mret (bool_decide (s_state s = StateActive)).

(** ** The registry ([session/registry.go]) *)
Section registry.
(** [crypto/sha256] followed by [hex.EncodeToString(hash[:16])]. *)
Context (sha256_hex16 : string → string).

Definition computeSessionID (uid did : string) : string := sha256_hex16 (uid +:+ ":" +:+ did).

Definition NewRegistry (d : Deps) (ackScanner : bool) : SessRegistry :=
  mkSessRegistry ∅ ∅ d ackScanner.

Definition set_acker (b : bool) (d : Deps) : Deps :=
  mkDeps (d_Worker d) (d_Offline d) b (d_MaxRetries d).

(** The session and whether it is new. *)
Definition GetOrCreate (uid did appID deviceType bizCode : string) : MW (SessionRef * bool) :=
  o ← gets (λ w, member (userIndex (registry w)) uid did);
  match o with
  | Some ref => mret (ref, false)
  | None =>
      reg ← gets registry;
      let sid := computeSessionID uid did in
      let d := if sr_ackScanner reg then set_acker true (sr_deps reg) else sr_deps reg in
      let s := NewSession sid uid did appID deviceType bizCode d in
      p ← gets (λ w, fresh (dom (sessions w)));
      let ref := ref_of p s in
      modify (upd_sessions <[p := s]>) ≫= λ _,
      modify (upd_registry (λ g, mkSessRegistry (<[sid := ref]> (sr_sessions g))
        (index_add uid did ref (userIndex g)) (sr_deps g) (sr_ackScanner g))) ≫= λ _,
      mret (ref, true)
  end.

Definition GetAllByUser (uid : string) : MW (list SessionRef) :=
  gets (λ w, targets (userIndex (registry w) !! uid)).

Definition Count : MW nat := gets (λ w, size (sr_sessions (registry w))).

(** [gc]: every statement of the body is commented out. *)
Definition gc : MW unit := mret tt.
End registry.

Definition handleAckTimeout (sessID msgID : string) : MW unit :=
  o ← gets (λ w, sr_sessions (registry w) !! sessID);
  match o with
  | None => mret tt
  | Some ref =>
      let p := ref_ptr ref in
      s ← get_sess p;
      match pendingAcks s !! msgID with
      | None => mret tt
      | Some e =>
          on_sess p (λ s, upd_pendingAcks (<[msgID := mkEntry (pe_msg e) (retryCount e + 1)
            (firstSentAt e) (lastRetryAt e)]> (pendingAcks s)) s) ≫= λ _,
          if (effective_max (d_MaxRetries (deps s)) <? retryCount e + 1)%Z then
            on_sess p (λ s, upd_pendingAcks (delete msgID (pendingAcks s)) s) ≫= λ _,
            msg ← get_msg (pe_msg e);
            when (d_Offline (deps s) && match m_Delivery msg with
                                        | Some d => Offline d | None => false end)
                 (OfflineStore_Store (pe_msg e))
          else
            t ← gets now;
            on_sess p (λ s, upd_pendingAcks (<[msgID := bump t e]> (pendingAcks s)) s) ≫= λ _,
            on_msg (pe_msg e) (ensureRetryHeader (retryCount e + 1)) ≫= λ _,
            ok ← Submit p (pe_msg e);
            reg ← gets registry;
            when ((ok : bool) && sr_ackScanner reg) (Track (pe_msg e) ref)
      end
  end.

(** [Scanner.handleTimeout], the handler of every ACK task. *)
Definition handleTimeout (task : Task timeoutPayload unit) : MW unit :=
  sc ← gets scanner;
  if onTimeout sc then
    let sid := tp_SessID (Payload task) in
    let mid := tp_MsgID (Payload task) in
    handleAckTimeout sid mid ≫= λ _,
    modify (upd_scanner (upd_sessAcks (index_remove sid mid)))
  else mret tt.

(** An interface that was never set panics when called. *)
Definition SubmitUpstream (p m : positive) : MW error :=
  s ← get_sess p;
  msg ← get_msg m;
  let biz := if decide (m_BizCode msg = "") then s_BizCode s else m_BizCode msg in
  if decide (biz = "") then mret (Some "session: empty biz_code")
  else if d_Worker (deps s) then mgr_SubmitUpstream biz (ref_of p s) m
  else panic "invalid memory address or nil pointer dereference".
End session.
