(* ===== verification/Typing.v ===== *)
(** * The types of a node's state

    Pointers, indexes and queues of the world refer to each other.  [typed]
    says that every reference leads to an object of the right kind and with
    the right identity, that queues stay within their capacity and that
    sequence numbers fit their width.  [good] is a small program logic for the
    monad of operations: an operation that starts in a typed state ends in a
    typed state, also when it panics, and panics only under a stated
    condition. *)

From stdpp Require Import base list gmap strings numbers infinite.
From S2P Require Import Prelude Timer Shard Message Codec Router World Connection Pool Session.

(** ** The logic *)
Section logic.
Context {S : Type} (T : S → Prop) (R : relation S) `{!PreOrder R}.

(** From [s] the computation reaches a [T]-state that is [R]-above [s]; it
    returns a value that satisfies [Q], or it panics and [E] holds. *)
Definition good {A} (E : Prop) (m : M S A) (Q : A → S → Prop) (s : S) : Prop :=
  T (m s).2 ∧ R s (m s).2 ∧ match (m s).1 with Ret a => Q a (m s).2 | Panic _ => E end.

Implicit Types (E : Prop) (s : S).

Lemma good_ret {A} E (a : A) (Q : A → S → Prop) s : T s → Q a s → good E (mret a) Q s.
Proof. intros. split_and!; simpl; [done|reflexivity|done]. Qed.

Lemma good_panic {A} E why (Q : A → S → Prop) s : T s → E → good E (panic why) Q s.
Proof. intros. split_and!; simpl; [done|reflexivity|done]. Qed.

Lemma good_bind {A B} E (m : M S A) (f : A → M S B) (P : A → S → Prop) (Q : B → S → Prop) s :
  good E m P s → (∀ a s', T s' → R s s' → P a s' → good E (f a) Q s') → good E (m ≫= f) Q s.
Proof.
  intros (Ht & Hr & Hm) Hf. unfold good in *. rewrite bind_run.
  destruct (m s) as [[a|why] s1]; simpl in *; [|done].
  destruct (Hf a s1 Ht Hr Hm) as (Ht' & Hr' & Hq). split_and!; [done|by etrans|done].
Qed.

Lemma good_mono {A} E E' (m : M S A) (P Q : A → S → Prop) s :
  good E m P s → (E → E') → (∀ a s', T s' → R s s' → P a s' → Q a s') → good E' m Q s.
Proof.
  intros (Ht & Hr & Hm) HE HQ. split_and!; [done..|].
  destruct (m s) as [[a|why] s1]; simpl in *; eauto.
Qed.

(** Reading does not change the state. *)
Lemma good_gets_bind {A B} E (f : S → A) (k : A → M S B) Q s :
  good E (k (f s)) Q s → good E (gets f ≫= k) Q s.
Proof. done. Qed.
Lemma good_gets {A} E (f : S → A) (Q : A → S → Prop) s : T s → Q (f s) s → good E (gets f) Q s.
Proof. intros. split_and!; simpl; [done|reflexivity|done]. Qed.

Lemma good_ret_bind {A B} E (a : A) (k : A → M S B) Q s :
  good E (k a) Q s → good E (mret a ≫= k) Q s.
Proof. done. Qed.
Lemma good_panic_bind {A B} E why (k : A → M S B) Q s : T s → E → good E (panic why ≫= k) Q s.
Proof. intros. split_and!; simpl; [done|reflexivity|done]. Qed.

Lemma good_deref_bind {A B} E (o : option A) (k : A → M S B) Q s :
  T s → (o = None → E) → (∀ a, o = Some a → good E (k a) Q s) → good E (deref o ≫= k) Q s.
Proof.
  intros Ht Hn Hk. destruct o as [a|]; [by apply Hk|].
  split_and!; simpl; [done|reflexivity|by apply Hn].
Qed.

Lemma good_modify E (f : S → S) s (Q : unit → S → Prop) :
  T (f s) → R s (f s) → Q tt (f s) → good E (modify f) Q s.
Proof. done. Qed.

Lemma good_when E b (m : M S unit) (Q : unit → S → Prop) s :
  T s → (b = true → good E m Q s) → (b = false → Q tt s) → good E (when b m) Q s.
Proof. intros Ht Hm Hq. destruct b; simpl; [by apply Hm|]. by apply good_ret; [|apply Hq]. Qed.

Lemma good_for_each {A} E (f : A → M S unit) l s :
  T s → (∀ a s', a ∈ l → T s' → R s s' → good E (f a) (λ _ _, True) s') →
  good E (for_each f l) (λ _ _, True) s.
Proof.
  revert s. induction l as [|a l IH]; intros s Ht Hf; simpl; [by apply good_ret|].
  eapply good_bind.
  - apply Hf; [by left|done|reflexivity].
  - intros _ s' Ht' Hr _. apply IH; [done|]. intros b s'' Hb Ht'' Hr'.
    apply Hf; [by right|done|by etrans].
Qed.

Lemma good_recover E (m : M S unit) (h : string → M S unit) (Q : unit → S → Prop) s :
  good True m Q s → (∀ why s', T s' → R s s' → good E (h why) Q s') →
  good E (with_recover m h) Q s.
Proof.
  intros (Ht & Hr & Hm) Hh. unfold good in *. unfold with_recover.
  destruct (m s) as [[a|why] s1]; simpl in *; [done|].
  destruct (Hh why s1 Ht Hr) as (Ht' & Hr' & Hq). split_and!; [done|by etrans|done].
Qed.

Lemma good_ret_inv {A} E (m : M S A) (Q : A → S → Prop) s a s' :
  good E m Q s → m s = (Ret a, s') → T s' ∧ R s s' ∧ Q a s'.
Proof. intros (Ht & Hr & Hq) Em. by rewrite Em in *. Qed.
Lemma good_panic_inv {A} E (m : M S A) (Q : A → S → Prop) s why s' :
  good E m Q s → m s = (Panic why, s') → E.
Proof. intros (_ & _ & Hq) Em. by rewrite Em in Hq. Qed.
End logic.

(** ** What is never lost *)

(** The part of an object that no operation changes. *)
Definition msg_fixed (m : Message) := (m_MsgId m, m_Delivery m).
Definition sess_fixed (s : Session) := (sessionID s, userID s, deviceID s).

Section kept.
Context {K A B : Type} `{Countable K}.
Implicit Types m : gmap K A.

(** Every object stays allocated and keeps its fixed part. *)
Definition kept (f : A → B) m m' : Prop :=
  ∀ p a, m !! p = Some a → ∃ a', m' !! p = Some a' ∧ f a' = f a.

#[export] Instance kept_preorder f : PreOrder (kept f).
Proof.
  split; [by intros m p a E; eauto|]. intros m1 m2 m3 H1 H2 p a E.
  destruct (H1 p a E) as (a1 & E1 & <-). by apply H2.
Qed.

Lemma kept_alter f g p m : (∀ a, f (g a) = f a) → kept f m (alter g p m).
Proof.
  intros Hg q a E. rewrite lookup_alter. case_decide; [subst|by eauto]. rewrite E. simpl. eauto.
Qed.

Lemma kept_fresh f p a m : m !! p = None → kept f m (<[p := a]> m).
Proof. intros Hp q b E. exists b. rewrite lookup_insert_ne; [done|]. intros ->. congruence. Qed.
End kept.

Section typing.
Context {TS : Type}.
Implicit Types (w : World TS) (k : Connection) (s : Session) (p c m : positive) (ref : SessionRef).

Record ext w w' : Prop := {
  ext_msgs : kept msg_fixed (msgs w) (msgs w');
  ext_conns : kept ConnID (conns w) (conns w');
  ext_sessions : kept sess_fixed (sessions w) (sessions w');
}.

#[export] Instance ext_preorder : PreOrder ext.
Proof.
  split; [by split|]. intros w1 w2 w3 [] []. split; by etrans.
Qed.

Definition msg_ok w m : Prop := is_Some (msgs w !! m).
Definition conn_ok w c : Prop := is_Some (conns w !! c).
Definition sess_ok w p : Prop := is_Some (sessions w !! p).

(** A reference carries the identity of the session it points to. *)
Definition ref_ok w ref : Prop :=
  ∃ s, sessions w !! ref_ptr ref = Some s ∧ ref = ref_of (ref_ptr ref) s.

(** A message that waits for its ACK under the ID [id]. *)
Definition waiting_ok w (id : string) m : Prop :=
  ∃ msg, msgs w !! m = Some msg ∧ m_MsgId msg = id ∧ at_least_once msg = true.

(** ** Types of the parts *)
Record conn_ty w k : Prop := {
  ct_queue : Forall (msg_ok w) (writeCh k);
  ct_cap : length (writeCh k) ≤ WriteChannelSize;
  ct_seq : (0 ≤ nextSendSeq k < 2 ^ 64)%Z;
}.

Record sess_ty w s : Prop := {
  st_conn c : s_conn s = Some c → conn_ok w c;
  st_acks id e : pendingAcks s !! id = Some e → waiting_ok w id (pe_msg e);
}.

Record router_ty w (r : LocalRouter SessionRef) : Prop := {
  rt_users uid did ref : member (userConns r) uid did = Some ref →
    ref_ok w ref ∧ ref_uid ref = uid ∧ ref_did ref = did;
  rt_devices did ref : deviceConn r !! did = Some ref → ref_ok w ref ∧ ref_did ref = did;
  rt_rooms a sid ref : member (rooms r) a sid = Some ref → ref_ok w ref ∧ ref_sid ref = sid;
  rt_topics a sid ref : member (topics r) a sid = Some ref → ref_ok w ref ∧ ref_sid ref = sid;
}.

Record registry_ty w (g : SessRegistry) : Prop := {
  gt_sessions sid ref : sr_sessions g !! sid = Some ref → ref_ok w ref ∧ ref_sid ref = sid;
  gt_users uid did ref : member (userIndex g) uid did = Some ref →
    ref_ok w ref ∧ ref_uid ref = uid ∧ ref_did ref = did;
}.

Record pool_ty w (p : WorkerPool) : Prop := {
  pt_up : Forall (λ j, ref_ok w (uj_Sess j) ∧ msg_ok w (uj_Msg j)) (upstreamCh p);
  pt_down : Forall (msg_ok w) (downstreamCh p);
  pt_up_cap : length (upstreamCh p) ≤ pool_cap;
  pt_down_cap : length (downstreamCh p) ≤ pool_cap;
}.

Definition conn_registry_ty w (g : gmap string positive) : Prop :=
  ∀ id c, g !! id = Some c → ∃ k, conns w !! c = Some k ∧ ConnID k = id.

Record typed w : Prop := {
  ty_conns c k : conns w !! c = Some k → conn_ty w k;
  ty_sessions p s : sessions w !! p = Some s → sess_ty w s;
  ty_router : router_ty w (router w);
  ty_registry : registry_ty w (registry w);
  ty_pools b pl : pools w !! b = Some pl → pool_ty w pl;
  ty_conn_registry : conn_registry_ty w (conn_registry w);
}.

(** ** Everything is monotone *)
Lemma msg_ok_ext w w' m : ext w w' → msg_ok w m → msg_ok w' m.
Proof. intros [Hm _ _] [x E]. destruct (Hm _ _ E) as (y & E' & _). by exists y. Qed.
Lemma conn_ok_ext w w' c : ext w w' → conn_ok w c → conn_ok w' c.
Proof. intros [_ Hc _] [x E]. destruct (Hc _ _ E) as (y & E' & _). by exists y. Qed.
Lemma sess_ok_ext w w' p : ext w w' → sess_ok w p → sess_ok w' p.
Proof. intros [_ _ Hs] [x E]. destruct (Hs _ _ E) as (y & E' & _). by exists y. Qed.
Lemma ref_ok_ext w w' ref : ext w w' → ref_ok w ref → ref_ok w' ref.
Proof.
  intros [_ _ Hs] (s & E & Er). destruct (Hs _ _ E) as (s' & E' & Ef). exists s'. split; [done|].
  rewrite Er at 1. injection Ef as E1 E2 E3. unfold ref_of. simpl. congruence.
Qed.
Lemma waiting_ok_ext w w' id m : ext w w' → waiting_ok w id m → waiting_ok w' id m.
Proof.
  intros [Hm _ _] (x & E & Eid & Eq). destruct (Hm _ _ E) as (y & E' & Ef). exists y.
  injection Ef as E1 E2. split_and!; [done|congruence|]. unfold at_least_once in *. by rewrite E2.
Qed.

Lemma ref_ok_sess w ref : ref_ok w ref → sess_ok w (ref_ptr ref).
Proof. intros (s & E & _). by exists s. Qed.
Lemma waiting_ok_msg w id m : waiting_ok w id m → msg_ok w m.
Proof. intros (s & E & _). by exists s. Qed.
End typing.

#[export] Hint Resolve msg_ok_ext conn_ok_ext sess_ok_ext ref_ok_ext waiting_ok_ext
  ref_ok_sess waiting_ok_msg : typing.

(** ** Primitive writes *)
Section primitives.
Context {TS : Type}.
Implicit Types (w : World TS) (k : Connection) (s : Session) (p c m : positive) (ref : SessionRef).

Lemma conn_ty_ext w w' k : ext w w' → conn_ty w k → conn_ty w' k.
Proof. intros He []. split; [|done..]. eapply Forall_impl; [done|]. eauto with typing. Qed.
Lemma sess_ty_ext w w' s : ext w w' → sess_ty w s → sess_ty w' s.
Proof. intros He [Hc Ha]. split; eauto with typing. Qed.
Lemma router_ty_ext w w' r : ext w w' → router_ty w r → router_ty w' r.
Proof. intros He [H1 H2 H3 H4]. split; naive_solver eauto with typing. Qed.
Lemma registry_ty_ext w w' g : ext w w' → registry_ty w g → registry_ty w' g.
Proof. intros He [H1 H2]. split; naive_solver eauto with typing. Qed.
Lemma pool_ty_ext w w' pl : ext w w' → pool_ty w pl → pool_ty w' pl.
Proof.
  intros He []. split; try done; (eapply Forall_impl; [done|]); simpl; naive_solver eauto with typing.
Qed.
Lemma conn_registry_ty_ext w w' g : ext w w' → conn_registry_ty w g → conn_registry_ty w' g.
Proof.
  intros [_ Hc _] Hg id c E. destruct (Hg id c E) as (k & Ek & <-). by apply Hc.
Qed.

(** A new state is typed if each part is an old part or has a type of its
    own. *)
Lemma typed_update w w' : ext w w' → typed w →
  (∀ c k, conns w' !! c = Some k → conns w !! c = Some k ∨ conn_ty w' k) →
  (∀ p s, sessions w' !! p = Some s → sessions w !! p = Some s ∨ sess_ty w' s) →
  (router w' = router w ∨ router_ty w' (router w')) →
  (registry w' = registry w ∨ registry_ty w' (registry w')) →
  (∀ b pl, pools w' !! b = Some pl → pools w !! b = Some pl ∨ pool_ty w' pl) →
  (conn_registry w' = conn_registry w ∨ conn_registry_ty w' (conn_registry w')) →
  typed w'.
Proof.
  intros He [Tc Ts Tr Tg Tp Tn] Hc Hs Hr Hg Hp Hn. split.
  - intros c k E. destruct (Hc c k E); [|done]. eapply conn_ty_ext; eauto.
  - intros p s E. destruct (Hs p s E); [|done]. eapply sess_ty_ext; eauto.
  - destruct Hr as [->|]; [|done]. by eapply router_ty_ext.
  - destruct Hg as [->|]; [|done]. by eapply registry_ty_ext.
  - intros b pl E. destruct (Hp b pl E); [|done]. eapply pool_ty_ext; eauto.
  - destruct Hn as [->|]; [|done]. by eapply conn_registry_ty_ext.
Qed.

Lemma ext_same w w' : msgs w' = msgs w → conns w' = conns w → sessions w' = sessions w → ext w w'.
Proof. intros E1 E2 E3. split; by rewrite ?E1, ?E2, ?E3. Qed.

Lemma lookup_alter_cases {K A} `{Countable K} (f : A → A) (x : gmap K A) i j a :
  alter f i x !! j = Some a → x !! j = Some a ∨ (j = i ∧ ∃ b, x !! i = Some b ∧ a = f b).
Proof.
  rewrite lookup_alter. case_decide; [subst|by left]. destruct (x !! j) as [b|]; [|done].
  intros [= <-]. right. eauto.
Qed.

(** Every primitive is good; what it does is then only known through [ext]. *)
Abbreviation wgood := (good typed ext).

Lemma good_on_msg E p f w : typed w → (∀ a, msg_fixed (f a) = msg_fixed a) →
  wgood E (on_msg p f) (λ _ _, True) w.
Proof.
  intros Ht Hf. assert (ext w (upd_msgs (alter f p) w)) as He.
  { split; simpl; [by apply kept_alter|done..]. }
  apply good_modify; [|done..]. apply (typed_update w); auto.
Qed.

Lemma good_new_msg E x w : typed w → wgood E (new_msg x) (λ p w', msgs w' !! p = Some x) w.
Proof.
  intros Ht. unfold new_msg. set (p := fresh (dom (msgs w))).
  assert (ext w (upd_msgs <[p := x]> w)) as He.
  { split; simpl; [|done..]. apply kept_fresh, not_elem_of_dom, is_fresh. }
  split_and!; simpl; [|done|apply lookup_insert_eq]. apply (typed_update w); auto.
Qed.

Lemma good_on_conn E c f w : typed w →
  (∀ k, conn_ty w k → conn_ty w (f k)) → (∀ k, ConnID (f k) = ConnID k) →
  wgood E (on_conn c f) (λ _ _, True) w.
Proof.
  intros Ht Hf Hid. assert (ext w (upd_conns (alter f c) w)) as He.
  { split; simpl; [done|by apply kept_alter|done]. }
  apply good_modify; [|done..]. apply (typed_update w); auto.
  intros c' k [?|(-> & k0 & E0 & ->)]%lookup_alter_cases; [by left|right].
  eapply conn_ty_ext; [exact He|]. apply Hf. by eapply ty_conns.
Qed.

Lemma good_on_sess E p f w : typed w →
  (∀ s, sess_ty w s → sess_ty w (f s)) → (∀ s, sess_fixed (f s) = sess_fixed s) →
  wgood E (on_sess p f) (λ _ _, True) w.
Proof.
  intros Ht Hf Hid. assert (ext w (upd_sessions (alter f p) w)) as He.
  { split; simpl; [done..|by apply kept_alter]. }
  apply good_modify; [|done..]. apply (typed_update w); auto.
  intros q s [?|(-> & s0 & E0 & ->)]%lookup_alter_cases; [by left|right].
  eapply sess_ty_ext; [exact He|]. apply Hf. by eapply ty_sessions.
Qed.

Lemma good_on_router E f w : typed w → (router_ty w (router w) → router_ty w (f (router w))) →
  wgood E (on_router f) (λ _ _, True) w.
Proof.
  intros Ht Hf. assert (ext w (upd_router f w)) as He by by apply ext_same.
  apply good_modify; [|done..]. apply (typed_update w); auto. right.
  eapply router_ty_ext; [exact He|]. apply Hf, Ht.
Qed.

Lemma good_upd_scanner E f w : typed w → wgood E (modify (upd_scanner f)) (λ _ _, True) w.
Proof.
  intros Ht. assert (ext w (upd_scanner f w)) as He by by apply ext_same.
  apply good_modify; [|done..]. apply (typed_update w); auto.
Qed.
Lemma good_upd_timer E (g : World TS → TS → TS) w : typed w →
  wgood E (modify (λ w, upd_timer (g w) w)) (λ _ _, True) w.
Proof.
  intros Ht. assert (ext w (upd_timer (g w) w)) as He by by apply ext_same.
  apply good_modify; [|done..]. apply (typed_update w); auto.
Qed.
Lemma good_upd_offline E f w : typed w → wgood E (modify (upd_offline f)) (λ _ _, True) w.
Proof.
  intros Ht. assert (ext w (upd_offline f w)) as He by by apply ext_same.
  apply good_modify; [|done..]. apply (typed_update w); auto.
Qed.

Lemma good_on_pool E b f w : typed w → (∀ pl, pool_ty w pl → pool_ty w (f pl)) →
  wgood E (on_pool b f) (λ _ _, True) w.
Proof.
  intros Ht Hf. assert (ext w (upd_pools (alter f b) w)) as He by by apply ext_same.
  apply good_modify; [|done..]. apply (typed_update w); auto.
  intros b' pl [?|(-> & p0 & E0 & ->)]%lookup_alter_cases; [by left|right].
  eapply pool_ty_ext; [exact He|]. apply Hf. by eapply ty_pools.
Qed.

Lemma good_conn_registry E f w : typed w →
  (conn_registry_ty w (conn_registry w) → conn_registry_ty w (f (conn_registry w))) →
  wgood E (modify (upd_conn_registry f)) (λ _ _, True) w.
Proof.
  intros Ht Hf. assert (ext w (upd_conn_registry f w)) as He by by apply ext_same.
  apply good_modify; [|done..]. apply (typed_update w); auto. right.
  eapply conn_registry_ty_ext; [exact He|]. apply Hf, Ht.
Qed.

(** ** Loads *)
Lemma good_get_msg_bind {B} E p (k : Message → M (World TS) B) Q w :
  msg_ok w p → (∀ a, msgs w !! p = Some a → wgood E (k a) Q w) → wgood E (get_msg p ≫= k) Q w.
Proof. intros [a Ea] Hk. unfold good. rewrite bind_run. mrun. rewrite Ea. cbn. by apply Hk. Qed.
Lemma good_get_conn_bind {B} E c (f : Connection → M (World TS) B) Q w :
  conn_ok w c → (∀ a, conns w !! c = Some a → wgood E (f a) Q w) → wgood E (get_conn c ≫= f) Q w.
Proof. intros [a Ea] Hk. unfold good. rewrite bind_run. mrun. rewrite Ea. cbn. by apply Hk. Qed.
Lemma good_get_sess_bind {B} E p (k : Session → M (World TS) B) Q w :
  sess_ok w p → (∀ a, sessions w !! p = Some a → wgood E (k a) Q w) → wgood E (get_sess p ≫= k) Q w.
Proof. intros [a Ea] Hk. unfold good. rewrite bind_run. mrun. rewrite Ea. cbn. by apply Hk. Qed.

Lemma conns_ok w c k : conns w !! c = Some k → conn_ok w c.
Proof. by exists k. Qed.
Lemma msgs_ok w m x : msgs w !! m = Some x → msg_ok w m.
Proof. by exists x. Qed.
Lemma sessions_ok w p s : sessions w !! p = Some s → sess_ok w p.
Proof. by exists s. Qed.
Lemma sessions_ref_ok w p s : sessions w !! p = Some s → ref_ok w (ref_of p s).
Proof. by exists s. Qed.
Lemma attached_ok w p s c : typed w → sessions w !! p = Some s → s_conn s = Some c → conn_ok w c.
Proof. intros Ht Es Ec. by apply (ty_sessions _ Ht p s Es). Qed.
Lemma pending_ok w p s id e : typed w → sessions w !! p = Some s → pendingAcks s !! id = Some e →
  waiting_ok w id (pe_msg e).
Proof. intros Ht Es Ec. by apply (ty_sessions _ Ht p s Es). Qed.
End primitives.

#[export] Hint Resolve conns_ok msgs_ok sessions_ok sessions_ref_ok attached_ok pending_ok : typing.
Abbreviation wgood := (good typed ext).

(** ** The rules at the world *)
Section rules.
Context {TS : Type}.
Implicit Types (w : World TS) (E : Prop).

Lemma wret {A} E (a : A) (Q : A → World TS → Prop) w : typed w → Q a w → wgood E (mret a) Q w.
Proof. by apply good_ret; apply _. Qed.
Lemma wpanic {A} E why (Q : A → World TS → Prop) w : typed w → E → wgood E (panic why) Q w.
Proof. by apply good_panic; apply _. Qed.
Lemma wbind {A B} E (m : M (World TS) A) (f : A → M (World TS) B) P Q w :
  wgood E m P w → (∀ a w', typed w' → ext w w' → P a w' → wgood E (f a) Q w') → wgood E (m ≫= f) Q w.
Proof. by apply good_bind, _. Qed.
(** A call of which only the frame is of interest. *)
Lemma wseq {A B} E (m : M (World TS) A) (f : A → M (World TS) B) Q w :
  wgood E m (λ _ _, True) w → (∀ a w', typed w' → ext w w' → wgood E (f a) Q w') →
  wgood E (m ≫= f) Q w.
Proof. intros Hm Hf. eapply wbind; [done|]. auto. Qed.
Lemma wgets {A} E (f : World TS → A) (Q : A → World TS → Prop) w :
  typed w → Q (f w) w → wgood E (gets f) Q w.
Proof. by apply good_gets; apply _. Qed.
Lemma wderef {A B} E (o : option A) (k : A → M (World TS) B) Q w :
  typed w → (o = None → E) → (∀ a, o = Some a → wgood E (k a) Q w) → wgood E (deref o ≫= k) Q w.
Proof. by apply good_deref_bind; apply _. Qed.
Lemma wwhen E b (m : M (World TS) unit) w :
  typed w → (b = true → wgood E m (λ _ _, True) w) → wgood E (when b m) (λ _ _, True) w.
Proof. intros ??. by apply good_when; [apply _|..]. Qed.
Lemma wfor_each {A} E (f : A → M (World TS) unit) l w :
  typed w → (∀ a w', a ∈ l → typed w' → ext w w' → wgood E (f a) (λ _ _, True) w') →
  wgood E (for_each f l) (λ _ _, True) w.
Proof. by apply good_for_each, _. Qed.
Lemma wmono {A} E E' (m : M (World TS) A) (P Q : A → World TS → Prop) w :
  wgood E m P w → (E → E') → (∀ a w', typed w' → ext w w' → P a w' → Q a w') → wgood E' m Q w.
Proof. by apply good_mono. Qed.
Lemma wtrue {A} E (m : M (World TS) A) Q w : wgood E m Q w → wgood E m (λ _ _, True) w.
Proof. intros Hm. by eapply wmono. Qed.
End rules.
