(* ===== verification/TypedOps.v ===== *)
(** * Sessions, router, scanner and pools keep the node typed

    Every operation of [Connection.v], [Pool.v] and [Session.v], run in a typed
    state on allocated arguments, leaves a typed state and does not panic,
    except on a closed channel.  The typing of waiting messages is what makes
    the retry of [handleAckTimeout] safe: [handleUndelivered] dereferences the
    delivery options of the message without a test. *)

From stdpp Require Import base list gmap strings numbers infinite.
From S2P Require Import Prelude Timer Shard Message Codec Router World Connection Pool Session Typing.

Create HintDb good.

(** Take one step through a computation; the calls of operations are
    discharged by the lemmas of the database [good]. *)
Ltac gside := solve [eauto 15 with typing].
Ltac gcall := solve [eauto 15 with good typing nocore | eapply wtrue; eauto 15 with good typing nocore].
Ltac gstep :=
  match goal with
  | |- ∀ _, _ => intro
  | |- wgood _ (mret _) _ _ => apply wret; [gside|try done]
  | |- wgood _ (gets _ ≫= _) _ _ => apply good_gets_bind; cbv beta
  | |- wgood _ (get_msg _ ≫= _) _ _ => apply good_get_msg_bind; [gside|intros ? ?]
  | |- wgood _ (get_conn _ ≫= _) _ _ => apply good_get_conn_bind; [gside|intros ? ?]
  | |- wgood _ (get_sess _ ≫= _) _ _ => apply good_get_sess_bind; [gside|intros ? ?]
  | |- wgood _ (deref _ ≫= _) _ _ => apply wderef; [gside|..]
  | |- wgood _ (when _ _) _ _ => apply wwhen; [gside|intros ?]
  | |- wgood _ (for_each _ _) _ _ => apply wfor_each; [gside|intros ? ? ? ? ?]
  | |- wgood _ (let '(_, _) := ?x in _) _ _ => destruct x eqn:?
  | |- wgood _ (match ?x with _ => _ end) _ _ => destruct x eqn:?
  | |- wgood _ (_ ≫= _) _ _ => apply wseq; [|intros ? ? ? ?]
  | |- _ => gcall
  end.
Ltac gtac := repeat (progress gstep).

(** Side conditions of the primitives. *)
#[export] Hint Resolve good_upd_scanner good_upd_timer good_upd_offline good_new_msg : good.

Section ops.
Context {TS : Type} `{Scheduler TS timeoutPayload unit} `{MapRange}.
Implicit Types (w : World TS) (k : Connection) (s : Session) (p c m : positive) (ref : SessionRef).

(** ** Connections *)
Lemma good_Activate E c w : typed w → wgood E (Activate c) (λ _ _, True) w.
Proof.
  intros Ht. apply good_on_conn; [done|..]; intros k; case_decide; try done. by intros [].
Qed.

Lemma good_enqueue E c m w : typed w → conn_ok w c → msg_ok w m →
  wgood E (enqueue c m) (λ _ _, True) w.
Proof.
  intros Ht Hc Hm. unfold enqueue. gstep. case_decide; [|gtac].
  eapply wbind; [apply good_on_conn|]; [done|..|intros; gtac]; [|done].
  intros k' []. destruct (ty_conns _ Ht _ _ H1). split; simpl; [|rewrite length_app; simpl; lia|done].
  apply Forall_app_2; [done|]. by constructor.
Qed.

Lemma good_conn_Submit E c m w : typed w → conn_ok w c → msg_ok w m →
  wgood E (conn_Submit c m) (λ _ _, True) w.
Proof.
  intros Ht Hc Hm. unfold conn_Submit. gstep. case_match; [|gtac].
  eapply wbind; [apply good_on_conn|]; [done|..|intros ? ? ? ? _]; [|done|].
  { intros k' []. split; [done..|]. simpl. apply u64_bound. }
  eapply wbind; [by apply good_on_msg|intros ? ? ? ? _].
  apply good_enqueue; eauto with typing.
Qed.
Hint Resolve good_conn_Submit good_Activate : good.

Lemma good_conn_Send E c m w : typed w → conn_ok w c → msg_ok w m →
  wgood E (conn_Send c m) (λ _ _, True) w.
Proof.
  intros Ht Hc Hm. unfold conn_Send. gstep. case_match; [|gtac].
  eapply wbind; [by apply good_enqueue|]. intros; gtac.
Qed.

Lemma good_RegisterConn E id c w : typed w → (∀ k, conns w !! c = Some k → ConnID k = id) → conn_ok w c →
  wgood E (RegisterConn id c) (λ e _, e = None ↔ id ≠ "") w.
Proof.
  intros Ht Hid [k Ek]. unfold RegisterConn. case_decide.
  - apply wret; [done|]. naive_solver.
  - eapply wbind; [apply good_conn_registry|]; [done|..|].
    + intros Hg id' c'. rewrite lookup_insert_Some. intros [[<- <-]|[_ E']]; eauto.
    + intros. apply wret; [done|]. naive_solver.
Qed.

Lemma good_UnregisterConn E id w : typed w → wgood E (UnregisterConn id) (λ _ _, True) w.
Proof.
  intros Ht. apply good_conn_registry; [done|]. intros Hg id' c'. rewrite lookup_delete_Some.
  intros [_ ?]. eauto.
Qed.
Hint Resolve good_UnregisterConn : good.

(** ** Pools *)
Lemma good_SubmitUpstream_mgr E b ref m w : typed w → ref_ok w ref → msg_ok w m →
  ((∃ pl, pools w !! b = Some pl ∧ pool_closed pl = true) → E) →
  wgood E (mgr_SubmitUpstream b ref m) (λ _ _, True) w.
Proof.
  intros Ht Hr Hm HE. unfold mgr_SubmitUpstream. gstep. destruct (pools w !! b) as [pl|] eqn:Ep; [|gtac].
  unfold pool_SubmitUpstream. destruct (pool_closed pl) eqn:Ec.
  { apply wpanic; [done|]. eauto. }
  case_decide; [|gtac]. eapply wbind; [apply good_on_pool|]; [done|..|intros; gtac].
  destruct (ty_pools _ Ht _ _ Ep). intros pl' []. split; simpl; try done.
  - apply Forall_app_2; [done|]. by repeat constructor.
  - rewrite length_app. simpl. lia.
Qed.

Lemma good_SubmitDownstream E b m w : typed w → msg_ok w m →
  let crash := ∃ pl, pools w !! b = Some pl ∧ pool_closed pl = true in
  (crash → E) → wgood E (mgr_SubmitDownstream b m) (λ _ _, ¬ crash) w.
Proof.
  intros Ht Hm crash HE. subst crash. unfold mgr_SubmitDownstream. gstep.
  destruct (pools w !! b) as [pl|] eqn:Ep; [|apply wret; [done|intros (? & ? & ?); congruence]].
  unfold pool_SubmitDownstream. destruct (pool_closed pl) eqn:Ec; [by apply wpanic; [|eauto]|].
  case_decide; [|apply wret; [done|intros (? & ? & ?); congruence]].
  eapply wbind; [apply good_on_pool|]; [done|..|intros; apply wret; [done|intros (? & ? & ?); congruence]].
  destruct (ty_pools _ Ht _ _ Ep). intros pl' []. split; simpl; try done.
  - apply Forall_app_2; [done|]. by repeat constructor.
  - rewrite length_app. simpl. lia.
Qed.

Lemma good_pool_Stop E b pl w : typed w → pools w !! b = Some pl → (pool_closed pl = true → E) →
  wgood E (pool_Stop b) (λ _ _, pool_closed pl = false) w.
Proof.
  intros Ht Ep HE. unfold pool_Stop. gstep. rewrite Ep. apply good_ret_bind.
  destruct (pool_closed pl) eqn:Ec; [by apply wpanic; [|apply HE]|].
  eapply wmono; [apply (good_on_pool E); [done|]|done|done]. by intros pl' [].
Qed.

(** ** The scanner and the offline store *)
Lemma good_Track E m ref w : typed w → msg_ok w m → wgood E (Track m ref) (λ _ _, True) w.
Proof. intros Ht Hm. unfold Track. gtac. Qed.
Lemma good_Done E mid sid w : typed w → wgood E (Done mid sid) (λ _ _, True) w.
Proof. intros Ht. unfold Done. gtac. Qed.
Lemma good_CancelAll E sid w : typed w → wgood E (CancelAll sid) (λ _ _, True) w.
Proof. intros Ht. unfold CancelAll. gtac. Qed.
Lemma good_Store E m w : typed w → msg_ok w m → wgood E (OfflineStore_Store m) (λ _ _, True) w.
Proof. intros Ht Hm. unfold OfflineStore_Store. gtac. Qed.
Hint Resolve good_Track good_Done good_CancelAll good_Store : good.

(** ** Sessions *)
(** The message has no delivery options. *)
Definition no_delivery w m : Prop := ∃ msg, msgs w !! m = Some msg ∧ m_Delivery msg = None.

Lemma no_delivery_back w w' m : ext w w' → msg_ok w m → no_delivery w' m → no_delivery w m.
Proof.
  intros [Hm _ _] [x E] (y & E' & Hy). destruct (Hm _ _ E) as (z & Ez & Ef). exists x. split; [done|].
  injection Ef as _ Ed. congruence.
Qed.
Lemma waiting_delivery w id m : waiting_ok w id m → ¬ no_delivery w m.
Proof. intros (x & E & _ & Hq) (y & E' & Hy). simplify_eq. unfold at_least_once in Hq. by rewrite Hy in Hq. Qed.

Lemma sess_ty_plain w s s' : s_conn s' = s_conn s → pendingAcks s' = pendingAcks s →
  sess_ty w s → sess_ty w s'.
Proof. intros Ec Ea [Hc Ha]. split; rewrite ?Ec, ?Ea; done. Qed.

(** Writes to a session that leave connection and waiting messages alone. *)
Lemma good_on_sess_plain E p f w : typed w →
  (∀ s, (s_conn (f s), pendingAcks (f s), sess_fixed (f s)) = (s_conn s, pendingAcks s, sess_fixed s)) →
  wgood E (on_sess p f) (λ _ _, True) w.
Proof.
  intros Ht Hf. apply good_on_sess; [done|..]; intros s; specialize (Hf s); [|congruence].
  apply sess_ty_plain; congruence.
Qed.
Lemma good_put_pending E p id e w : typed w → waiting_ok w id (pe_msg e) →
  wgood E (on_sess p (λ s, upd_pendingAcks (<[id := e]> (pendingAcks s)) s)) (λ _ _, True) w.
Proof.
  intros Ht He. apply good_on_sess; [done|..|done]. intros s [Hc Ha]. split; [done|].
  intros id' e'. simpl. rewrite lookup_insert_Some. intros [[<- <-]|[_ ?]]; eauto.
Qed.
Lemma good_del_pending E p id w : typed w →
  wgood E (on_sess p (λ s, upd_pendingAcks (delete id (pendingAcks s)) s)) (λ _ _, True) w.
Proof.
  intros Ht. apply good_on_sess; [done|..|done]. intros s [Hc Ha]. split; [done|].
  intros id' e'. simpl. rewrite lookup_delete_Some. intros [_ ?]; eauto.
Qed.
Lemma good_clear_pending E p w : typed w → wgood E (on_sess p (upd_pendingAcks ∅)) (λ _ _, True) w.
Proof. intros Ht. apply good_on_sess; [done|..|done]. intros s [Hc Ha]. by split. Qed.
Lemma good_set_conn E p o w : typed w → (∀ c, o = Some c → conn_ok w c) →
  wgood E (on_sess p (upd_s_conn o)) (λ _ _, True) w.
Proof. intros Ht Ho. apply good_on_sess; [done|..|done]. intros s [Hc Ha]. by split. Qed.
Hint Resolve good_put_pending good_del_pending good_clear_pending : good.
Hint Extern 3 (wgood _ (on_sess _ _) _ _) => apply good_on_sess_plain; [gside|done] : good.
Hint Extern 3 (wgood _ (on_msg _ _) _ _) => apply good_on_msg; [gside|done] : good.

Lemma good_handleUndelivered E p m w : typed w → sess_ok w p → msg_ok w m → (no_delivery w m → E) →
  wgood E (handleUndelivered p m) (λ _ _, True) w.
Proof.
  intros Ht Hp Hm HE. unfold handleUndelivered. gstep. gstep. gstep; [|gtac].
  intros Ed. apply HE. eexists. eauto.
Qed.

Lemma waiting_intro w m msg : msgs w !! m = Some msg → at_least_once msg = true →
  waiting_ok w (m_MsgId msg) m.
Proof. intros. by exists msg. Qed.
Hint Resolve waiting_intro : typing.

Lemma good_Submit E p m w : typed w → sess_ok w p → msg_ok w m → (no_delivery w m → E) →
  wgood E (Submit p m) (λ _ _, True) w.
Proof.
  intros Ht Hp Hm HE. unfold Submit. gstep.
  assert (∀ w', typed w' → ext w w' →
    wgood E (handleUndelivered p m ≫= λ _, mret false) (λ _ _, True) w') as Hu.
  { intros w' Ht' He. apply wseq; [apply good_handleUndelivered; eauto with typing|intros; gtac].
    intros Hn. eapply HE, no_delivery_back; eauto. }
  destruct (s_conn a) as [c|] eqn:Ec; [|by apply Hu].
  gstep. case_match; [|by apply Hu]. gstep; [gcall|]. case_match; [|by apply Hu].
  gstep. gstep. gstep; [gcall|]. gstep; [|gtac]. gstep.
  gstep; [|gcall]. apply good_put_pending; [done|]. simpl.
  eapply waiting_ok_ext; [done|]. apply waiting_intro; [done|].
  by match goal with Hb : (_ && _) = true |- _ => apply andb_true_iff in Hb as [_ ?] end.
Qed.

Lemma good_Ack E p mid w : typed w → sess_ok w p → wgood E (Ack p mid) (λ _ _, True) w.
Proof. intros Ht Hp. unfold Ack. gtac. Qed.

(** *** The router through a session *)
Lemma index_add_ty (P : string → string → SessionRef → Prop) ix a j ref :
  (∀ a j ref, member ix a j = Some ref → P a j ref) → P a j ref →
  ∀ a' j' ref', member (index_add a j ref ix) a' j' = Some ref' → P a' j' ref'.
Proof. intros Hix Hp a' j' ref'. rewrite member_add. case_decide; naive_solver. Qed.
Lemma index_remove_ty (P : string → string → SessionRef → Prop) ix a j :
  (∀ a j ref, member ix a j = Some ref → P a j ref) →
  ∀ a' j' ref', member (index_remove a j ix) a' j' = Some ref' → P a' j' ref'.
Proof. intros Hix a' j' ref'. rewrite member_remove. case_decide; naive_solver. Qed.
Lemma index_purge_ty (P : string → string → SessionRef → Prop) ix j :
  (∀ a j ref, member ix a j = Some ref → P a j ref) →
  ∀ a' j' ref', member (index_purge j ix) a' j' = Some ref' → P a' j' ref'.
Proof. intros Hix a' j' ref'. rewrite member_purge. case_decide; naive_solver. Qed.

Lemma good_router_JoinRoom E r ref w : typed w → ref_ok w ref →
  wgood E (on_router (JoinRoom r ref)) (λ _ _, True) w.
Proof.
  intros Ht Hr. apply good_on_router; [done|]. intros []. split; simpl; try done.
  apply (index_add_ty (λ _ sid ref, ref_ok w ref ∧ ref_sid ref = sid)); auto.
Qed.
Lemma good_router_LeaveRoom E r ref w : typed w → wgood E (on_router (LeaveRoom r ref)) (λ _ _, True) w.
Proof.
  intros Ht. apply good_on_router; [done|]. intros []. split; simpl; try done.
  apply (index_remove_ty (λ _ sid ref, ref_ok w ref ∧ ref_sid ref = sid)); auto.
Qed.
Lemma good_router_Subscribe E t ref w : typed w → ref_ok w ref →
  wgood E (on_router (Subscribe t ref)) (λ _ _, True) w.
Proof.
  intros Ht Hr. apply good_on_router; [done|]. intros []. split; simpl; try done.
  apply (index_add_ty (λ _ sid ref, ref_ok w ref ∧ ref_sid ref = sid)); auto.
Qed.
Lemma good_router_Unsubscribe E t ref w : typed w → wgood E (on_router (Unsubscribe t ref)) (λ _ _, True) w.
Proof.
  intros Ht. apply good_on_router; [done|]. intros []. split; simpl; try done.
  apply (index_remove_ty (λ _ sid ref, ref_ok w ref ∧ ref_sid ref = sid)); auto.
Qed.
Lemma good_router_UnregisterAll E ref w : typed w → wgood E (on_router (UnregisterAll ref)) (λ _ _, True) w.
Proof.
  intros Ht. apply good_on_router; [done|]. intros []. split; simpl; try done;
    apply (index_purge_ty (λ _ sid ref, ref_ok w ref ∧ ref_sid ref = sid)); auto.
Qed.
Lemma good_router_UnregisterSession E uid did w : typed w →
  wgood E (on_router (UnregisterSession uid did)) (λ _ _, True) w.
Proof.
  intros Ht. apply good_on_router; [done|]. intros []. split; simpl; try done.
  - apply (index_remove_ty (λ uid did ref, ref_ok w ref ∧ ref_uid ref = uid ∧ ref_did ref = did)); auto.
  - intros did' ref. rewrite lookup_delete_Some. intros [_ ?]. eauto.
Qed.
Hint Resolve good_router_JoinRoom good_router_LeaveRoom good_router_Subscribe good_router_Unsubscribe
  good_router_UnregisterAll good_router_UnregisterSession good_conn_Submit : good.

Lemma good_sess_JoinRoom E p r w : typed w → sess_ok w p → wgood E (sess_JoinRoom p r) (λ _ _, True) w.
Proof. intros Ht Hp. unfold sess_JoinRoom, on_subs, withConn. gtac. Qed.
Lemma good_sess_LeaveRoom E p r w : typed w → sess_ok w p → wgood E (sess_LeaveRoom p r) (λ _ _, True) w.
Proof. intros Ht Hp. unfold sess_LeaveRoom, on_subs, withConn. gtac. Qed.
Lemma good_sess_Subscribe E p r w : typed w → sess_ok w p → wgood E (sess_Subscribe p r) (λ _ _, True) w.
Proof. intros Ht Hp. unfold sess_Subscribe, on_subs, withConn. gtac. Qed.
Lemma good_sess_Unsubscribe E p r w : typed w → sess_ok w p → wgood E (sess_Unsubscribe p r) (λ _ _, True) w.
Proof. intros Ht Hp. unfold sess_Unsubscribe, on_subs, withConn. gtac. Qed.

(** *** Attaching, detaching, closing *)
Lemma good_flush_entry E p c s id w : typed w → sess_ok w p → conn_ok w c →
  wgood E (flush_entry p c s id) (λ _ _, True) w.
Proof.
  intros Ht Hp Hc. unfold flush_entry. gstep.
  destruct (sessions w !! p ≫= _) as [e|] eqn:Eo; [|gtac].
  assert (waiting_ok w id (pe_msg e)) as Hw.
  { destruct (sessions w !! p) as [s'|] eqn:Es; [|done]. by eapply pending_ok. }
  gtac.
Qed.
Hint Resolve good_flush_entry : good.
Hint Extern 3 (wgood _ (on_sess _ (upd_s_conn _)) _ _) => apply good_set_conn; [gside|naive_solver] : good.

Lemma good_AttachConn E p c w : typed w → sess_ok w p → conn_ok w c →
  wgood E (AttachConn p c) (λ _ _, True) w.
Proof. intros Ht Hp Hc. unfold AttachConn, snapshot. gtac. Qed.

Lemma good_DetachConn E p w : typed w → sess_ok w p → wgood E (DetachConn p) (λ _ _, True) w.
Proof. intros Ht Hp. unfold DetachConn. gtac. Qed.

Lemma good_sess_Close E p w : typed w → sess_ok w p → wgood E (sess_Close p) (λ _ _, True) w.
Proof. intros Ht Hp. unfold sess_Close, conn_Close. gtac. Qed.

(** *** Registering *)
Lemma good_RegisterSession E uid did ref w : typed w → ref_ok w ref → ref_uid ref = uid →
  wgood E (λ w, let '(k, r) := RegisterSession uid did ref (router w) in (Ret k, upd_router (λ _, r) w))
    (λ o w', ∀ old, o = Some old → ref_ok w' old) w.
Proof.
  intros Ht Hr Hu. unfold good. destruct (RegisterSession uid did ref (router w)) as [o r] eqn:Er.
  unfold RegisterSession in Er. injection Er as Eo Er. cbn [fst snd].
  assert (ext w (upd_router (λ _, r) w)) as He by by apply ext_same.
  split_and!; [|done|].
  - apply (typed_update w); auto. right. eapply router_ty_ext; [exact He|].
    destruct (ty_router _ Ht). subst r. split; simpl; try done.
    + by apply (index_add_ty (λ uid did ref, ref_ok w ref ∧ ref_uid ref = uid ∧ ref_did ref = did)).
    + intros did' ref'. rewrite lookup_insert_Some. intros [[<- <-]|[_ ?]]; eauto.
  - intros old ->. eapply ref_ok_ext; [exact He|].
    destruct (deviceConn (router w) !! ref_did ref) as [old'|] eqn:Ed; [|done]. case_decide; [|done].
    simplify_eq. by destruct (rt_devices _ _ (ty_router _ Ht) _ _ Ed).
Qed.

Context (sha256_hex16 : string → string).
Lemma good_GetOrCreate E uid did a d b w : typed w →
  wgood E (GetOrCreate sha256_hex16 uid did a d b)
    (λ r w', ref_ok w' r.1 ∧ ref_uid r.1 = uid ∧ ref_did r.1 = did) w.
Proof.
  intros Ht. unfold GetOrCreate. gstep. destruct (member _ _ _) as [ref|] eqn:Em.
  { apply wret; [done|]. by apply (gt_users _ _ (ty_registry _ Ht)). }
  do 2 gstep. set (s := NewSession _ _ _ _ _ _ _). set (p := fresh (dom (sessions w))).
  assert (ext w (upd_sessions <[p := s]> w)) as He.
  { split; simpl; [done..|]. apply kept_fresh, not_elem_of_dom, is_fresh. }
  apply (wbind _ _ _ (λ _ w', ref_ok w' (ref_of p s))).
  { apply good_modify; [|done|]; [|simpl; exists s; simpl; by rewrite lookup_insert_eq].
    apply (typed_update w); auto. intros q s0. simpl. rewrite lookup_insert_Some.
    intros [[<- <-]|[_ ?]]; [|by left]. right. by split. }
  intros _ w1 Ht1 He1 Hr1. set (g := λ g, mkSessRegistry _ _ _ _).
  assert (ext w1 (upd_registry g w1)) as He2 by by apply ext_same.
  apply (wbind _ _ _ (λ _ w', ref_ok w' (ref_of p s))).
  { apply good_modify; [|done|]; [|by eapply ref_ok_ext].
    apply (typed_update w1); auto. right. eapply registry_ty_ext; [exact He2|].
    destruct (ty_registry _ Ht1). split; simpl.
    - intros sid ref. rewrite lookup_insert_Some. intros [[<- <-]|[_ ?]]; eauto.
    - apply (index_add_ty (λ uid did ref, ref_ok w1 ref ∧ ref_uid ref = uid ∧ ref_did ref = did)); auto. }
  intros _ w2 Ht2 He3 Hr2. by apply wret.
Qed.

(** *** Time-outs and the way up *)
Hint Resolve good_AttachConn good_DetachConn good_sess_Close : good.

Lemma good_handleAckTimeout E sid mid w : typed w → wgood E (handleAckTimeout sid mid) (λ _ _, True) w.
Proof.
  intros Ht. unfold handleAckTimeout. gstep. destruct (_ !! sid) as [ref|] eqn:Er; [|gtac].
  destruct (gt_sessions _ _ (ty_registry _ Ht) _ _ Er) as [Hr _]. cbv zeta. gstep.
  destruct (pendingAcks a !! mid) as [e|] eqn:Ee; [|gtac].
  assert (waiting_ok w mid (pe_msg e)) as Hw by by eapply pending_ok.
  gstep; [gcall|]. gstep; [by gtac|]. gstep. gstep; [gcall|]. gstep; [gcall|].
  gstep; [|by gtac].
  apply good_Submit; [by eauto with typing..|]. intros Hn. exfalso.
  eapply waiting_delivery; [|exact Hn]. eauto with typing.
Qed.

Lemma good_handleTimeout E task w : typed w → wgood E (handleTimeout task) (λ _ _, True) w.
Proof.
  intros Ht. unfold handleTimeout. gstep. case_match; [|gtac].
  apply wseq; [by apply good_handleAckTimeout|]. intros; gtac.
Qed.

Lemma good_SubmitUpstream p m w : typed w → sess_ok w p → msg_ok w m →
  wgood True (SubmitUpstream p m) (λ _ _, True) w.
Proof.
  intros Ht Hp Hm. unfold SubmitUpstream. gstep. gstep. cbv zeta. case_decide; [by gtac|].
  destruct (d_Worker _); [|by apply wpanic]. apply good_SubmitUpstream_mgr; eauto with typing.
Qed.
End ops.

#[export] Hint Resolve good_conn_Submit good_Activate good_UnregisterConn good_Track good_Done
  good_CancelAll good_Store good_put_pending good_del_pending good_clear_pending
  good_router_JoinRoom good_router_LeaveRoom good_router_Subscribe good_router_Unsubscribe
  good_router_UnregisterAll good_router_UnregisterSession good_flush_entry good_AttachConn
  good_DetachConn good_sess_Close good_handleTimeout good_SubmitUpstream good_Ack : good.
#[export] Hint Extern 3 (wgood _ (on_sess _ _) _ _) => apply good_on_sess_plain; [gside|done] : good.
#[export] Hint Extern 3 (wgood _ (on_msg _ _) _ _) => apply good_on_msg; [gside|done] : good.
