(* ===== verification/Demo.v ===== *)
(** * A small node to run the definitions on

    One user with one device, attached to an active connection and subscribed
    to a room, a scheduler with four shards, one worker pool, and a QoS-1
    message for the user.  The witnesses of the claims evaluate on it. *)

From stdpp Require Import base list gmap strings numbers.
From S2P Require Import Prelude Timer Shard Message Codec Router World Connection Pool Session.

#[export] Existing Instance canonical_range.

Definition demo_TS : Type := shardedScheduler timeoutPayload unit.
Definition demo_timer : demo_TS := newShardedScheduler 4.

Lemma demo_timer_ok : sched_ok (S:=demo_TS) demo_timer.
Proof. apply newSharded_ok; vm_compute; [lia|done]. Qed.

Definition demo_deps : Deps := mkDeps true true true 0.
Definition demo_ref : SessionRef := mkRef 1 "s1" "u1" "d1".

Definition demo_session : Session :=
  mkSession "s1" "app" "u1" "d1" "ios" "im" (Some 1%positive) (mkSubs {[ "r1" := tt ]} ∅)
    0 StateActive 0 ∅ demo_deps false.

Definition demo_conn : Connection :=
  upd_c_state ConnActive (newConnection 0 "c1" "u1" "app" "d1" "ios" "im").

Definition demo_msg : Message :=
  mkMessage FrameType_BUSINESS "message-1" "im" None (Some (mkRouteTarget (RouteTargetType_other 1) "u1"))
    0 0 None (Some (mkDelivery QosClass_AT_LEAST_ONCE true None)) (Some (mkTraceContext "t1")) None.

Definition demo_router : LocalRouter SessionRef :=
  mkRouter {[ "u1" := {[ "d1" := demo_ref ]} ]} {[ "d1" := demo_ref ]}
           {[ "r1" := {[ "s1" := demo_ref ]} ]} ∅.

Definition demo_registry : SessRegistry :=
  mkSessRegistry {[ "s1" := demo_ref ]} {[ "u1" := {[ "d1" := demo_ref ]} ]} demo_deps true.

Definition demo_pool : WorkerPool := mkPool [] [] true false false.

(** [demo s k m]: the node with the given session, connection and message. *)
Definition demo (s : Session) (k : Connection) (m : Message) : World demo_TS :=
  mkWorld (10 ^ 9) {[ 1%positive := m ]} {[ 1%positive := k ]} {[ 1%positive := s ]}
    demo_router demo_registry (mkScanner (5 * 10 ^ 9) ∅ true) demo_timer {[ "im" := demo_pool ]} ∅ [].

Definition demo_world : World demo_TS := demo demo_session demo_conn demo_msg.

(** The session while the message waits for its ACK. *)
Definition demo_waiting : Session :=
  upd_pendingAcks {[ "message-1" := mkEntry 1 0 0 0 ]} demo_session.
