(* ===== verification/RegistryConc.v ===== *)
(** * Concurrent use of the session registry ([session/registry.go])

    [GetOrCreate] looks the device up under the read lock and, if there is
    nothing, again under the write lock before it creates a session;
    [GetAllByUser] and [Count] read under the read lock.  The programs below
    take the accesses of the code one by one; whatever the interleaving, what
    the calls return and leave behind is what the atomic operations of
    [Session.v] give in some order. *)

From stdpp Require Import base list gmap strings numbers relations.
From S2P Require Import Prelude Threads Timer Shard Message Codec Router World Connection Pool Session Demo.
Local Open Scope gw_scope.

Inductive reg_call : Set :=
  | CallGetOrCreate (uid did appID deviceType bizCode : string)
  | CallGetAllByUser (uid : string)
  | CallCount.

Inductive reg_res : Set :=
  | ResSession (ref : SessionRef) (created : bool)
  | ResSessions (refs : list SessionRef)
  | ResCount (n : nat).

Section registry.
Context {TS : Type} `{Scheduler TS timeoutPayload unit} `{MapRange}.
Context (sha256_hex16 : string → string).
Abbreviation MW := (M (World TS)).
Abbreviation L := (rwlock * World TS)%type.
Abbreviation prg := (prog L reg_res).
Implicit Types w : World TS.

(** ** The accesses of [GetOrCreate] *)
Definition lookup_device (uid did : string) : MW (option SessionRef) :=
  gets (λ w, member (userIndex (registry w)) uid did).

(** [NewSession]: a new object, not yet in any map. *)
Definition new_session (uid did appID deviceType bizCode : string) : MW SessionRef :=
  reg ← gets registry;
  let d := if sr_ackScanner reg then set_acker true (sr_deps reg) else sr_deps reg in
  let s := NewSession (computeSessionID sha256_hex16 uid did) uid did appID deviceType bizCode d in
  p ← gets (λ w, fresh (dom (sessions w)));
  modify (upd_sessions <[p := s]>) ≫= λ _, mret (ref_of p s).

(** [sr.sessions[sessionID] = sess] *)
Definition put_session (ref : SessionRef) : MW unit :=
  modify (upd_registry (λ g, mkSessRegistry (<[ref_sid ref := ref]> (sr_sessions g))
    (userIndex g) (sr_deps g) (sr_ackScanner g))).

(** [sr.userIndex[userID][deviceID] = sess] *)
Definition put_index (uid did : string) (ref : SessionRef) : MW unit :=
  modify (upd_registry (λ g, mkSessRegistry (sr_sessions g)
    (index_add uid did ref (userIndex g)) (sr_deps g) (sr_ackScanner g))).

(** ** The programs, in the order of the code *)
Definition goc_found (ref : SessionRef) : prg := wait_for Unlock ~> Finish (ResSession ref false).
Definition goc_indexed (ref : SessionRef) : prg := wait_for Unlock ~> Finish (ResSession ref true).
Definition goc_listed uid did ref : prg := act (guarded (put_index uid did ref)) ~> goc_indexed ref.
Definition goc_allocated uid did ref : prg := act (guarded (put_session ref)) ~> goc_listed uid did ref.
Definition goc_missing uid did app dt biz : prg :=
  ref <~ act (guarded (new_session uid did app dt biz)) ;; goc_allocated uid did ref.
Definition goc_checking uid did app dt biz : prg :=
  o <~ act (guarded (lookup_device uid did)) ;;
  match o with Some ref => goc_found ref | None => goc_missing uid did app dt biz end.
Definition goc_slow uid did app dt biz : prg := wait_for Lock ~> goc_checking uid did app dt biz.
Definition goc_read uid did app dt biz (o : option SessionRef) : prg :=
  wait_for RUnlock ~>
  match o with Some ref => Finish (ResSession ref false) | None => goc_slow uid did app dt biz end.
Definition goc_reading uid did app dt biz : prg :=
  o <~ act (guarded (lookup_device uid did)) ;; goc_read uid did app dt biz o.
Definition GetOrCreate_prog uid did app dt biz : prg := wait_for RLock ~> goc_reading uid did app dt biz.

(** [GetAllByUser] and [Count] release the lock when they return. *)
Definition query (c : reg_call) : MW reg_res :=
  match c with
  | CallGetAllByUser uid => l ← GetAllByUser uid; mret (ResSessions l)
  | _ => n ← Count; mret (ResCount n)
  end.
Definition query_got (r : reg_res) : prg := wait_for RUnlock ~> Finish r.
Definition query_reading (c : reg_call) : prg := r <~ act (guarded (query c)) ;; query_got r.
Definition query_prog (c : reg_call) : prg := wait_for RLock ~> query_reading c.

Definition call_prog (c : reg_call) : prg :=
  match c with
  | CallGetOrCreate uid did app dt biz => GetOrCreate_prog uid did app dt biz
  | _ => query_prog c
  end.

(** ** What they promise: the atomic operations *)
Definition call_spec (c : reg_call) : MW reg_res :=
  match c with
  | CallGetOrCreate uid did app dt biz =>
      '(ref, created) ← GetOrCreate sha256_hex16 uid did app dt biz; mret (ResSession ref created)
  | _ => query c
  end.

Lemma query_pure c w : ∃ r, query c w = (Ret r, w).
Proof. destruct c; by eexists. Qed.

(** The three writes of the slow path are the atomic creation. *)
Lemma creation_spec uid did app dt biz w ref w1 w2 w3 :
  member (userIndex (registry w)) uid did = None →
  new_session uid did app dt biz w = (Ret ref, w1) → put_session ref w1 = (Ret tt, w2) →
  put_index uid did ref w2 = (Ret tt, w3) →
  call_spec (CallGetOrCreate uid did app dt biz) w = (Ret (ResSession ref true), w3).
Proof.
  unfold new_session, put_session, put_index, modify, gets, mret, M_ret. intros Hm.
  rewrite !bind_run. cbn. intros [= <- <-] [= <-] [= <-].
  unfold call_spec, GetOrCreate. rewrite !bind_run. cbn. by rewrite Hm.
Qed.

Lemma lookup_spec uid did app dt biz w ref :
  member (userIndex (registry w)) uid did = Some ref →
  call_spec (CallGetOrCreate uid did app dt biz) w = (Ret (ResSession ref false), w).
Proof. intros Hm. unfold call_spec, GetOrCreate. rewrite !bind_run. cbn. by rewrite Hm. Qed.

(** Undisturbed, a call is the atomic operation. *)
Lemma call_prog_alone c w :
  alone (call_prog c) (unlocked, w) =
  ((call_spec c w).1, (unlocked, (call_spec c w).2)).
Proof.
  destruct c as [uid did app dt biz|uid|]; [|done..].
  cbn -[call_spec]. destruct (member (userIndex (registry w)) uid did) as [ref|] eqn:Hm.
  - by rewrite (lookup_spec _ _ _ _ _ _ _ Hm).
  - transitivity (alone (goc_checking uid did app dt biz) (mkRW 0 true, w)); [reflexivity|].
    cbn -[call_spec]. rewrite Hm. cbn -[call_spec].
    by rewrite (creation_spec uid did app dt biz w _ _ _ _ Hm eq_refl eq_refl eq_refl).
Qed.

(** ** Where a call is *)
Inductive phase : Type :=
  | AtStart | Reading | ReadNone | ReadFound (r : reg_res) | AtLock
  | Checking | Found (ref : SessionRef) | Missing | Allocated (ref : SessionRef)
  | Listed (ref : SessionRef) | Indexed (ref : SessionRef) | Returned (r : reg_res).

Definition code (c : reg_call) (ph : phase) : prg :=
  match c, ph with
  | _, Returned r => Finish r
  | CallGetOrCreate uid did app dt biz, AtStart => GetOrCreate_prog uid did app dt biz
  | CallGetOrCreate uid did app dt biz, Reading => goc_reading uid did app dt biz
  | CallGetOrCreate uid did app dt biz, ReadNone => goc_read uid did app dt biz None
  | CallGetOrCreate uid did app dt biz, ReadFound (ResSession ref _) => goc_read uid did app dt biz (Some ref)
  | CallGetOrCreate uid did app dt biz, AtLock => goc_slow uid did app dt biz
  | CallGetOrCreate uid did app dt biz, Checking => goc_checking uid did app dt biz
  | CallGetOrCreate uid did app dt biz, Found ref => goc_found ref
  | CallGetOrCreate uid did app dt biz, Missing => goc_missing uid did app dt biz
  | CallGetOrCreate uid did app dt biz, Allocated ref => goc_allocated uid did ref
  | CallGetOrCreate uid did app dt biz, Listed ref => goc_listed uid did ref
  | CallGetOrCreate uid did app dt biz, Indexed ref => goc_indexed ref
  | _, AtStart => query_prog c
  | _, Reading => query_reading c
  | _, ReadFound r => query_got r
  | _, _ => Crashed ""
  end.

Definition reads (ph : phase) : nat := match ph with Reading | ReadNone | ReadFound _ => 1 | _ => 0 end.
Definition writes (ph : phase) : nat :=
  match ph with Checking | Found _ | Missing | Allocated _ | Listed _ | Indexed _ => 1 | _ => 0 end.
(** The result is settled. *)
Definition settled (ph : phase) : option reg_res :=
  match ph with
  | ReadFound r | Returned r => Some r
  | Found ref => Some (ResSession ref false)
  | Indexed ref => Some (ResSession ref true)
  | _ => None
  end.

(** How the registry [w] of a writer differs from what the settled calls made
    of it, [wa]. *)
Definition written (c : reg_call) (ph : phase) (wa w : World TS) : Prop :=
  match c, ph with
  | CallGetOrCreate uid did app dt biz, Missing =>
      w = wa ∧ member (userIndex (registry wa)) uid did = None
  | CallGetOrCreate uid did app dt biz, Allocated ref =>
      new_session uid did app dt biz wa = (Ret ref, w) ∧ member (userIndex (registry wa)) uid did = None
  | CallGetOrCreate uid did app dt biz, Listed ref =>
      ∃ w1, new_session uid did app dt biz wa = (Ret ref, w1) ∧ put_session ref w1 = (Ret tt, w) ∧
        member (userIndex (registry wa)) uid did = None
  | _, _ => w = wa
  end.

(** One action of a call, by phases. *)
Inductive move : reg_call → phase → L → phase → L → Prop :=
  | mv_RLock c l w : rw_writer l = false → move c AtStart (l, w) Reading (mkRW (S (rw_readers l)) false, w)
  | mv_read_none uid did app dt biz l w : member (userIndex (registry w)) uid did = None →
      move (CallGetOrCreate uid did app dt biz) Reading (l, w) ReadNone (l, w)
  | mv_read c r l w : call_spec c w = (Ret r, w) → move c Reading (l, w) (ReadFound r) (l, w)
  | mv_RUnlock_none c l w : move c ReadNone (l, w) AtLock (mkRW (pred (rw_readers l)) (rw_writer l), w)
  | mv_RUnlock c r l w : move c (ReadFound r) (l, w) (Returned r) (mkRW (pred (rw_readers l)) (rw_writer l), w)
  | mv_Lock c l w : rw_writer l = false → rw_readers l = 0 → move c AtLock (l, w) Checking (mkRW 0 true, w)
  | mv_found c ref l w : call_spec c w = (Ret (ResSession ref false), w) → move c Checking (l, w) (Found ref) (l, w)
  | mv_missing uid did app dt biz l w : member (userIndex (registry w)) uid did = None →
      move (CallGetOrCreate uid did app dt biz) Checking (l, w) Missing (l, w)
  | mv_new uid did app dt biz ref l w w' : new_session uid did app dt biz w = (Ret ref, w') →
      move (CallGetOrCreate uid did app dt biz) Missing (l, w) (Allocated ref) (l, w')
  | mv_list uid did app dt biz ref l w w' : put_session ref w = (Ret tt, w') →
      move (CallGetOrCreate uid did app dt biz) (Allocated ref) (l, w) (Listed ref) (l, w')
  | mv_index uid did app dt biz ref l w w' : put_index uid did ref w = (Ret tt, w') →
      move (CallGetOrCreate uid did app dt biz) (Listed ref) (l, w) (Indexed ref) (l, w')
  | mv_Unlock_found c ref l w : move c (Found ref) (l, w) (Returned (ResSession ref false)) (mkRW (rw_readers l) false, w)
  | mv_Unlock_new c ref l w : move c (Indexed ref) (l, w) (Returned (ResSession ref true)) (mkRW (rw_readers l) false, w).

(** A read-only call is never in the slow path, and what [GetOrCreate] found is
    a session it did not create. *)
Definition phase_ok (c : reg_call) (ph : phase) : Prop :=
  match c, ph with
  | CallGetOrCreate _ _ _ _ _, ReadFound r => ∃ ref, r = ResSession ref false
  | CallGetOrCreate _ _ _ _ _, _ => True
  | _, (AtStart | Reading | ReadFound _ | Returned _) => True
  | _, _ => False
  end.

Lemma code_step c ph s t' s' : phase_ok c ph → prog_step (code c ph) s = Some (t', s') →
  ∃ ph', t' = code c ph' ∧ phase_ok c ph' ∧ move c ph s ph' s'.
Proof.
  destruct s as [l w]. intros Hok E. destruct c as [uid did app dt biz|uid|].
  - destruct ph as [| | |r| | |ref| |ref|ref|ref|r]; cbn -[new_session] in E; simplify_eq.
    + destruct (rw_writer l) eqn:Ew; [done|]. simplify_eq. exists Reading. split_and!; [done..|by constructor].
    + destruct (member (userIndex (registry w)) uid did) as [ref|] eqn:Em; simplify_eq.
      * exists (ReadFound (ResSession ref false)). split_and!; [done|by eexists|].
        constructor. by apply lookup_spec.
      * exists ReadNone. split_and!; [done..|by constructor].
    + exists AtLock. split_and!; [done..|by constructor].
    + destruct Hok as [ref ->]. cbn in E. simplify_eq.
      exists (Returned (ResSession ref false)). split_and!; [done..|by constructor].
    + destruct (rw_writer l || negb (bool_decide (rw_readers l = 0))) eqn:Eb; [done|]. simplify_eq.
      apply orb_false_iff in Eb as [Ew Er%negb_false_iff%bool_decide_eq_true].
      exists Checking. split_and!; [done..|by constructor].
    + destruct (member (userIndex (registry w)) uid did) as [ref|] eqn:Em; simplify_eq.
      * exists (Found ref). split_and!; [done..|]. constructor. by eapply lookup_spec.
      * exists Missing. split_and!; [done..|by constructor].
    + eexists (Returned _). split_and!; [done..|by constructor].
    + unfold atomically, guarded, zoom in E. cbn -[new_session] in E.
      destruct (new_session uid did app dt biz w) as [[ref|why] w'] eqn:En; [|discriminate En]. simplify_eq.
      exists (Allocated ref). split_and!; [done..|by constructor].
    + eexists (Listed _). split_and!; [done..|by constructor].
    + eexists (Indexed _). split_and!; [done..|by constructor].
    + eexists (Returned _). split_and!; [done..|by constructor].
  - destruct ph as [| | |r| | |ref| |ref|ref|ref|r]; cbn in E, Hok; try done.
    + destruct (rw_writer l) eqn:Ew; [done|]. simplify_eq. exists Reading. split_and!; [done..|by constructor].
    + injection E as <- <-. exists (ReadFound (ResSessions (targets (userIndex (registry w) !! uid)))).
      split_and!; [done..|by constructor].
    + simplify_eq. exists (Returned r). split_and!; [done..|by constructor].
  - destruct ph as [| | |r| | |ref| |ref|ref|ref|r]; cbn in E, Hok; try done.
    + destruct (rw_writer l) eqn:Ew; [done|]. simplify_eq. exists Reading. split_and!; [done..|by constructor].
    + injection E as <- <-. exists (ReadFound (ResCount (size (sr_sessions (registry w))))).
      split_and!; [done..|by constructor].
    + simplify_eq. exists (Returned r). split_and!; [done..|by constructor].
Qed.

(** ** Calls one after the other *)
Fixpoint seq_calls (calls : list reg_call) (order : list nat) : MW (list (nat * reg_res)) :=
  match order with
  | [] => mret []
  | i :: order' =>
      c ← deref (calls !! i);
      r ← call_spec c;
      log ← seq_calls calls order';
      mret ((i, r) :: log)
  end.

Lemma seq_calls_snoc calls order i c r w0 log w w' :
  seq_calls calls order w0 = (Ret log, w) → calls !! i = Some c → call_spec c w = (Ret r, w') →
  seq_calls calls (order ++ [i]) w0 = (Ret (log ++ [(i, r)]), w').
Proof.
  revert w0 log. induction order as [|j order IH]; intros w0 log E Ei Er; cbn in *.
  - unfold mret, M_ret in E. simplify_eq. rewrite bind_run, Ei. cbn. rewrite bind_run, Er. cbn. done.
  - rewrite bind_run in E |- *. destruct (deref (calls !! j) w0) as [[cj|] w1]; [|done].
    rewrite bind_run in E |- *. destruct (call_spec cj w1) as [[rj|] w2]; [|done].
    rewrite bind_run in E |- *. destruct (seq_calls calls order w2) as [[log'|] w3] eqn:E3; [|done].
    unfold mret, M_ret in E. simplify_eq. by rewrite (IH _ _ E3 Ei Er).
Qed.

(** ** The invariant of a pool of calls *)
Section pool.
Context (calls : list reg_call) (w0 : World TS).

Record pool_inv (l : rwlock) (w : World TS) (phs : list phase) (wa : World TS)
    (log : list (nat * reg_res)) : Prop := {
  pi_phase i c ph : calls !! i = Some c → phs !! i = Some ph → phase_ok c ph;
  pi_readers : rw_readers l = total reads phs;
  pi_writer : (if rw_writer l then 1 else 0) = total writes phs;
  pi_excl : rw_writer l = true → rw_readers l = 0;
  pi_written i c ph : calls !! i = Some c → phs !! i = Some ph → writes ph = 1 → written c ph wa w;
  pi_free : rw_writer l = false → w = wa;
  pi_log i ph r : phs !! i = Some ph → settled ph = Some r ↔ (i, r) ∈ log;
  pi_in i r : (i, r) ∈ log → is_Some (phs !! i);
  pi_nodup : NoDup log.*1;
  pi_seq : seq_calls calls log.*1 w0 = (Ret log, wa);
}.

(** While one call writes, another neither reads nor writes. *)
Lemma writer_alone l w phs wa log i j ph ph' : pool_inv l w phs wa log →
  phs !! i = Some ph → phs !! j = Some ph' → i ≠ j → writes ph = 1 → writes ph' = 0 ∧ reads ph' = 0.
Proof.
  intros Hi Ei Ej Hne Hw. pose proof (total_two writes phs i j ph ph' Ei Ej Hne).
  pose proof (total_two reads phs i j ph ph' Ei Ej Hne).
  pose proof (pi_writer _ _ _ _ _ Hi) as Hpw. pose proof (pi_readers _ _ _ _ _ Hi).
  pose proof (pi_excl _ _ _ _ _ Hi) as Hx. destruct (rw_writer l); [specialize (Hx eq_refl)|]; lia.
Qed.

(** One call moves: what has to be shown. *)
Lemma pool_inv_next l w phs wa log i c ph ph' l' w' wa' log' :
  pool_inv l w phs wa log → calls !! i = Some c → phs !! i = Some ph → phase_ok c ph' →
  rw_readers l' + reads ph = rw_readers l + reads ph' →
  (if rw_writer l' then 1 else 0) + writes ph = (if rw_writer l then 1 else 0) + writes ph' →
  (rw_writer l' = true → rw_readers l' = 0) →
  (writes ph = 1 ∨ w' = w ∧ wa' = wa ∨ rw_writer l = false) →
  (writes ph' = 1 → written c ph' wa' w') →
  (rw_writer l' = false → w' = wa') →
  (settled ph' = settled ph ∧ log' = log ∧ wa' = wa ∨
   ∃ r, settled ph = None ∧ settled ph' = Some r ∧ log' = log ++ [(i, r)] ∧ call_spec c wa = (Ret r, wa')) →
  pool_inv l' w' (<[i := ph']> phs) wa' log'.
Proof.
  intros Hi Ec Eph Hok Hr Hw Hx Hsame Hwr Hfree Hlog.
  pose proof (λ f, total_insert f phs i ph ph' Eph) as Htot.
  assert (∀ j c' ph'', calls !! j = Some c' → phs !! j = Some ph'' → j ≠ i → writes ph'' = 1 →
    written c' ph'' wa' w') as Hother.
  { intros j c' ph'' Ec' Ej Hne Hw''.
    pose proof (writer_alone _ _ _ _ _ j i _ _ Hi Ej Eph Hne Hw'') as [Hwi _].
    pose proof (total_two writes phs j i _ _ Ej Eph Hne).
    pose proof (pi_writer _ _ _ _ _ Hi) as Hpw.
    destruct Hsame as [?|[[-> ->]|Hf]]; [lia|by eapply pi_written|]. rewrite Hf in Hpw. lia. }
  split.
  - intros j c' ph'' Ec' [[-> ->]|[Hne Ej]]%lookup_insert_cases; [by simplify_eq|by eapply pi_phase].
  - pose proof (pi_readers _ _ _ _ _ Hi). specialize (Htot reads). lia.
  - pose proof (pi_writer _ _ _ _ _ Hi). specialize (Htot writes). lia.
  - done.
  - intros j c' ph'' Ec' [[-> ->]|[Hne Ej]]%lookup_insert_cases Hw''; [simplify_eq; by apply Hwr|by eapply Hother].
  - done.
  - intros j ph'' r Ej. apply lookup_insert_cases in Ej as [[-> ->]|[Hne Ej]].
    + pose proof (pi_log _ _ _ _ _ Hi i ph r Eph) as Hl.
      destruct Hlog as [(Hs & -> & _)|(r' & Hs & Hs' & -> & _)]; [by rewrite Hs|].
      rewrite Hs', elem_of_app, <-Hl, Hs, list_elem_of_singleton. naive_solver.
    + pose proof (pi_log _ _ _ _ _ Hi j ph'' r Ej) as Hl.
      destruct Hlog as [(_ & -> & _)|(r' & _ & _ & -> & _)]; [done|].
      rewrite elem_of_app, <-Hl, list_elem_of_singleton. naive_solver.
  - intros j r Hin. rewrite list_lookup_insert_is_Some.
    destruct Hlog as [(_ & -> & _)|(r' & _ & _ & -> & _)]; [by eapply pi_in|].
    apply elem_of_app in Hin as [Hin|[= -> ->]%list_elem_of_singleton]; [by eapply pi_in|by eexists].
  - destruct Hlog as [(_ & -> & _)|(r' & Hs & _ & -> & _)]; [by apply (pi_nodup _ _ _ _ _ Hi)|].
    rewrite fmap_app. apply list.NoDup_app. split_and!; [by apply (pi_nodup _ _ _ _ _ Hi)| |apply list.NoDup_singleton].
    intros j Hj Hj'%list_elem_of_singleton. cbn in Hj'. subst j. apply list_elem_of_fmap in Hj as ([? r] & -> & Hin).
    apply (pi_log _ _ _ _ _ Hi _ ph r Eph) in Hin. congruence.
  - pose proof (pi_seq _ _ _ _ _ Hi) as Hseq.
    destruct Hlog as [(_ & -> & ->)|(r' & _ & _ & -> & Hsp)]; [done|].
    rewrite fmap_app. by eapply seq_calls_snoc.
Qed.

Lemma reader_reads l w phs wa log i ph : pool_inv l w phs wa log → phs !! i = Some ph → reads ph = 1 →
  rw_writer l = false ∧ w = wa ∧ 0 < rw_readers l.
Proof.
  intros Hi Eph Hr. pose proof (pi_readers _ _ _ _ _ Hi) as Hpr.
  pose proof (total_insert reads phs i ph AtStart Eph) as Ht. cbn in Ht.
  destruct (rw_writer l) eqn:Ew; [pose proof (pi_excl _ _ _ _ _ Hi Ew); lia|].
  split_and!; [done|by apply (pi_free _ _ _ _ _ Hi)|lia].
Qed.
Lemma writer_writes l w phs wa log i ph : pool_inv l w phs wa log → phs !! i = Some ph → writes ph = 1 →
  rw_writer l = true ∧ rw_readers l = 0.
Proof.
  intros Hi Eph Hw. pose proof (pi_writer _ _ _ _ _ Hi) as Hpw.
  pose proof (total_insert writes phs i ph AtStart Eph) as Ht. cbn in Ht.
  destruct (rw_writer l) eqn:Ew; [|lia]. split; [done|by apply (pi_excl _ _ _ _ _ Hi)].
Qed.

(** The side conditions of [pool_inv_next], but for what is written and settled. *)
Ltac next_state :=
  cbn; try match goal with E : rw_writer _ = _ |- _ => rewrite ?E end; auto; try lia; try congruence; try done.

Lemma pool_inv_move l w phs wa log i c ph ph' l' w' :
  pool_inv l w phs wa log → calls !! i = Some c → phs !! i = Some ph → phase_ok c ph' →
  move c ph (l, w) ph' (l', w') →
  ∃ wa' ext, pool_inv l' w' (<[i := ph']> phs) wa' (log ++ ext).
Proof.
  intros Hi Ec Eph Hok Hm.
  assert (∀ wa', pool_inv l' w' (<[i := ph']> phs) wa' log → ∃ wa' ext, pool_inv l' w' (<[i := ph']> phs) wa' (log ++ ext))
    as Hnil by (intros wa' ?; exists wa', []; by rewrite app_nil_r).
  pose proof (pool_inv_next l w phs wa log i c ph ph' l' w') as Hnext.
  assert (reads ph = 1 → rw_writer l = false ∧ w = wa ∧ 0 < rw_readers l) as Hread by eauto using reader_reads.
  assert (writes ph = 1 → rw_writer l = true ∧ rw_readers l = 0 ∧ written c ph wa w) as Hwrite.
  { intros E. split_and!; [by eapply writer_writes..|by eapply pi_written]. }
  inversion Hm; subst; cbn [reads writes settled] in *;
    try (destruct (Hread eq_refl) as (Hf & Hwa & Hpos)); try (destruct (Hwrite eq_refl) as (Ht & Hz & Hwr)).
  - (* RLock *) apply (Hnil wa), Hnext; next_state. intros _. by apply (pi_free _ _ _ _ _ Hi).
  - (* read *) apply (Hnil wa), Hnext; next_state.
  - (* read, settled *) subst w'. exists wa, [(i, r)]. apply Hnext; next_state. right. by exists r.
  - (* RUnlock *) apply (Hnil wa), Hnext; next_state.
  - apply (Hnil wa), Hnext; next_state.
  - (* Lock *) assert (w' = wa) as -> by by apply (pi_free _ _ _ _ _ Hi).
    apply (Hnil wa), Hnext; next_state. by destruct c.
  - (* found *) assert (w' = wa) as -> by by destruct c.
    exists wa, [(i, ResSession ref false)]. apply Hnext; next_state.
    right. by exists (ResSession ref false).
  - (* missing *) cbn in Hwr. subst w'. apply (Hnil wa), Hnext; next_state.
  - (* new *) destruct Hwr as [-> Hnone]. apply (Hnil wa), Hnext; next_state.
  - (* list *) destruct Hwr as [Hnew Hnone]. apply (Hnil wa), Hnext; next_state. intros _. by eexists.
  - (* index *) destruct Hwr as (w1 & Hnew & Hput & Hnone).
    exists w', [(i, ResSession ref true)]. apply Hnext; next_state.
    right. exists (ResSession ref true). split_and!; [done..|]. by eapply creation_spec.
  - (* Unlock *) assert (w' = wa) as -> by by destruct c.
    apply (Hnil wa), Hnext; next_state.
  - assert (w' = wa) as -> by by destruct c.
    apply (Hnil wa), Hnext; next_state.
Qed.

(** ** Runs of the pool *)
Definition conf_inv (ts : list prg) (s : L) (wa : World TS) (log : list (nat * reg_res)) : Prop :=
  ∃ phs, ts = pool_at code calls phs ∧ length phs = length calls ∧ pool_inv s.1 s.2 phs wa log.

Lemma conf_inv_start : conf_inv (call_prog <$> calls) (unlocked, w0) w0 [].
Proof.
  assert (∀ i ph, replicate (length calls) AtStart !! i = Some ph → ph = AtStart) as Hat.
  { intros i ph E. by apply lookup_replicate in E as [-> _]. }
  exists (replicate (length calls) AtStart). split; [apply pool_at_start; by intros []|].
  split; [by rewrite length_replicate|]. split; cbn; rewrite ?total_replicate; cbn; try done; try lia.
  - intros i c ph _ ->%Hat. by destruct c.
  - by intros i c ph _ ->%Hat.
  - intros i ph r ->%Hat. split; [done|]. by intros ?%not_elem_of_nil.
  - by intros i r ?%not_elem_of_nil.
  - constructor.
Qed.

(** One action of the pool is one move of one call. *)
Lemma conf_move phs s wa log s' : pool_inv s.1 s.2 phs wa log → pool_step (pool_at code calls phs, s) s' →
  ∃ i c ph ph', calls !! i = Some c ∧ phs !! i = Some ph ∧ phase_ok c ph' ∧ move c ph s ph' s'.2 ∧
    s'.1 = pool_at code calls (<[i := ph']> phs).
Proof.
  intros Hi (i & c & ph & t' & s1 & Ec & Eph & Ep & ->)%pool_at_step.
  destruct (code_step _ _ _ _ _ (pi_phase _ _ _ _ _ Hi _ _ _ Ec Eph) Ep) as (ph' & -> & Hok & Hm).
  exists i, c, ph, ph'. split_and!; [done..|]. by apply pool_at_insert.
Qed.

Lemma conf_inv_step ts s wa log s' : conf_inv ts s wa log → pool_step (ts, s) s' →
  ∃ wa' ext, conf_inv s'.1 s'.2 wa' (log ++ ext).
Proof.
  intros (phs & -> & Hlen & Hi) (i & c & ph & ph' & Ec & Eph & Hok & Hm & ->)%(conf_move _ _ _ _ _ Hi).
  destruct s as [l w], s' as [ts' [l' w']].
  destruct (pool_inv_move _ _ _ _ _ _ _ _ _ _ _ Hi Ec Eph Hok Hm) as (wa' & ext & Hi').
  exists wa', ext, (<[i := ph']> phs). by rewrite length_insert.
Qed.

Lemma conf_inv_steps ts s wa log s' : conf_inv ts s wa log → rtc pool_step (ts, s) s' →
  ∃ wa' ext, conf_inv s'.1 s'.2 wa' (log ++ ext).
Proof.
  intros Hi Hst. remember (ts, s) as s0 eqn:E0. revert ts s wa log Hi E0.
  induction Hst as [s0|s0 [ts1 s1] s2 H1 _ IH]; intros ts s wa log Hi ->.
  - exists wa, []. by rewrite app_nil_r.
  - destruct (conf_inv_step _ _ _ _ _ Hi H1) as (wa' & e1 & Hi').
    destruct (IH _ _ _ _ Hi' eq_refl) as (wa2 & e2 & Hi2). exists wa2, (e1 ++ e2). by rewrite app_assoc.
Qed.

(** A call that returned is settled; one that has not begun is not. *)
Lemma finished_returned c ph r : phase_ok c ph → code c ph = Finish r → ph = Returned r.
Proof. destruct c, ph as [| | |[]| | | | | | | |]; cbn; intros ? E; try done; by simplify_eq. Qed.
Lemma unbegun_unsettled c ph (w : World TS) : phase_ok c ph → code c ph = call_prog c → settled ph = None.
Proof.
  intros Hok E. assert (prog_step (code c ph) (mkRW 0 true, w) = None) as Hn by (rewrite E; by destruct c).
  destruct c, ph as [| | |r0| | | | | | | |]; try done; cbn in Hok.
  all: destruct Hok as [ref ->]; cbn in Hn; done.
Qed.

(** ** Nobody waits for ever *)
Definition phase_rank (ph : phase) : nat :=
  match ph with
  | AtStart => 9 | Reading => 8 | ReadNone => 7 | AtLock => 6 | Checking => 5 | Missing => 4
  | Allocated _ => 3 | Listed _ => 2 | ReadFound _ | Found _ | Indexed _ => 1 | Returned _ => 0
  end.

Lemma move_rank c ph s ph' s' : move c ph s ph' s' → phase_rank ph' < phase_rank ph.
Proof. destruct 1; cbn; lia. Qed.

(** Who holds the lock can go on, and who wants it can if nobody holds it. *)
Lemma holder_moves c ph l w : phase_ok c ph → 0 < reads ph + writes ph → is_Some (prog_step (code c ph) (l, w)).
Proof.
  intros Hok Hp. destruct c as [uid did app dt biz|uid|]; destruct ph as [| | |[]| | | | | | | |]; cbn in Hok, Hp; try done; try lia.
  all: try (destruct Hok as [? [=]]). all: by eexists.
Qed.
Lemma waiter_moves c ph w : phase_ok c ph → (∀ r, code c ph ≠ Finish r) →
  is_Some (prog_step (code c ph) (unlocked, w)).
Proof.
  intros Hok Hr. destruct c as [uid did app dt biz|uid|]; destruct ph as [| | |[]| | | | | | | |r]; cbn in Hok; try done.
  all: try (destruct Hok as [? [=]]). all: try by eexists. all: by destruct (Hr r).
Qed.

Lemma conf_stuck ts s wa log : conf_inv ts s wa log → (∀ s', ¬ pool_step (ts, s) s') →
  ∃ rs, all_done ts rs.
Proof.
  intros (phs & -> & Hlen & Hi) Hst. destruct s as [l w]. cbn in Hi.
  assert (∀ i c ph, calls !! i = Some c → phs !! i = Some ph → prog_step (code c ph) (l, w) = None) as Hn.
  { intros i c ph Ec Eph. destruct (prog_step (code c ph) (l, w)) as [[t' s']|] eqn:E; [|done].
    destruct (Hst (<[i := t']> (pool_at code calls phs), s')). econstructor; [|done].
    by apply pool_at_lookup_2. }
  assert (∀ i ph, phs !! i = Some ph → reads ph + writes ph = 0) as Hidle.
  { intros i ph Eph. destruct (lookup_lt_is_Some_2 calls i) as [c Ec].
    { rewrite <-Hlen. by eapply lookup_lt_Some. }
    destruct (decide (reads ph + writes ph = 0)); [done|].
    destruct (holder_moves c ph l w) as [x Ex]; [by eapply pi_phase|lia|]. by rewrite (Hn _ _ _ Ec Eph) in Ex. }
  assert (l = unlocked) as ->.
  { pose proof (pi_readers _ _ _ _ _ Hi) as Hr. pose proof (pi_writer _ _ _ _ _ Hi) as Hw.
    rewrite all_zero in Hr by (intros i ph E; specialize (Hidle i ph E); lia).
    rewrite all_zero in Hw by (intros i ph E; specialize (Hidle i ph E); lia).
    destruct l as [n b]; cbn in *. destruct b; [done|]. by subst n. }
  apply all_done_intro. intros i t (c & ph & Ec & Eph & ->)%pool_at_lookup.
  destruct (code c ph) as [r|why|B m k] eqn:Et; [by eexists| |].
  all: destruct (waiter_moves c ph w) as [x Ex]; [by eapply pi_phase|by rewrite Et|].
  all: by rewrite (Hn _ _ _ Ec Eph) in Ex.
Qed.

Definition conf_rank (phs : list phase) : nat := total phase_rank phs.

Lemma conf_nsteps n ts s wa log s' : nsteps pool_step n (ts, s) s' →
  ∀ phs, ts = pool_at code calls phs → length phs = length calls → pool_inv s.1 s.2 phs wa log → n ≤ conf_rank phs.
Proof.
  intros Hn. remember (ts, s) as s0 eqn:E0. revert ts s wa log E0.
  induction Hn as [s0|n s0 [ts1 s1] s2 H1 _ IH]; intros ts s wa log -> phs -> Hlen Hi; [lia|].
  destruct (conf_move _ _ _ _ _ Hi H1) as (i & c & ph & ph' & Ec & Eph & Hok & Hm & E1). cbn in E1, Hm. subst ts1.
  pose proof (move_rank _ _ _ _ _ Hm). pose proof (total_insert phase_rank phs i ph ph' Eph).
  destruct s as [l w], s1 as [l' w'].
  destruct (pool_inv_move _ _ _ _ _ _ _ _ _ _ _ Hi Ec Eph Hok Hm) as (wa' & ext & Hi').
  assert (n ≤ conf_rank (<[i := ph']> phs)); [|unfold conf_rank in *; lia].
  eapply IH; [done..|by rewrite length_insert|exact Hi'].
Qed.

(** ** When every call has returned *)
Lemma conf_done ts l w wa log rs : conf_inv ts (l, w) wa log → all_done ts rs →
  l = unlocked ∧ w = wa ∧ NoDup log.*1 ∧ seq_calls calls log.*1 w0 = (Ret log, wa) ∧
  (∀ i, i ∈ log.*1 ↔ i < length calls) ∧ (∀ i r, rs !! i = Some r ↔ (i, r) ∈ log).
Proof.
  intros (phs & -> & Hl & Hi) Hd. cbn [fst snd] in Hi.
  assert (∀ i ph, phs !! i = Some ph → ∃ r, ph = Returned r ∧ rs !! i = Some r) as Hret.
  { intros i ph Eph. destruct (lookup_lt_is_Some_2 calls i) as [c Ec].
    { rewrite <-Hl. by eapply lookup_lt_Some. }
    destruct (pool_at_done _ _ _ _ _ _ _ Hd Ec Eph) as (r & Er & Hr).
    exists r. split; [|done]. eapply finished_returned; [|done]. by eapply pi_phase. }
  assert (l = unlocked) as ->.
  { pose proof (pi_readers _ _ _ _ _ Hi) as Hr. pose proof (pi_writer _ _ _ _ _ Hi) as Hw.
    rewrite all_zero in Hr by (intros i ph E; by destruct (Hret _ _ E) as (? & -> & _)).
    rewrite all_zero in Hw by (intros i ph E; by destruct (Hret _ _ E) as (? & -> & _)).
    destruct l as [n b]; cbn in *. destruct b; [done|]. by subst n. }
  split_and!; [done|by apply (pi_free _ _ _ _ _ Hi)|by apply (pi_nodup _ _ _ _ _ Hi)|by apply (pi_seq _ _ _ _ _ Hi)| |].
  - intros i. rewrite list_elem_of_fmap. split.
    + intros ([? r] & -> & [ph Eph]%(pi_in _ _ _ _ _ Hi)). cbn. rewrite <-Hl. by eapply lookup_lt_Some.
    + intros Hlt. rewrite <-Hl in Hlt. apply lookup_lt_is_Some_2 in Hlt as [ph Eph].
      destruct (Hret _ _ Eph) as (r & -> & _). exists (i, r). split; [done|]. by apply (pi_log _ _ _ _ _ Hi _ _ _ Eph).
  - intros i r. split.
    + intros Er. assert (i < length phs) as Hlt.
      { rewrite Hl, <-(pool_at_done_length _ _ _ _ Hl Hd). by eapply lookup_lt_Some. }
      apply lookup_lt_is_Some_2 in Hlt as [ph Eph]. destruct (Hret _ _ Eph) as (r' & -> & Er'). simplify_eq.
      by apply (pi_log _ _ _ _ _ Hi _ _ _ Eph).
    + intros Hlog. destruct (pi_in _ _ _ _ _ Hi _ _ Hlog) as [ph Eph].
      apply (pi_log _ _ _ _ _ Hi _ _ _ Eph) in Hlog. destruct (Hret _ _ Eph) as (r' & -> & Er').
      by injection Hlog as <-.
Qed.

(** At any moment: what has returned is settled, what has not begun is not. *)
Lemma conf_settled ts s wa log i : conf_inv ts s wa log →
  (∀ r, ts !! i = Some (Finish r) → (i, r) ∈ log) ∧
  (∀ c r, calls !! i = Some c → ts !! i = Some (call_prog c) → (i, r) ∉ log).
Proof.
  intros (phs & -> & Hl & Hi). split.
  - intros r (c & ph & Ec & Eph & Ecode)%pool_at_lookup. symmetry in Ecode.
    pose proof (pi_phase _ _ _ _ _ Hi _ _ _ Ec Eph) as Hok. apply (finished_returned _ _ _ Hok) in Ecode as ->.
    by apply (pi_log _ _ _ _ _ Hi _ _ _ Eph).
  - intros c r Ec (c' & ph & Ec' & Eph & Ecode)%pool_at_lookup Hlog. simplify_eq. symmetry in Ecode.
    pose proof (pi_phase _ _ _ _ _ Hi _ _ _ Ec Eph) as Hok. apply (unbegun_unsettled _ _ s.2 Hok) in Ecode.
    apply (pi_log _ _ _ _ _ Hi _ _ _ Eph) in Hlog. congruence.
Qed.
End pool.
End registry.

(** ** Claims *)

(** C8.  The registry is linearizable.  Let any calls of [GetOrCreate],
    [GetAllByUser] and [Count] run concurrently, in any interleaving of their
    accesses.  When all have returned, the lock is free, and there is an order
    of the calls in which the atomic operations, one after the other, return
    the same results and leave the same world behind; in that order, whatever had
    returned at some moment comes before whatever had not begun at it. *)
Theorem registry_linearizable {TS : Type} `{Scheduler TS timeoutPayload unit} `{MapRange}
    (sha : string → string) (calls : list reg_call) (w0 : World TS) ts1 s1 ts l w (rs : list reg_res) :
  rtc pool_step (call_prog sha <$> calls, (unlocked, w0)) (ts1, s1) →
  rtc pool_step (ts1, s1) (ts, (l, w)) → all_done ts rs →
  l = unlocked ∧ ∃ before after log,
    before ++ after ≡ₚ seq 0 (length calls) ∧
    seq_calls sha calls (before ++ after) w0 = (Ret log, w) ∧
    (∀ i r, rs !! i = Some r ↔ (i, r) ∈ log) ∧
    (∀ i r, ts1 !! i = Some (Finish r) → i ∈ before) ∧
    (∀ i c, calls !! i = Some c → ts1 !! i = Some (call_prog sha c) → i ∈ after).
Proof.
  intros H1 H2 Hd. destruct (conf_inv_steps _ _ _ _ _ _ _ _ (conf_inv_start sha calls w0) H1) as (wa1 & e1 & Hi1).
  destruct (conf_inv_steps _ _ _ _ _ _ _ _ Hi1 H2) as (wa & e2 & Hi). cbn [fst snd app] in Hi, Hi1.
  destruct (conf_done _ _ _ _ _ _ _ _ _ Hi Hd) as (-> & -> & Hnd & Hseq & Hin & Hrs).
  split; [done|]. exists e1.*1, e2.*1, (e1 ++ e2). rewrite <-fmap_app. split_and!; [|done|done| |].
  - apply list.NoDup_Permutation; [done|apply list.NoDup_seq|]. intros i. rewrite Hin, elem_of_seq. lia.
  - intros i r Er. apply list_elem_of_fmap. exists (i, r). split; [done|].
    by apply (conf_settled _ _ _ _ _ _ _ i Hi1).
  - intros i c Ec Et. assert (i ∈ (e1 ++ e2).*1) as Hi'; [apply Hin; by eapply lookup_lt_Some|].
    rewrite fmap_app in Hi'. apply elem_of_app in Hi' as [Hi'|]; [|done].
    apply list_elem_of_fmap in Hi' as ([? r] & -> & Hlog).
    by destruct (proj2 (conf_settled _ _ _ _ _ _ _ _ Hi1) c r Ec Et).
Qed.

(** C27.  No call of the registry waits for ever: whatever the interleaving, a run
    takes at most nine actions per call, and one that nothing continues has
    every call returned. *)
Theorem registry_calls_return {TS : Type} `{Scheduler TS timeoutPayload unit} `{MapRange}
    (sha : string → string) (calls : list reg_call) (w0 : World TS) n ts s :
  nsteps pool_step n (call_prog sha <$> calls, (unlocked, w0)) (ts, s) →
  n ≤ 9 * length calls ∧ ((∀ s', ¬ pool_step (ts, s) s') → ∃ rs, all_done ts rs).
Proof.
  intros Hn. pose proof (conf_inv_start sha calls w0) as Hs. split.
  - destruct Hs as (phs & E & Hl & Hi). rewrite <-Hl.
    etrans; [|by apply (total_le phase_rank 9); intros []; cbn; lia].
    by eapply conf_nsteps.
  - apply rtc_nsteps_2 in Hn. destruct (conf_inv_steps _ _ _ _ _ _ _ _ Hs Hn) as (wa & ext & Hi).
    intros Hst. by eapply conf_stuck.
Qed.

(** Two logins of a new device at once, and a count: the first login reads and
    finds nothing, the second creates the session, the count sees it, and the
    first finds it when it looks again. *)
Definition two_logins : list reg_call :=
  [CallGetOrCreate "u2" "d2" "app" "ios" "im"; CallGetOrCreate "u2" "d2" "app" "ios" "im"; CallCount].
Definition two_logins_schedule1 : list nat := [0; 0; 0] ++ replicate 9 1.
Definition two_logins_schedule2 : list nat := [2; 2; 2; 0; 0; 0].
Definition two_logins_start : list (prog (rwlock * World demo_TS) reg_res) * (rwlock * World demo_TS) :=
  (call_prog (λ x, x) <$> two_logins, (unlocked, demo_world)).
Definition two_logins_results : list reg_res :=
  let ref := mkRef 2 "u2:d2" "u2" "d2" in [ResSession ref false; ResSession ref true; ResCount 2].

Lemma two_logins_run : ∃ ts1 s1 ts l w,
  run_schedule two_logins_schedule1 two_logins_start = Some (ts1, s1) ∧
  run_schedule two_logins_schedule2 (ts1, s1) = Some (ts, (l, w)) ∧ all_done ts two_logins_results ∧
  (∃ r, ts1 !! 1 = Some (Finish r)) ∧ ts1 !! 2 = Some (call_prog (λ x, x) CallCount).
Proof.
  assert (results (run_schedule two_logins_schedule1 two_logins_start) =
    Some [None; Some (ResSession (mkRef 2 "u2:d2" "u2" "d2") true); None]) as R1 by (vm_compute; reflexivity).
  assert (results (run_schedule (two_logins_schedule1 ++ two_logins_schedule2) two_logins_start) =
    Some (Some <$> two_logins_results)) as R2 by (vm_compute; reflexivity).
  rewrite run_schedule_app in R2.
  destruct (run_schedule two_logins_schedule1 two_logins_start) as [[ts1 s1]|] eqn:E1; [|done].
  change (results (run_schedule two_logins_schedule2 (ts1, s1)) = Some (Some <$> two_logins_results)) in R2.
  destruct (run_schedule two_logins_schedule2 (ts1, s1)) as [[ts [l w]]|] eqn:E2; [|done]. cbn [results] in R1, R2.
  injection R2 as R2. injection R1 as R1. exists ts1, s1, ts, l, w. split_and!; [done|done|done| |].
  - destruct ts1 as [|? [|[r| |] ?]]; try done. by exists r.
  - pose proof (run_schedule_other _ _ _ 2 E1) as E. cbn [fst] in E. rewrite E; [done|].
    unfold two_logins_schedule1. cbn [app replicate]. rewrite !list.not_elem_of_cons. split_and!; try done. apply not_elem_of_nil.
Qed.

Lemma registry_linearizable_witness :
  ∃ ts1 s1 ts l w, run_schedule two_logins_schedule1 two_logins_start = Some (ts1, s1) ∧
    run_schedule two_logins_schedule2 (ts1, s1) = Some (ts, (l, w)) ∧ all_done ts two_logins_results ∧
    l = unlocked ∧ ∃ before after log, before ++ after ≡ₚ [0; 1; 2] ∧
      seq_calls (λ x, x) two_logins (before ++ after) demo_world = (Ret log, w) ∧ 1 ∈ before ∧ 2 ∈ after.
Proof.
  destruct two_logins_run as (ts1 & s1 & ts & l & w & E1 & E2 & Hd & [r H1] & H2).
  destruct (registry_linearizable (λ x, x) two_logins demo_world ts1 s1 ts l w two_logins_results
    (run_schedule_steps _ _ _ E1) (run_schedule_steps _ _ _ E2) Hd)
    as (Hl & before & after & log & Hp & Hs & _ & Hb & Ha).
  exists ts1, s1, ts, l, w. split; [done|]. split; [done|]. split; [done|]. split; [done|].
  exists before, after, log. split; [done|]. split; [done|]. split; [by eapply Hb|]. by eapply Ha.
Defined.

Lemma registry_calls_return_witness :
  ∃ ts s, run_schedule (two_logins_schedule1 ++ two_logins_schedule2) two_logins_start = Some (ts, s) ∧
    18 ≤ 9 * length two_logins ∧ ((∀ s', ¬ pool_step (ts, s) s') → ∃ rs, all_done ts rs).
Proof.
  destruct two_logins_run as (ts1 & s1 & ts & l & w & E1 & E2 & _).
  assert (run_schedule (two_logins_schedule1 ++ two_logins_schedule2) two_logins_start = Some (ts, (l, w))) as E
    by (rewrite run_schedule_app, E1; exact E2).
  exists ts, (l, w). split; [done|]. eapply (registry_calls_return (λ x, x) two_logins demo_world 18 ts (l, w)).
  exact (run_schedule_nsteps _ _ _ E).
Defined.
