(* ===== verification/ConnConc.v ===== *)
(** * Concurrent use of a connection ([access/connruntime/writer.go])

    Several goroutines hand messages to one connection: the workers of the
    pools, the handlers of inbound frames, the callback of the ACK scanner.
    [Submit] is taken access by access: it loads the state, adds one to the
    counter, stamps the message and sends to the channel. *)

From stdpp Require Import base list gmap strings numbers relations.
From S2P Require Import Prelude Threads Shard Message Codec Router World Connection Pool Session Demo.
Local Open Scope gw_scope.

Section submit.
Context {TS : Type}.
Abbreviation MW := (M (World TS)).
Abbreviation prg := (prog (World TS) bool).
Implicit Types (w : World TS) (k : Connection) (c m : positive).

Definition load_active c : MW bool := k ← get_conn c; mret (conn_IsActive k).
(** [c.nextSendSeq.Add(1)] *)
Definition next_seq c : MW Z :=
  k ← get_conn c;
  on_conn c (upd_nextSendSeq (u64 (nextSendSeq k + 1))) ≫= λ _, mret (u64 (nextSendSeq k + 1)).

Definition submit_queue c m : prg := act (enqueue c m).
Definition submit_stamp c m (n : Z) : prg := act (on_msg m (set_SeqId n)) ~> submit_queue c m.
Definition submit_number c m : prg := n <~ act (next_seq c) ;; submit_stamp c m n.
Definition submit_prog c m : prg :=
  a <~ act (load_active c) ;; if a : bool then submit_number c m else Finish false.

(** Undisturbed, it is the atomic operation. *)
Lemma submit_prog_alone c m w : alone (submit_prog c m) w = conn_Submit c m w.
Proof.
  unfold submit_prog, submit_number, submit_stamp, submit_queue, load_active, next_seq, conn_Submit.
  rewrite alone_act, !bind_run. unfold get_conn at 1 3. mrun.
  destruct (conns w !! c) as [k|] eqn:Ek; cbn; [|done]. destruct (conn_IsActive k); [|done].
  cbn. unfold atomically. mrun. rewrite Ek. cbn.
  by match goal with |- context [enqueue c m ?s] => destruct (enqueue c m s) as [[b|why] w'] end.
Qed.

(** ** One action *)

Lemma load_step c m w k : conns w !! c = Some k → conn_IsActive k = true →
  prog_step (submit_prog c m) w = Some (submit_number c m, w).
Proof.
  intros Ek Ha. cbn. unfold atomically, load_active.
  rewrite (bind_ret_run _ _ _ _ _ (get_conn_run _ _ _ Ek)). cbn. by rewrite Ha.
Qed.
Lemma number_step c m w k : conns w !! c = Some k →
  prog_step (submit_number c m) w = Some (submit_stamp c m (u64 (nextSendSeq k + 1)),
    upd_conns <[c := upd_nextSendSeq (u64 (nextSendSeq k + 1)) k]> w).
Proof.
  intros Ek. cbn. unfold atomically, next_seq.
  by rewrite (bind_ret_run _ _ _ _ _ (get_conn_run _ _ _ Ek)), (bind_ret_run _ _ _ _ _ (on_conn_run _ _ _ _ Ek)).
Qed.
Lemma stamp_step c m n w :
  prog_step (submit_stamp c m n) w = Some (submit_queue c m, upd_msgs (alter (set_SeqId n) m) w).
Proof. done. Qed.
Lemma queue_step c m w k : conns w !! c = Some k →
  prog_step (submit_queue c m) w =
    Some (if decide (length (writeCh k) < WriteChannelSize)
          then (Finish true, upd_conns <[c := upd_writeCh (writeCh k ++ [m]) k]> w) else (Finish false, w)).
Proof.
  intros Ek. cbn -[enqueue]. unfold atomically, enqueue.
  rewrite (bind_ret_run _ _ _ _ _ (get_conn_run _ _ _ Ek)). case_decide; [|done].
  by rewrite (bind_ret_run _ _ _ _ _ (on_conn_run _ _ _ _ Ek)).
Qed.

(** ** Where a call is: the number it drew, counted from the start *)
Inductive phase : Set :=
  | AtStart | Ready | Numbered (j : nat) | Stamped (j : nat) | Answered (j : nat) (b : bool).

Section conf.
Context (c : positive) (ms : list positive) (w0 : World TS) (k0 : Connection).

Definition nth_seq (j : nat) : Z :=
  match j with 0 => nextSendSeq k0 | _ => u64 (nextSendSeq k0 + Z.of_nat j) end.

Definition code m (ph : phase) : prg :=
  match ph with
  | AtStart => submit_prog c m
  | Ready => submit_number c m
  | Numbered j => submit_stamp c m (nth_seq j)
  | Stamped _ => submit_queue c m
  | Answered _ b => Finish b
  end.

Definition drawn (ph : phase) : option nat :=
  match ph with Numbered j | Stamped j | Answered j _ => Some j | _ => None end.
Definition stamp_of (ph : phase) : option nat :=
  match ph with Stamped j | Answered j _ => Some j | _ => None end.
Definition taken (mp : positive * phase) : option positive :=
  match mp.2 with Answered _ true => Some mp.1 | _ => None end.
Definition refused (ph : phase) : Prop := ∃ j, ph = Answered j false.

(** The connection after [n] numbers have been drawn and [q] queued. *)
Definition conn_after (n : nat) (q : list positive) : Connection :=
  upd_writeCh (writeCh k0 ++ q) (upd_nextSendSeq (nth_seq n) k0).

Record conf_inv (phs : list phase) w (n : nat) (q : list positive) : Prop := {
  ci_conn : conns w !! c = Some (conn_after n q);
  ci_drawn : omap drawn phs ≡ₚ seq 1 n;
  ci_queue : omap taken (zip ms phs) ≡ₚ q;
  ci_room : length (writeCh k0) + length q ≤ WriteChannelSize;
  ci_full i ph : phs !! i = Some ph → refused ph → length (writeCh k0) + length q = WriteChannelSize;
  ci_msg i m ph : ms !! i = Some m → phs !! i = Some ph →
    msgs w !! m = match stamp_of ph with
                  | Some j => set_SeqId (nth_seq j) <$> msgs w0 !! m
                  | None => msgs w0 !! m
                  end;
}.

Context (Hk0 : conns w0 !! c = Some k0) (Hactive : conn_IsActive k0 = true)
  (Hroom : length (writeCh k0) ≤ WriteChannelSize) (Hnodup : NoDup ms).

Lemma conn_after_start : conn_after 0 [] = k0.
Proof.
  assert (∀ k, upd_writeCh (writeCh k) (upd_nextSendSeq (nextSendSeq k) k) = k) as Hk by by intros [].
  unfold conn_after. rewrite app_nil_r. apply Hk.
Qed.

Lemma nth_seq_S j : u64 (nth_seq j + 1) = nth_seq (S j).
Proof. destruct j; cbn; [f_equal; lia|]. rewrite u64_add_l. f_equal. lia. Qed.

(** ** One action of one call, when [n] numbers are drawn and [q] is queued *)
Inductive move w (n : nat) (q : list positive) (m : positive) :
    phase → phase → World TS → nat → list positive → Prop :=
  | mv_load : move w n q m AtStart Ready w n q
  | mv_draw : move w n q m Ready (Numbered (S n)) (upd_conns <[c := conn_after (S n) q]> w) (S n) q
  | mv_stamp j : move w n q m (Numbered j) (Stamped j) (upd_msgs (alter (set_SeqId (nth_seq j)) m) w) n q
  | mv_queue j : length (writeCh k0) + length q < WriteChannelSize →
      move w n q m (Stamped j) (Answered j true) (upd_conns <[c := conn_after n (q ++ [m])]> w) n (q ++ [m])
  | mv_refuse j : WriteChannelSize ≤ length (writeCh k0) + length q →
      move w n q m (Stamped j) (Answered j false) w n q.

Lemma submit_code_step n q m ph w t' w' : conns w !! c = Some (conn_after n q) →
  prog_step (code m ph) w = Some (t', w') →
  ∃ ph' n' q', t' = code m ph' ∧ move w n q m ph ph' w' n' q'.
Proof.
  intros Ec E. destruct ph as [| |j|j|j b]; [..|done]; cbn [code] in E.
  - rewrite (load_step _ _ _ _ Ec Hactive) in E. simplify_eq. exists Ready, n, q. split; [done|constructor].
  - rewrite (number_step _ _ _ _ Ec) in E. change (nextSendSeq (conn_after n q)) with (nth_seq n) in E.
    rewrite nth_seq_S in E. simplify_eq. exists (Numbered (S n)), (S n), q. split; [done|constructor].
  - rewrite stamp_step in E. simplify_eq. exists (Stamped j), n, q. split; [done|constructor].
  - rewrite (queue_step _ _ _ _ Ec) in E. cbn -[WriteChannelSize] in E. rewrite length_app in E.
    case_decide as Hl; simplify_eq.
    + exists (Answered j true), n, (q ++ [m]). split; [done|]. rewrite <-app_assoc. by apply mv_queue.
    + exists (Answered j false), n, q. split; [done|]. apply mv_refuse. lia.
Qed.

(** Distinct calls carry distinct messages. *)
Lemma other_msg i j m m' : ms !! i = Some m → ms !! j = Some m' → j ≠ i → m' ≠ m.
Proof. intros Ei Ej Hne ->. apply Hne. by eapply list.NoDup_lookup. Qed.

Lemma submits_move phs w n q i m ph ph' w' n' q' : conf_inv phs w n q → ms !! i = Some m → phs !! i = Some ph →
  move w n q m ph ph' w' n' q' → conf_inv (<[i := ph']> phs) w' n' q'.
Proof.
  intros Hi Em Eph Hm.
  assert (zip ms phs !! i = Some (m, ph)) as Ez by (by rewrite lookup_zip_with, Em, Eph).
  assert (zip ms (<[i := ph']> phs) = <[i := (m, ph')]> (zip ms phs)) as Hz
    by (by rewrite insert_zip_with, (list_insert_id ms i m Em)).
  pose proof (ci_room _ _ _ _ Hi) as Hr.
  split.
  - inversion Hm; subst; cbn; rewrite ?lookup_insert_eq; (done || apply (ci_conn _ _ _ _ Hi)).
  - inversion Hm; subst; try (rewrite (omap_insert_same _ _ _ _ _ Eph) by done; apply (ci_drawn _ _ _ _ Hi)).
    rewrite (omap_insert _ _ _ _ _ (S n) Eph), (ci_drawn _ _ _ _ Hi) by done.
    by rewrite seq_S, Permutation_app_comm.
  - rewrite Hz. inversion Hm; subst; try (rewrite (omap_insert_same _ _ _ _ _ Ez) by done; apply (ci_queue _ _ _ _ Hi)).
    rewrite (omap_insert _ _ _ _ _ m Ez), (ci_queue _ _ _ _ Hi) by done. by rewrite Permutation_app_comm.
  - inversion Hm; subst; try done. rewrite length_app. cbn. lia.
  - intros j ph'' [[-> ->]|[Hne Ej]]%lookup_insert_cases [x ->].
    + inversion Hm; subst. lia.
    + pose proof (ci_full _ _ _ _ Hi j _ Ej (ex_intro _ x eq_refl)) as Hf.
      inversion Hm; subst; try done. lia.
  - intros j m' ph'' Em' [[-> ->]|[Hne Ej]]%lookup_insert_cases.
    + simplify_eq. pose proof (ci_msg _ _ _ _ Hi i m ph Em Eph) as Hs.
      inversion Hm; subst; cbn in Hs |- *; try done. by rewrite lookup_alter_eq, Hs.
    + pose proof (ci_msg _ _ _ _ Hi j m' ph'' Em' Ej) as Hs.
      inversion Hm; subst; cbn in Hs |- *; try done.
      rewrite lookup_alter_ne; [done|]. intros Heq. by destruct (other_msg i j m m' Em Em' Hne).
Qed.

Definition pool_inv (ts : list prg) w (n : nat) (q : list positive) : Prop :=
  ∃ phs, ts = pool_at code ms phs ∧ length phs = length ms ∧ conf_inv phs w n q.

Lemma pool_inv_start : pool_inv (submit_prog c <$> ms) w0 0 [].
Proof.
  exists (replicate (length ms) AtStart). split; [by apply pool_at_start|].
  split; [by rewrite length_replicate|]. split.
  - by rewrite conn_after_start.
  - clear. induction (length ms); [done|]. done.
  - clear. induction ms; [done|]. done.
  - cbn. lia.
  - intros i ph [-> _]%lookup_replicate [? [=]].
  - by intros i m ph _ [-> _]%lookup_replicate.
Qed.

Lemma pool_inv_steps ts w n q s : pool_inv ts w n q → rtc pool_step (ts, w) s →
  ∃ n' q', pool_inv s.1 s.2 n' q'.
Proof.
  intros Hi Hst. remember (ts, w) as s0 eqn:E0. revert ts w n q Hi E0.
  induction Hst as [s0|s0 s1 s2 H1 _ IH]; intros ts w n q (phs & -> & Hl & Hi) ->.
  { exists n, q, phs. done. }
  apply pool_at_step in H1 as (i & m & ph & t' & w' & Em & Eph & Ep & ->).
  destruct (submit_code_step _ _ _ _ _ _ _ (ci_conn _ _ _ _ Hi) Ep) as (ph' & n' & q' & -> & Hm).
  eapply (IH _ _ n' q'); [|done]. exists (<[i := ph']> phs).
  rewrite length_insert. split; [by apply pool_at_insert|]. split; [done|]. by eapply submits_move.
Qed.

(** ** When every call has returned *)
Definition accepted (rs : list bool) : list positive :=
  omap (λ mb : positive * bool, if mb.2 then Some mb.1 else None) (zip ms rs).

Lemma taken_accepted (l : list positive) js (rs : list bool) : length js = length rs →
  omap taken (zip l (zip_with Answered js rs)) =
  omap (λ mb : positive * bool, if mb.2 then Some mb.1 else None) (zip l rs).
Proof.
  revert js rs. induction l as [|m l IH]; intros [|j js] [|b rs] Hl; try done. cbn in *.
  injection Hl as Hl. specialize (IH js rs Hl). destruct b; cbn; by rewrite IH.
Qed.
Lemma drawn_all js (rs : list bool) : length js = length rs → omap drawn (zip_with Answered js rs) = js.
Proof. revert rs. induction js as [|j js IH]; intros [|b rs] [=]; cbn; [done|]. by rewrite IH. Qed.

Lemma accepted_all (l : list positive) (rs : list bool) : length rs = length l → false ∉ rs →
  omap (λ mb : positive * bool, if mb.2 then Some mb.1 else None) (zip l rs) = l.
Proof.
  revert rs. induction l as [|m l IH]; intros [|[] rs] Hl Hb; cbn; try done; injection Hl as Hl.
  - rewrite IH; [done..|]. intros ?. by apply Hb, base.list_elem_of_further.
  - destruct Hb. apply base.list_elem_of_here.
Qed.

(** All calls have answered: what they drew, in the order of the calls. *)
Lemma pool_all_answered phs rs : length phs = length ms → all_done (pool_at code ms phs) rs →
  ∃ js, length js = length ms ∧ length rs = length ms ∧ phs = zip_with Answered js rs.
Proof.
  intros Hl Hd. pose proof (pool_at_done_length _ _ _ _ Hl Hd) as Hrs.
  exists (default 0 ∘ drawn <$> phs). rewrite length_fmap. split; [done|]. split; [done|].
  apply list_eq. intros i. rewrite lookup_zip_with, list_lookup_fmap.
  destruct (phs !! i) as [ph|] eqn:Eph; cbn; [|done].
  destruct (lookup_lt_is_Some_2 ms i) as [m Em]; [rewrite <-Hl; by eapply lookup_lt_Some|].
  destruct (pool_at_done _ _ _ _ _ _ _ Hd Em Eph) as (b & Eb & Hr). rewrite Hr. cbn.
  destruct ph; try done. by injection Eb as ->.
Qed.

Lemma submits_done ts w n q rs : pool_inv ts w n q → all_done ts rs →
  ∃ js, conns w !! c = Some (conn_after (length ms) q) ∧ js ≡ₚ seq 1 (length ms) ∧
    (∀ i m j, ms !! i = Some m → js !! i = Some j → msgs w !! m = set_SeqId (nth_seq j) <$> msgs w0 !! m) ∧
    accepted rs ≡ₚ q ∧ length q = length ms `min` (WriteChannelSize - length (writeCh k0)).
Proof.
  intros (phs & -> & Hl & Hi) Hd. destruct (pool_all_answered _ _ Hl Hd) as (js & Hj & Hr & ->).
  pose proof (ci_drawn _ _ _ _ Hi) as Hdr. rewrite drawn_all in Hdr by congruence.
  assert (n = length ms) as -> by (by rewrite <-(length_seq n 1), <-Hdr).
  pose proof (ci_queue _ _ _ _ Hi) as Hq. rewrite taken_accepted in Hq by congruence.
  exists js. split_and!; [by apply (ci_conn _ _ _ _ Hi)|done| |done|].
  - intros i m j Em Ej. destruct (lookup_lt_is_Some_2 rs i) as [b Eb].
    { rewrite Hr. by eapply lookup_lt_Some. }
    rewrite (ci_msg _ _ _ _ Hi i m (Answered j b) Em); [done|]. by rewrite lookup_zip_with, Ej, Eb.
  - pose proof (ci_room _ _ _ _ Hi) as Hroom'. destruct (decide (false ∈ rs)) as [Hf|Hf].
    + apply list_elem_of_lookup in Hf as [i Eb]. destruct (lookup_lt_is_Some_2 js i) as [j Ej].
      { rewrite Hj, <-Hr. by eapply lookup_lt_Some. }
      assert (length q ≤ length ms) as Hle.
      { rewrite <-Hq. etrans; [apply length_omap_le|]. rewrite length_zip_with. lia. }
      rewrite <-(ci_full _ _ _ _ Hi i (Answered j false)); [lia| |by exists j].
      by rewrite lookup_zip_with, Ej, Eb.
    + rewrite <-Hq, accepted_all by done.
      pose proof (Permutation_length Hq) as Hlen. rewrite accepted_all in Hlen by done. lia.
Qed.
End conf.
End submit.

(** ** Claims *)

(** C9.  Any number of goroutines may submit distinct messages to one connection.
    While it is active and its writer takes nothing from the queue, whatever the
    interleaving of their steps, when all have returned the queue has gained exactly the
    messages whose call said [true], each once, and it refused messages only
    when it was full; the messages carry the next sequence numbers, each a
    different one, and the counter has advanced by the number of calls. *)
Theorem concurrent_submits {TS : Type} (c : positive) (ms : list positive) (w0 : World TS) (k0 : Connection)
    ts w (rs : list bool) :
  conns w0 !! c = Some k0 → conn_IsActive k0 = true → length (writeCh k0) ≤ WriteChannelSize → NoDup ms →
  rtc pool_step (submit_prog c <$> ms, w0) (ts, w) → all_done ts rs →
  ∃ q js,
    conns w !! c = Some (conn_after k0 (length ms) q) ∧
    accepted ms rs ≡ₚ q ∧ length q = length ms `min` (WriteChannelSize - length (writeCh k0)) ∧
    js ≡ₚ seq 1 (length ms) ∧
    (∀ i m j, ms !! i = Some m → js !! i = Some j →
       msgs w !! m = set_SeqId (u64 (nextSendSeq k0 + Z.of_nat j)) <$> msgs w0 !! m).
Proof.
  intros Hk Ha Hr Hnd Hst Hd.
  destruct (pool_inv_steps c ms w0 k0 Ha Hr Hnd _ _ _ _ _ (pool_inv_start c ms w0 k0 Hk Hr) Hst) as (n & q & Hi).
  destruct (submits_done c ms w0 k0 Hr _ _ _ _ _ Hi Hd) as (js & Hc & Hjs & Hm & Hq & Hl).
  cbn [fst snd] in *. exists q, js. split_and!; [done..|]. intros i m j Em Ej. rewrite (Hm i m j Em Ej).
  assert (j ∈ seq 1 (length ms)) as [Hj _]%elem_of_seq by (rewrite <-Hjs; by eapply list_elem_of_lookup_2).
  destruct j; [lia|done].
Qed.

(** The number is drawn and the message queued in two steps, and another
    goroutine can be in between: of two messages submitted at once to a
    connection with room, the one that drew the lower number can leave after
    the one that drew the higher. *)
Theorem submits_may_overtake {TS : Type} (c m1 m2 : positive) (w : World TS) (k : Connection) :
  conns w !! c = Some k → conn_IsActive k = true → length (writeCh k) + 2 ≤ WriteChannelSize → m1 ≠ m2 →
  ∃ ts w' k', run_schedule [0; 0; 0; 1; 1; 1; 1; 0] ([submit_prog c m1; submit_prog c m2], w) = Some (ts, w') ∧
    all_done ts [true; true] ∧ conns w' !! c = Some k' ∧ writeCh k' = writeCh k ++ [m2; m1] ∧
    msgs w' !! m1 = set_SeqId (u64 (nextSendSeq k + 1)) <$> msgs w !! m1 ∧
    msgs w' !! m2 = set_SeqId (u64 (nextSendSeq k + 2)) <$> msgs w !! m2.
Proof.
  intros Hk Ha Hr Hne.
  set (n := u64 (nextSendSeq k + 1)). set (k1 := upd_nextSendSeq n k).
  set (w1 := upd_msgs (alter (set_SeqId n) m1) (upd_conns <[c := k1]> w)).
  assert (conns w1 !! c = Some k1) as Hk1 by apply lookup_insert_eq.
  set (n2 := u64 (n + 1)). set (k2 := upd_nextSendSeq n2 k1).
  set (w2 := upd_msgs (alter (set_SeqId n2) m2) (upd_conns <[c := k2]> w1)).
  assert (conns w2 !! c = Some k2) as Hk2 by apply lookup_insert_eq.
  set (k3 := upd_writeCh (writeCh k2 ++ [m2]) k2). set (w3 := upd_conns <[c := k3]> w2).
  assert (conns w3 !! c = Some k3) as Hk3 by apply lookup_insert_eq.
  set (k4 := upd_writeCh (writeCh k3 ++ [m1]) k3). set (w4 := upd_conns <[c := k4]> w3).
  exists [Finish true; Finish true], w4, k4. split.
  - erewrite run_schedule_cons; [|reflexivity|by apply (load_step _ _ _ _ Hk Ha)].
    erewrite run_schedule_cons; [|reflexivity|by apply (number_step _ _ _ _ Hk)].
    erewrite run_schedule_cons; [|reflexivity|by apply (stamp_step _ _ _ _)]. fold n k1 w1.
    erewrite run_schedule_cons; [|reflexivity|by apply (load_step _ _ _ _ Hk1 Ha)].
    erewrite run_schedule_cons; [|reflexivity|by apply (number_step _ _ _ _ Hk1)].
    erewrite run_schedule_cons; [|reflexivity|by apply (stamp_step _ _ _ _)]. 
    pose proof (queue_step c m2 _ _ Hk2) as E. rewrite decide_True in E by (cbn -[WriteChannelSize]; lia).
    erewrite run_schedule_cons; [|reflexivity|exact E]. clear E.
    pose proof (queue_step c m1 _ _ Hk3) as E. 
    rewrite decide_True in E by (cbn -[WriteChannelSize]; rewrite length_app; cbn; lia).
    erewrite run_schedule_cons; [|reflexivity|exact E]. done.
  - split_and!; [done|apply lookup_insert_eq|cbn; by rewrite <-app_assoc|..].
    + cbn. by rewrite lookup_alter_ne, lookup_alter_eq.
    + cbn. rewrite lookup_alter_eq, lookup_alter_ne by done. do 2 f_equal. subst n2 n.
      rewrite u64_add_l. f_equal. lia.
Qed.

(** Two messages for the device of the demo, and room for both. *)
Definition demo_two : World demo_TS := upd_msgs <[2%positive := demo_msg]> demo_world.
Definition overtaking : list nat := [0; 0; 0; 1; 1; 1; 1; 0].

Lemma demo_conn_room : length (writeCh demo_conn) + 2 ≤ WriteChannelSize.
Proof. apply Nat.leb_le. reflexivity. Qed.

Lemma submits_may_overtake_witness : ∃ ts w' k',
  run_schedule overtaking ([submit_prog 1 1; submit_prog 1 2], demo_two) = Some (ts, w') ∧
  all_done ts [true; true] ∧ conns w' !! 1%positive = Some k' ∧ writeCh k' = [2; 1]%positive ∧
  (m_SeqId <$> msgs w' !! 1%positive) = Some 1%Z ∧ (m_SeqId <$> msgs w' !! 2%positive) = Some 2%Z.
Proof.
  destruct (submits_may_overtake 1 1 2 demo_two demo_conn eq_refl eq_refl demo_conn_room ltac:(done))
    as (ts & w' & k' & Hr & Hd & Hk & Hq & H1 & H2).
  exists ts, w', k'. split_and!; [done..| |]; [by rewrite H1|by rewrite H2].
Defined.

Lemma concurrent_submits_witness : ∃ ts w q js,
  run_schedule overtaking ([submit_prog 1 1; submit_prog 1 2], demo_two) = Some (ts, w) ∧
  conns w !! 1%positive = Some (conn_after demo_conn 2 q) ∧ [1; 2]%positive ≡ₚ q ∧ js ≡ₚ [1; 2].
Proof.
  assert (results (run_schedule overtaking ([submit_prog 1 1; submit_prog 1 2], demo_two)) =
    Some [Some true; Some true]) as E by (vm_compute; reflexivity).
  destruct (run_schedule overtaking ([submit_prog 1 1; submit_prog 1 2], demo_two)) as [[ts w]|] eqn:Er; [|done].
  injection E as E. exists ts, w.
  destruct (concurrent_submits 1 [1; 2]%positive demo_two demo_conn ts w [true; true] eq_refl eq_refl)
    as (q & js & Hc & Hq & _ & Hj & _); [pose proof demo_conn_room; lia| |by eapply run_schedule_steps|done|].
  - apply list.NoDup_cons. split; [by rewrite list_elem_of_singleton|apply list.NoDup_singleton].
  - by exists q, js.
Defined.
