(* ===== verification/ConnectionSpec.v ===== *)
(** * Correctness of connections

    What [Submit] and the two loops of [Run] guarantee: messages leave in the
    order they were submitted, with consecutive sequence numbers; and what
    they do not: nothing ever ends the writer of an idle connection. *)

From stdpp Require Import base list gmap strings numbers.
From S2P Require Import Prelude Shard Message Codec Tcp Router World Connection Pool Session Demo.

Section fifo.
Context {TS : Type} `{WireLib} (fc : FrameCodec) (tp_Write : bool → list Z → error).
Implicit Types (w : World TS) (k : Connection) (msg : Message).

(** Submit one message after the other, collecting the answers. *)
Fixpoint submit_all (c : positive) (ms : list positive) : M (World TS) (list bool) :=
  match ms with
  | [] => mret []
  | m :: ms' => ok ← conn_Submit c m; oks ← submit_all c ms'; mret (ok :: oks)
  end.

(** [n] turns of [writeLoop]. *)
Fixpoint write_turns (n : nat) (c : positive) : M (World TS) unit :=
  match n with
  | 0 => mret tt
  | S n' => writeLoop_turn fc tp_Write false c ≫= λ _, write_turns n' c
  end.

Lemma submit_all_spec c ms : ∀ w k,
  conns w !! c = Some k → conn_IsActive k = true → NoDup ms →
  length (writeCh k) + length ms ≤ WriteChannelSize →
  ∃ w' k', submit_all c ms w = (Ret (replicate (length ms) true), w') ∧
    conns w' !! c = Some k' ∧ writeCh k' = writeCh k ++ ms ∧ ctx_done k' = ctx_done k ∧
    c_out k' = c_out k ∧
    (∀ m, m ∉ ms → msgs w' !! m = msgs w !! m) ∧
    (∀ i m, ms !! i = Some m →
       msgs w' !! m = set_SeqId (u64 (nextSendSeq k + Z.of_nat i + 1)) <$> msgs w !! m).
Proof.
  induction ms as [|m ms IH]; intros w k Ek Ha Hnd Hlen.
  { exists w, k. rewrite app_nil_r. done. }
  inversion_clear Hnd as [|? ? Hm Hnd']. simpl in Hlen.
  cbn [submit_all]. rewrite (bind_ret_run _ _ _ _ _ (conn_Submit_run c m w k Ek)).
  assert (accepts k = true) as ->.
  { unfold accepts. rewrite Ha. simpl. apply bool_decide_eq_true. lia. }
  assert (submitted m k = upd_writeCh (writeCh k ++ [m]) (upd_nextSendSeq (u64 (nextSendSeq k + 1)) k)) as Es.
  { unfold submitted. rewrite Ha, decide_True by lia. done. }
  destruct (IH (after_submit c m k w) (submitted m k)) as (w' & k' & E & Ek' & Hq & Hc & Ho & Hother & Hseq).
  - simpl. apply lookup_insert_eq.
  - unfold conn_IsActive. by rewrite submitted_state.
  - done.
  - rewrite Es. simpl. rewrite length_app. simpl. lia.
  - rewrite (bind_ret_run _ _ _ _ _ E). exists w', k'. split; [done|]. rewrite Es in *. cbn in *.
    split_and!; [done|by rewrite Hq, <-app_assoc|done..| |].
    + intros m' Hm'. rewrite not_elem_of_cons in Hm'. rewrite Hother by tauto.
      rewrite lookup_alter_ne by naive_solver. done.
    + intros [|i] m' Hi; simpl in Hi.
      * simplify_eq. rewrite Hother by done. rewrite lookup_alter_eq.
        unfold stamped. rewrite Ha. by rewrite Z.add_0_r.
      * rewrite (Hseq i m' Hi). rewrite lookup_alter_ne.
        2:{ intros <-. by apply list_elem_of_lookup_2 in Hi. }
        f_equal. f_equal. rewrite <-Z.add_assoc, u64_add_l. f_equal. lia.
Qed.

(** The writer empties the queue in order. *)
Lemma write_turns_spec c : ∀ ms w k ds,
  (∀ d, tp_Write false d = None) →
  conns w !! c = Some k → writeCh k = ms → ctx_done k = false →
  Forall2 (λ m d, ∃ msg, msgs w !! m = Some msg ∧ Encode fc msg = inr d) ms ds →
  ∃ w' k', write_turns (length ms) c w = (Ret tt, w') ∧ conns w' !! c = Some k' ∧
    writeCh k' = [] ∧ c_out k' = c_out k ++ ds ∧ msgs w' = msgs w.
Proof.
  induction ms as [|m ms IH]; intros w k ds Htp Ek Eq Hd Hall.
  { apply Forall2_nil_inv_l in Hall as ->. exists w, k. rewrite app_nil_r. done. }
  apply Forall2_cons_inv_l in Hall as (d & ds' & (msg & Em & Ed) & Hall & ->).
  set (k1 := upd_c_out (c_out k ++ [d]) (upd_writeCh ms k)).
  set (w1 := upd_conns <[c := k1]> w).
  assert (writeLoop_turn fc tp_Write false c w = (Ret Continue, w1)) as E.
  { unfold writeLoop_turn, encodeAndWrite. mrun. rewrite Ek, Eq, Hd. cbn.
    rewrite lookup_alter_eq, Ek. cbn. rewrite Em, Ed, Hd, Htp. cbn. f_equal.
    subst w1. unfold upd_conns. cbn. f_equal.
    by rewrite (alter_Some _ _ c k Ek), (alter_Some _ _ c _ (lookup_insert_eq _ _ _)), insert_insert_eq. }
  cbn [write_turns length]. rewrite (bind_ret_run _ _ _ _ _ E).
  destruct (IH w1 k1 ds' Htp) as (w' & k' & E' & Ek' & Hq & Ho & Hm).
  - subst w1. simpl. apply lookup_insert_eq.
  - done.
  - done.
  - done.
  - exists w', k'. split_and!; try done. rewrite Ho. subst k1. simpl. by rewrite <-app_assoc.
Qed.

(** A drain with a transport that refuses to write writes nothing. *)
Lemma drain_loop_refused c : (∀ d, ∃ e, tp_Write true d = Some e) → ∀ ms w k,
  conns w !! c = Some k → ctx_done k = true → Forall (λ m, is_Some (msgs w !! m)) ms →
  for_each (λ m, encodeAndWrite fc tp_Write c m ≫= λ _, mret tt) ms w = (Ret tt, w).
Proof.
  intros Htp ms w k Ek Hd Hall. induction Hall as [|m ms [msg Em] _ IH]; [done|].
  cbn [for_each]. rewrite bind_run.
  assert ((encodeAndWrite fc tp_Write c m ≫= λ _, mret tt) w = (Ret tt, w)) as ->; [|exact IH].
  unfold encodeAndWrite. mrun. rewrite Ek, Em. destruct (Encode fc msg) as [e|d]; [done|].
  destruct (Htp d) as [e He]. by rewrite Hd, He.
Qed.

Lemma drain_refused c w k : (∀ d, ∃ e, tp_Write true d = Some e) →
  conns w !! c = Some k → ctx_done k = true → Forall (λ m, is_Some (msgs w !! m)) (writeCh k) →
  drain fc tp_Write c w = (Ret tt, upd_conns (alter (upd_writeCh []) c) w).
Proof.
  intros Htp Ek Hd Hall. unfold drain.
  rewrite (bind_ret_run (get_conn c) _ w w k) by (mrun; by rewrite Ek).
  erewrite bind_ret_run by reflexivity.
  apply (drain_loop_refused c Htp _ _ (upd_writeCh [] k)); [|done..].
  simpl. by rewrite lookup_alter_eq, Ek.
Qed.
End fifo.

(** [TcpTransport.Write] as the writer sees it: the context first, then the
    socket (here one that takes everything). *)
Definition tcp_tp_Write (ctx_is_done : bool) (data : list Z) : error :=
  (Gateway.Write (if ctx_is_done then Some "context canceled" else None) None data []).1.

(** * Claims *)

(** C15.  Messages leave in submission order: distinct messages submitted to an
    active idle connection with room for them are all accepted, get consecutive
    sequence numbers, and the writer hands their encodings to the transport in
    that order. *)
Theorem messages_leave_in_order {TS : Type} `{WireLib} (fc : FrameCodec) (tp_Write : bool → list Z → error)
    (w : World TS) (c : positive) (k : Connection) (ms : list positive) (bodies : list Message)
    (ds : list (list Z)) :
  conns w !! c = Some k → conn_IsActive k = true → ctx_done k = false → writeCh k = [] →
  NoDup ms → length ms ≤ WriteChannelSize →
  Forall2 (λ m msg, msgs w !! m = Some msg) ms bodies →
  (∀ d, tp_Write false d = None) →
  Forall2 (λ msg d, Encode fc msg = inr d)
    (imap (λ i msg, set_SeqId (u64 (nextSendSeq k + Z.of_nat i + 1)) msg) bodies) ds →
  ∃ w1 w2 k2, submit_all c ms w = (Ret (replicate (length ms) true), w1) ∧
    write_turns fc tp_Write (length ms) c w1 = (Ret tt, w2) ∧
    conns w2 !! c = Some k2 ∧ writeCh k2 = [] ∧ c_out k2 = c_out k ++ ds.
Proof.
  intros Ek Ha Hd Hq Hnd Hlen Hms Htp Hds.
  destruct (submit_all_spec c ms w k Ek Ha Hnd) as (w1 & k1 & E1 & Ek1 & Hq1 & Hd1 & Ho1 & _ & Hseq);
    [rewrite Hq; simpl; lia|]. rewrite Hq in Hq1. simpl in Hq1.
  destruct (write_turns_spec fc tp_Write c ms w1 k1 ds Htp Ek1 Hq1) as (w2 & k2 & E2 & Ek2 & Hq2 & Ho2 & _).
  - by rewrite Hd1.
  - apply Forall2_same_length_lookup. split.
    { rewrite (Forall2_length Hms), <-(Forall2_length Hds). symmetry. apply length_imap. }
    intros i m d Hi Hdi. destruct (Forall2_lookup_l _ _ _ _ _ Hms Hi) as (msg & Hb & Em).
    exists (set_SeqId (u64 (nextSendSeq k + Z.of_nat i + 1)) msg). split; [by rewrite (Hseq i m Hi), Em|].
    destruct (Forall2_lookup_r _ _ _ _ _ Hds Hdi) as (msg' & Hb' & Ed).
    rewrite list_lookup_imap, Hb in Hb'. simpl in Hb'. by simplify_eq.
  - exists w1, w2, k2. split_and!; try done. by rewrite Ho2, Ho1.
Qed.

Definition demo_two : World demo_TS :=
  upd_msgs <[2%positive := zeroMessage]> demo_world.

Lemma messages_leave_in_order_witness :
  ∃ w1 w2 k2, submit_all 1 [2%positive; 1%positive] demo_two = (Ret [true; true], w1) ∧
    write_turns (H:=toyWire) JSONConfig (λ _ _, None) 2 1 w1 = (Ret tt, w2) ∧
    conns w2 !! 1%positive = Some k2 ∧ writeCh k2 = [] ∧
    c_out k2 = [] ++ [1%Z :: 123%Z :: [Z.pos (encode (set_SeqId 1 zeroMessage))];
                      1%Z :: 123%Z :: [Z.pos (encode (set_SeqId 2 demo_msg))]].
Proof.
  apply (messages_leave_in_order (H:=toyWire) JSONConfig (λ _ _, None) demo_two 1 demo_conn
    [2%positive; 1%positive] [zeroMessage; demo_msg]); try reflexivity.
  - apply (bool_decide_unpack _). vm_compute. exact I.
  - apply Nat.leb_le. vm_compute. reflexivity.
  - repeat constructor.
  - repeat constructor.
Defined.

(** A message fanned out to two connections is one object: the second
    [Submit] overwrites the sequence number the first connection gave it, so the
    first client is sent the other connection's number. *)
Theorem fan_out_shares_sequence_number {TS : Type} (w : World TS) c1 c2 k1 k2 m msg :
  c1 ≠ c2 → conns w !! c1 = Some k1 → conns w !! c2 = Some k2 →
  accepts k1 = true → accepts k2 = true → msgs w !! m = Some msg →
  ∃ w1 w2, conn_Submit c1 m w = (Ret true, w1) ∧ conn_Submit c2 m w1 = (Ret true, w2) ∧
    (m_SeqId <$> msgs w1 !! m) = Some (u64 (nextSendSeq k1 + 1)) ∧
    (m_SeqId <$> msgs w2 !! m) = Some (u64 (nextSendSeq k2 + 1)) ∧
    (writeCh <$> conns w2 !! c1) = Some (writeCh k1 ++ [m]) ∧
    (writeCh <$> conns w2 !! c2) = Some (writeCh k2 ++ [m]).
Proof.
  intros Hne E1 E2 A1 A2 Em.
  assert (∀ k, accepts k = true → conn_IsActive k = true ∧ writeCh (submitted m k) = writeCh k ++ [m]) as Hacc.
  { intros k. unfold accepts, submitted. destruct (conn_IsActive k); [|done]. simpl.
    intros ?%bool_decide_eq_true. by rewrite decide_True. }
  destruct (Hacc k1 A1) as [I1 Q1], (Hacc k2 A2) as [I2 Q2].
  eexists _, _. rewrite (conn_Submit_run c1 m w k1 E1), A1. split; [reflexivity|].
  rewrite (conn_Submit_run c2 m _ k2) by (simpl; by rewrite lookup_insert_ne). rewrite A2.
  split; [reflexivity|]. simpl. rewrite !lookup_alter_eq, Em. simpl. unfold stamped. rewrite I1, I2. simpl.
  rewrite lookup_insert_ne, !lookup_insert_eq by done. simpl. by rewrite Q1, Q2.
Qed.

Lemma fan_out_shares_sequence_number_witness :
  let k2 := upd_nextSendSeq 41 demo_conn in
  let w := upd_conns <[2%positive := k2]> demo_world in
  ∃ w1 w2, conn_Submit 1 1 w = (Ret true, w1) ∧ conn_Submit 2 1 w1 = (Ret true, w2) ∧
    (m_SeqId <$> msgs w1 !! 1%positive) = Some 1%Z ∧ (m_SeqId <$> msgs w2 !! 1%positive) = Some 42%Z ∧
    (writeCh <$> conns w2 !! 1%positive) = Some [1%positive] ∧
    (writeCh <$> conns w2 !! 2%positive) = Some [1%positive].
Proof.
  apply (fan_out_shares_sequence_number
    (upd_conns <[2%positive := upd_nextSendSeq 41 demo_conn]> demo_world) 1 2 demo_conn
    (upd_nextSendSeq 41 demo_conn) 1 demo_msg); [discriminate|reflexivity..].
Defined.

(** After its reader has ended, a connection with an empty queue whose
    context is not cancelled takes no further step: [Run] waits for the writer,
    the writer for a message, and the deferred cleanup (state, transport,
    [onClose]) does not run.  Nothing in [Run] cancels the context. *)
Theorem run_stuck_after_read_error {TS : Type} `{WireLib} (fc : FrameCodec)
    (tp_Write : bool → list Z → error) onMessage onClose (w : World TS) c k :
  conns w !! c = Some k → writeCh k = [] → ctx_done k = false →
  ¬ ∃ st, run_step fc tp_Write onMessage onClose c (mkRun true false false, w) st.
Proof.
  intros Ek Hq Hd [st Hs]. inversion Hs as [|rd w0 pick t w' Hw Ht|]; subst.
  unfold writeLoop_turn in Hw. revert Hw. mrun. rewrite Ek, Hq, Hd. intros [= <- _]. done.
Qed.

Lemma run_stuck_after_read_error_witness :
  ¬ ∃ st, run_step (H:=toyWire) DefaultConfig tcp_tp_Write (λ _ _, mret tt) (λ _, mret tt) 1
          (mkRun true false false, demo_world) st.
Proof.
  exact (run_stuck_after_read_error (H:=toyWire) DefaultConfig tcp_tp_Write (λ _ _, mret tt) (λ _, mret tt)
    demo_world 1 demo_conn eq_refl eq_refl eq_refl).
Defined.

Lemma ticks timeout : (2 ≤ timeout)%Z → ticker_panics timeout = false.
Proof. intros Ht. unfold ticker_panics. apply Z.leb_gt. apply (Z.quot_str_pos timeout 2). lia. Qed.

(** The heartbeat watchdog detects a silent client and ends, and the
    connection stays as it was: active, registered, its context running. *)
Theorem heartbeat_timeout_changes_nothing {TS : Type} (w : World TS) c k timeout :
  (2 ≤ timeout)%Z →
  conns w !! c = Some k → ctx_done k = false → (timeout < now w - lastPingAt k * 10 ^ 6)%Z →
  HeartbeatWatchdog_tick timeout c w = (Ret Exit, w).
Proof.
  intros H2 Ek Hd Ht. unfold HeartbeatWatchdog_tick, conn_Close. rewrite ticks by done. mrun. rewrite Ek. cbn. rewrite Hd.
  by rewrite (proj2 (Z.ltb_lt _ _) Ht).
Qed.

Lemma heartbeat_timeout_changes_nothing_witness :
  HeartbeatWatchdog_tick (5 * 10 ^ 8) 1 demo_world = (Ret Exit, demo_world).
Proof.
  apply (heartbeat_timeout_changes_nothing demo_world 1 demo_conn); [lia|reflexivity..|]. vm_compute. reflexivity.
Defined.

(** When the context is cancelled, the writer takes every queued message off
    the queue but the TCP transport, which checks the context first, sends none
    of them. *)
Theorem cancelled_writer_drops_queue {TS : Type} `{WireLib} (fc : FrameCodec) (w : World TS) c k :
  conns w !! c = Some k → ctx_done k = true → Forall (λ m, is_Some (msgs w !! m)) (writeCh k) →
  ∃ w', writeLoop_turn fc tcp_tp_Write true c w = (Ret Exit, w') ∧
    conns w' !! c = Some (upd_writeCh [] k) ∧ offline w' = offline w.
Proof.
  intros Ek Hd Hall. unfold writeLoop_turn.
  rewrite (bind_ret_run (get_conn c) _ w w k) by (mrun; by rewrite Ek). rewrite Hd.
  destruct (writeCh k) as [|m q] eqn:Hq; cbn [andb].
  - exists w. split_and!; try done. rewrite Ek. destruct k. simpl in *. by rewrite Hq.
  - rewrite <-Hq in Hall.
    rewrite (bind_ret_run _ _ _ _ _ (drain_refused fc tcp_tp_Write c w k
      (λ d, ex_intro _ "context canceled" eq_refl) Ek Hd Hall)).
    eexists. split; [reflexivity|]. simpl. by rewrite lookup_alter_eq, Ek.
Qed.

Definition cancelled_conn : Connection :=
  mkConnection "c1" "u1" "app" "d1" "ios" "im" [1%positive] ConnActive 0 0 0 true false false [].

Lemma cancelled_writer_drops_queue_witness :
  ∃ w', writeLoop_turn (H:=toyWire) DefaultConfig tcp_tp_Write true 1
      (demo demo_session cancelled_conn demo_msg) = (Ret Exit, w') ∧
    conns w' !! 1%positive = Some (upd_writeCh [] cancelled_conn) ∧ offline w' = [].
Proof.
  apply (cancelled_writer_drops_queue (H:=toyWire) DefaultConfig
    (demo demo_session cancelled_conn demo_msg) 1 cancelled_conn eq_refl eq_refl).
  repeat constructor. by eexists.
Defined.
