(* ===== verification/SessionSpec.v ===== *)
(** * Correctness of sessions and of QoS-1 tracking

    Functional specifications of the operations of [Session.v] on every branch,
    proved for any scheduler that satisfies [SchedulerLaws]. *)

From stdpp Require Import base list gmap strings numbers pretty.
From S2P Require Import Prelude Timer Shard Message Codec Router World Connection Pool Session Demo.

Section spec.
Context {TS : Type} `{SchedulerLaws TS timeoutPayload unit} `{MapRange}.
Implicit Types (w : World TS) (s : Session) (k : Connection).

(** The ACK timer of a message of a session. *)
Definition ack_timer w (sid mid : string) : option (Task timeoutPayload unit) :=
  pending (timer w) (ackKey sid mid).

(** The world after [Track] of a QoS-1 message. *)
Definition tracked (ref : SessionRef) (mid : string) w : World TS :=
  let w1 := upd_scanner (upd_sessAcks (index_add (ref_sid ref) mid tt)) w in
  upd_timer (λ t, (Schedule (now w) (ack_task (now w + ackTimeout (scanner w)) (ref_sid ref) mid) t).2) w1.

Lemma Track_run m ref w msg : msgs w !! m = Some msg →
  Track m ref w = (Ret tt, if at_least_once msg then tracked ref (m_MsgId msg) w else w).
Proof. intros E. unfold Track. mrun. rewrite E. by destruct (at_least_once msg). Qed.

(** A scheduled ACK task is never refused and its timer is then pending. *)
Lemma tracked_timer ref mid w : sched_ok (timer w) →
  sched_ok (timer (tracked ref mid w)) ∧
  (∀ key, pending (timer (tracked ref mid w)) key =
     if decide (key = ackKey (ref_sid ref) mid)
     then Some (default_due (now w) (ack_task (now w + ackTimeout (scanner w)) (ref_sid ref) mid))
     else pending (timer w) key).
Proof.
  intros Hok.
  destruct (law_schedule (now w) (ack_task (now w + ackTimeout (scanner w)) (ref_sid ref) mid) tt
    (timer w) Hok) as (t' & E & Hok' & Hp); [done|done|].
  unfold tracked. simpl. rewrite E. simpl. done.
Qed.

(** ** Undelivered messages *)

(** Whether [handleUndelivered] stores. *)
Definition stores_offline s (msg : Message) : bool :=
  match m_Delivery msg with
  | Some d => Offline d && d_Offline (deps s) && negb (Qos d =? QosClass_AT_MOST_ONCE)%Z
  | None => false
  end.

Lemma handleUndelivered_run p m w s msg d :
  sessions w !! p = Some s → msgs w !! m = Some msg → m_Delivery msg = Some d →
  handleUndelivered p m w =
    (Ret tt, if stores_offline s msg then upd_offline (λ l, l ++ [msg]) w else w).
Proof.
  intros Es Em Ed. unfold handleUndelivered, stores_offline, OfflineStore_Store. mrun.
  rewrite Es, Em, Ed. destruct (Offline d), (d_Offline (deps s)); simpl; try done.
  destruct (Qos d =? QosClass_AT_MOST_ONCE)%Z; simpl; [done|]. by rewrite Em.
Qed.

Lemma handleUndelivered_panic p m w s msg :
  sessions w !! p = Some s → msgs w !! m = Some msg → m_Delivery msg = None →
  ∃ why, handleUndelivered p m w = (Panic why, w).
Proof.
  intros Es Em Ed. unfold handleUndelivered. mrun. rewrite Es, Em, Ed. eauto.
Qed.

(** ** [Submit] *)

(** The session after a delivery. *)
Definition delivered s (m : positive) (msg : Message) (t seq : Z) : Session :=
  let s1 := upd_lastDeliveredSeq seq s in
  if d_Acker (deps s) && at_least_once msg
  then upd_pendingAcks (<[m_MsgId msg := mkEntry m 0 t t]> (pendingAcks s1)) s1
  else s1.

Definition after_delivery (p c m : positive) s k (msg : Message) w : World TS :=
  let seq := u64 (nextSendSeq k + 1) in
  let w1 := upd_sessions <[p := delivered s m msg (now w) seq]> (after_submit c m k w) in
  if d_Acker (deps s) && at_least_once msg then tracked (ref_of p s) (m_MsgId msg) w1 else w1.

Lemma upd_sessions_compose (f g : gmap positive Session → gmap positive Session) w :
  upd_sessions f (upd_sessions g w) = upd_sessions (λ m, f (g m)) w.
Proof. done. Qed.

Lemma upd_sessions_ext (f g : gmap positive Session → gmap positive Session) w :
  f (sessions w) = g (sessions w) → upd_sessions f w = upd_sessions g w.
Proof. intros E. unfold upd_sessions. by rewrite E. Qed.

Lemma accepts_active k : accepts k = true → conn_IsActive k = true.
Proof. unfold accepts. by destruct (conn_IsActive k). Qed.

Lemma Submit_delivered p c m w s k msg :
  sessions w !! p = Some s → s_conn s = Some c → conns w !! c = Some k → accepts k = true →
  msgs w !! m = Some msg →
  Submit p m w = (Ret true, after_delivery p c m s k msg w).
Proof.
  intros Es Ec Ek Ha Em. pose proof (accepts_active k Ha) as Hact.
  unfold Submit. mrun. rewrite Es, Ec, Ek, Hact, (conn_Submit_run c m w k Ek), Ha.
  assert (msgs (after_submit c m k w) !! m = Some (set_SeqId (u64 (nextSendSeq k + 1)) msg)) as Em'.
  { unfold after_submit, upd_msgs. simpl. rewrite lookup_alter_eq, Em. simpl.
    unfold stamped. by rewrite Hact. }
  rewrite Em'. unfold after_delivery, delivered. rewrite set_SeqId_at_least_once.
  change (m_MsgId (set_SeqId _ msg)) with (m_MsgId msg).
  change (m_SeqId (set_SeqId _ msg)) with (u64 (nextSendSeq k + 1)).
  destruct (d_Acker (deps s) && at_least_once msg) eqn:Hq.
  - apply andb_true_iff in Hq as [_ Hq]. cbn [fst snd].
    erewrite (Track_run m (ref_of p s)) by (simpl; exact Em').
    rewrite set_SeqId_at_least_once, Hq. cbn [fst snd]. f_equal.
    change (m_MsgId (set_SeqId _ msg)) with (m_MsgId msg).
    f_equal. rewrite upd_sessions_compose. apply upd_sessions_ext. simpl.
    by rewrite (alter_Some _ _ p s Es), (alter_Some _ _ p _ (lookup_insert_eq _ _ _)), insert_insert_eq.
  - f_equal. apply upd_sessions_ext. simpl. by apply alter_Some.
Qed.

(** The world after a refused delivery: a full queue still costs a sequence
    number and stamps the message. *)
Definition after_refusal (m : positive) s (msg : Message) w : World TS :=
  match s_conn s ≫= λ c, conns w !! c with
  | Some k =>
      if conn_IsActive k then
        let w1 := after_submit (default 1%positive (s_conn s)) m k w in
        if stores_offline s msg then upd_offline (λ l, l ++ [stamped k msg]) w1 else w1
      else if stores_offline s msg then upd_offline (λ l, l ++ [msg]) w else w
  | None => if stores_offline s msg then upd_offline (λ l, l ++ [msg]) w else w
  end.

(** Every connection pointer of a session is allocated. *)
Definition conn_allocated s w : Prop := ∀ c, s_conn s = Some c → ∃ k, conns w !! c = Some k.

Definition reachable_conn s w : bool :=
  match s_conn s ≫= λ c, conns w !! c with Some k => accepts k | None => false end.

Lemma Submit_refused p m w s msg d :
  sessions w !! p = Some s → conn_allocated s w → reachable_conn s w = false →
  msgs w !! m = Some msg → m_Delivery msg = Some d →
  Submit p m w = (Ret false, after_refusal m s msg w).
Proof.
  intros Es Hal Hr Em Ed. unfold Submit, after_refusal, reachable_conn in *. mrun. rewrite Es.
  destruct (s_conn s) as [c|] eqn:Ec; simpl in *.
  - destruct (Hal c Ec) as [k Ek]. rewrite Ek in *. simpl in *.
    destruct (conn_IsActive k) eqn:Hact.
    + rewrite (conn_Submit_run c m w k Ek), Hr.
      rewrite (handleUndelivered_run p m (after_submit c m k w) s (stamped k msg) d).
      * unfold stamped at 1. rewrite Hact. done.
      * done.
      * simpl. by rewrite lookup_alter_eq, Em.
      * unfold stamped. by rewrite Hact.
    + by rewrite (handleUndelivered_run p m w s msg d).
  - by rewrite (handleUndelivered_run p m w s msg d).
Qed.

(** A connection that does not take the message keeps its queue. *)
Lemma submitted_refused m k : accepts k = false → writeCh (submitted m k) = writeCh k.
Proof.
  unfold accepts, submitted. destruct (conn_IsActive k); [|done]. simpl.
  intros Hr%bool_decide_eq_false. by rewrite decide_False.
Qed.

(** What a refusal leaves. *)
Lemma after_refusal_frame m s msg w : conn_allocated s w → reachable_conn s w = false →
  (∀ c, (writeCh <$> conns (after_refusal m s msg w) !! c) = (writeCh <$> conns w !! c)) ∧
  sessions (after_refusal m s msg w) = sessions w ∧ timer (after_refusal m s msg w) = timer w ∧
  ∃ msg', m_MsgId msg' = m_MsgId msg ∧
    offline (after_refusal m s msg w) = offline w ++ (if stores_offline s msg then [msg'] else []).
Proof.
  intros Hal Hr. unfold after_refusal, reachable_conn in *. destruct (s_conn s) as [c|] eqn:Ec; simpl in *.
  - destruct (Hal c Ec) as [k Ek]. rewrite Ek in *. destruct (conn_IsActive k) eqn:Hact.
    + assert (∀ c', (writeCh <$> conns (after_submit c m k w) !! c') = (writeCh <$> conns w !! c')) as Hq.
      { intros c'. cbn. rewrite lookup_insert. case_decide; [subst|done]. rewrite Ek. cbn. f_equal.
        by apply submitted_refused. }
      destruct (stores_offline s msg); split_and!; try done; exists (stamped k msg);
        (split; [unfold stamped; by rewrite Hact|]); cbn; by rewrite ?app_nil_r.
    + destruct (stores_offline s msg); split_and!; try done; exists msg; (split; [done|]); cbn; by rewrite ?app_nil_r.
  - destruct (stores_offline s msg); split_and!; try done; exists msg; (split; [done|]); cbn; by rewrite ?app_nil_r.
Qed.

(** ** [Ack] *)
Lemma Ack_run p mid w s :
  sessions w !! p = Some s → d_Acker (deps s) = true → sched_ok (timer w) →
  ∃ w', Ack p mid w = (Ret tt, w') ∧
    sessions w' = <[p := upd_pendingAcks (delete mid (pendingAcks s)) s]> (sessions w) ∧
    ack_timer w' (sessionID s) mid = None ∧
    member (sessAcks (scanner w')) (sessionID s) mid = None ∧
    (∀ key, key ≠ ackKey (sessionID s) mid → pending (timer w') key = pending (timer w) key) ∧
    conns w' = conns w ∧ msgs w' = msgs w ∧ router w' = router w ∧ offline w' = offline w.
Proof.
  intros Es Ha Hok. unfold Ack, Done. mrun. rewrite Es. rewrite Ha. cbn [fst snd].
  destruct (law_cancel (ackKey (sessionID s) mid) (timer w) Hok) as (t' & E & _ & Hp).
  eexists; split; [reflexivity|]. simpl. rewrite E. simpl. unfold ack_timer. simpl. rewrite E. simpl.
  split_and!; try done.
  - by rewrite (alter_Some _ _ p s Es).
  - rewrite Hp. by rewrite decide_True.
  - rewrite member_remove. by rewrite decide_True.
  - intros key Hne. rewrite Hp. by rewrite decide_False by naive_solver.
Qed.

(** ** The timeout of an unacknowledged message *)

Lemma handleAckTimeout_gone sid mid w :
  (sr_sessions (registry w) !! sid = None ∨
   ∃ ref s, sr_sessions (registry w) !! sid = Some ref ∧ sessions w !! ref_ptr ref = Some s ∧
            pendingAcks s !! mid = None) →
  handleAckTimeout sid mid w = (Ret tt, w).
Proof.
  unfold handleAckTimeout. mrun. intros [E|(ref & s & E & Es & Ep)]; rewrite E; [done|].
  by rewrite Es, Ep.
Qed.

(** Given up: the message leaves the session and may go to the offline store. *)
Lemma handleAckTimeout_give_up sid mid w ref s e msg :
  sr_sessions (registry w) !! sid = Some ref → sessions w !! ref_ptr ref = Some s →
  pendingAcks s !! mid = Some e → msgs w !! pe_msg e = Some msg →
  (effective_max (d_MaxRetries (deps s)) < retryCount e + 1)%Z →
  ∃ w', handleAckTimeout sid mid w = (Ret tt, w') ∧
    (sessions w' !! ref_ptr ref ≫= λ s', Some (pendingAcks s')) = Some (delete mid (pendingAcks s)) ∧
    timer w' = timer w ∧ scanner w' = scanner w ∧ conns w' = conns w ∧
    offline w' = offline w ++
      (if d_Offline (deps s) && match m_Delivery msg with Some d => Offline d | None => false end
       then [msg] else []).
Proof.
  intros Er Es Ee Em Hmax. unfold handleAckTimeout, OfflineStore_Store. mrun. rewrite Er, Es, Ee.
  rewrite (proj2 (Z.ltb_lt _ _) Hmax). cbn [fst snd msgs upd_sessions]. rewrite Em.
  destruct (d_Offline (deps s) && _); cbn; rewrite ?Em; eexists; (split; [reflexivity|]); cbn;
    rewrite ?lookup_alter_eq, ?Es; cbn; rewrite ?delete_insert_eq, ?app_nil_r; done.
Qed.

(** A QoS-1 message waiting for its ACK, on a session whose connection
    accepts messages. *)
Record unacked (sid mid : string) (ref : SessionRef) (c : positive) w s k e msg : Prop := {
  ua_ref : sr_sessions (registry w) !! sid = Some ref;
  ua_sid : ref_sid ref = sid;
  ua_sess : sessions w !! ref_ptr ref = Some s;
  ua_sessid : sessionID s = sid;
  ua_acker : d_Acker (deps s) = true;
  ua_scanner : sr_ackScanner (registry w) = true;
  ua_conn : s_conn s = Some c;
  ua_k : conns w !! c = Some k;
  ua_accepts : accepts k = true;
  ua_entry : pendingAcks s !! mid = Some e;
  ua_msg : msgs w !! pe_msg e = Some msg;
  ua_id : m_MsgId msg = mid;
  ua_qos : at_least_once msg = true;
  ua_timer : sched_ok (timer w);
}.

(** The world just before the re-submission. *)
Definition before_retry (p : positive) (mid : string) s e w : World TS :=
  upd_msgs (alter (ensureRetryHeader (retryCount e + 1)) (pe_msg e))
    (upd_sessions <[p := upd_pendingAcks (<[mid := bump (now w) e]> (pendingAcks s)) s]> w).

Lemma handleAckTimeout_retry sid mid ref c w s k e msg :
  unacked sid mid ref c w s k e msg →
  (retryCount e + 1 ≤ effective_max (d_MaxRetries (deps s)))%Z →
  let s2 := upd_pendingAcks (<[mid := bump (now w) e]> (pendingAcks s)) s in
  let msg2 := ensureRetryHeader (retryCount e + 1) msg in
  handleAckTimeout sid mid w =
    (Ret tt, tracked ref mid
      (after_delivery (ref_ptr ref) c (pe_msg e) s2 k msg2 (before_retry (ref_ptr ref) mid s e w))).
Proof.
  intros [Er Esid Es Essid Ha Hsc Ec Ek Hk Ee Em Eid Hq Hok] Hmax s2 msg2.
  unfold handleAckTimeout. mrun. rewrite Er, Es, Ee.
  rewrite (proj2 (Z.ltb_ge _ _) Hmax). cbn [fst snd].
  match goal with |- context [Submit _ _ ?W] => assert (W = before_retry (ref_ptr ref) mid s e w) as -> end.
  { unfold before_retry. f_equal. rewrite upd_sessions_compose. apply upd_sessions_ext. simpl.
    rewrite (alter_Some _ _ _ s Es), (alter_Some _ _ _ _ (lookup_insert_eq _ _ _)), insert_insert_eq.
    simpl. by rewrite insert_insert_eq. }
  rewrite (Submit_delivered (ref_ptr ref) c (pe_msg e) _ s2 k msg2); try done.
  - cbn [fst snd].
    assert (registry (after_delivery (ref_ptr ref) c (pe_msg e) s2 k msg2
      (before_retry (ref_ptr ref) mid s e w)) = registry w) as ->.
    { unfold after_delivery. by destruct (_ && _). }
    rewrite Hsc. cbn [andb].
    rewrite (Track_run _ _ _ (set_SeqId (u64 (nextSendSeq k + 1)) msg2)).
    + rewrite set_SeqId_at_least_once. unfold msg2, ensureRetryHeader at 1.
      rewrite put_header_at_least_once, Hq. f_equal. by rewrite <-Eid.
    + unfold after_delivery. destruct (_ && _); simpl; rewrite lookup_alter_eq;
        rewrite lookup_alter_eq, Em; simpl; unfold stamped; by rewrite (accepts_active k Hk).
  - simpl. apply lookup_insert_eq.
  - simpl. rewrite lookup_alter_eq, Em. done.
Qed.

(** The client reads everything that was queued. *)
Definition read_all (c : positive) : M (World TS) unit := on_conn c (upd_writeCh []).

(** One ACK timeout, the client reading but not acknowledging. *)
Definition timeout_round (sid mid : string) (c : positive) : M (World TS) unit :=
  handleAckTimeout sid mid ≫= λ _, read_all c.

Lemma effective_max_pos n : (1 ≤ effective_max n)%Z.
Proof. unfold effective_max. case_match eqn:E; [simpl; lia|]. apply Z.leb_gt in E. lia. Qed.

Lemma timeout_round_unacked sid mid ref c w s k e msg :
  unacked sid mid ref c w s k e msg →
  (retryCount e + 1 ≤ effective_max (d_MaxRetries (deps s)))%Z →
  ∃ w' s' k' e' msg', timeout_round sid mid c w = (Ret tt, w') ∧
    unacked sid mid ref c w' s' k' e' msg' ∧ deps s' = deps s ∧ retryCount e' = 0%Z ∧
    pe_msg e' = pe_msg e ∧ get_header "x-retry-count" msg' = pretty (retryCount e + 1)%Z ∧
    ack_timer w' sid mid =
      Some (default_due (now w) (ack_task (now w + ackTimeout (scanner w)) sid mid)).
Proof.
  intros Hu Hmax. pose proof (handleAckTimeout_retry _ _ _ _ _ _ _ _ _ Hu Hmax) as E.
  unfold timeout_round, read_all. rewrite (bind_ret_run _ _ _ _ _ E). clear E.
  destruct Hu as [Er Esid Es Essid Ha Hsc Ec Ek Hk Ee Em Eid Hq Hok].
  set (s2 := upd_pendingAcks (<[mid := bump (now w) e]> (pendingAcks s)) s).
  set (msg2 := ensureRetryHeader (retryCount e + 1) msg).
  pose proof (accepts_active k Hk) as Hact.
  assert (d_Acker (deps s2) && at_least_once msg2 = true) as Hq2.
  { unfold msg2, ensureRetryHeader. rewrite put_header_at_least_once, Hq. simpl. by rewrite Ha. }
  unfold after_delivery. rewrite Hq2.
  change (m_MsgId msg2) with (m_MsgId msg). rewrite Eid.
  set (w1 := upd_sessions _ _).
  assert (sched_ok (timer w1)) as Hok1 by done.
  destruct (tracked_timer (ref_of (ref_ptr ref) s2) mid w1 Hok1) as [Hok2 _].
  destruct (tracked_timer ref mid _ Hok2) as [Hok3 Hp3].
  eexists _, (delivered s2 (pe_msg e) msg2 (now w) (u64 (nextSendSeq k + 1))),
    (upd_writeCh [] (submitted (pe_msg e) k)), (mkEntry (pe_msg e) 0 (now w) (now w)),
    (stamped k msg2).
  split; [reflexivity|].
  assert (deps (delivered s2 (pe_msg e) msg2 (now w) (u64 (nextSendSeq k + 1))) = deps s) as Hdeps
    by (unfold delivered; by rewrite Hq2).
  split_and!; try done.
  - split; simpl; try done.
    + by rewrite lookup_insert_eq.
    + unfold delivered. by rewrite Hq2.
    + by rewrite Hdeps.
    + unfold delivered. by rewrite Hq2.
    + by rewrite lookup_alter_eq, lookup_insert_eq.
    + unfold accepts, conn_IsActive. simpl. rewrite submitted_state. fold (conn_IsActive k).
      by rewrite Hact.
    + unfold delivered. rewrite Hq2. simpl. by rewrite Eid, lookup_insert_eq.
    + by rewrite !lookup_alter_eq, Em.
    + unfold stamped. by rewrite Hact.
    + unfold stamped. by rewrite Hact.
  - unfold stamped. rewrite Hact. apply (put_header_get "x-retry-count" _ msg).
  - unfold ack_timer. simpl. rewrite Hp3, Esid. by rewrite decide_True.
Qed.

Fixpoint timeout_rounds (n : nat) (sid mid : string) (c : positive) : M (World TS) unit :=
  match n with
  | O => mret tt
  | S n' => timeout_round sid mid c ≫= λ _, timeout_rounds n' sid mid c
  end.

Lemma timeout_rounds_unacked n sid mid ref c w s k e msg :
  unacked sid mid ref c w s k e msg → retryCount e = 0%Z →
  ∃ w' s' k' e' msg', timeout_rounds n sid mid c w = (Ret tt, w') ∧
    unacked sid mid ref c w' s' k' e' msg' ∧ retryCount e' = 0%Z.
Proof.
  revert w s k e msg. induction n as [|n IH]; intros w s k e msg Hu H0e.
  { exists w, s, k, e, msg. done. }
  destruct (timeout_round_unacked _ _ _ _ _ _ _ _ _ Hu) as (w1 & s1 & k1 & e1 & msg1 & E & Hu1 & _ & H1e & _).
  { pose proof (effective_max_pos (d_MaxRetries (deps s))). lia. }
  destruct (IH _ _ _ _ _ Hu1 H1e) as (w2 & s2 & k2 & e2 & msg2 & E2 & Hu2 & H2e).
  exists w2, s2, k2, e2, msg2. split; [|done]. simpl. by rewrite (bind_ret_run _ _ _ _ _ E).
Qed.
End spec.

(** ** Claims *)

(** C1.  Delivery: on a session whose connection is active and has room, [Submit]
    returns true, appends the message to the queue of that connection, stamps it
    with the next sequence number, which becomes the session's last delivered
    one; a QoS-1 message is from then on pending with zero retries, recorded by
    the scanner, and has a timer due after the ACK timeout. *)
Theorem submit_delivers_and_tracks {TS : Type} `{SchedulerLaws TS timeoutPayload unit} `{MapRange}
    (w : World TS) p c m s k msg :
  sessions w !! p = Some s → s_conn s = Some c → conns w !! c = Some k → accepts k = true →
  msgs w !! m = Some msg → sched_ok (timer w) →
  let seq := u64 (nextSendSeq k + 1) in
  ∃ w' s', Submit p m w = (Ret true, w') ∧
    (writeCh <$> conns w' !! c) = Some (writeCh k ++ [m]) ∧
    (m_SeqId <$> msgs w' !! m) = Some seq ∧
    sessions w' !! p = Some s' ∧ lastDeliveredSeq s' = seq ∧ sched_ok (timer w') ∧
    if d_Acker (deps s) && at_least_once msg then
      pendingAcks s' = <[m_MsgId msg := mkEntry m 0 (now w) (now w)]> (pendingAcks s) ∧
      member (sessAcks (scanner w')) (sessionID s) (m_MsgId msg) = Some tt ∧
      ack_timer w' (sessionID s) (m_MsgId msg) =
        Some (default_due (now w) (ack_task (now w + ackTimeout (scanner w)) (sessionID s) (m_MsgId msg)))
    else pendingAcks s' = pendingAcks s ∧ timer w' = timer w ∧ scanner w' = scanner w.
Proof.
  intros Es Ec Ek Ha Em Hok seq. pose proof (accepts_active k Ha) as Hact.
  assert (writeCh (submitted m k) = writeCh k ++ [m]) as Hq.
  { unfold accepts in Ha. rewrite Hact in Ha. simpl in Ha. apply bool_decide_eq_true in Ha.
    unfold submitted. rewrite Hact. by rewrite decide_True. }
  eexists _, (delivered s m msg (now w) seq). rewrite (Submit_delivered p c m w s k msg) by done.
  split; [reflexivity|]. unfold after_delivery, delivered. fold seq.
  destruct (d_Acker (deps s) && at_least_once msg) eqn:Hd.
  - set (w1 := upd_sessions _ _).
    destruct (tracked_timer (ref_of p s) (m_MsgId msg) w1 Hok) as [Hok' Hp].
    split_and!; simpl; try done.
    + rewrite lookup_insert_eq. simpl. by rewrite Hq.
    + rewrite lookup_alter_eq, Em. simpl. unfold stamped. by rewrite Hact.
    + apply lookup_insert_eq.
    + rewrite member_add. by rewrite decide_True.
    + unfold ack_timer. rewrite Hp. by rewrite decide_True.
  - split_and!; simpl; try done.
    + rewrite lookup_insert_eq. simpl. by rewrite Hq.
    + rewrite lookup_alter_eq, Em. simpl. unfold stamped. by rewrite Hact.
    + apply lookup_insert_eq.
Qed.

Lemma submit_delivers_and_tracks_witness :
  ∃ w' s', Submit 1 1 demo_world = (Ret true, w') ∧
    (writeCh <$> conns w' !! 1%positive) = Some [1%positive] ∧
    (m_SeqId <$> msgs w' !! 1%positive) = Some 1%Z ∧
    sessions w' !! 1%positive = Some s' ∧ lastDeliveredSeq s' = 1%Z ∧ sched_ok (timer w') ∧
    pendingAcks s' = <["message-1" := mkEntry 1 0 (10 ^ 9) (10 ^ 9)]> ∅ ∧
    member (sessAcks (scanner w')) "s1" "message-1" = Some tt ∧
    ack_timer w' "s1" "message-1" =
      Some (default_due (10 ^ 9) (ack_task (10 ^ 9 + 5 * 10 ^ 9) "s1" "message-1")).
Proof.
  exact (submit_delivers_and_tracks demo_world 1 1 1 demo_session demo_conn demo_msg
    eq_refl eq_refl eq_refl eq_refl eq_refl demo_timer_ok).
Defined.

(** C26.  Refusal: when the session has no connection, or one that is not active
    or full, [Submit] queues nothing for a client and leaves the session and the
    timers alone.  For a message with delivery options it returns false, and the
    message goes to the offline store exactly if it asks for it, a store is
    configured and its QoS is not at-most-once; for one without, the refusal path
    dereferences the nil field and [Submit] panics, having stored nothing. *)
Theorem submit_refused_stores_offline {TS : Type} `{Scheduler TS timeoutPayload unit} `{MapRange}
    (w : World TS) p m s msg :
  sessions w !! p = Some s → conn_allocated s w → reachable_conn s w = false → msgs w !! m = Some msg →
  ∃ r w', Submit p m w = (r, w') ∧
    match m_Delivery msg with
    | Some d => r = Ret false ∧ ∃ msg', m_MsgId msg' = m_MsgId msg ∧
        offline w' = offline w ++ (if Offline d && d_Offline (deps s) &&
          negb (Qos d =? QosClass_AT_MOST_ONCE)%Z then [msg'] else [])
    | None => (∃ why, r = Panic why) ∧ offline w' = offline w
    end ∧
    sessions w' = sessions w ∧ timer w' = timer w ∧
    (∀ c, (writeCh <$> conns w' !! c) = (writeCh <$> conns w !! c)).
Proof.
  intros Es Hal Hr Em. destruct (m_Delivery msg) as [d|] eqn:Ed.
  - rewrite (Submit_refused p m w s msg d) by done. eexists _, _. split; [reflexivity|].
    destruct (after_refusal_frame m s msg w Hal Hr) as (Hq & Hs & Ht & msg' & Hid & Ho).
    split_and!; [done| |done..]. exists msg'. split; [done|]. rewrite Ho. unfold stores_offline. by rewrite Ed.
  - unfold Submit. mrun. rewrite Es. unfold reachable_conn in Hr. destruct (s_conn s) as [c|] eqn:Ec; cbn in Hr.
    + destruct (Hal c Ec) as [k Ek]. rewrite Ek in *. destruct (conn_IsActive k) eqn:Hact.
      * rewrite (conn_Submit_run c m w k Ek), Hr.
        destruct (handleUndelivered_panic p m (after_submit c m k w) s (stamped k msg)) as [why E].
        { done. } { cbn. by rewrite lookup_alter_eq, Em. } { unfold stamped. by rewrite Hact. }
        rewrite E. eexists _, _. split; [reflexivity|]. split; [by split; [eexists|]|]. split_and!; [done..|].
        intros c'. cbn. rewrite lookup_insert. case_decide; [subst|done]. rewrite Ek. cbn.
        f_equal. by apply submitted_refused.
      * destruct (handleUndelivered_panic p m w s msg Es Em Ed) as [why E]. rewrite E.
        eexists _, _. split; [reflexivity|]. split; [by split; [eexists|]|]. done.
    + destruct (handleUndelivered_panic p m w s msg Es Em Ed) as [why E]. rewrite E.
      eexists _, _. split; [reflexivity|]. split; [by split; [eexists|]|]. done.
Qed.

Lemma submit_refused_stores_offline_witness :
  ∃ w' msg', Submit 1 1 (demo (upd_s_conn None demo_session) demo_conn demo_msg) = (Ret false, w') ∧
    offline w' = [msg'] ∧ m_MsgId msg' = "message-1" ∧
    sessions w' = {[ 1%positive := upd_s_conn None demo_session ]} ∧ timer w' = demo_timer.
Proof.
  destruct (submit_refused_stores_offline (demo (upd_s_conn None demo_session) demo_conn demo_msg) 1 1
    (upd_s_conn None demo_session) demo_msg eq_refl) as (r & w' & E & (Hr & msg' & Hid & Ho) & Hs & Ht & _);
    [intros c Hc; discriminate Hc|reflexivity|reflexivity|].
  exists w', msg'. split_and!; try assumption. by rewrite E, Hr.
Defined.

(** A message without [Delivery] that cannot be delivered panics: the
    refusal path dereferences the field before testing it. *)
Theorem undeliverable_without_delivery_panics {TS : Type} `{Scheduler TS timeoutPayload unit} `{MapRange}
    (w : World TS) p m s msg :
  sessions w !! p = Some s → s_conn s = None → msgs w !! m = Some msg → m_Delivery msg = None →
  ∃ why, Submit p m w = (Panic why, w).
Proof.
  intros Es Ec Em Ed. destruct (handleUndelivered_panic p m w s msg Es Em Ed) as [why E].
  exists why. unfold Submit. mrun. rewrite Es, Ec. by rewrite E.
Qed.

Lemma undeliverable_without_delivery_panics_witness :
  ∃ why, Submit 1 1 (demo (upd_s_conn None demo_session) demo_conn zeroMessage) =
    (Panic why, demo (upd_s_conn None demo_session) demo_conn zeroMessage).
Proof.
  exact (undeliverable_without_delivery_panics (demo (upd_s_conn None demo_session) demo_conn zeroMessage)
    1 1 (upd_s_conn None demo_session) zeroMessage eq_refl eq_refl eq_refl eq_refl).
Defined.

(** C25.  An ACK ends the tracking of exactly that message: it is no longer
    pending, its timer is cancelled, the scanner forgets it, and no other timer,
    connection or message changes. *)
Theorem ack_ends_tracking {TS : Type} `{SchedulerLaws TS timeoutPayload unit} `{MapRange}
    (w : World TS) p mid s :
  sessions w !! p = Some s → d_Acker (deps s) = true → sched_ok (timer w) →
  ∃ w', Ack p mid w = (Ret tt, w') ∧
    sessions w' = <[p := upd_pendingAcks (delete mid (pendingAcks s)) s]> (sessions w) ∧
    ack_timer w' (sessionID s) mid = None ∧
    member (sessAcks (scanner w')) (sessionID s) mid = None ∧
    (∀ key, key ≠ ackKey (sessionID s) mid → pending (timer w') key = pending (timer w) key) ∧
    conns w' = conns w ∧ msgs w' = msgs w ∧ router w' = router w ∧ offline w' = offline w.
Proof. apply Ack_run. Qed.

Lemma ack_ends_tracking_witness :
  ∃ w', Ack 1 "message-1" (demo demo_waiting demo_conn demo_msg) = (Ret tt, w') ∧
    sessions w' = <[1%positive := upd_pendingAcks (delete "message-1" (pendingAcks demo_waiting)) demo_waiting]>
      {[ 1%positive := demo_waiting ]} ∧
    ack_timer w' "s1" "message-1" = None ∧
    member (sessAcks (scanner w')) "s1" "message-1" = None ∧
    (∀ key, key ≠ ackKey "s1" "message-1" → pending (timer w') key = pending demo_timer key) ∧
    conns w' = {[ 1%positive := demo_conn ]} ∧ msgs w' = {[ 1%positive := demo_msg ]} ∧
    router w' = demo_router ∧ offline w' = [].
Proof.
  exact (ack_ends_tracking (demo demo_waiting demo_conn demo_msg) 1 "message-1" demo_waiting
    eq_refl eq_refl demo_timer_ok).
Defined.

(** The retry limit of a connected session is never reached: every timeout
    re-submits the message, and the re-submission records it as new, with zero
    retries.  After any number of timeouts the message is still pending with
    count zero. *)
Theorem retries_never_give_up {TS : Type} `{SchedulerLaws TS timeoutPayload unit} `{MapRange} (n : nat)
    sid mid ref c (w : World TS) s k e msg :
  unacked sid mid ref c w s k e msg → retryCount e = 0%Z →
  ∃ w' s' k' e' msg', timeout_rounds n sid mid c w = (Ret tt, w') ∧
    unacked sid mid ref c w' s' k' e' msg' ∧ retryCount e' = 0%Z.
Proof. apply timeout_rounds_unacked. Qed.

Lemma demo_unacked : unacked "s1" "message-1" demo_ref 1 (demo demo_waiting demo_conn demo_msg)
  demo_waiting demo_conn (mkEntry 1 0 0 0) demo_msg.
Proof. split; try reflexivity. apply demo_timer_ok. Qed.

Lemma retries_never_give_up_witness :
  ∃ w' s' k' e' msg', timeout_rounds 100 "s1" "message-1" 1 (demo demo_waiting demo_conn demo_msg) = (Ret tt, w') ∧
    unacked "s1" "message-1" demo_ref 1 w' s' k' e' msg' ∧ retryCount e' = 0%Z.
Proof.
  exact (retries_never_give_up 100 "s1" "message-1" demo_ref 1 _ _ _ _ _ demo_unacked eq_refl).
Defined.

(** After a timeout that re-sent the message, the scanner no longer lists it
    although its new timer is pending: [handleTimeout] removes the record after
    the retry has renewed it, so a later [CancelAll] of the session misses the
    timer. *)
Theorem timeout_drops_scanner_record {TS : Type} `{SchedulerLaws TS timeoutPayload unit} `{MapRange}
    sid mid ref c (w : World TS) s k e msg (task : Task timeoutPayload unit) :
  unacked sid mid ref c w s k e msg →
  (retryCount e + 1 ≤ effective_max (d_MaxRetries (deps s)))%Z →
  onTimeout (scanner w) = true → Payload task = mkPayload sid mid →
  ∃ w', handleTimeout task w = (Ret tt, w') ∧
    member (sessAcks (scanner w')) sid mid = None ∧
    ack_timer w' sid mid =
      Some (default_due (now w) (ack_task (now w + ackTimeout (scanner w)) sid mid)).
Proof.
  intros Hu Hmax Hset Hpay.
  destruct (timeout_round_unacked _ _ _ _ _ _ _ _ _ Hu Hmax) as (w1 & _ & _ & _ & _ & E & _ & _ & _ & _ & _ & Ht).
  pose proof (handleAckTimeout_retry _ _ _ _ _ _ _ _ _ Hu Hmax) as Er. cbv zeta in Er.
  unfold timeout_round in E. rewrite (bind_ret_run _ _ _ _ _ Er) in E. injection E as <-.
  unfold handleTimeout. erewrite bind_ret_run by reflexivity. rewrite Hset, Hpay. cbn [tp_SessID tp_MsgID].
  rewrite (bind_ret_run _ _ _ _ _ Er). eexists. split; [reflexivity|]. split.
  - simpl. rewrite member_remove. by rewrite decide_True.
  - exact Ht.
Qed.

Lemma timeout_drops_scanner_record_witness :
  ∃ w', handleTimeout (ack_task 0 "s1" "message-1") (demo demo_waiting demo_conn demo_msg) = (Ret tt, w') ∧
    member (sessAcks (scanner w')) "s1" "message-1" = None ∧
    ack_timer w' "s1" "message-1" =
      Some (default_due (10 ^ 9) (ack_task (10 ^ 9 + 5 * 10 ^ 9) "s1" "message-1")).
Proof.
  refine (timeout_drops_scanner_record "s1" "message-1" demo_ref 1 _ _ _ _ _
    (ack_task 0 "s1" "message-1") demo_unacked _ eq_refl eq_refl).
  vm_compute. discriminate.
Defined.

(** C40.  When the retries of a pending message are used up it leaves the session,
    no timer is set for it, and it is handed to the offline store exactly if it
    asks for it and a store is configured. *)
Theorem ack_timeout_gives_up {TS : Type} `{Scheduler TS timeoutPayload unit} `{MapRange}
    sid mid (w : World TS) ref s e msg :
  sr_sessions (registry w) !! sid = Some ref → sessions w !! ref_ptr ref = Some s →
  pendingAcks s !! mid = Some e → msgs w !! pe_msg e = Some msg →
  (effective_max (d_MaxRetries (deps s)) < retryCount e + 1)%Z →
  ∃ w', handleAckTimeout sid mid w = (Ret tt, w') ∧
    (sessions w' !! ref_ptr ref ≫= λ s', Some (pendingAcks s')) = Some (delete mid (pendingAcks s)) ∧
    timer w' = timer w ∧ scanner w' = scanner w ∧ conns w' = conns w ∧
    offline w' = offline w ++
      (if d_Offline (deps s) && match m_Delivery msg with Some d => Offline d | None => false end
       then [msg] else []).
Proof. apply handleAckTimeout_give_up. Qed.

Lemma ack_timeout_gives_up_witness :
  let s := upd_pendingAcks {[ "message-1" := mkEntry 1 5 0 0 ]} demo_session in
  ∃ w', handleAckTimeout "s1" "message-1" (demo s demo_conn demo_msg) = (Ret tt, w') ∧
    (sessions w' !! 1%positive ≫= λ s', Some (pendingAcks s')) = Some (delete "message-1" (pendingAcks s)) ∧
    timer w' = demo_timer ∧ scanner w' = mkScanner (5 * 10 ^ 9) ∅ true ∧
    conns w' = {[ 1%positive := demo_conn ]} ∧ offline w' = [] ++ [demo_msg].
Proof.
  refine (ack_timeout_gives_up "s1" "message-1"
    (demo (upd_pendingAcks {[ "message-1" := mkEntry 1 5 0 0 ]} demo_session) demo_conn demo_msg)
    demo_ref _ (mkEntry 1 5 0 0) demo_msg eq_refl eq_refl eq_refl eq_refl _).
  vm_compute. reflexivity.
Defined.
