(* ===== verification/Sync.v ===== *)
(** * Sessions and router stay in step

    The subscriptions a session keeps across reconnects and the indexes of the
    local router say the same thing about every session that has a connection:
    the router lists a session under a room or topic exactly if it is attached
    and subscribed.  The property is an invariant of the node, proved over
    every operation that touches sessions, router or scanner. *)

From stdpp Require Import base list gmap strings numbers pretty.
From S2P Require Import Prelude Timer Shard Message Codec Router World Connection Pool Session.

(** ** One index against the sessions *)
Section synced.
Implicit Types (ix : gmap string (gmap string SessionRef)) (ss : gmap positive Session).

Record synced (sub : Session → gmap string unit) ix ss : Prop := {
  sync_sound r k ref : member ix r k = Some ref →
    ∃ s, ss !! ref_ptr ref = Some s ∧ ref = ref_of (ref_ptr ref) s ∧ k = sessionID s ∧
         is_Some (s_conn s) ∧ sub s !! r = Some tt;
  sync_complete p s r : ss !! p = Some s → is_Some (s_conn s) → s_once s = false →
    sub s !! r = Some tt → member ix r (sessionID s) = Some (ref_of p s);
}.

Definition unique_ids ss : Prop :=
  ∀ p p' s s', ss !! p = Some s → ss !! p' = Some s' → sessionID s = sessionID s' → p = p'.

Definition same_identity (s s' : Session) : Prop :=
  sessionID s' = sessionID s ∧ userID s' = userID s ∧ deviceID s' = deviceID s.

Lemma same_identity_ref p s s' : same_identity s s' → ref_of p s' = ref_of p s.
Proof. intros (E1 & E2 & E3). unfold ref_of. congruence. Qed.

Lemma unique_ids_update ss p s s' :
  unique_ids ss → ss !! p = Some s → same_identity s s' → unique_ids (<[p := s']> ss).
Proof.
  intros Hu Hp (E & _) p1 p2 s1 s2. rewrite !lookup_insert_Some.
  intros [[<- <-]|[? H1]] [[<- <-]|[? H2]] Eid; try done.
  - eapply Hu; [exact Hp|exact H2|congruence].
  - eapply Hu; [exact H1|exact Hp|congruence].
  - by eapply Hu.
Qed.

(** A session changes and its own row of the index with it. *)
Lemma synced_update sub ix ix' ss p s s' :
  unique_ids ss → synced sub ix ss → ss !! p = Some s → same_identity s s' →
  (∀ r k, k ≠ sessionID s → member ix' r k = member ix r k) →
  (∀ r ref, member ix' r (sessionID s) = Some ref →
     ref = ref_of p s ∧ is_Some (s_conn s') ∧ sub s' !! r = Some tt) →
  (∀ r, is_Some (s_conn s') → s_once s' = false → sub s' !! r = Some tt →
     member ix' r (sessionID s) = Some (ref_of p s)) →
  synced sub ix' (<[p := s']> ss).
Proof.
  intros Hu [Hsound Hcomp] Hp Hid Hother Hown Hown'. pose proof (same_identity_ref p s s' Hid) as Href.
  destruct Hid as (Eid & _). split.
  - intros r k ref Hm. destruct (decide (k = sessionID s)) as [->|Hk].
    + destruct (Hown r ref Hm) as (-> & Hc & Hs). exists s'. simpl.
      rewrite lookup_insert_eq. split_and!; try done; congruence.
    + rewrite Hother in Hm by done. destruct (Hsound r k ref Hm) as (s0 & H0 & E & -> & Hrest).
      exists s0. rewrite lookup_insert_ne; [done|]. intros Ep. rewrite <-Ep in H0. congruence.
  - intros q s0 r. rewrite lookup_insert_Some. intros [[<- <-]|[Hne Hq]] Hc Ho Hs.
    + rewrite Eid, Href. by apply Hown'.
    + rewrite Hother; [by apply Hcomp|]. intros E. apply Hne. by eapply Hu.
Qed.

(** A fresh session without subscriptions. *)
Lemma synced_new sub ix ss p s :
  synced sub ix ss → ss !! p = None → s_conn s = None → synced sub ix (<[p := s]> ss).
Proof.
  intros [Hsound Hcomp] Hp Hc. split.
  - intros r k ref Hm. destruct (Hsound r k ref Hm) as (s0 & H0 & ?). exists s0.
    rewrite lookup_insert_ne; [done|]. intros Ep. rewrite <-Ep in H0. congruence.
  - intros q s0 r. rewrite lookup_insert_Some. intros [[<- <-]|[Hne Hq]] Hc0; [|by apply Hcomp].
    rewrite Hc in Hc0. by destruct Hc0.
Qed.

(** Members of an index under a session's own key belong to it. *)
Lemma synced_own sub ix ss p s r ref :
  unique_ids ss → synced sub ix ss → ss !! p = Some s → member ix r (sessionID s) = Some ref →
  ref = ref_of p s ∧ is_Some (s_conn s) ∧ sub s !! r = Some tt.
Proof.
  intros Hu [Hsound _] Hp Hm. destruct (Hsound _ _ _ Hm) as (s0 & H0 & E & Ek & Hc & Hs).
  assert (ref_ptr ref = p) as Ep by (by eapply Hu). rewrite Ep in *. simplify_eq. done.
Qed.
End synced.

(** ** The invariant of the node *)
Section invariant.
Context {TS : Type} `{Scheduler TS timeoutPayload unit} `{MapRange}.
Implicit Types w : World TS.

Record in_sync w : Prop := {
  is_unique : unique_ids (sessions w);
  is_rooms : synced (λ s, sub_rooms (subs s)) (rooms (router w)) (sessions w);
  is_topics : synced (λ s, sub_topics (subs s)) (topics (router w)) (sessions w);
}.

(** *** Operations that leave subscriptions and router alone *)

(** What the invariant reads of a session, and what no operation changes. *)
Definition sync_view (s : Session) :=
  (sessionID s, userID s, deviceID s, s_conn s, subs s, s_once s, deps s).

Definition sync_frame w w' : Prop :=
  (rooms (router w') = rooms (router w) ∧ topics (router w') = topics (router w) ∧
   registry w' = registry w) ∧
  ∀ p, sync_view <$> sessions w' !! p = sync_view <$> sessions w !! p.

#[export] Instance sync_frame_preorder : PreOrder sync_frame.
Proof.
  split; [done|]. intros w1 w2 w3 [(E1 & F1 & R1) G1] [(E2 & F2 & R2) G2]. split_and!; [congruence..|].
  intros p. by rewrite G2.
Qed.

Definition frames {A} (m : M (World TS) A) : Prop := preserves sync_frame m.

Lemma frames_bind {A B} (m : M (World TS) A) (f : A → M (World TS) B) :
  frames m → (∀ a, frames (f a)) → frames (m ≫= f).
Proof. apply preserves_bind, _. Qed.
Lemma frames_when b (m : M (World TS) unit) : frames m → frames (when b m).
Proof. apply preserves_when, _. Qed.
Lemma frames_for_each {A} (f : A → M (World TS) unit) l : (∀ a, frames (f a)) → frames (for_each f l).
Proof. apply preserves_for_each, _. Qed.
Lemma frames_primitive {A} (m : M (World TS) A) : preserves sync_frame m → frames m.
Proof. done. Qed.
Lemma frames_modify (f : World TS → World TS) :
  (∀ w, rooms (router (f w)) = rooms (router w)) →
  (∀ w, topics (router (f w)) = topics (router w)) → (∀ w, registry (f w) = registry w) →
  (∀ w, sessions (f w) = sessions w) → frames (modify f).
Proof. intros Hr Ht Hg Hs w. split_and!; simpl; [apply Hr|apply Ht|apply Hg|]. intros p. by rewrite Hs. Qed.
Lemma frames_on_sess p (f : Session → Session) : (∀ s, sync_view (f s) = sync_view s) →
  frames (on_sess p f).
Proof.
  intros Hf w. split_and!; simpl; [done..|]. intros q. rewrite lookup_alter. case_decide; [subst|done].
  destruct (sessions w !! q); simpl; by rewrite ?Hf.
Qed.
Lemma frames_new_msg m : frames (new_msg m).
Proof. intros w. done. Qed.
End invariant.

#[export] Hint Resolve frames_primitive frames_new_msg : gw.
#[export] Hint Extern 2 (frames (modify _)) => apply frames_modify; reflexivity : gw.

(** Decompose a computation into the primitives above. *)
Ltac frames_tac :=
  repeat first
    [ solve [auto with gw nocore]
    | case_match
    | apply frames_bind; [|intros ?]
    | apply frames_when
    | apply frames_for_each; intros ?
    | apply frames_on_sess; done
    | match goal with |- frames (let _ := _ in _) => cbv zeta end ].

Section frame_ops.
Context {TS : Type} `{Scheduler TS timeoutPayload unit} `{MapRange}.
Implicit Types w : World TS.

Lemma frames_conn_Submit c m : frames (TS:=TS) (conn_Submit c m).
Proof. unfold conn_Submit, enqueue, get_conn, on_conn, on_msg. frames_tac. Qed.
Lemma frames_Track m ref : frames (TS:=TS) (Track m ref).
Proof. unfold Track, get_msg. frames_tac. Qed.
Lemma frames_Done mid sid : frames (TS:=TS) (Done mid sid).
Proof. unfold Done. frames_tac. Qed.
Lemma frames_CancelAll sid : frames (TS:=TS) (CancelAll sid).
Proof. unfold CancelAll. frames_tac. Qed.
Lemma frames_Store m : frames (TS:=TS) (OfflineStore_Store m).
Proof. unfold OfflineStore_Store, get_msg. frames_tac. Qed.
#[local] Hint Resolve frames_conn_Submit frames_Track frames_Done frames_CancelAll frames_Store : gw.

Lemma frames_handleUndelivered p m : frames (TS:=TS) (handleUndelivered p m).
Proof. unfold handleUndelivered, get_sess, get_msg. frames_tac. Qed.
#[local] Hint Resolve frames_handleUndelivered : gw.

Lemma frames_Submit p m : frames (TS:=TS) (Submit p m).
Proof. unfold Submit, get_sess, get_conn, get_msg. frames_tac. Qed.
Lemma frames_Ack p mid : frames (TS:=TS) (Ack p mid).
Proof. unfold Ack, get_sess. frames_tac. Qed.
#[local] Hint Resolve frames_Submit : gw.

Lemma frames_handleAckTimeout sid mid : frames (TS:=TS) (handleAckTimeout sid mid).
Proof. unfold handleAckTimeout, get_sess, get_msg, on_msg. frames_tac. Qed.
#[local] Hint Resolve frames_handleAckTimeout : gw.

Lemma frames_handleTimeout task : frames (TS:=TS) (handleTimeout task).
Proof. unfold handleTimeout. frames_tac. Qed.

Lemma frames_flush_entry p c s id : frames (TS:=TS) (flush_entry p c s id).
Proof. unfold flush_entry, on_msg. frames_tac. Qed.

Lemma frames_SubmitUpstream p m : frames (TS:=TS) (SubmitUpstream p m).
Proof. unfold SubmitUpstream, mgr_SubmitUpstream, pool_SubmitUpstream, on_pool, get_sess, get_msg. frames_tac. Qed.
End frame_ops.

(** ** Operations that move a session or its subscriptions *)
Section rows.
Implicit Types (ix : gmap string (gmap string SessionRef)) (ss : gmap positive Session).

(** The row of session [s] in the new index [ix'] fits its new state [s']. *)
Record row_ok (sub : Session → gmap string unit) ix ix' (p : positive) (s s' : Session) : Prop := {
  row_other r k : k ≠ sessionID s → member ix' r k = member ix r k;
  row_own r ref : member ix' r (sessionID s) = Some ref →
    ref = ref_of p s ∧ is_Some (s_conn s') ∧ sub s' !! r = Some tt;
  row_full r : is_Some (s_conn s') → s_once s' = false → sub s' !! r = Some tt →
    member ix' r (sessionID s) = Some (ref_of p s);
}.

Lemma row_ok_synced sub ix ix' ss p s s' :
  unique_ids ss → synced sub ix ss → ss !! p = Some s → same_identity s s' →
  row_ok sub ix ix' p s s' → synced sub ix' (<[p := s']> ss).
Proof. intros ???? []. by eapply synced_update. Qed.

Context (sub : Session → gmap string unit) (ix : gmap string (gmap string SessionRef))
  (ss : gmap positive Session) (p : positive) (s s' : Session).
Context (Hu : unique_ids ss) (Hs : synced sub ix ss) (Hp : ss !! p = Some s).

Lemma row_same : s_conn s' = s_conn s → s_once s' = s_once s → sub s' = sub s →
  row_ok sub ix ix p s s'.
Proof.
  intros Hc Ho Hsub. split; [done|..].
  - intros r ref Hm. destruct (synced_own _ _ _ _ _ _ _ Hu Hs Hp Hm) as (? & ? & ?). by rewrite Hc, Hsub.
  - rewrite Hc, Ho, Hsub. intros r. by apply (sync_complete _ _ _ Hs).
Qed.

Lemma row_detached : s_conn s = None → s_conn s' = None → row_ok sub ix ix p s s'.
Proof.
  intros Hc Hc'. split; [done|..].
  - intros r ref Hm. destruct (synced_own _ _ _ _ _ _ _ Hu Hs Hp Hm) as (_ & Hsome & _).
    rewrite Hc in Hsome. by destruct Hsome.
  - rewrite Hc'. by intros ? [? ?].
Qed.

Lemma row_add r : is_Some (s_conn s) → s_conn s' = s_conn s → s_once s' = s_once s →
  sub s' = <[r := tt]> (sub s) → row_ok sub ix (index_add r (sessionID s) (ref_of p s) ix) p s s'.
Proof.
  intros Hc Hc' Ho Hsub. split.
  - intros r' k Hk. rewrite member_add. by rewrite decide_False by naive_solver.
  - intros r' ref. rewrite member_add, Hc', Hsub, lookup_insert. intros Hm.
    repeat case_decide; try naive_solver.
    by destruct (synced_own _ _ _ _ _ _ _ Hu Hs Hp Hm) as (? & ? & ?).
  - intros r' _ Honce. rewrite member_add, Hsub, lookup_insert. intros Hin.
    repeat case_decide; try naive_solver. apply (sync_complete _ _ _ Hs); congruence.
Qed.

Lemma row_remove r : s_conn s' = s_conn s → s_once s' = s_once s → sub s' = delete r (sub s) →
  row_ok sub ix (index_remove r (sessionID s) ix) p s s'.
Proof.
  intros Hc' Ho Hsub. split.
  - intros r' k Hk. rewrite member_remove. by rewrite decide_False by naive_solver.
  - intros r' ref. rewrite member_remove, Hc', Hsub. case_decide as D; [done|]. intros Hm.
    destruct (synced_own _ _ _ _ _ _ _ Hu Hs Hp Hm) as (? & ? & ?).
    rewrite lookup_delete_ne by naive_solver. done.
  - intros r' Hc Honce. rewrite member_remove, Hsub, lookup_delete_Some. intros [? ?].
    rewrite decide_False by naive_solver. apply (sync_complete _ _ _ Hs); congruence.
Qed.

Lemma row_purge : s_conn s' = None ∨ s_once s' = true →
  row_ok sub ix (index_purge (sessionID s) ix) p s s'.
Proof.
  intros Hgone. split.
  - intros r k Hk. rewrite member_purge. by rewrite decide_False.
  - intros r ref. rewrite member_purge. by rewrite decide_True.
  - intros r Hc Ho. destruct Hgone as [E|E]; [rewrite E in Hc; by destruct Hc|congruence].
Qed.

(** Every subscription written again, as [AttachConn] does. *)
Lemma row_attach ix' : is_Some (s_conn s') → sub s' = sub s →
  (∀ r k, member ix' r k = if decide (is_Some (sub s !! r) ∧ k = sessionID s)
                           then Some (ref_of p s) else member ix r k) →
  row_ok sub ix ix' p s s'.
Proof.
  intros Hc Hsub Hix. split.
  - intros r k Hk. rewrite Hix. by rewrite decide_False by naive_solver.
  - intros r ref. rewrite Hix, Hsub. case_decide as D.
    + destruct D as [[[] E] _]. intros [= <-]. done.
    + intros Hm. by destruct (synced_own _ _ _ _ _ _ _ Hu Hs Hp Hm) as (? & ? & ?).
  - intros r _ _. rewrite Hix, Hsub. intros E. rewrite decide_True by (rewrite E; eauto). done.
Qed.
End rows.

(** ** The node as a transition system *)
Section node.
Context {TS : Type} `{Scheduler TS timeoutPayload unit} `{MapRange}.
Context (sha256_hex16 : string → string).
Implicit Types w : World TS.

(** The operations other components call on sessions, registry, router and
    scanner, with any arguments. *)
Inductive node_op : Type :=
  | OpGetOrCreate (uid did appID deviceType bizCode : string)
  | OpAttachConn (p c : positive)
  | OpDetachConn (p : positive)
  | OpClose (p : positive)
  | OpJoinRoom (p : positive) (r : string)
  | OpLeaveRoom (p : positive) (r : string)
  | OpSubscribe (p : positive) (t : string)
  | OpUnsubscribe (p : positive) (t : string)
  | OpSubmit (p m : positive)
  | OpAck (p : positive) (mid : string)
  | OpTimeout (task : Task timeoutPayload unit)
  | OpSubmitUpstream (p m : positive)
  | OpRegisterSession (uid did : string) (ref : SessionRef)
  | OpActivate (c : positive)
  | OpNewMessage (m : Message)
  | OpNewConnection (c : positive) (k : Connection)
  | OpTick (t : Z).

Definition tick (t : Z) : M (World TS) unit := modify (λ w,
  mkWorld t (msgs w) (conns w) (sessions w) (router w) (registry w) (scanner w) (timer w)
    (pools w) (conn_registry w) (offline w)).

Definition exec (o : node_op) : M (World TS) unit :=
  match o with
  | OpGetOrCreate uid did a d b => GetOrCreate sha256_hex16 uid did a d b ≫= λ _, mret tt
  | OpAttachConn p c => AttachConn p c ≫= λ _, mret tt
  | OpDetachConn p => DetachConn p
  | OpClose p => sess_Close p
  | OpJoinRoom p r => sess_JoinRoom p r
  | OpLeaveRoom p r => sess_LeaveRoom p r
  | OpSubscribe p t => sess_Subscribe p t
  | OpUnsubscribe p t => sess_Unsubscribe p t
  | OpSubmit p m => Submit p m ≫= λ _, mret tt
  | OpAck p mid => Ack p mid
  | OpTimeout task => handleTimeout task
  | OpSubmitUpstream p m => SubmitUpstream p m ≫= λ _, mret tt
  | OpRegisterSession uid did ref => modify (upd_router (λ r, (RegisterSession uid did ref r).2))
  | OpActivate c => Activate c
  | OpNewMessage m => new_msg m ≫= λ _, mret tt
  | OpNewConnection c k => modify (upd_conns <[c := k]>)
  | OpTick t => tick t
  end.

(** The only side condition: a session created for a new (user, device) pair
    gets an ID no other session has, i.e. no collision of the hash and no
    ambiguous [userID + ":" + deviceID]. *)
Definition no_collision (o : node_op) w : Prop :=
  match o with
  | OpGetOrCreate uid did _ _ _ =>
      member (userIndex (registry w)) uid did = None →
      ∀ p s, sessions w !! p = Some s → sessionID s ≠ computeSessionID sha256_hex16 uid did
  | _ => True
  end.

(** An operation that panics leaves the writes made before the panic. *)
Inductive node_step : World TS → World TS → Prop :=
  | do_op o w : no_collision o w → node_step w (exec o w).2.

Definition init_world (d : Deps) (acker : bool) (timeout : Z) (t : TS) : World TS :=
  mkWorld 0 ∅ ∅ ∅ NewLocalRouter (NewRegistry d acker) (NewScanner timeout) t ∅ ∅ [].

(** *** Preservation *)

Lemma sync_frame_in_sync w w' : sync_frame w w' → in_sync w → in_sync w'.
Proof.
  intros [(Hr & Ht & _) Hs] [Hu Srooms Stopics].
  assert (∀ p s, sessions w !! p = Some s →
    ∃ s', sessions w' !! p = Some s' ∧ sync_view s = sync_view s') as Hfwd.
  { intros p s E. specialize (Hs p). rewrite E in Hs. destruct (sessions w' !! p) as [s'|]; [|done].
    apply (inj Some) in Hs. eauto. }
  assert (∀ p s', sessions w' !! p = Some s' →
    ∃ s, sessions w !! p = Some s ∧ sync_view s = sync_view s') as Hbwd.
  { intros p s' E. specialize (Hs p). rewrite E in Hs. destruct (sessions w !! p) as [s|]; [|done].
    apply (inj Some) in Hs. eauto. }
  assert (∀ sub ix, (∀ s s', sync_view s = sync_view s' → sub s = sub s') →
    synced sub ix (sessions w) → synced sub ix (sessions w')) as Hsync.
  { intros sub ix Hsub [H1 H2]. split.
    - intros r k ref Hm. destruct (H1 r k ref Hm) as (s & E & Eref & -> & Hc & Hin).
      destruct (Hfwd _ _ E) as (s' & E' & V). exists s'. rewrite <-(Hsub _ _ V).
      injection V as V1 V2 V3 V4 V5 V6 V7. unfold ref_of in *. split_and!; congruence.
    - intros p s' r E' Hc Ho Hin. destruct (Hbwd _ _ E') as (s & E & V).
      rewrite <-(Hsub _ _ V) in Hin. injection V as V1 V2 V3 V4 V5 V6 V7.
      rewrite <-V4 in Hc. rewrite <-V6 in Ho.
      pose proof (H2 p s r E Hc Ho Hin) as Hm. unfold ref_of in *. congruence. }
  split.
  - intros p p' s s' E E' Eid. destruct (Hbwd _ _ E) as (s0 & F & V), (Hbwd _ _ E') as (s1 & F' & V').
    injection V as ???????. injection V' as ???????. eapply Hu; [exact F|exact F'|congruence].
  - rewrite Hr. apply Hsync; [|done]. intros s s' V. injection V as ???????. congruence.
  - rewrite Ht. apply Hsync; [|done]. intros s s' V. injection V as ???????. congruence.
Qed.

Lemma in_sync_row w w' p s s' :
  in_sync w → sessions w !! p = Some s → same_identity s s' → sessions w' = <[p := s']> (sessions w) →
  row_ok (λ s, sub_rooms (subs s)) (rooms (router w)) (rooms (router w')) p s s' →
  row_ok (λ s, sub_topics (subs s)) (topics (router w)) (topics (router w')) p s s' →
  in_sync w'.
Proof.
  intros [Hu Srooms Stopics] Hp Hid Es Rr Rt. split; rewrite Es.
  - by eapply unique_ids_update.
  - by eapply row_ok_synced.
  - by eapply row_ok_synced.
Qed.

Lemma frames_in_sync {A} (m : M (World TS) A) w : frames m → in_sync w → in_sync (m w).2.
Proof. intros Hf. apply sync_frame_in_sync, Hf. Qed.

Lemma upd_sessions_id f w : f (sessions w) = sessions w → upd_sessions f w = w.
Proof. intros E. destruct w. unfold upd_sessions. simpl in *. by rewrite E. Qed.

Lemma on_sess_missing p f w : sessions w !! p = None → upd_sessions (alter f p) w = w.
Proof. intros E. apply upd_sessions_id. by apply alter_None. Qed.

(** The subscription operations share their shape: the set of the session
    changes, and while a connection is attached so does the index. *)
Lemma subs_op_in_sync p f g w :
  in_sync w →
  (∀ s, sessions w !! p = Some s →
    let s' := upd_subs (f (subs s)) s in
    let w' := upd_router (g (ref_of p s)) (upd_sessions (alter (λ s, upd_subs (f (subs s)) s) p) w) in
    is_Some (s_conn s) →
    row_ok (λ s, sub_rooms (subs s)) (rooms (router w)) (rooms (router w')) p s s' ∧
    row_ok (λ s, sub_topics (subs s)) (topics (router w)) (topics (router w')) p s s') →
  in_sync ((on_subs p f ≫= λ _, withConn p (λ ref, on_router (g ref))) w).2.
Proof.
  intros Hin Hrow. unfold on_subs, withConn, on_router. mrun.
  destruct (sessions w !! p) as [s|] eqn:E.
  - cbn [sessions upd_sessions]. rewrite lookup_alter_eq, E. cbn.
    destruct (s_conn s) as [c|] eqn:Ec.
    + destruct (Hrow s eq_refl ltac:(eauto)) as [R1 R2].
      eapply (in_sync_row _ _ p s (upd_subs (f (subs s)) s) Hin E); try done.
      simpl. by rewrite (alter_Some _ _ p s E).
    + eapply (in_sync_row _ _ p s (upd_subs (f (subs s)) s) Hin E); try done.
      * simpl. by rewrite (alter_Some _ _ p s E).
      * eapply row_detached; try apply Hin; eauto.
      * eapply row_detached; try apply Hin; eauto.
  - rewrite on_sess_missing by done. rewrite E. done.
Qed.

Lemma JoinRoom_in_sync p r w : in_sync w → in_sync (sess_JoinRoom p r w).2.
Proof.
  intros Hin. apply subs_op_in_sync; [done|]. intros s E s' w' Hc.
  destruct Hin as [Hu Sr St]. split.
  - eapply row_add; try done.
  - eapply row_same; try done.
Qed.
Lemma LeaveRoom_in_sync p r w : in_sync w → in_sync (sess_LeaveRoom p r w).2.
Proof.
  intros Hin. apply subs_op_in_sync; [done|]. intros s E s' w' Hc.
  destruct Hin as [Hu Sr St]. split.
  - eapply row_remove; try done.
  - eapply row_same; try done.
Qed.
Lemma Subscribe_in_sync p t w : in_sync w → in_sync (sess_Subscribe p t w).2.
Proof.
  intros Hin. apply subs_op_in_sync; [done|]. intros s E s' w' Hc.
  destruct Hin as [Hu Sr St]. split.
  - eapply row_same; try done.
  - eapply row_add; try done.
Qed.
Lemma Unsubscribe_in_sync p t w : in_sync w → in_sync (sess_Unsubscribe p t w).2.
Proof.
  intros Hin. apply subs_op_in_sync; [done|]. intros s E s' w' Hc.
  destruct Hin as [Hu Sr St]. split.
  - eapply row_same; try done.
  - eapply row_remove; try done.
Qed.

Lemma DetachConn_in_sync p w : in_sync w → in_sync (DetachConn p w).2.
Proof.
  intros Hin. pose proof Hin as [Hu Sr St]. unfold DetachConn, on_router. mrun.
  destruct (sessions w !! p) as [s|] eqn:E; [|done].
  set (s' := upd_s_state StateSuspended (UnixMilli (now w)) (upd_s_conn None s)).
  assert (alter (upd_s_state StateSuspended (UnixMilli (now w))) p
    (alter (upd_s_conn None) p (sessions w)) = <[p := s']> (sessions w)) as Es.
  { by rewrite (alter_Some _ _ p s E), (alter_Some _ _ p _ (lookup_insert_eq _ _ _)), insert_insert_eq. }
  destruct (s_conn s) as [c|] eqn:Ec; cbn.
  - eapply (in_sync_row _ _ p s s' Hin E); [done|exact Es|..]; simpl.
    + eapply row_purge. by left.
    + eapply row_purge. by left.
  - eapply (in_sync_row _ _ p s s' Hin E); [done|exact Es|..]; simpl.
    + by eapply row_detached.
    + by eapply row_detached.
Qed.

Lemma get_sess_missing p w : sessions w !! p = None → ∃ why, get_sess p w = (Panic why, w).
Proof. intros E. mrun. rewrite E. eexists. reflexivity. Qed.

Lemma Close_in_sync p w : in_sync w → in_sync (sess_Close p w).2.
Proof.
  intros Hin. pose proof Hin as [Hu Sr St]. unfold sess_Close.
  destruct (sessions w !! p) as [s|] eqn:E.
  2:{ destruct (get_sess_missing p w E) as [why Hp]. by rewrite (bind_panic_run _ _ _ _ _ Hp). }
  rewrite (bind_ret_run _ _ _ _ _ (get_sess_run p w s E)).
  destruct (s_once s) eqn:Eo; [done|].
  erewrite bind_ret_run; [|reflexivity]. erewrite bind_ret_run; [|reflexivity].
  set (s' := upd_s_state StateClosed (suspendedAt (upd_s_once s)) (upd_s_once s)).
  assert (alter (λ s, upd_s_state StateClosed (suspendedAt s) s) p (alter upd_s_once p (sessions w))
    = <[p := s']> (sessions w)) as Es.
  { by rewrite (alter_Some _ _ p s E), (alter_Some _ _ p _ (lookup_insert_eq _ _ _)), insert_insert_eq. }
  destruct (s_conn s) as [c|] eqn:Ec; (erewrite bind_ret_run; [|reflexivity]);
    (erewrite bind_ret_run; [|reflexivity]);
    (apply frames_in_sync; [frames_tac; apply frames_CancelAll|]);
    eapply (in_sync_row _ _ p s s' Hin E); try done; simpl.
  - eapply row_purge. by right.
  - eapply row_purge. by right.
  - by eapply row_detached.
  - by eapply row_detached.
Qed.

Lemma for_each_router {A} (f : A → LocalRouter SessionRef → LocalRouter SessionRef) l w :
  for_each (λ a, on_router (f a)) l w = (Ret tt, upd_router (λ rt, foldl (λ rt a, f a rt) rt l) w).
Proof.
  revert w. induction l as [|a l IH]; intros w; simpl; [by destruct w|].
  unfold on_router at 1. erewrite bind_ret_run; [|reflexivity]. by rewrite IH.
Qed.

Lemma foldl_JoinRoom ref l (rt : LocalRouter SessionRef) :
  topics (foldl (λ rt r, JoinRoom r ref rt) rt l) = topics rt ∧
  ∀ r k, member (rooms (foldl (λ rt r, JoinRoom r ref rt) rt l)) r k =
    if decide (r ∈ l ∧ k = ref_sid ref) then Some ref else member (rooms rt) r k.
Proof.
  revert rt. induction l as [|a l IH]; intros rt; cbn [foldl].
  - split; [done|]. intros r k. rewrite decide_False by set_solver. done.
  - destruct (IH (JoinRoom a ref rt)) as [IH1 IH2]. split; [by rewrite IH1|].
    intros r k. rewrite IH2. simpl. rewrite member_add. repeat case_decide; set_solver.
Qed.

Lemma foldl_Subscribe ref l (rt : LocalRouter SessionRef) :
  rooms (foldl (λ rt r, Subscribe r ref rt) rt l) = rooms rt ∧
  ∀ r k, member (topics (foldl (λ rt r, Subscribe r ref rt) rt l)) r k =
    if decide (r ∈ l ∧ k = ref_sid ref) then Some ref else member (topics rt) r k.
Proof.
  revert rt. induction l as [|a l IH]; intros rt; cbn [foldl].
  - split; [done|]. intros r k. rewrite decide_False by set_solver. done.
  - destruct (IH (Subscribe a ref rt)) as [IH1 IH2]. split; [by rewrite IH1|].
    intros r k. rewrite IH2. simpl. rewrite member_add. repeat case_decide; set_solver.
Qed.

Lemma elem_of_range_keys (v : gmap string unit) r : r ∈ (map_range v).*1 ↔ is_Some (v !! r).
Proof.
  rewrite map_range_perm, list_elem_of_fmap. split.
  - intros ([k u] & -> & Hk%elem_of_map_to_list). eauto.
  - intros [u Hu]. exists (r, u). split; [done|]. by apply elem_of_map_to_list.
Qed.

Lemma AttachConn_in_sync p c w : in_sync w → in_sync (AttachConn p c w).2.
Proof.
  intros Hin. pose proof Hin as [Hu Sr St]. unfold AttachConn.
  destruct (sessions w !! p) as [s|] eqn:E.
  2:{ erewrite bind_ret_run; [|reflexivity]. erewrite bind_ret_run; [|reflexivity].
      rewrite !on_sess_missing by (try rewrite on_sess_missing; done).
      destruct (get_sess_missing p w E) as [why Hp]. by rewrite (bind_panic_run _ _ _ _ _ Hp). }
  erewrite bind_ret_run; [|reflexivity]. erewrite bind_ret_run; [|reflexivity].
  set (s' := upd_s_state StateActive 0 (upd_s_conn (Some c) s)).
  assert (alter (upd_s_state StateActive 0) p (alter (upd_s_conn (Some c)) p (sessions w))
    = <[p := s']> (sessions w)) as Es.
  { by rewrite (alter_Some _ _ p s E), (alter_Some _ _ p _ (lookup_insert_eq _ _ _)), insert_insert_eq. }
  erewrite bind_ret_run; [|apply get_sess_run; simpl; rewrite Es; apply lookup_insert_eq].
  cbn [snapshot].
  erewrite bind_ret_run; [|apply for_each_router]. erewrite bind_ret_run; [|apply for_each_router].
  apply frames_in_sync.
  { apply frames_bind; [apply frames_for_each; intros ?; apply frames_flush_entry|intros ?].
    unfold get_sess. frames_tac. }
  eapply (in_sync_row _ _ p s s' Hin E); [done|exact Es|..].
  - eapply row_attach; try done. intros r k. cbn [router upd_router upd_sessions rooms]. cbv beta.
    destruct (foldl_Subscribe (ref_of p s') (map_range (sub_topics (subs s'))).*1
      (foldl (λ rt r, JoinRoom r (ref_of p s') rt) (router w) (map_range (sub_rooms (subs s'))).*1)) as [-> _].
    destruct (foldl_JoinRoom (ref_of p s') (map_range (sub_rooms (subs s'))).*1 (router w)) as [_ ->].
    repeat case_decide; try done; exfalso; rewrite elem_of_range_keys in *; tauto.
  - eapply row_attach; try done. intros r k. cbn [router upd_router upd_sessions topics]. cbv beta.
    destruct (foldl_Subscribe (ref_of p s') (map_range (sub_topics (subs s'))).*1
      (foldl (λ rt r, JoinRoom r (ref_of p s') rt) (router w) (map_range (sub_rooms (subs s'))).*1)) as [_ ->].
    destruct (foldl_JoinRoom (ref_of p s') (map_range (sub_rooms (subs s'))).*1 (router w)) as [-> _].
    repeat case_decide; try done; exfalso; rewrite elem_of_range_keys in *; tauto.
Qed.

Lemma GetOrCreate_in_sync uid did a d b w :
  no_collision (OpGetOrCreate uid did a d b) w → in_sync w →
  in_sync (GetOrCreate sha256_hex16 uid did a d b w).2.
Proof.
  intros Hnc Hin. pose proof Hin as [Hu Sr St]. unfold GetOrCreate. mrun.
  destruct (member (userIndex (registry w)) uid did) as [ref|] eqn:Em; [done|].
  specialize (Hnc Em). cbn.
  assert (sessions w !! fresh (dom (sessions w)) = None) as Hf.
  { apply not_elem_of_dom, is_fresh. }
  split; cbn.
  - intros p p' s s'. rewrite !lookup_insert_Some.
    intros [[<- <-]|[_ Hp1]] [[<- <-]|[_ Hp2]] Eid; try done.
    + by destruct (Hnc _ _ Hp2).
    + by destruct (Hnc _ _ Hp1).
    + by eapply Hu.
  - by apply synced_new.
  - by apply synced_new.
Qed.

Lemma in_sync_ignore {A} (m : M (World TS) A) w :
  in_sync (m w).2 → in_sync ((m ≫= λ _, mret tt) w).2.
Proof. rewrite bind_run. by destruct (m w) as [[|] ?]. Qed.

(** Every operation keeps sessions and router in step. *)
Lemma exec_in_sync o w : no_collision o w → in_sync w → in_sync (exec o w).2.
Proof.
  intros Hnc Hin. destruct o; cbn [exec].
  - by apply in_sync_ignore, GetOrCreate_in_sync.
  - by apply in_sync_ignore, AttachConn_in_sync.
  - by apply DetachConn_in_sync.
  - by apply Close_in_sync.
  - by apply JoinRoom_in_sync.
  - by apply LeaveRoom_in_sync.
  - by apply Subscribe_in_sync.
  - by apply Unsubscribe_in_sync.
  - apply in_sync_ignore, frames_in_sync; [apply frames_Submit|done].
  - apply frames_in_sync; [apply frames_Ack|done].
  - apply frames_in_sync; [apply frames_handleTimeout|done].
  - apply in_sync_ignore, frames_in_sync; [apply frames_SubmitUpstream|done].
  - apply frames_in_sync; [auto with gw|done].
  - apply frames_in_sync; [unfold Activate, on_conn; auto with gw|done].
  - apply in_sync_ignore, frames_in_sync; [auto with gw|done].
  - apply frames_in_sync; [auto with gw|done].
  - apply frames_in_sync; [unfold tick; auto with gw|done].
Qed.

Lemma init_in_sync d acker timeout t : in_sync (init_world d acker timeout t).
Proof. split; [done|split; done|split; done]. Qed.

Lemma reachable_in_sync d acker timeout t w :
  rtc node_step (init_world d acker timeout t) w → in_sync w.
Proof.
  intros Hr. remember (init_world d acker timeout t) as w0 eqn:E.
  assert (in_sync w0) as H0' by (subst; apply init_in_sync). clear E.
  induction Hr as [|w0 w1 w2 [o w0' Hnc] _ IH]; [done|]. apply IH. by apply exec_in_sync.
Qed.
End node.
