(* ===== verification/SessionLife.v ===== *)
(** * The life of a session: attach, detach, close

    The claims about the whole life cycle: router and subscriptions agree in
    every reachable state of the node, closing a session forgets everything
    about it, and what a later attach does. *)

From stdpp Require Import base list gmap strings numbers pretty.
From S2P Require Import Prelude Timer Shard Message Codec Router World Connection.
From S2P Require Import Pool Session Demo SessionSpec Sync.

(** ** What [AttachConn] leaves alone *)
Section attach.
Context {TS : Type} `{Scheduler TS timeoutPayload unit} `{MapRange}.
Implicit Types w : World TS.

(** The parts of a session only [AttachConn], [DetachConn] and [Close] change. *)
Definition life (s : Session) := (s_conn s, s_state s, s_once s, subs s).
Definition same_life w w' : Prop := ∀ p, life <$> sessions w' !! p = life <$> sessions w !! p.

#[export] Instance same_life_preorder : PreOrder same_life.
Proof. split; [by intros w p|]. intros w1 w2 w3 E1 E2 p. by rewrite E2. Qed.

Lemma same_life_modify f : (∀ w, sessions (f w) = sessions w) → preserves same_life (modify f).
Proof. intros Hf. apply preserves_modify. intros w p. by rewrite Hf. Qed.
Lemma same_life_on_sess p f : (∀ s, life (f s) = life s) → preserves same_life (on_sess p f).
Proof.
  intros Hf. apply preserves_modify. intros w q. simpl. rewrite lookup_alter.
  case_decide; [subst|done]. destruct (sessions w !! q); simpl; by rewrite ?Hf.
Qed.
#[local] Hint Extern 2 (preserves same_life (on_sess _ _)) => apply same_life_on_sess; done : gw.
#[local] Hint Extern 2 (preserves same_life (modify _)) => apply same_life_modify; done : gw.

Lemma same_life_flush_entry p c s id : preserves (S:=World TS) same_life (flush_entry p c s id).
Proof.
  unfold flush_entry, Track, conn_Submit, enqueue, get_conn, get_msg, on_conn, on_msg, get_sess.
  preserves_tac.
Qed.
#[local] Hint Resolve same_life_flush_entry : gw.

Lemma AttachConn_life p c w s :
  sessions w !! p = Some s →
  (life <$> sessions (AttachConn p c w).2 !! p) = Some (Some c, StateActive, s_once s, subs s).
Proof.
  intros E. unfold AttachConn. erewrite bind_ret_run by reflexivity.
  erewrite bind_ret_run by reflexivity.
  match goal with |- context [(?m ?w0)] => assert (preserves same_life m) as Hm end.
  { unfold get_sess, on_router, snapshot. preserves_tac. }
  rewrite (Hm _ p). simpl. by rewrite !lookup_alter_eq, E.
Qed.

Lemma Close_again p w s : sessions w !! p = Some s → s_once s = true → sess_Close p w = (Ret tt, w).
Proof.
  intros Es Ho. unfold sess_Close. rewrite (bind_ret_run _ _ _ _ _ (get_sess_run p w s Es)).
  by rewrite Ho.
Qed.

(** A handshaking connection takes nothing. *)
Definition conns_kept (c : positive) (k : Connection) w w' : Prop :=
  conns w !! c = Some k → conns w' = conns w.
#[export] Instance conns_kept_preorder c k : PreOrder (conns_kept c k).
Proof.
  split; [by intros w|]. intros w1 w2 w3 E1 E2 Ek. rewrite E2; [by apply E1|]. by rewrite E1.
Qed.
Lemma conns_kept_modify c k f : (∀ w, conns (f w) = conns w) → preserves (conns_kept c k) (modify f).
Proof. intros Hf. apply preserves_modify. intros w _. apply Hf. Qed.
#[local] Hint Extern 2 (preserves (conns_kept _ _) (modify _)) => apply conns_kept_modify; done : gw.

Lemma conns_kept_Submit c k m :
  conn_IsActive k = false → preserves (S:=World TS) (conns_kept c k) (conn_Submit c m).
Proof.
  intros Hk w Ek. rewrite (conn_Submit_run c m w k Ek). simpl. unfold submitted. rewrite Hk.
  by rewrite insert_id.
Qed.

Lemma AttachConn_conns p c k w :
  conns w !! c = Some k → conn_IsActive k = false → conns (AttachConn p c w).2 = conns w.
Proof.
  intros Ek Hk. pose proof (λ m, conns_kept_Submit c k m Hk) as Hs.
  assert (preserves (conns_kept c k) (AttachConn p c)) as Hp; [|by apply Hp].
  unfold AttachConn, flush_entry, Track, get_msg, get_sess, on_sess, on_msg, on_router, snapshot.
  preserves_tac.
Qed.
End attach.

(** ** Closing *)
Section close.
Context {TS : Type} `{SchedulerLaws TS timeoutPayload unit} `{MapRange}.
Implicit Types w : World TS.

Definition cancel_ids (sid : string) (ids : list string) : M (World TS) unit :=
  for_each (λ id, modify (upd_timer (λ t, (Cancel (ackKey sid id) t).2))) ids.

Lemma cancel_ids_spec sid ids w : sched_ok (timer w) →
  ∃ t', cancel_ids sid ids w = (Ret tt, upd_timer (λ _, t') w) ∧ sched_ok t' ∧
    ∀ key, pending t' key = if decide (key ∈ ackKey sid <$> ids) then None else pending (timer w) key.
Proof.
  revert w. induction ids as [|id ids IH]; intros w Hok.
  { exists (timer w). split; [by destruct w|]. done. }
  destruct (law_cancel (ackKey sid id) (timer w) Hok) as (t1 & E & Hok1 & Hp1).
  destruct (IH (upd_timer (λ _, t1) w) Hok1) as (t2 & E2 & Hok2 & Hp2).
  exists t2. split.
  - unfold cancel_ids in *. cbn [for_each]. erewrite bind_ret_run by reflexivity. 
    unfold upd_timer at 2. rewrite E. exact E2.
  - split; [done|]. intros key. rewrite Hp2. cbn [timer upd_timer fmap list_fmap].
    rewrite Hp1. assert (ackKey sid id ≠ "") by done.
    repeat case_decide; set_solver.
Qed.

Lemma CancelAll_run sid w : sched_ok (timer w) →
  ∃ t', CancelAll sid w = (Ret tt, upd_timer (λ _, t') (upd_scanner (upd_sessAcks (delete sid)) w)) ∧
    sched_ok t' ∧
    ∀ mid, member (sessAcks (scanner w)) sid mid = Some tt → pending t' (ackKey sid mid) = None.
Proof.
  intros Hok. unfold CancelAll.
  erewrite (bind_ret_run (gets _)) by reflexivity. erewrite (bind_ret_run (modify _)) by reflexivity.
  set (ids := (map_range (default ∅ (sessAcks (scanner w) !! sid))).*1).
  destruct (cancel_ids_spec sid ids (upd_scanner (upd_sessAcks (delete sid)) w) Hok)
    as (t' & E & Hok' & Hp). exists t'. split; [exact E|]. split; [done|].
  intros mid Hm. rewrite Hp. rewrite decide_True; [done|]. apply list_elem_of_fmap_2.
  subst ids. rewrite elem_of_range_keys. unfold member in Hm.
  destruct (sessAcks (scanner w) !! sid) as [v|]; [|done]. simpl in *. eauto.
Qed.
End close.

Lemma fresh_insert_ne {A} (m : gmap positive A) p a : p ≠ fresh (dom (<[p := a]> m)).
Proof.
  intros E. apply (is_fresh (dom (<[p := a]> m))). rewrite <-E. apply elem_of_dom.
  rewrite lookup_insert_eq. eauto.
Qed.

(** * Claims *)

(** Router and sessions agree.  In every state the node reaches from its
    start by any sequence of session, registry, router, scanner and connection
    operations (panicking ones included), provided no two sessions get the same
    ID: the router lists an open session under a room or topic exactly if the
    session is attached to a connection and subscribed to it, and it lists
    nothing but sessions that are subscribed.  Subscriptions therefore survive a
    disconnect and are in force again as soon as a new connection is attached. *)
Theorem router_tracks_subscriptions {TS : Type} `{Scheduler TS timeoutPayload unit} `{MapRange}
    (sha : string → string) (d : Deps) (acker : bool) (timeout : Z) (t : TS) (w : World TS) :
  rtc (node_step sha) (init_world d acker timeout t) w →
  (∀ p s r, sessions w !! p = Some s → s_once s = false →
     (member (rooms (router w)) r (sessionID s) = Some (ref_of p s) ↔
        is_Some (s_conn s) ∧ sub_rooms (subs s) !! r = Some tt) ∧
     (member (topics (router w)) r (sessionID s) = Some (ref_of p s) ↔
        is_Some (s_conn s) ∧ sub_topics (subs s) !! r = Some tt)) ∧
  (∀ r k ref, member (rooms (router w)) r k = Some ref →
     ∃ s, sessions w !! ref_ptr ref = Some s ∧ sessionID s = k ∧ sub_rooms (subs s) !! r = Some tt) ∧
  (∀ r k ref, member (topics (router w)) r k = Some ref →
     ∃ s, sessions w !! ref_ptr ref = Some s ∧ sessionID s = k ∧ sub_topics (subs s) !! r = Some tt).
Proof.
  intros Hr. destruct (reachable_in_sync sha d acker timeout t w Hr) as [Hu Sr St]. split_and!.
  - intros p s r Es Ho. split; (split; [intros Hm|intros [Hc Hs]]).
    + by destruct (synced_own _ _ _ _ _ _ _ Hu Sr Es Hm) as (_ & ? & ?).
    + by apply (sync_complete _ _ _ Sr).
    + by destruct (synced_own _ _ _ _ _ _ _ Hu St Es Hm) as (_ & ? & ?).
    + by apply (sync_complete _ _ _ St).
  - intros r k ref Hm. destruct (sync_sound _ _ _ Sr _ _ _ Hm) as (s & ? & _ & -> & _ & ?). eauto.
  - intros r k ref Hm. destruct (sync_sound _ _ _ St _ _ _ Hm) as (s & ? & _ & -> & _ & ?). eauto.
Qed.

(** Run a list of operations. *)
Definition run_ops {TS : Type} `{Scheduler TS timeoutPayload unit} `{MapRange} (sha : string → string)
  (ops : list node_op) (w : World TS) : World TS := foldl (λ w o, (exec sha o w).2) w ops.

Lemma run_ops_reachable {TS : Type} `{Scheduler TS timeoutPayload unit} `{MapRange} (sha : string → string)
    (ops : list node_op) (w : World TS) :
  Forall (λ o, ∀ w : World TS, no_collision sha o w) ops → rtc (node_step sha) w (run_ops sha ops w).
Proof.
  intros Hall. revert w. induction Hall as [|o ops Ho _ IH]; intros w; [apply rtc_refl|].
  eapply rtc_l; [by apply do_op|apply IH].
Qed.

(** A session that joins a room, is detached and attached again. *)
Definition life_ops : list node_op :=
  [OpNewConnection 1 demo_conn; OpAttachConn 1 1; OpJoinRoom 1 "r1"; OpDetachConn 1;
   OpSubscribe 1 "t1"; OpNewConnection 2 demo_conn; OpAttachConn 1 2].
Definition life_start : World demo_TS :=
  (exec (λ x, x) (OpGetOrCreate "u1" "d1" "app" "ios" "im") (init_world demo_deps true 0 demo_timer)).2.
Definition life_world : World demo_TS := run_ops (λ x, x) life_ops life_start.

Lemma life_reachable : rtc (node_step (λ x, x)) (init_world demo_deps true 0 demo_timer) life_world.
Proof.
  apply (rtc_l _ _ life_start).
  - apply do_op. intros _ p s Hs. simpl in Hs. by rewrite lookup_empty in Hs.
  - apply run_ops_reachable. repeat constructor.
Qed.

Lemma router_tracks_subscriptions_witness :
  ∃ s, sessions life_world !! 1%positive = Some s ∧ sessionID s = "u1:d1" ∧
    member (rooms (router life_world)) "r1" "u1:d1" = Some (ref_of 1 s) ∧
    member (topics (router life_world)) "t1" "u1:d1" = Some (ref_of 1 s).
Proof.
  destruct (router_tracks_subscriptions (λ x, x) demo_deps true 0 demo_timer life_world life_reachable)
    as [Hown _].
  destruct (sessions life_world !! 1%positive) as [s|] eqn:E; [|vm_compute in E; discriminate].
  assert (s_once s = false ∧ sessionID s = "u1:d1" ∧ is_Some (s_conn s) ∧
    sub_rooms (subs s) !! "r1" = Some tt ∧ sub_topics (subs s) !! "t1" = Some tt)
    as (Ho & Hid & Hc & H1 & H2).
  { vm_compute in E. injection E as <-. split_and!; try reflexivity. by eexists. }
  exists s. split_and!; [reflexivity|exact Hid|..]; rewrite <-Hid.
  - apply (Hown 1%positive s "r1" E Ho). split; assumption.
  - apply (Hown 1%positive s "t1" E Ho). split; assumption.
Defined.

(** C24.  Closing a session forgets it.  For a session with an ACK scanner that was
    not closed before: its state is closed, nothing is pending, neither its user
    nor its device leads to it, the scanner has no record of it and the timer of
    every message the scanner knew is cancelled.  No room and no topic leads to
    it either if it was attached to a connection; without one [Close] skips that
    step, and the rooms and topics of the router stay exactly as they were.  No
    connection changes ([Connection.Close] has an empty body), and a second
    [Close] does nothing. *)
Theorem close_forgets_session {TS : Type} `{SchedulerLaws TS timeoutPayload unit} `{MapRange}
    (w : World TS) p s :
  sessions w !! p = Some s → s_once s = false → d_Acker (deps s) = true → sched_ok (timer w) →
  ∃ w' s', sess_Close p w = (Ret tt, w') ∧ sessions w' !! p = Some s' ∧
    s_state s' = StateClosed ∧ pendingAcks s' = ∅ ∧
    member (userConns (router w')) (userID s) (deviceID s) = None ∧
    deviceConn (router w') !! deviceID s = None ∧
    match s_conn s with
    | Some _ => ∀ r, member (rooms (router w')) r (sessionID s) = None ∧
                     member (topics (router w')) r (sessionID s) = None
    | None => rooms (router w') = rooms (router w) ∧ topics (router w') = topics (router w)
    end ∧ conns w' = conns w ∧
    sessAcks (scanner w') !! sessionID s = None ∧
    (∀ mid, member (sessAcks (scanner w)) (sessionID s) mid = Some tt →
       ack_timer w' (sessionID s) mid = None) ∧
    sess_Close p w' = (Ret tt, w').
Proof.
  intros Es Ho Ha Hok. unfold sess_Close at 1.
  rewrite (bind_ret_run _ _ _ _ _ (get_sess_run p w s Es)), Ho, Ha.
  do 2 (erewrite bind_ret_run by reflexivity).
  set (w0 := upd_sessions _ (upd_sessions _ w)).
  set (w2 := match s_conn s with Some _ => upd_router (UnregisterAll (ref_of p s)) w0 | None => w0 end).
  erewrite (bind_ret_run _ _ _ w2 tt) by (subst w2; by destruct (s_conn s)).
  erewrite bind_ret_run by reflexivity. cbn [when].
  set (w1 := upd_router (UnregisterSession (userID s) (deviceID s)) w2).
  assert (timer w1 = timer w ∧ scanner w1 = scanner w ∧ conns w1 = conns w ∧ sessions w1 = sessions w0)
    as (Ht1 & Hsc1 & Hc1 & Hs1) by (subst w1 w2; by destruct (s_conn s)).
  destruct (CancelAll_run (sessionID s) w1 ltac:(by rewrite Ht1)) as (t' & E & _ & Hp).
  rewrite (bind_ret_run _ _ _ _ _ E).
  assert (sessions w1 !! p = Some (upd_s_state StateClosed (suspendedAt s) (upd_s_once s))) as E1.
  { rewrite Hs1. cbn. by rewrite !lookup_alter_eq, Es. }
  eexists _, (upd_pendingAcks ∅ (upd_s_state StateClosed (suspendedAt s) (upd_s_once s))).
  split; [reflexivity|].
  assert (∀ w3 : World TS, sessions w3 = alter (upd_pendingAcks ∅) p (sessions w1) →
    sessions w3 !! p = Some (upd_pendingAcks ∅ (upd_s_state StateClosed (suspendedAt s) (upd_s_once s))))
    as Hs by (intros w3 ->; by rewrite lookup_alter_eq, E1).
  split; [apply Hs; reflexivity|]. split; [done|]. split; [done|].
  split_and!; simpl.
  - rewrite member_remove. by rewrite decide_True.
  - apply lookup_delete_eq.
  - subst w2. destruct (s_conn s) as [c|]; [|done].
    intros r. cbn. rewrite !member_purge, !decide_True by done. split; reflexivity.
  - exact Hc1.
  - apply lookup_delete_eq.
  - rewrite <-Hsc1. exact Hp.
  - eapply Close_again; [apply Hs; reflexivity|reflexivity].
Qed.

Definition tracked_world : World demo_TS := (Submit 1 1 demo_world).2.

Lemma close_forgets_session_witness :
  ∃ w' s', sess_Close 1 tracked_world = (Ret tt, w') ∧ sessions w' !! 1%positive = Some s' ∧
    s_state s' = StateClosed ∧ is_Some (ack_timer tracked_world "s1" "message-1") ∧
    ack_timer w' "s1" "message-1" = None.
Proof.
  destruct (sessions tracked_world !! 1%positive) as [s|] eqn:E; [|vm_compute in E; discriminate].
  assert (s_once s = false ∧ s_conn s = Some 1%positive ∧ d_Acker (deps s) = true ∧ sessionID s = "s1")
    as (Ho & Hc & Ha & Hid) by (vm_compute in E; injection E as <-; split_and!; reflexivity).
  assert (sched_ok (timer tracked_world)) as Hok.
  { unfold tracked_world. rewrite (Submit_delivered 1 1 1 demo_world demo_session demo_conn demo_msg) by reflexivity.
    apply (tracked_timer _ _ (upd_sessions _ _)). apply demo_timer_ok. }
  destruct (close_forgets_session tracked_world 1 s E Ho Ha Hok)
    as (w' & s' & E' & Es' & Hst & _ & _ & _ & _ & _ & _ & Ht & _).
  exists w', s'. split_and!; try assumption.
  - vm_compute. by eexists.
  - rewrite Hid in Ht. apply Ht. vm_compute. reflexivity.
Defined.

(** Closing is not final: a session that was closed becomes active again
    when a connection is attached to it, with all its subscriptions, and from
    then on [Close] no longer has any effect. *)
Theorem closed_session_revives {TS : Type} `{Scheduler TS timeoutPayload unit} `{MapRange}
    (w : World TS) p c s :
  sessions w !! p = Some s → s_once s = true →
  ∃ w' s', (AttachConn p c w).2 = w' ∧ sessions w' !! p = Some s' ∧ s_state s' = StateActive ∧
    s_conn s' = Some c ∧ subs s' = subs s ∧ sess_Close p w' = (Ret tt, w').
Proof.
  intros Es Ho. pose proof (AttachConn_life p c w s Es) as Hl. exists (AttachConn p c w).2.
  destruct (sessions (AttachConn p c w).2 !! p) as [s'|] eqn:E; [|done].
  apply (inj Some) in Hl. injection Hl as Hc Hst Ho' Hsub.
  exists s'. split_and!; try done. eapply Close_again; [exact E|congruence].
Qed.

Lemma closed_session_revives_witness :
  let w := (sess_Close 1 demo_world).2 in
  ∃ w' s', (AttachConn 1 1 w).2 = w' ∧ sessions w' !! 1%positive = Some s' ∧ s_state s' = StateActive ∧
    s_conn s' = Some 1%positive ∧ subs s' = mkSubs {[ "r1" := tt ]} ∅ ∧ sess_Close 1 w' = (Ret tt, w').
Proof.
  intros w. destruct (sessions w !! 1%positive) as [s|] eqn:E; [|vm_compute in E; discriminate].
  assert (s_once s = true ∧ subs s = mkSubs {[ "r1" := tt ]} ∅) as [Ho Hs].
  { vm_compute in E. injection E as <-. split; reflexivity. }
  rewrite <-Hs. apply (closed_session_revives w 1 1 s E Ho).
Defined.

(** The unacknowledged messages of a session are not re-sent to a connection
    that is still in its handshake, which is how the connection factory attaches
    it: every submission is refused and no connection's queue changes. *)
Theorem attach_while_handshaking_sends_nothing {TS : Type} `{Scheduler TS timeoutPayload unit} `{MapRange}
    (w : World TS) p c k :
  conns w !! c = Some k → c_state k = ConnHandshaking → conns (AttachConn p c w).2 = conns w.
Proof.
  intros Ek Hk. apply (AttachConn_conns p c k w Ek). unfold conn_IsActive.
  apply bool_decide_eq_false. by rewrite Hk.
Qed.

Lemma attach_while_handshaking_sends_nothing_witness :
  let w := demo demo_waiting (newConnection 0 "c1" "u1" "app" "d1" "ios" "im") demo_msg in
  conns (AttachConn 1 1 w).2 = conns w.
Proof.
  exact (attach_while_handshaking_sends_nothing
    (demo demo_waiting (newConnection 0 "c1" "u1" "app" "d1" "ios" "im") demo_msg) 1 1
    (newConnection 0 "c1" "u1" "app" "d1" "ios" "im") eq_refl eq_refl).
Defined.

(** [GetOrCreate] finds what it created: the second call for the same user
    and device returns the same session, as not new, and changes nothing. *)
Theorem get_or_create_stable {TS : Type} (sha : string → string) uid did a d b a' d' b' (w : World TS) :
  ∃ ref isNew w', GetOrCreate sha uid did a d b w = (Ret (ref, isNew), w') ∧
    isNew = bool_decide (member (userIndex (registry w)) uid did = None) ∧
    GetOrCreate sha uid did a' d' b' w' = (Ret (ref, false), w').
Proof.
  unfold GetOrCreate. mrun. destruct (member (userIndex (registry w)) uid did) as [ref|] eqn:E.
  - exists ref, false, w. rewrite E. done.
  - eexists _, true, _. split; [reflexivity|]. split; [done|]. cbn. rewrite member_add.
    by rewrite decide_True.
Qed.

(** Two users can share a session ID: user "a:b" on device "c" and user "a"
    on device "b:c" get the same one, and creating the second session replaces
    the first in the registry, so that the ACK timeouts of the first user's
    messages are looked up in the second user's session. *)
Theorem session_id_ambiguous {TS : Type} (sha : string → string) a b c x y z (w : World TS) :
  member (userIndex (registry w)) (a +:+ ":" +:+ b) c = None →
  member (userIndex (registry w)) a (b +:+ ":" +:+ c) = None →
  ∃ r1 r2 w1 w2, GetOrCreate sha (a +:+ ":" +:+ b) c x y z w = (Ret (r1, true), w1) ∧
    GetOrCreate sha a (b +:+ ":" +:+ c) x y z w1 = (Ret (r2, true), w2) ∧
    ref_ptr r1 ≠ ref_ptr r2 ∧ ref_sid r1 = ref_sid r2 ∧
    sr_sessions (registry w2) !! ref_sid r1 = Some r2.
Proof.
  intros E1 E2.
  assert (a ≠ a +:+ ":" +:+ b) as Hne by (clear; induction a as [|x a IH]; [done|]; intros [= E]; done).
  assert (computeSessionID sha (a +:+ ":" +:+ b) c = computeSessionID sha a (b +:+ ":" +:+ c)) as Esid.
  { unfold computeSessionID. f_equal. by rewrite !append_assoc. }
  unfold GetOrCreate. mrun. rewrite E1. cbn.
  eexists _, _, _, _. split; [reflexivity|]. cbn. rewrite member_add, decide_False by naive_solver.
  rewrite E2. cbn. split; [reflexivity|]. cbn. rewrite Esid. split_and!; [|done|apply lookup_insert_eq].
  apply fresh_insert_ne.
Qed.

Lemma session_id_ambiguous_witness :
  ∃ r1 r2 w1 w2, GetOrCreate (λ x, x) "a:b" "c" "app" "ios" "im" demo_world = (Ret (r1, true), w1) ∧
    GetOrCreate (λ x, x) "a" "b:c" "app" "ios" "im" w1 = (Ret (r2, true), w2) ∧
    ref_ptr r1 ≠ ref_ptr r2 ∧ ref_sid r1 = ref_sid r2 ∧
    sr_sessions (registry w2) !! ref_sid r1 = Some r2.
Proof.
  exact (session_id_ambiguous (λ x, x) "a" "b" "c" "app" "ios" "im" demo_world eq_refl eq_refl).
Defined.
