(* ===== verification/ScannerConc.v ===== *)
(** * Concurrent use of the ACK scanner ([delivery/ack/scanner.go])

    The scanner keeps its records under [mu] and its timers with the scheduler,
    and no lock spans both.  The programs take [Track], [Done] and [CancelAll]
    in the steps of the code: a section under [mu], a call of the scheduler. *)

From stdpp Require Import base list gmap strings numbers relations.
From S2P Require Import Prelude Threads Timer Shard Message Codec Router World Connection Pool Session SessionSpec SessionLife Demo.
Local Open Scope gw_scope.

Section programs.
Context {TS : Type} `{Scheduler TS timeoutPayload unit} `{MapRange}.
Abbreviation MW := (M (World TS)).
Abbreviation prg := (prog (World TS)).
Implicit Types (w : World TS) (m : positive) (sid id : string).

(** [s.mu.Lock(); s.sessAcks[sessID][msgID] = struct{}{}; s.mu.Unlock()] *)
Definition add_record sid id : MW unit := modify (upd_scanner (upd_sessAcks (index_add sid id tt))).
Definition drop_record sid id : MW unit := modify (upd_scanner (upd_sessAcks (index_remove sid id))).
(** [s.timer.Schedule(timer.Task{...})] *)
Definition schedule_ack sid id : MW unit := modify (λ w, upd_timer (λ t,
  (Schedule (now w) (ack_task (now w + ackTimeout (scanner w)) sid id) t).2) w).
Definition cancel_ack sid id : MW unit := modify (upd_timer (λ t, (Cancel (ackKey sid id) t).2)).
(** [msgs := s.sessAcks[sessID]; delete(s.sessAcks, sessID)] *)
Definition take_records sid : MW (list string) :=
  ids ← gets (λ w, default ∅ (sessAcks (scanner w) !! sid));
  modify (upd_scanner (upd_sessAcks (delete sid))) ≫= λ _, mret (map_range ids).*1.

Definition track_timer sid id : prg unit := act (add_record sid id) ~> act (schedule_ack sid id).
Definition Track_prog m (sess : SessionRef) : prg unit :=
  msg <~ act (get_msg m) ;;
  if at_least_once msg then track_timer (ref_sid sess) (m_MsgId msg) else Finish tt.
Definition Done_prog id sid : prg unit := act (cancel_ack sid id) ~> act (drop_record sid id).
Definition CancelAll_prog sid : prg unit :=
  ids <~ act (take_records sid) ;; each (λ id, act (cancel_ack sid id)) ids.

(** Undisturbed, they are the operations of [Session.v]. *)
Lemma Track_prog_alone m ref w : alone (Track_prog m ref) w = Track m ref w.
Proof.
  unfold Track_prog, Track. rewrite alone_act. apply bind_same; [done|]. intros msg w1 _.
  destruct (at_least_once msg); [|done]. unfold track_timer. by rewrite alone_act.
Qed.
Lemma Done_prog_alone id sid w : alone (Done_prog id sid) w = Done id sid w.
Proof. unfold Done_prog. by rewrite alone_act. Qed.
Lemma CancelAll_prog_alone sid w : alone (CancelAll_prog sid) w = CancelAll sid w.
Proof.
  unfold CancelAll_prog. rewrite alone_act.
  transitivity ((take_records sid ≫= λ ids, for_each (cancel_ack sid) ids) w); [|done].
  apply bind_same; [done|]. intros ids w1 _. apply (alone_each (λ _, True)); [|done|done].
  intros id w2 _. apply alone_only.
Qed.
End programs.

(** A [CancelAll] can miss the timer of a message.  [Track] writes its record
    first and sets the timer later, without a lock across both.  When the
    session is closed in between, [CancelAll] finds the record, cancels a timer
    that is not set yet, and forgets the record; the timer is set afterwards and
    nothing can find it any more - while after either order of the two atomic
    operations a timer that is set has its record. *)
Theorem track_cancel_race {TS : Type} `{SchedulerLaws TS timeoutPayload unit} `{MapRange}
    (w : World TS) (m : positive) (ref : SessionRef) (msg : Message) :
  msgs w !! m = Some msg → at_least_once msg = true → sched_ok (timer w) →
  let sid := ref_sid ref in
  let watched w1 := is_Some (ack_timer w1 sid (m_MsgId msg)) →
    member (sessAcks (scanner w1)) sid (m_MsgId msg) = Some tt in
  (∃ w', rtc pool_step ([Track_prog m ref; CancelAll_prog sid], w) ([Finish tt; Finish tt], w') ∧
     sessAcks (scanner w') !! sid = None ∧ is_Some (ack_timer w' sid (m_MsgId msg)) ∧ ¬ watched w') ∧
  watched (CancelAll sid (Track m ref w).2).2 ∧ watched (Track m ref (CancelAll sid w).2).2.
Proof.
  intros Em Hq Hok sid watched. set (id := m_MsgId msg).
  assert (∀ w, sched_ok (timer w) → is_Some (ack_timer (schedule_ack sid id w).2 sid id)) as Hset.
  { intros w1 Hok1. unfold ack_timer, schedule_ack. cbn.
    destruct (law_schedule (now w1) (ack_task (now w1 + ackTimeout (scanner w1)) sid id) tt (timer w1) Hok1)
      as (t' & E & _ & Hp); [done|done|]. rewrite E. cbn. rewrite Hp, decide_True by done. by eexists. }
  split; [|split].
  - set (w1 := (add_record sid id w).2). destruct (CancelAll_run sid w1 Hok) as (t' & Ec & Hok' & _).
    set (w2 := upd_timer (λ _, t') (upd_scanner (upd_sessAcks (delete sid)) w1)) in Ec.
    exists (schedule_ack sid id w2).2.
    assert (sessAcks (scanner (schedule_ack sid id w2).2) !! sid = None) as Hnone by apply lookup_delete_eq.
    split_and!; [|done|by apply Hset|].
    + eapply rtc_l; [eapply (pool_act 0); [reflexivity|apply act_step, (get_msg_run _ _ _ Em)]|]. rewrite Hq.
      eapply rtc_l; [eapply (pool_act 0); [reflexivity|by apply act_step]|].
      etrans; [eapply (pool_alone _ _ 1); [reflexivity|by rewrite CancelAll_prog_alone]|].
      eapply rtc_l; [eapply (pool_act 0); [reflexivity|by apply act_last_step]|]. done.
    + intros Hw. specialize (Hw (Hset w2 Hok')). unfold member in Hw. by rewrite Hnone in Hw.
  - rewrite (Track_run _ _ _ _ Em), Hq. cbn [snd]. fold id. destruct (tracked_timer ref id w Hok) as [Hok1 _].
    destruct (CancelAll_run sid (tracked ref id w) Hok1) as (t' & -> & _ & Hgone). intros [t Ht].
    unfold ack_timer in Ht. cbn in Ht. rewrite Hgone in Ht; [done|]. cbn. by rewrite member_add, decide_True.
  - destruct (CancelAll_run sid w Hok) as (t' & -> & _ & _). cbn [snd]. erewrite Track_run by exact Em.
    rewrite Hq. intros _. cbn. by rewrite member_add, decide_True.
Qed.

Lemma track_cancel_race_witness : ∃ w',
  rtc pool_step ([Track_prog 1 demo_ref; CancelAll_prog "s1"], demo_world) ([Finish tt; Finish tt], w') ∧
  sessAcks (scanner w') !! "s1" = None ∧ is_Some (ack_timer w' "s1" "message-1").
Proof.
  destruct (track_cancel_race demo_world 1 demo_ref demo_msg eq_refl eq_refl demo_timer_ok) as ((w' & Hs & Hn & Ht & _) & _).
  exists w'. by split_and!.
Defined.
