(* ===== verification/SessionConc.v ===== *)
(** * Concurrent use of a session ([session/session.go])

    The workers submit messages to a session while its connection breaks, the
    client comes back, joins rooms and acknowledges.  The programs below take
    the methods access by access, in the order of the code: the fields under
    [connMu], the atomic state, the [sync.Map] of pending messages, the steps of
    the connection and of the scanner, and the calls of the router, which holds
    its lock throughout. *)

From stdpp Require Import base list gmap strings numbers relations.
From S2P Require Import Prelude Threads Timer Shard Message Codec Router RouterSpec World Connection Pool Session Demo ConnConc SessionSpec ScannerConc Sync SessionLife.
Local Open Scope gw_scope.

Section programs.
Context {TS : Type} `{SchedulerLaws TS timeoutPayload unit} `{MapRange}.
Abbreviation MW := (M (World TS)).
Abbreviation prg := (prog (World TS)).
Implicit Types (w : World TS) (p c m : positive).

(** [s.connMu.RLock(); c := s.conn; s.connMu.RUnlock()], with the fields of the
    session that never change. *)
Definition load_conn p : MW (option positive * SessionRef) :=
  s ← get_sess p; mret (s_conn s, ref_of p s).
Definition store_conn p (o : option positive) : MW (option positive) :=
  s ← get_sess p; on_sess p (upd_s_conn o) ≫= λ _, mret (s_conn s).
(** [s.state.Store(v)], [s.suspendedAt.Store(t)] *)
Definition store_state p (v : SessState) : MW unit := on_sess p (λ s, upd_s_state v (suspendedAt s) s).
Definition store_suspendedAt p (t : MW Z) : MW unit := v ← t; on_sess p (λ s, upd_s_state (s_state s) v s).

(** ** Rooms and topics *)
Definition withConn_prog p (fn : SessionRef → MW unit) : prg unit :=
  cr <~ act (load_conn p) ;;
  match cr.1 with Some _ => act (fn cr.2) | None => Finish tt end.
Definition JoinRoom_prog p r : prg unit :=
  act (on_subs p (addRoom r)) ~> withConn_prog p (λ ref, on_router (JoinRoom r ref)).
Definition LeaveRoom_prog p r : prg unit :=
  act (on_subs p (removeRoom r)) ~> withConn_prog p (λ ref, on_router (LeaveRoom r ref)).
Definition Subscribe_prog p t : prg unit :=
  act (on_subs p (addTopic t)) ~> withConn_prog p (λ ref, on_router (Subscribe t ref)).
Definition Unsubscribe_prog p t : prg unit :=
  act (on_subs p (removeTopic t)) ~> withConn_prog p (λ ref, on_router (Unsubscribe t ref)).

(** ** The connection breaks *)
Definition detach_mark p : prg unit :=
  act (store_state p StateSuspended) ~>
  act (store_suspendedAt p (gets (λ w, UnixMilli (now w)))).
Definition detach_router p (old : option positive) : prg unit :=
  match old with
  | Some _ => act (s ← get_sess p; on_router (UnregisterAll (ref_of p s))) ~> detach_mark p
  | None => detach_mark p
  end.
Definition DetachConn_prog p : prg unit :=
  old <~ act (store_conn p None) ;; detach_router p old.

(** ** The client comes back *)
(** The callback of [Range] loads an entry and bumps it, writes the retry header,
    submits and sets the timer again. *)
Definition bump_entry p id : MW (option (pendingEntry * Session)) :=
  s ← get_sess p;
  t ← gets now;
  match pendingAcks s !! id with
  | None => mret None
  | Some e =>
      on_sess p (λ s, upd_pendingAcks (<[id := bump t e]> (pendingAcks s)) s) ≫= λ _,
      mret (Some (bump t e, s))
  end.
Definition flush_prog p c id : prg unit :=
  o <~ act (bump_entry p id) ;;
  match o with
  | None => Finish tt
  | Some (e', s) =>
      act (on_msg (pe_msg e') (ensureRetryHeader (retryCount e'))) ~>
      submit_prog c (pe_msg e') ~>
      if d_Acker (deps s) then Track_prog (pe_msg e') (ref_of p s) else Finish tt
  end.
Definition attach_flush p c : prg Z :=
  keys <~ act (s ← get_sess p; mret (map_range (pendingAcks s)).*1) ;;
  each (flush_prog p c) keys ~>
  act (s ← get_sess p; mret (lastDeliveredSeq s)).
Definition attach_subscribe p c : prg Z :=
  sn <~ act (s ← get_sess p; mret (snapshot (subs s), ref_of p s)) ;;
  each (λ r, act (on_router (JoinRoom r sn.2))) sn.1.1 ~>
  each (λ t, act (on_router (Subscribe t sn.2))) sn.1.2 ~>
  attach_flush p c.
Definition AttachConn_prog p c : prg Z :=
  act (store_conn p (Some c)) ~>
  act (store_state p StateActive) ~>
  act (store_suspendedAt p (mret 0%Z)) ~>
  attach_subscribe p c.

(** ** A message for the client, and its acknowledgement *)
Definition undelivered p m : prg bool := act (handleUndelivered p m) ~> Finish false.
Definition submit_track p m : prg bool :=
  tr <~ act (s ← get_sess p; msg ← get_msg m; t ← gets now;
             let b := d_Acker (deps s) && at_least_once msg in
             when b (on_sess p (λ s, upd_pendingAcks (<[m_MsgId msg := mkEntry m 0 t t]> (pendingAcks s)) s)) ≫= λ _,
             mret (b, ref_of p s)) ;;
  (if tr.1 : bool then Track_prog m tr.2 else Finish tt) ~> Finish true.
Definition submit_delivered p m : prg bool :=
  act (msg ← get_msg m; on_sess p (upd_lastDeliveredSeq (m_SeqId msg))) ~> submit_track p m.
Definition submit_to p c m : prg bool :=
  a <~ act (load_active c) ;;
  if a : bool then ok <~ submit_prog c m ;; if ok : bool then submit_delivered p m else undelivered p m
  else undelivered p m.
Definition Submit_prog p m : prg bool :=
  cr <~ act (load_conn p) ;;
  match cr.1 with Some c => submit_to p c m | None => undelivered p m end.

Definition Ack_prog p id : prg unit :=
  d <~ act (s ← get_sess p;
            on_sess p (λ s, upd_pendingAcks (delete id (pendingAcks s)) s) ≫= λ _,
            mret (d_Acker (deps s), sessionID s)) ;;
  if d.1 : bool then Done_prog id d.2 else Finish tt.

(** ** Undisturbed, each is the operation of [Session.v] *)
Lemma get_sess_none p w : sessions w !! p = None →
  get_sess (TS:=TS) p w = (Panic "invalid memory address or nil pointer dereference", w).
Proof. intros Es. unfold get_sess. mrun. by rewrite Es. Qed.

Lemma alone_on {A} p (f : Session → Session) (t : prg A) w :
  alone (act (on_sess p f) ~> t) w = alone t (upd_sessions (alter f p) w).
Proof. done. Qed.

Lemma withConn_alone p fn w : alone (withConn_prog p fn) w = withConn p fn w.
Proof.
  unfold withConn_prog, withConn, load_conn. rewrite alone_act, !bind_run.
  unfold get_sess. mrun. destruct (sessions w !! p) as [s|]; cbn; [|done].
  destruct (s_conn s); cbn; [|done]. unfold atomically. by destruct (fn (ref_of p s) w) as [[[]|] ?].
Qed.
Lemma JoinRoom_prog_alone p r w : alone (JoinRoom_prog p r) w = sess_JoinRoom p r w.
Proof. unfold JoinRoom_prog. rewrite alone_act. apply bind_same; [done|]. intros [] w' _. apply withConn_alone. Qed.
Lemma LeaveRoom_prog_alone p r w : alone (LeaveRoom_prog p r) w = sess_LeaveRoom p r w.
Proof. unfold LeaveRoom_prog. rewrite alone_act. apply bind_same; [done|]. intros [] w' _. apply withConn_alone. Qed.
Lemma Subscribe_prog_alone p r w : alone (Subscribe_prog p r) w = sess_Subscribe p r w.
Proof. unfold Subscribe_prog. rewrite alone_act. apply bind_same; [done|]. intros [] w' _. apply withConn_alone. Qed.
Lemma Unsubscribe_prog_alone p r w : alone (Unsubscribe_prog p r) w = sess_Unsubscribe p r w.
Proof. unfold Unsubscribe_prog. rewrite alone_act. apply bind_same; [done|]. intros [] w' _. apply withConn_alone. Qed.

Lemma Ack_prog_alone p id w : alone (Ack_prog p id) w = Ack p id w.
Proof.
  unfold Ack_prog, Ack. rewrite alone_act, !bind_run. unfold get_sess, on_sess. mrun.
  destruct (sessions w !! p) as [s|]; cbn -[Done_prog]; [|done].
  destruct (d_Acker (deps s)); [|done]. by rewrite Done_prog_alone.
Qed.

Lemma upd_sessions_twice p (s1 s2 : Session) w :
  upd_sessions <[p := s2]> (upd_sessions <[p := s1]> w) = upd_sessions <[p := s2]> w.
Proof. unfold upd_sessions. cbn. by rewrite insert_insert_eq. Qed.
Lemma upd_sessions_at p (s : Session) w : sessions (upd_sessions <[p := s]> w) !! p = Some s.
Proof. apply lookup_insert_eq. Qed.

Lemma load_conn_run p s w : sessions w !! p = Some s → load_conn p w = (Ret (s_conn s, ref_of p s), w).
Proof. intros Es. unfold load_conn. by rewrite (bind_ret_run _ _ _ _ _ (get_sess_run _ _ _ Es)). Qed.
Lemma store_conn_run p o s w : sessions w !! p = Some s →
  store_conn p o w = (Ret (s_conn s), upd_sessions <[p := upd_s_conn o s]> w).
Proof.
  intros Es. unfold store_conn.
  by rewrite (bind_ret_run _ _ _ _ _ (get_sess_run _ _ _ Es)), (bind_ret_run _ _ _ _ _ (on_sess_run _ _ _ _ Es)).
Qed.
Lemma unregister_run p s w : sessions w !! p = Some s →
  (s ← get_sess p; on_router (UnregisterAll (ref_of p s))) w = (Ret tt, upd_router (UnregisterAll (ref_of p s)) w).
Proof. intros Es. by rewrite (bind_ret_run _ _ _ _ _ (get_sess_run _ _ _ Es)). Qed.

Lemma detach_mark_alone p s w : sessions w !! p = Some s →
  alone (detach_mark p) w = (Ret tt, upd_sessions <[p := upd_s_state StateSuspended (UnixMilli (now w)) s]> w).
Proof.
  intros Es. unfold detach_mark. rewrite alone_act. unfold store_state.
  rewrite (bind_ret_run _ _ _ _ _ (on_sess_run _ _ _ _ Es)), alone_only.
  unfold store_suspendedAt. rewrite bind_run. unfold gets. rewrite (on_sess_run _ _ _ _ (upd_sessions_at _ _ _)). by rewrite upd_sessions_twice.
Qed.

Lemma DetachConn_prog_alone p w : alone (DetachConn_prog p) w = DetachConn p w.
Proof.
  unfold DetachConn_prog, DetachConn, store_conn. rewrite alone_act, !bind_run.
  destruct (sessions w !! p) as [s|] eqn:Es; [|by rewrite get_sess_none].
  rewrite (get_sess_run _ _ _ Es), !bind_run. change (gets now w) with (Ret (now w), w). cbv beta iota.
  rewrite !bind_run, (on_sess_run _ _ _ _ Es). cbn [mret M_ret]. unfold mret, M_ret.
  set (w1 := upd_sessions <[p := upd_s_conn None s]> w).
  assert (sessions w1 !! p = Some (upd_s_conn None s)) as E1 by apply lookup_insert_eq.
  destruct (s_conn s) as [c|]; cbn [detach_router when bool_decide].
  - rewrite alone_act, bind_run, (bind_ret_run _ _ _ _ _ (get_sess_run _ _ _ E1)). unfold on_router, modify at 1.
    rewrite (detach_mark_alone p (upd_s_conn None s)) by apply lookup_insert_eq.
    rewrite bool_decide_true by done. rewrite bind_run. cbn [when].
    set (w2 := upd_router (UnregisterAll (ref_of p s)) w1).
    symmetry. etrans; [exact (on_sess_run p _ w2 _ E1)|reflexivity].
  - rewrite (detach_mark_alone _ _ _ E1). symmetry. etrans; [exact (on_sess_run p _ w1 _ E1)|reflexivity].
Qed.

(** ** What no action takes back

    Queues and the offline store grow, messages keep their ids, a pending
    message is only forgotten when an id of [acks] is acknowledged, and a timer
    is only cancelled when its key is one of [keys]. *)
Definition sess_keeps (acks : list string) p (s s' : Session) : Prop :=
  deps s' = deps s ∧ ref_of p s' = ref_of p s ∧
  ∀ id, is_Some (pendingAcks s !! id) → id ∉ acks → is_Some (pendingAcks s' !! id).

Record grows (acks keys : list string) w w' : Prop := {
  gr_conn c k : conns w !! c = Some k →
    ∃ k', conns w' !! c = Some k' ∧ writeCh k `prefix_of` writeCh k';
  gr_msg m msg : msgs w !! m = Some msg →
    ∃ msg', msgs w' !! m = Some msg' ∧ m_MsgId msg' = m_MsgId msg ∧ m_Delivery msg' = m_Delivery msg;
  gr_sess p s : sessions w !! p = Some s → ∃ s', sessions w' !! p = Some s' ∧ sess_keeps acks p s s';
  gr_offline : offline w `prefix_of` offline w';
  gr_timer : sched_ok (timer w) → sched_ok (timer w') ∧
    ∀ k, k ∉ keys → is_Some (pending (timer w) k) → is_Some (pending (timer w') k);
}.

#[export] Instance sess_keeps_preorder acks p : PreOrder (sess_keeps acks p).
Proof.
  split; [by intros s|]. intros s1 s2 s3 (D1 & R1 & P1) (D2 & R2 & P2). split_and!; [congruence..|]. auto.
Qed.
#[export] Instance grows_preorder acks keys : PreOrder (grows acks keys).
Proof.
  split.
  - intros w. split; [| | |done|by eauto]; intros; eexists; by split.
  - intros w1 w2 w3 G1 G2. split.
    + intros c k (k2 & E2 & ?)%(gr_conn _ _ _ _ G1). destruct (gr_conn _ _ _ _ G2 _ _ E2) as (k3 & E3 & ?).
      exists k3. split; [done|]. by etrans.
    + intros m x (x2 & E2 & ? & ?)%(gr_msg _ _ _ _ G1). destruct (gr_msg _ _ _ _ G2 _ _ E2) as (x3 & E3 & ? & ?).
      exists x3. split_and!; congruence.
    + intros p s (s2 & E2 & ?)%(gr_sess _ _ _ _ G1). destruct (gr_sess _ _ _ _ G2 _ _ E2) as (s3 & E3 & ?).
      exists s3. split; [done|]. by etrans.
    + etrans; [by apply (gr_offline _ _ _ _ G1)|by apply (gr_offline _ _ _ _ G2)].
    + intros [Ok2 P2]%(gr_timer _ _ _ _ G1). destruct (gr_timer _ _ _ _ G2 Ok2) as [Ok3 P3]. split; [done|]. auto.
Qed.

Section grows.
Context (acks keys : list string).

Lemma grows_frame w w' : conns w' = conns w → msgs w' = msgs w → sessions w' = sessions w →
  offline w' = offline w → timer w' = timer w → grows acks keys w w'.
Proof.
  intros Ec Em Es Eo Et.
  split; [rewrite Ec|rewrite Em|rewrite Es|by rewrite Eo|by rewrite Et]; intros; eexists; by split.
Qed.

Lemma grows_on_sess p f : (∀ s, sess_keeps acks p s (f s)) → preserves (grows acks keys) (on_sess p f).
Proof.
  intros Hf w. cbn. split; cbn; [intros; by eexists..| |done|done].
  intros q s Es. destruct (decide (q = p)) as [->|Hne].
  - rewrite lookup_alter_eq, Es. by eexists.
  - rewrite lookup_alter_ne by done. by eexists.
Qed.
Lemma grows_on_msg m f : (∀ x, m_MsgId (f x) = m_MsgId x ∧ m_Delivery (f x) = m_Delivery x) →
  preserves (grows acks keys) (on_msg m f).
Proof.
  intros Hf w. cbn. split; cbn; [intros; by eexists| |intros; by eexists|done|done].
  intros q x Ex. destruct (decide (q = m)) as [->|Hne].
  - rewrite lookup_alter_eq, Ex. by eexists.
  - rewrite lookup_alter_ne by done. by eexists.
Qed.
Lemma grows_set_conn c k k' w : conns w !! c = Some k → writeCh k `prefix_of` writeCh k' →
  grows acks keys w (upd_conns <[c := k']> w).
Proof.
  intros Ek Hp. split; cbn; [|intros; by eexists..|done|done].
  intros q k1 E1. destruct (decide (q = c)) as [->|Hne].
  - rewrite lookup_insert_eq. simplify_eq. by eexists.
  - rewrite lookup_insert_ne by done. by eexists.
Qed.
Lemma grows_router f : preserves (grows acks keys) (on_router f).
Proof. intros w. by apply grows_frame. Qed.
Lemma grows_scanner f : preserves (grows acks keys) (modify (upd_scanner f)).
Proof. intros w. by apply grows_frame. Qed.
Lemma grows_set_timer t' w : (sched_ok (timer w) → sched_ok t' ∧
    ∀ k, k ∉ keys → is_Some (pending (timer w) k) → is_Some (pending t' k)) →
  grows acks keys w (upd_timer (λ _, t') w).
Proof. intros Ht. split; cbn; [intros; by eexists..|done|done]. Qed.
Lemma grows_schedule_ack sid id : preserves (grows acks keys) (schedule_ack sid id).
Proof.
  intros w. apply grows_set_timer. intros Hok.
  destruct (law_schedule (now w) (ack_task (now w + ackTimeout (scanner w)) sid id) tt (timer w) Hok)
    as (t' & -> & Hok' & Hp); [done|done|]. split; [done|]. intros k _ Hk. cbn. rewrite Hp. case_decide; [by eexists|done].
Qed.
Lemma grows_cancel_ack sid id : ackKey sid id ∈ keys → preserves (grows acks keys) (cancel_ack sid id).
Proof.
  intros Hin w. apply grows_set_timer. intros Hok.
  destruct (law_cancel (ackKey sid id) (timer w) Hok) as (t' & -> & Hok' & Hp). split; [done|].
  intros k Hk Hs. cbn. rewrite Hp, decide_False; [done|]. by intros [_ ->].
Qed.
Lemma grows_offline m : preserves (grows acks keys) (OfflineStore_Store m).
Proof.
  intros w. unfold OfflineStore_Store, get_msg. mrun. destruct (msgs w !! m); cbn; [|done].
  split; cbn; [intros; by eexists..| |done]. by apply prefix_app_r.
Qed.
Lemma grows_enqueue c m : preserves (grows acks keys) (enqueue c m).
Proof.
  intros w. unfold enqueue. destruct (conns w !! c) as [k|] eqn:Ek.
  - rewrite (bind_ret_run _ _ _ _ _ (get_conn_run _ _ _ Ek)). case_decide; [|done].
    rewrite (bind_ret_run _ _ _ _ _ (on_conn_run _ _ _ _ Ek)). cbn. apply (grows_set_conn _ _ _ _ Ek).
    by apply prefix_app_r.
  - unfold get_conn. mrun. by rewrite Ek.
Qed.
Lemma grows_next_seq c : preserves (grows acks keys) (next_seq c).
Proof.
  intros w. unfold next_seq. destruct (conns w !! c) as [k|] eqn:Ek.
  - rewrite (bind_ret_run _ _ _ _ _ (get_conn_run _ _ _ Ek)), (bind_ret_run _ _ _ _ _ (on_conn_run _ _ _ _ Ek)).
    by apply (grows_set_conn _ _ _ _ Ek).
  - unfold get_conn. mrun. by rewrite Ek.
Qed.
Lemma grows_get_sess p : preserves (grows acks keys) (get_sess p).
Proof. unfold get_sess. preserves_tac. Qed.
Lemma grows_get_msg m : preserves (grows acks keys) (get_msg m).
Proof. unfold get_msg. preserves_tac. Qed.
Lemma grows_get_conn c : preserves (grows acks keys) (get_conn c).
Proof. unfold get_conn. preserves_tac. Qed.
#[local] Hint Resolve grows_get_sess grows_get_msg grows_get_conn grows_router grows_scanner
  grows_schedule_ack grows_offline grows_enqueue grows_next_seq : gw.
Lemma grows_handleUndelivered p m : preserves (grows acks keys) (handleUndelivered p m).
Proof. unfold handleUndelivered. preserves_tac. Qed.
Lemma grows_add_record sid id : preserves (grows acks keys) (add_record sid id).
Proof. unfold add_record. preserves_tac. Qed.
Lemma grows_drop_record sid id : preserves (grows acks keys) (drop_record sid id).
Proof. unfold drop_record. preserves_tac. Qed.
#[local] Hint Resolve grows_handleUndelivered grows_add_record grows_drop_record : gw.

(** ** Every method keeps to it *)
Abbreviation always_any t w := (always (grows acks keys) (λ _ _, True) t w).
Ltac keeps_tac :=
  unfold load_conn, store_conn, store_state, store_suspendedAt, on_subs, load_active, bump_entry;
  preserves_tac; try (apply grows_on_sess; intros; by split_and!);
  try (apply grows_on_msg; intros; by split).

Lemma keeps_load_conn p : preserves (grows acks keys) (load_conn p). Proof. keeps_tac. Qed.
Lemma keeps_store_conn p o : preserves (grows acks keys) (store_conn p o). Proof. keeps_tac. Qed.
Lemma keeps_store_state p v : preserves (grows acks keys) (store_state p v). Proof. keeps_tac. Qed.
Lemma keeps_store_suspendedAt p t : preserves (grows acks keys) t → preserves (grows acks keys) (store_suspendedAt p t).
Proof. intros ?. keeps_tac. Qed.
Lemma keeps_on_subs p f : preserves (grows acks keys) (on_subs p f). Proof. keeps_tac. Qed.
Lemma keeps_load_active c : preserves (grows acks keys) (load_active c). Proof. keeps_tac. Qed.
Lemma keeps_SeqId m n : preserves (grows acks keys) (on_msg m (set_SeqId n)). Proof. keeps_tac. Qed.
Lemma keeps_header m n : preserves (grows acks keys) (on_msg m (ensureRetryHeader n)). Proof. keeps_tac. Qed.
Lemma keeps_pending p f : (∀ s id, is_Some (pendingAcks s !! id) → id ∉ acks → is_Some (f s !! id)) →
  preserves (grows acks keys) (on_sess p (λ s, upd_pendingAcks (f s) s)).
Proof. intros Hf. apply grows_on_sess. intros s. split_and!; [done..|]. apply Hf. Qed.
Lemma keeps_add_pending p id e : preserves (grows acks keys) (on_sess p (λ s, upd_pendingAcks (<[id := e]> (pendingAcks s)) s)).
Proof. apply keeps_pending. intros s id' Hs _. rewrite lookup_insert_is_Some'. by right. Qed.
Lemma keeps_lastDelivered p n : preserves (grows acks keys) (on_sess p (upd_lastDeliveredSeq n)).
Proof. keeps_tac. Qed.
#[local] Hint Resolve keeps_load_conn keeps_store_conn keeps_store_state keeps_store_suspendedAt keeps_on_subs
  keeps_load_active keeps_SeqId keeps_header keeps_add_pending keeps_lastDelivered : gw.
Lemma keeps_bump_entry p id : preserves (grows acks keys) (bump_entry p id).
Proof. unfold bump_entry. preserves_tac. Qed.
#[local] Hint Resolve keeps_bump_entry : gw.

(** Programs that promise nothing more. *)
Ltac always_tac := repeat first
  [ done | apply always_act_any; preserves_tac
  | eapply (always_bind _ (λ _ _, True)); [|intros ? ? _ _] | case_match | eapply (always_each _); intros ? ? ].

Lemma always_submit_prog c m w :
  always (grows acks keys) (λ b w, b = true → ∃ k, conns w !! c = Some k ∧ m ∈ writeCh k) (submit_prog c m) w.
Proof.
  eapply (always_bind _ (λ _ _, True)); [apply always_act_any; preserves_tac|]. intros [] w1 _ _; [|done].
  eapply (always_bind _ (λ _ _, True)); [apply always_act_any; preserves_tac|]. intros n w2 _ _.
  eapply (always_bind _ (λ _ _, True)); [apply always_act_any; preserves_tac|]. intros [] w3 _ _.
  apply always_act; [preserves_tac|]. intros w4 b w5 _ E ->.
  unfold enqueue, get_conn in E. revert E. mrun. destruct (conns w4 !! c) as [k|] eqn:Ek; [|done]. cbn.
  case_decide; [|done]. intros [= <-]. cbn. rewrite lookup_alter_eq, Ek. eexists. split; [done|].
  cbn. apply elem_of_app. right. by apply list_elem_of_singleton.
Qed.
Lemma any_submit_prog c m w : always_any (submit_prog c m) w.
Proof. eapply always_mono; [|apply always_submit_prog]. done. Qed.
#[local] Hint Resolve any_submit_prog : gw.

Lemma any_JoinRoom p r w : always_any (JoinRoom_prog p r) w.
Proof. unfold JoinRoom_prog, withConn_prog. always_tac. Qed.
Lemma any_LeaveRoom p r w : always_any (LeaveRoom_prog p r) w.
Proof. unfold LeaveRoom_prog, withConn_prog. always_tac. Qed.
Lemma any_Subscribe p t w : always_any (Subscribe_prog p t) w.
Proof. unfold Subscribe_prog, withConn_prog. always_tac. Qed.
Lemma any_Unsubscribe p t w : always_any (Unsubscribe_prog p t) w.
Proof. unfold Unsubscribe_prog, withConn_prog. always_tac. Qed.
Lemma any_DetachConn p w : always_any (DetachConn_prog p) w.
Proof. unfold DetachConn_prog, detach_router, detach_mark. always_tac. Qed.
Lemma any_flush p c id w : always_any (flush_prog p c id) w.
Proof. unfold flush_prog. always_tac; apply any_submit_prog. Qed.
Lemma any_AttachConn p c w : always_any (AttachConn_prog p c) w.
Proof.
  unfold AttachConn_prog, attach_subscribe, attach_flush, flush_prog.
  always_tac; apply any_submit_prog.
Qed.
Lemma any_Ack p id s0 w : sessions w !! p = Some s0 → id ∈ acks → ackKey (sessionID s0) id ∈ keys →
  always_any (Ack_prog p id) w.
Proof.
  intros Es0 Hid Hkey.
  assert (preserves (grows acks keys) (on_sess p (λ s, upd_pendingAcks (delete id (pendingAcks s)) s))).
  { apply keeps_pending. intros s id' Hs Hn. rewrite lookup_delete_ne; [done|]. by intros <-. }
  eapply (always_bind _ (λ d _, d.2 = sessionID s0)).
  - apply always_act; [preserves_tac|]. intros w1 d w2 G1 E.
    destruct (gr_sess _ _ _ _ G1 _ _ Es0) as (s1 & Es1 & _ & Hr & _). 
    rewrite (bind_ret_run _ _ _ _ _ (get_sess_run _ _ _ Es1)), (bind_ret_run _ _ _ _ _ (on_sess_run _ _ _ _ Es1)) in E.
    injection E as <- _. cbn. by injection Hr.
  - intros [b sid] w2 _ ->. cbn [fst snd]. destruct b; [|done]. unfold Done_prog.
    pose proof (grows_cancel_ack _ _ Hkey). always_tac.
Qed.

(** ** What [Submit] promises, whatever the others do *)
Definition queued w m : Prop := ∃ c k, conns w !! c = Some k ∧ m ∈ writeCh k.
Definition awaits_ack w p id : Prop := ∃ s, sessions w !! p = Some s ∧ is_Some (pendingAcks s !! id).
Definition timed w sid id : Prop := is_Some (ack_timer w sid id).
Definition stored w id : Prop := ∃ msg, msg ∈ offline w ∧ m_MsgId msg = id.

Lemma queued_stable w w' m : grows acks keys w w' → queued w m → queued w' m.
Proof.
  intros G (c & k & (k' & Ek' & [q Hq])%(gr_conn _ _ _ _ G) & Hm). exists c, k'. split; [done|].
  rewrite Hq. apply elem_of_app. by left.
Qed.
Lemma awaits_stable w w' p id : id ∉ acks → grows acks keys w w' → awaits_ack w p id → awaits_ack w' p id.
Proof.
  intros Hid G (s & (s' & Es' & _ & _ & Hp)%(gr_sess _ _ _ _ G) & Hs). exists s'. split; [done|]. by apply Hp.
Qed.
Lemma timed_stable w w' sid id : ackKey sid id ∉ keys → sched_ok (timer w) → grows acks keys w w' →
  timed w sid id → timed w' sid id.
Proof. intros Hk Hok G. by apply (gr_timer _ _ _ _ G Hok). Qed.
Lemma stored_stable w w' id : grows acks keys w w' → stored w id → stored w' id.
Proof.
  intros G (x & Hx & Hid). exists x. split; [|done]. destruct (gr_offline _ _ _ _ G) as [l ->].
  apply elem_of_app. by left.
Qed.

(** The message is in a queue, and the client's answer is waited for. *)
Definition waits_for p (s0 : Session) (msg0 : Message) w : Prop :=
  d_Acker (deps s0) = true → at_least_once msg0 = true → m_MsgId msg0 ∉ acks →
  ackKey (sessionID s0) (m_MsgId msg0) ∉ keys →
  awaits_ack w p (m_MsgId msg0) ∧ timed w (sessionID s0) (m_MsgId msg0).
Definition delivers p m (s0 : Session) (msg0 : Message) (b : bool) w : Prop :=
  sched_ok (timer w) ∧
  if b then queued w m ∧ waits_for p s0 msg0 w
  else stores_offline s0 msg0 = true → stored w (m_MsgId msg0).

Lemma delivers_stable p m s0 msg0 : stable (grows acks keys) (delivers p m s0 msg0).
Proof.
  intros b w w' G [Hok Hb]. split; [by apply (gr_timer _ _ _ _ G Hok)|]. destruct b.
  - destruct Hb as [Hq Ha]. split; [by eapply queued_stable|]. intros Hd Hl Hn Hk. destruct (Ha Hd Hl Hn Hk).
    split; [by eapply awaits_stable|by eapply timed_stable].
  - intros Ho. by eapply stored_stable; [|apply Hb].
Qed.

Section submit.
Context p m (s0 : Session) (msg0 : Message) w0 (Hs0 : sessions w0 !! p = Some s0) (Hm0 : msgs w0 !! m = Some msg0)
  (Hok0 : sched_ok (timer w0)).

Lemma same_sess w s : grows acks keys w0 w → sessions w !! p = Some s → deps s = deps s0 ∧ ref_of p s = ref_of p s0.
Proof. intros G Es. destruct (gr_sess _ _ _ _ G _ _ Hs0) as (s' & Es' & Hd & Hr & _).
  rewrite Es in Es'. injection Es' as <-. by split.
Qed.
Lemma same_msg w msg : grows acks keys w0 w → msgs w !! m = Some msg →
  m_MsgId msg = m_MsgId msg0 ∧ m_Delivery msg = m_Delivery msg0.
Proof. intros G Em. destruct (gr_msg _ _ _ _ G _ _ Hm0) as (x & Ex & Hi & Hd).
  rewrite Em in Ex. injection Ex as <-. by split.
Qed.

Lemma ok_after w : grows acks keys w0 w → sched_ok (timer w).
Proof. intros G. by apply (gr_timer _ _ _ _ G). Qed.

Lemma always_undelivered w : grows acks keys w0 w → always (grows acks keys) (delivers p m s0 msg0) (undelivered p m) w.
Proof.
  intros G0. eapply (always_bind _ (λ _ w, stores_offline s0 msg0 = true → stored w (m_MsgId msg0))).
  - apply always_act; [preserves_tac|]. intros w1 [] w2 G1 E Ho. assert (grows acks keys w0 w1) as G by (etrans; [exact G0|exact G1]).
    destruct (gr_sess _ _ _ _ G _ _ Hs0) as (s & Es & _). destruct (gr_msg _ _ _ _ G _ _ Hm0) as (x & Ex & _).
    destruct (same_sess _ _ G Es) as [Hd _]. destruct (same_msg _ _ G Ex) as [Hi Hdl].
    unfold stores_offline in Ho. destruct (m_Delivery msg0) as [d|] eqn:Ed; [|done].
    rewrite (handleUndelivered_run p m w1 s x d Es Ex Hdl) in E. unfold stores_offline in E.
    rewrite Hdl, Hd, Ho in E. injection E as <-. exists x. split; [|done]. cbn.
    apply elem_of_app. right. by apply list_elem_of_singleton.
  - intros [] w' G Hst. split; [|exact Hst]. apply ok_after. etrans; [exact G0|exact G].
Qed.

Lemma always_Track ref w : grows acks keys w0 w →
  always (grows acks keys) (λ _ w, at_least_once msg0 = true → timed w (ref_sid ref) (m_MsgId msg0)) (Track_prog m ref) w.
Proof.
  intros G0. eapply (always_bind _ (λ msg _, m_MsgId msg = m_MsgId msg0 ∧ m_Delivery msg = m_Delivery msg0)).
  - apply always_act; [preserves_tac|]. intros w1 x w2 G1 E. assert (grows acks keys w0 w1) as G by (etrans; [exact G0|exact G1]).
    destruct (gr_msg _ _ _ _ G _ _ Hm0) as (y & Ey & Hi & Hd). rewrite (get_msg_run _ _ _ Ey) in E. by injection E as <- _.
  - intros x w1 G1 [Hi Hd]. assert (at_least_once x = at_least_once msg0) as -> by (unfold at_least_once; by rewrite Hd).
    destruct (at_least_once msg0); [|done]. rewrite Hi. unfold track_timer.
    eapply (always_bind _ (λ _ _, True)); [apply always_act_any; preserves_tac|]. intros [] w2 G2 _.
    apply always_act; [preserves_tac|]. intros w3 [] w4 G3 E _. assert (sched_ok (timer w3)) as Hok.
    { apply ok_after. etrans; [exact G0|]. etrans; [exact G1|]. etrans; [exact G2|exact G3]. }
    injection E as <-. unfold timed, ack_timer. cbn.
    destruct (law_schedule (now w3) (ack_task (now w3 + ackTimeout (scanner w3)) (ref_sid ref) (m_MsgId msg0)) tt _ Hok)
      as (t' & -> & _ & Hp); [done|done|]. cbn. rewrite Hp, decide_True by done. by eexists.
Qed.

Lemma always_submit_delivered w : grows acks keys w0 w → queued w m →
  always (grows acks keys) (delivers p m s0 msg0) (submit_delivered p m) w.
Proof.
  intros G0 Hq. eapply (always_bind _ (λ _ _, True)); [apply always_act_any; preserves_tac|].
  intros [] w1 G1 _. eapply (always_bind _ (λ tr w, ref_sid tr.2 = sessionID s0 ∧
    (d_Acker (deps s0) = true → at_least_once msg0 = true → tr.1 = true ∧ awaits_ack w p (m_MsgId msg0)))).
  - apply always_act; [preserves_tac|]. intros w2 tr w3 G2 E.
    assert (grows acks keys w0 w2) as G by (etrans; [exact G0|]; etrans; [exact G1|exact G2]).
    destruct (gr_sess _ _ _ _ G _ _ Hs0) as (s & Es & _). destruct (gr_msg _ _ _ _ G _ _ Hm0) as (x & Ex & _).
    destruct (same_sess _ _ G Es) as [Hds Hr]. destruct (same_msg _ _ G Ex) as [Hi Hdl].
    assert (at_least_once x = at_least_once msg0) as Hlx by (unfold at_least_once in *; by rewrite Hdl).
    rewrite (bind_ret_run _ _ _ _ _ (get_sess_run _ _ _ Es)), (bind_ret_run _ _ _ _ _ (get_msg_run _ _ _ Ex)) in E.
    rewrite bind_run, Hds, Hlx in E. unfold gets in E. split.
    + rewrite <-(f_equal ref_sid Hr : sessionID s = sessionID s0).
      destruct (_ && _); cbn [when] in E; [rewrite (bind_ret_run _ _ _ _ _ (on_sess_run _ _ _ _ Es)) in E|]; by injection E as <- _.
    + intros Hd Hl. rewrite Hd, Hl in E. cbn [andb when] in E.
      rewrite (bind_ret_run _ _ _ _ _ (on_sess_run _ _ _ _ Es)) in E. injection E as <- <-. split; [done|].
      exists (upd_pendingAcks (<[m_MsgId x := mkEntry m 0 (now w2) (now w2)]> (pendingAcks s)) s). cbn.
      rewrite lookup_insert_eq, Hi, lookup_insert_eq. by eauto.
  - intros [b ref] w2 G2 [Href Hp]. cbn [fst snd] in *.
    assert (grows acks keys w0 w2) as G02 by (etrans; [exact G0|]; etrans; [exact G1|exact G2]).
    eapply (always_bind _ (λ _ w, d_Acker (deps s0) = true → at_least_once msg0 = true →
      timed w (sessionID s0) (m_MsgId msg0))).
    + destruct b; [|by intros Hd Hl; destruct (Hp Hd Hl)].
      eapply always_mono; [|by apply always_Track]. cbn. rewrite Href. auto.
    + intros [] w3 G3 Ht. cbn. split; [apply ok_after; etrans; [exact G02|exact G3]|]. split.
      * eapply queued_stable; [|exact Hq]. etrans; [exact G1|]. etrans; [exact G2|exact G3].
      * intros Hd Hl Hn Hk. split; [|by apply Ht]. eapply awaits_stable; [done|exact G3|]. by apply Hp.
Qed.

Lemma always_Submit : always (grows acks keys) (delivers p m s0 msg0) (Submit_prog p m) w0.
Proof.
  unfold Submit_prog. eapply (always_bind _ (λ _ _, True)); [apply always_act_any; preserves_tac|].
  intros [[c|] ref] w1 G1 _; cbn [fst]; [|by apply always_undelivered].
  eapply (always_bind _ (λ _ _, True)); [apply always_act_any; preserves_tac|].
  intros [] w2 G2 _; [|apply always_undelivered; etrans; [exact G1|exact G2]].
  eapply (always_bind _ _ _ _ _ _ (always_submit_prog _ _ _)). intros [] w3 G3 Hq.
  - apply always_submit_delivered; [etrans; [exact G1|]; etrans; [exact G2|exact G3]|].
    destruct (Hq eq_refl) as (k & ? & ?). by exists c, k.
  - apply always_undelivered. etrans; [exact G1|]. etrans; [exact G2|exact G3].
Qed.
End submit.
End grows.

(** ** [Submit] and [AttachConn] undisturbed *)

Lemma submit_track_alone p m s msg w : sessions w !! p = Some s → msgs w !! m = Some msg →
  alone (submit_track p m) w =
  (when (d_Acker (deps s) && at_least_once msg)
     (on_sess p (λ s, upd_pendingAcks (<[m_MsgId msg := mkEntry m 0 (now w) (now w)]> (pendingAcks s)) s)
      ≫= λ _, Track m (ref_of p s)) ≫= λ _, mret true) w.
Proof.
  intros Es Em. unfold submit_track. rewrite alone_act, bind_run.
  rewrite (bind_ret_run _ _ _ _ _ (get_sess_run _ _ _ Es)), (bind_ret_run _ _ _ _ _ (get_msg_run _ _ _ Em)), bind_run.
  unfold gets. destruct (d_Acker (deps s) && at_least_once msg); cbn [when]; [|done].
  rewrite (bind_ret_run _ _ _ _ _ (on_sess_run _ _ _ _ Es)), bind_run, (bind_ret_run _ _ _ _ _ (on_sess_run _ _ _ _ Es)).
  cbn [mret M_ret fst snd]. unfold mret at 1, M_ret at 1. rewrite alone_bind. apply bind_same; [by apply Track_prog_alone|done].
Qed.

Lemma Submit_prog_alone p m s w : sessions w !! p = Some s → alone (Submit_prog p m) w = Submit p m w.
Proof.
  intros Es. unfold Submit_prog, Submit, load_conn. rewrite alone_act.
  rewrite bind_run, (bind_ret_run _ _ _ _ _ (get_sess_run _ _ _ Es)), (bind_ret_run _ _ _ _ _ (get_sess_run _ _ _ Es)).
  cbn [mret M_ret fst]. unfold undelivered.
  assert (∀ w, alone (act (handleUndelivered p m) ~> Finish false) w = (handleUndelivered p m ≫= λ _, mret false) w) as Hu
    by (intros w'; by rewrite alone_act).
  destruct (s_conn s) as [c|]; [|apply Hu]. unfold submit_to, load_active. rewrite alone_act, bind_run.
  destruct (conns w !! c) as [k|] eqn:Ek; [|unfold get_conn; mrun; by rewrite Ek].
  rewrite !(bind_ret_run _ _ _ _ _ (get_conn_run _ _ _ Ek)). cbn [mret M_ret]. unfold mret at 1, M_ret at 1.
  destruct (conn_IsActive k); [|apply Hu]. rewrite alone_bind.
  apply bind_same; [apply submit_prog_alone|]. intros [] w1 E1; [|apply Hu].
  rewrite (conn_Submit_run _ _ _ _ Ek) in E1. injection E1 as _ <-.
  set (w1 := after_submit c m k w). assert (sessions w1 !! p = Some s) as Es1 by exact Es. clearbody w1.
  unfold submit_delivered. rewrite alone_act, bind_run.
  destruct (msgs w1 !! m) as [msg|] eqn:Em; [|unfold get_msg; mrun; by rewrite Em].
  rewrite !(bind_ret_run _ _ _ _ _ (get_msg_run _ _ _ Em)), (on_sess_run _ _ _ _ Es1), (bind_run (gets now)).
  unfold gets. rewrite (bind_ret_run _ _ _ _ _ (on_sess_run _ _ _ _ Es1)).
  set (s2 := upd_lastDeliveredSeq (m_SeqId msg) s). 
  by rewrite (submit_track_alone p m s2 msg (upd_sessions <[p := s2]> w1) (upd_sessions_at _ _ _) Em).
Qed.

Lemma flush_prog_alone p c s s1 id w : sessions w !! p = Some s1 → deps s1 = deps s → ref_of p s1 = ref_of p s →
  alone (flush_prog p c id) w = flush_entry p c s id w.
Proof.
  intros Es Hd Hr. unfold flush_prog, flush_entry, bump_entry. rewrite alone_act.
  rewrite bind_run, (bind_ret_run _ _ _ _ _ (get_sess_run _ _ _ Es)), bind_run, (bind_run (gets _)).
  unfold gets. rewrite Es. cbn [mbind option_bind]. destruct (pendingAcks s1 !! id) as [e|]; [|done].
  rewrite !bind_run, (on_sess_run _ _ _ _ Es). cbn [mret M_ret]. unfold mret, M_ret.
  rewrite alone_act. apply bind_same; [done|]. intros [] w1 _.
  rewrite alone_bind. apply bind_same; [apply submit_prog_alone|]. intros b w2 _. rewrite Hd, Hr.
  destruct (d_Acker (deps s)); [apply Track_prog_alone|done].
Qed.

Lemma flush_all_alone p c s w : sessions w !! p = Some s →
  alone (each (flush_prog p c) (map_range (pendingAcks s)).*1) w =
  for_each (flush_entry p c s) (map_range (pendingAcks s)).*1 w.
Proof.
  intros Es. apply (alone_each (λ w, ∃ s1, sessions w !! p = Some s1 ∧ deps s1 = deps s ∧ ref_of p s1 = ref_of p s)).
  - intros id w1 (s1 & E1 & Hd & Hr). by eapply flush_prog_alone.
  - intros id w1 w2 (s1 & E1 & Hd & Hr) E.
    destruct (always_alone _ _ _ _ _ _ (any_flush [] [] p c id w1) E) as [G _].
    destruct (gr_sess _ _ _ _ G _ _ E1) as (s2 & E2 & Hd2 & Hr2 & _). exists s2. split_and!; congruence.
  - by exists s.
Qed.

Lemma subscribe_all_alone (f : string → LocalRouter SessionRef → LocalRouter SessionRef) l w :
  alone (each (λ a, act (on_router (f a))) l) w =
    (Ret tt, upd_router (λ rt, foldl (λ rt a, f a rt) rt l) w).
Proof.
  rewrite <-for_each_router. apply (alone_each (λ _, True)); [|done|done]. intros a w' _. apply alone_only.
Qed.

Lemma AttachConn_prog_alone p c s w : sessions w !! p = Some s → alone (AttachConn_prog p c) w = AttachConn p c w.
Proof.
  intros Es. unfold AttachConn_prog, AttachConn, attach_subscribe, attach_flush, store_conn, store_state, store_suspendedAt.
  set (s1 := upd_s_state StateActive 0 (upd_s_conn (Some c) s)). set (w1 := upd_sessions <[p := s1]> w).
  assert (sessions w1 !! p = Some s1) as E1 by apply lookup_insert_eq.
  transitivity (alone (attach_subscribe p c) w1).
  { rewrite alone_act, bind_run, (bind_ret_run _ _ _ _ _ (get_sess_run _ _ _ Es)), (bind_ret_run _ _ _ _ _ (on_sess_run _ _ _ _ Es)).
    cbn [mret M_ret]. unfold mret at 1, M_ret at 1.
    rewrite alone_act, (bind_ret_run _ _ _ _ _ (on_sess_run _ _ _ _ (upd_sessions_at _ _ _))), upd_sessions_twice.
    rewrite alone_act, bind_run. unfold mret at 1, M_ret at 1. rewrite bind_run. cbv beta iota.
    rewrite (on_sess_run _ _ _ _ (upd_sessions_at _ _ _)), upd_sessions_twice. done. }
  rewrite (bind_ret_run _ _ _ _ _ (on_sess_run _ _ _ _ Es)).
  rewrite (bind_ret_run _ _ _ _ _ (on_sess_run _ _ _ _ (upd_sessions_at _ _ _))), upd_sessions_twice.
  fold s1 w1. unfold attach_subscribe. rewrite alone_act, bind_run, !(bind_ret_run _ _ _ _ _ (get_sess_run _ _ _ E1)).
  unfold mret at 1, M_ret at 1. unfold snapshot. cbn [fst snd]. 
  rewrite alone_bind. apply bind_same; [by rewrite subscribe_all_alone, for_each_router|].
  intros [] w2 E2. rewrite for_each_router in E2. injection E2 as <-.
  rewrite alone_bind. apply bind_same; [by rewrite subscribe_all_alone, for_each_router|].
  intros [] w3 E3. rewrite for_each_router in E3. injection E3 as <-.
  set (w3 := upd_router _ _). assert (sessions w3 !! p = Some s1) as Es3 by exact E1. clearbody w3.
  unfold attach_flush. rewrite alone_act, bind_run, (bind_ret_run _ _ _ _ _ (get_sess_run _ _ _ Es3)).
  unfold mret at 1, M_ret at 1. rewrite alone_bind. apply bind_same; [by apply flush_all_alone|].
  intros [] w4 _. by rewrite alone_only.
Qed.

(** ** The calls a session gets while its client comes and goes *)
Inductive sess_call : Set :=
  | CallSubmit (m : positive) | CallAck (id : string)
  | CallJoinRoom (r : string) | CallLeaveRoom (r : string)
  | CallSubscribe (t : string) | CallUnsubscribe (t : string)
  | CallAttach (c : positive) | CallDetach.

(** The answer, where the caller looks at one. *)
Definition session_prog p (x : sess_call) : prg (option bool) :=
  match x with
  | CallSubmit m => b <~ Submit_prog p m ;; Finish (Some b)
  | CallAck id => Ack_prog p id ~> Finish None
  | CallJoinRoom r => JoinRoom_prog p r ~> Finish None
  | CallLeaveRoom r => LeaveRoom_prog p r ~> Finish None
  | CallSubscribe t => Subscribe_prog p t ~> Finish None
  | CallUnsubscribe t => Unsubscribe_prog p t ~> Finish None
  | CallAttach c => AttachConn_prog p c ~> Finish None
  | CallDetach => DetachConn_prog p ~> Finish None
  end.

Definition acks_of (calls : list sess_call) : list string :=
  omap (λ x, match x with CallAck id => Some id | _ => None end) calls.

(** The timers that acknowledgements of the session [s0] cancel. *)
Definition ack_keys (s0 : Session) (acks : list string) : list string := ackKey (sessionID s0) <$> acks.

Lemma ack_keys_in s0 acks id : ackKey (sessionID s0) id ∈ ack_keys s0 acks ↔ id ∈ acks.
Proof.
  assert (Inj (=) (=) (ackKey (sessionID s0))) as Hinj.
  { intros a b [= E]. apply (inj (String.append (sessionID s0))) in E. by injection E. }
  apply (list_elem_of_fmap_inj _).
Qed.

Section promise.
Context (acks : list string) (p : positive) (w0 : World TS) (s0 : Session)
  (Es : sessions w0 !! p = Some s0) (Hok : sched_ok (timer w0)).
Abbreviation R := (grows acks (ack_keys s0 acks)).

(** What a call promises. *)
Definition promise (x : option sess_call) (r : option bool) w : Prop :=
  match x, r with
  | Some (CallSubmit m), Some b => ∀ msg0, msgs w0 !! m = Some msg0 →
      delivers acks (ack_keys s0 acks) p m s0 msg0 b w
  | _, _ => True
  end.

Lemma promise_stable x : stable R (promise x).
Proof.
  intros r w w' G. destruct x as [[]|], r as [b|]; try done. cbn. intros Hp msg0 Em.
  eapply delivers_stable; [exact G|by apply Hp].
Qed.

Lemma always_session x :
  (∀ m, x = CallSubmit m → is_Some (msgs w0 !! m)) → (∀ id, x = CallAck id → id ∈ acks) →
  always R (promise (Some x)) (session_prog p x) w0.
Proof.
  intros Hm Ha. destruct x as [m|id|r|r|t|t|c|]; cbn [session_prog].
  - destruct (Hm m eq_refl) as [msg0 Em].
    eapply (always_bind _ _ _ _ _ _ (always_Submit acks _ p m s0 msg0 w0 Es Em Hok)).
    intros b w' _ Hd msg1 E2. by simplify_eq.
  - by eapply (always_bind _ _ _ _ _ _
      (any_Ack acks _ p id s0 w0 Es (Ha id eq_refl) (proj2 (ack_keys_in _ _ _) (Ha id eq_refl)))).
  - by eapply (always_bind _ _ _ _ _ _ (any_JoinRoom acks _ p r w0)).
  - by eapply (always_bind _ _ _ _ _ _ (any_LeaveRoom acks _ p r w0)).
  - by eapply (always_bind _ _ _ _ _ _ (any_Subscribe acks _ p t w0)).
  - by eapply (always_bind _ _ _ _ _ _ (any_Unsubscribe acks _ p t w0)).
  - by eapply (always_bind _ _ _ _ _ _ (any_AttachConn acks _ p c w0)).
  - by eapply (always_bind _ _ _ _ _ _ (any_DetachConn acks _ p w0)).
Qed.
End promise.
End programs.

(** ** Claims *)

(** C7.  No message is lost while connections come and go.  Let messages be
    submitted to a session while, in any interleaving of the accesses, its
    connections are attached and detached, rooms and topics are joined and
    left, and acknowledgements arrive.  No call ever waits for another; a
    [Submit] that answered [true] has its message in the queue of some
    connection, and, unless its id was acknowledged, pending with its retry
    timer set, if it is to be acknowledged at all; one that answered [false] has
    handed it to the offline store, if its delivery policy asks for that. *)
Theorem no_message_lost {TS : Type} `{SchedulerLaws TS timeoutPayload unit} `{MapRange}
    (p : positive) (calls : list sess_call) (w0 : World TS) (s0 : Session) ts w :
  sessions w0 !! p = Some s0 → sched_ok (timer w0) → (∀ m, CallSubmit m ∈ calls → is_Some (msgs w0 !! m)) →
  rtc pool_step (session_prog p <$> calls, w0) (ts, w) →
  (∀ i t, ts !! i = Some t → (∃ r, t = Finish r) ∨ (∃ why, t = Crashed why) ∨ is_Some (prog_step t w)) ∧
  ∀ i m b msg0, calls !! i = Some (CallSubmit m) → ts !! i = Some (Finish (Some b)) → msgs w0 !! m = Some msg0 →
    if b : bool then
      queued w m ∧
      (d_Acker (deps s0) = true → at_least_once msg0 = true → m_MsgId msg0 ∉ acks_of calls →
       awaits_ack w p (m_MsgId msg0) ∧ timed w (sessionID s0) (m_MsgId msg0))
    else stores_offline s0 msg0 = true → stored w (m_MsgId msg0).
Proof.
  intros Es Hok Hm Hst. set (acks := acks_of calls). set (R := grows (TS:=TS) acks (ack_keys s0 acks)).
  set (Q := λ i, promise acks p w0 s0 (calls !! i)).
  assert (∀ i t, (session_prog p <$> calls) !! i = Some t → always R (Q i) t w0) as Hts.
  { intros i t Et. subst Q. rewrite list_lookup_fmap in Et. cbn. destruct (calls !! i) as [x|] eqn:Ex; [|done].
    injection Et as <-. apply always_session; [done|done|..].
    - intros m ->. apply Hm. by eapply list_elem_of_lookup_2.
    - intros id ->. apply list_elem_of_omap. exists (CallAck id). split; [by eapply list_elem_of_lookup_2|done]. }
  destruct (pool_always R Q _ _ _ (λ i, promise_stable _ _ _ _ _) Hts Hst) as [_ Hall].
  cbn [fst snd] in Hall. split; [intros i t Et; apply (always_moves _ _ _ _ (Hall i t Et))|].
  intros i m b msg0 Ex Et Em. specialize (Hall _ _ Et). subst Q. cbn in Hall. rewrite Ex in Hall.
  destruct (Hall msg0 Em) as [_ Hb]. destruct b; [|exact Hb]. destruct Hb as [Hq Ha]. split; [done|].
  intros Hd Hl Hn. apply Ha; [done..|]. by rewrite ack_keys_in.
Qed.

(** The connection breaks between the two halves of one [Submit] and before
    another. *)
Definition demo_calls : list sess_call := [CallSubmit 1; CallDetach; CallSubmit 2].
Definition demo_break : list nat := [0; 1; 1; 1; 1; 2; 2] ++ replicate 10 0.
Definition demo_run := run_schedule demo_break (session_prog (TS:=demo_TS) 1 <$> demo_calls, demo_two).

Lemma no_message_lost_witness : ∃ ts w, demo_run = Some (ts, w) ∧
  all_done ts [Some true; None; Some false] ∧
  (queued w 1 ∧ awaits_ack w 1 "message-1" ∧ timed w "s1" "message-1") ∧ stored w "message-1".
Proof.
  assert (results demo_run =
    Some [Some (Some true); Some None; Some (Some false)]) as E by (vm_compute; reflexivity).
  destruct demo_run as [[ts w]|] eqn:Er; [|done]. injection E as E. exists ts, w.
  destruct (no_message_lost 1 demo_calls demo_two demo_session ts w eq_refl demo_timer_ok) as [_ Hall].
  - intros m Hm. unfold demo_calls in Hm. rewrite !list.elem_of_cons in Hm.
    destruct Hm as [[= ->]|[[=]|[[= ->]|[]%not_elem_of_nil]]]; by eexists.
  - eapply run_schedule_steps. exact Er.
  - assert (all_done ts [Some true; None; Some false]) as Hd by exact E.
    pose proof (all_done_at _ _ 0 _ Hd eq_refl) as E1. pose proof (all_done_at _ _ 2 _ Hd eq_refl) as E3.
    destruct (Hall 0 1%positive true demo_msg eq_refl E1 eq_refl) as [Hq Hp].
    pose proof (Hall 2 2%positive false demo_msg eq_refl E3 eq_refl eq_refl) as Hst.
    split; [exact eq_refl|]. split; [exact Hd|]. split; [split; [exact Hq|]|exact Hst]. apply Hp; [done..|].
    by apply not_elem_of_nil.
Defined.

(** *** Races *)

(** [Close] of a session without connection leaves the rooms alone. *)
Lemma Close_detached_rooms {TS : Type} `{Scheduler TS timeoutPayload unit} `{MapRange} p s (w : World TS) :
  sessions w !! p = Some s → s_once s = false → s_conn s = None →
  rooms (router (sess_Close p w).2) = rooms (router w).
Proof.
  intros Es Ho Hc. unfold sess_Close.
  rewrite (bind_ret_run _ _ _ _ _ (get_sess_run _ _ _ Es)), Ho, Hc.
  match goal with |- _ (_ (?m w).2) = _ => assert (preserves (λ w w', rooms (router w') = rooms (router w)) m) as Hp end.
  { assert (frames (CancelAll (TS:=TS) (sessionID s))) as Hf by apply frames_CancelAll.
    assert (PreOrder (λ w w' : World TS, rooms (router w') = rooms (router w))) by (split; congruence).
    unfold on_sess, on_router. repeat (apply preserves_bind; [done| |intros ?]); try done.
    destruct (d_Acker (deps s)); [|done]. intros w1. apply (Hf w1). }
  apply Hp.
Qed.

(** C29.  [JoinRoom] reads the connection under the read lock but calls the router
    after releasing it.  If the connection breaks in between, the router gets
    the session after it was taken out: it is listed in the room although it
    has no connection, which no order of the two atomic operations gives - and
    [Close] does not take it out again, because a session without connection
    is supposed to be in no room. *)
Theorem join_detach_race {TS : Type} `{Scheduler TS timeoutPayload unit} `{MapRange}
    (w : World TS) (p c : positive) (r : string) (s : Session) :
  sessions w !! p = Some s → s_conn s = Some c → s_once s = false →
  ∃ ts w' s', run_schedule [0; 0; 1; 1; 1; 1; 0] ([JoinRoom_prog p r; DetachConn_prog p], w) = Some (ts, w') ∧
    all_done ts [tt; tt] ∧ sessions w' !! p = Some s' ∧ s_conn s' = None ∧ s_state s' = StateSuspended ∧
    member (rooms (router w')) r (sessionID s) = Some (ref_of p s) ∧
    member (rooms (router (sess_Close p w').2)) r (sessionID s) = Some (ref_of p s) ∧
    ¬ in_sync w' ∧
    (in_sync w → in_sync (sess_JoinRoom p r (DetachConn p w).2).2 ∧
                 in_sync (DetachConn p (sess_JoinRoom p r w).2).2).
Proof.
  intros Es Ec Ho.
  set (s1 := upd_subs (addRoom r (subs s)) s). set (w1 := upd_sessions <[p := s1]> w).
  set (w2 := upd_sessions <[p := upd_s_conn None s1]> w1).
  set (w3 := upd_router (UnregisterAll (ref_of p s)) w2).
  set (s4 := upd_s_state StateSuspended (suspendedAt s) (upd_s_conn None s1)). set (w4 := upd_sessions <[p := s4]> w3).
  set (s5 := upd_s_state StateSuspended (UnixMilli (now w)) s4). set (w5 := upd_sessions <[p := s5]> w4).
  set (w6 := upd_router (JoinRoom r (ref_of p s)) w5).
  assert (sessions w6 !! p = Some s5) as E6 by apply lookup_insert_eq.
  assert (member (rooms (router w6)) r (sessionID s) = Some (ref_of p s)) as Hr.
  { cbn. rewrite member_add. by rewrite decide_True. }
  exists [Finish tt; Finish tt], w6, s5. split.
  - erewrite run_schedule_cons; [|reflexivity|apply act_step, (on_sess_run p _ _ _ Es)]. fold s1 w1.
    erewrite run_schedule_cons; [|reflexivity|apply act_step, (load_conn_run p s1 w1), upd_sessions_at].
    cbn [fst snd s_conn s1 upd_subs]. rewrite Ec.
    erewrite run_schedule_cons; [|reflexivity|apply act_step, (store_conn_run p None s1 w1), upd_sessions_at].
    fold w2. cbn [s_conn s1 upd_subs]. rewrite Ec.
    erewrite run_schedule_cons; [|reflexivity|apply act_step, (unregister_run p (upd_s_conn None s1) w2), upd_sessions_at].
    erewrite run_schedule_cons; [|reflexivity|apply act_step, (on_sess_run p _ _ (upd_s_conn None s1)), upd_sessions_at].
    erewrite run_schedule_cons; [|reflexivity|apply act_last_step, (on_sess_run p _ w4 s4), upd_sessions_at].
    erewrite run_schedule_cons; [|reflexivity|by apply act_last_step]. done.
  - split_and!; [done..|by rewrite (Close_detached_rooms p s5 w6 E6 Ho eq_refl)| |].
    + intros [_ Hs _]. destruct (sync_sound _ _ _ Hs _ _ _ Hr) as (s0 & E0 & _ & _ & Hc & _). cbn [ref_ptr ref_of] in E0.
      rewrite E6 in E0. injection E0 as <-. by destruct Hc.
    + intros Hin. split; [by apply JoinRoom_in_sync, DetachConn_in_sync|by apply DetachConn_in_sync, JoinRoom_in_sync].
Qed.

Lemma join_detach_race_witness : ∃ ts w' s',
  run_schedule [0; 0; 1; 1; 1; 1; 0] ([JoinRoom_prog 1 "r2"; DetachConn_prog 1], demo_world) = Some (ts, w') ∧
  sessions w' !! 1%positive = Some s' ∧ s_conn s' = None ∧
  member (rooms (router w')) "r2" "s1" = Some demo_ref ∧
  member (rooms (router (sess_Close 1 w').2)) "r2" "s1" = Some demo_ref ∧ ¬ in_sync w'.
Proof.
  destruct (join_detach_race demo_world 1 1 "r2" demo_session eq_refl eq_refl eq_refl)
    as (ts & w' & s' & Hr & _ & Es & Hc & _ & Hm & Hm' & Hn & _).
  exists ts, w', s'. by split_and!.
Defined.

(** [AttachConn] of a session with nothing pending. *)
Lemma AttachConn_idle {TS : Type} `{Scheduler TS timeoutPayload unit} `{MapRange} p c s (w : World TS) :
  sessions w !! p = Some s → pendingAcks s = ∅ → ∃ f,
  AttachConn p c w = (Ret (lastDeliveredSeq s),
    upd_router f (upd_sessions <[p := upd_s_state StateActive 0 (upd_s_conn (Some c) s)]> w)).
Proof.
  intros Es Hp. unfold AttachConn.
  rewrite (bind_ret_run _ _ _ _ _ (on_sess_run _ _ _ _ Es)).
  rewrite (bind_ret_run _ _ _ _ _ (on_sess_run _ _ _ _ (upd_sessions_at _ _ _))), upd_sessions_twice.
  set (s1 := upd_s_state StateActive 0 (upd_s_conn (Some c) s)).
  rewrite (bind_ret_run _ _ _ _ _ (get_sess_run p _ s1 (upd_sessions_at _ _ _))). unfold snapshot.
  rewrite (bind_ret_run _ _ _ _ _ (for_each_router _ _ _)), (bind_ret_run _ _ _ _ _ (for_each_router _ _ _)).
  assert ((map_range (pendingAcks s1)).*1 = []) as ->.
  { pose proof (map_range_perm (pendingAcks s1)) as Hr. change (pendingAcks s1) with (pendingAcks s) in *.
    rewrite Hp in *. rewrite map_to_list_empty in Hr. apply list.Permutation_nil_r in Hr. by rewrite Hr. }
  cbn [for_each]. erewrite bind_ret_run; [|reflexivity].
  exists (λ rt, foldl (λ rt t, Subscribe t (ref_of p s1) rt)
    (foldl (λ rt r, JoinRoom r (ref_of p s1) rt) rt (map_range (sub_rooms (subs s1))).*1)
    (map_range (sub_topics (subs s1))).*1).
  match goal with |- (get_sess p ≫= _) ?w' = _ => assert (sessions w' !! p = Some s1) as E1 by apply lookup_insert_eq end.
  by rewrite (bind_ret_run _ _ _ _ _ (get_sess_run _ _ _ E1)).
Qed.

(** A client that reconnects can lose its rooms.  [DetachConn] of the old
    connection clears the connection first, and takes the session out of the
    router and marks it suspended later; if [AttachConn] of the new connection
    runs in between, the session ends with the new connection, but suspended
    and in no room or topic. *)
Theorem attach_detach_race {TS : Type} `{SchedulerLaws TS timeoutPayload unit} `{MapRange}
    (w : World TS) (p c0 c : positive) (s : Session) :
  sessions w !! p = Some s → s_conn s = Some c0 → pendingAcks s = ∅ →
  ∃ ts w' s', rtc pool_step (session_prog p <$> [CallDetach; CallAttach c], w) (ts, w') ∧
    all_done ts [None; None] ∧ sessions w' !! p = Some s' ∧ s_conn s' = Some c ∧ s_state s' = StateSuspended ∧
    ∀ r, member (rooms (router w')) r (sessionID s) = None ∧ member (topics (router w')) r (sessionID s) = None.
Proof.
  intros Es Ec Hp. set (s1 := upd_s_conn None s). set (w1 := upd_sessions <[p := s1]> w).
  destruct (AttachConn_idle p c s1 w1 (upd_sessions_at _ _ _) Hp) as [f Ha].
  set (s2 := upd_s_state StateActive 0 (upd_s_conn (Some c) s1)) in Ha.
  set (w2 := upd_router f (upd_sessions <[p := s2]> w1)) in Ha.
  assert (sessions w2 !! p = Some s2) as E2 by apply lookup_insert_eq.
  set (w3 := upd_router (UnregisterAll (ref_of p s2)) w2).
  set (s3 := upd_s_state StateSuspended (UnixMilli (now w3)) s2).
  exists [Finish None; Finish None], (upd_sessions <[p := s3]> w3), s3. split; [|split_and!].
  - eapply rtc_l; [eapply (pool_act 0); [reflexivity|apply act_step, (store_conn_run p None s w Es)]|].
    fold s1 w1. rewrite Ec.
    etrans; [eapply (pool_alone _ _ 1); [reflexivity|]|].
    { cbn [session_prog]. rewrite alone_bind, (bind_ret_run _ _ _ _ _ (eq_trans (AttachConn_prog_alone _ _ _ _ (upd_sessions_at _ _ _)) Ha)). reflexivity. }
    assert (alone (detach_router p (Some c0) ~> Finish (None : option bool)) w2 =
      (Ret None, upd_sessions <[p := s3]> w3)) as Hd.
    { rewrite alone_bind, bind_run. cbn [detach_router]. rewrite alone_act, (bind_ret_run _ _ _ _ _ (unregister_run p s2 w2 E2)).
      by rewrite (detach_mark_alone p s2). }
    exact (pool_alone [detach_router p (Some c0) ~> Finish None; Finish None] w2 0 _ None _ eq_refl Hd).
  - done.
  - apply lookup_insert_eq.
  - done.
  - done.
  - intros r. split; cbn; by rewrite member_purge, decide_True.
Qed.

Lemma attach_detach_race_witness :
  ∃ ts w' s', rtc pool_step (session_prog 1 <$> [CallDetach; CallAttach 1], demo_world) (ts, w') ∧
    all_done ts [None; None] ∧ sessions w' !! 1%positive = Some s' ∧ s_conn s' = Some 1%positive ∧
    s_state s' = StateSuspended ∧ member (rooms (router w')) "r1" "s1" = None.
Proof.
  destruct (attach_detach_race demo_world 1 1 1 demo_session eq_refl eq_refl eq_refl)
    as (ts & w' & s' & Hr & Hd & Es & Hc & Hst & Hm).
  exists ts, w', s'. split_and!; try done. apply (Hm "r1").
Defined.

(** An acknowledgement can come before [Submit] has noted that it waits for one:
    the client has the message as soon as it is queued, the entry is stored and
    the timer set afterwards.  The acknowledged message then stays pending and
    will be sent again. *)
Definition early_ack : list nat := replicate 6 0 ++ [1; 1; 1] ++ replicate 5 0.
Definition early_ack_run :=
  run_schedule early_ack (session_prog (TS:=demo_TS) 1 <$> [CallSubmit 1; CallAck "message-1"], demo_world).

Lemma ack_before_tracking :
  results early_ack_run = Some [Some (Some true); Some None] ∧
  ∃ ts w s, early_ack_run = Some (ts, w) ∧ sessions w !! 1%positive = Some s ∧
    (map_to_list (pendingAcks s)).*1 = ["message-1"].
Proof.
  assert (results early_ack_run = Some [Some (Some true); Some None]) as Hr by (vm_compute; reflexivity).
  split; [done|].
  assert (match early_ack_run with
          | Some (_, w) => match sessions w !! 1%positive with
                           | Some s => (map_to_list (pendingAcks s)).*1 = ["message-1"] | None => False end
          | None => False end) as E by (vm_compute; reflexivity).
  destruct early_ack_run as [[ts w]|]; [|done].
  destruct (sessions w !! 1%positive) as [s|] eqn:Es; [|done]. by exists ts, w, s.
Qed.
