(* ===== verification/Pipeline.v ===== *)
(** * Pipelines ([gateway/internal/pipeline/pipeline.go])

    A chain runs its stages through one closure [run] with a shared index:
    every call of [next] takes the stage at the index and advances it.  The
    model keeps the index in the state.  A stage whose code does something,
    calls [next] at most once and does something after it has a [shape]; for
    chains of such stages [Run] is equal to plain nesting. *)

From stdpp Require Import base list gmap strings numbers.
From S2P Require Import Prelude.

Section chain.
Context {W : Type}.

(** The state while a chain runs: the captured [idx] and the world. *)
Abbreviation MI := (M (nat * W)).

(** [type Stage[C any] func(ctx C, next func())]; the context is part of the
    state. *)
Definition Stage : Type := MI unit → MI unit.

(** The code of a stage that does not call [next]. *)
Definition lift {A} (m : M W A) : MI A := λ '(i, w), let '(r, w') := m w in (r, (i, w')).

Definition NewChain (stages : list Stage) : list Stage := stages.
Definition Append (chain stages : list Stage) : list Stage := chain ++ stages.

(** The closure [run].  A nested call finds a larger index, so a depth of one
    more than the number of stages is enough (see [run_shapes]). *)
Fixpoint run (fuel : nat) (stages : list Stage) : MI unit := λ '(idx, w),
  match fuel with
  | O => (Panic "out of fuel", (idx, w))
  | S fuel' =>
      match stages !! idx with
      | Some s => s (run fuel' stages) (S idx, w)
      | None => (Ret tt, (idx, w))
      end
  end.

Definition Run (stages : list Stage) : M W unit := λ w,
  let '(r, (_, w')) := run (S (length stages)) stages (0, w) in (r, w').

(** ** Stages with a shape *)

(** [before] says whether [next] is called, [after] runs when it was and
    returned, [recover] is the deferred handler, if any. *)
Record shape := mkShape {
  before : M W bool;
  after : M W unit;
  recover : option (string → M W unit);
}.

Definition body_of (sh : shape) : Stage := λ next,
  go ← lift (before sh);
  if (go : bool) then next ≫= λ _, lift (after sh) else mret tt.

Definition stage_of (sh : shape) : Stage := λ next,
  match recover sh with
  | Some h => with_recover (body_of sh next) (λ why, lift (h why))
  | None => body_of sh next
  end.

(** Plain nesting. *)
Definition wrap (sh : shape) (rest : M W unit) : M W unit :=
  let body := go ← before sh; if (go : bool) then rest ≫= λ _, after sh else mret tt in
  match recover sh with
  | Some h => with_recover body h
  | None => body
  end.

Definition compose (l : list shape) : M W unit := foldr wrap (mret tt) l.

(** Two computations agree, the index aside. *)
Definition agrees (n : MI unit) (i : nat) (m : M W unit) : Prop :=
  ∀ w, ∃ j, n (i, w) = ((m w).1, (j, (m w).2)).

Lemma body_agrees sh next rest i :
  agrees next i rest →
  agrees (body_of sh next) i (go ← before sh; if (go : bool) then rest ≫= λ _, after sh else mret tt).
Proof.
  intros Hn w. unfold body_of. rewrite !bind_run. cbn. destruct (before sh w) as [[[]|why] w1]; cbn.
  - rewrite !bind_run. destruct (Hn w1) as [j Hj]. rewrite Hj.
    destruct (rest w1) as [[]w2]; cbn; [|eauto]. destruct (after sh w2) as [r w3]. eauto.
  - eauto.
  - eauto.
Qed.

Lemma stage_agrees sh next rest i : agrees next i rest → agrees (stage_of sh next) i (wrap sh rest).
Proof.
  intros Hn. pose proof (body_agrees sh next rest i Hn) as Hb. unfold stage_of, wrap.
  destruct (recover sh) as [h|]; [|exact Hb].
  intros w. destruct (Hb w) as [j Hj]. unfold with_recover. rewrite Hj.
  match goal with |- context [fst ?x] => destruct x as [[]w1] end; cbn; [by eauto|].
  destruct (h why w1) as [r w2]. eauto.
Qed.

Lemma run_shapes l pre fuel :
  length l < fuel →
  agrees (run fuel (stage_of <$> (pre ++ l))) (length pre) (compose l).
Proof.
  revert pre fuel. induction l as [|sh l IH]; intros pre [|fuel] Hf; try (simpl in Hf; lia).
  - intros w. cbn [run]. rewrite lookup_ge_None_2; [|rewrite length_fmap, length_app; simpl; lia].
    cbn. eauto.
  - intros w. cbn [run].
    rewrite list_lookup_fmap, lookup_app_r, Nat.sub_diag by lia. cbn [lookup fmap list_lookup].
    specialize (IH (pre ++ [sh]) fuel). rewrite <-app_assoc, length_app in IH. simpl in IH.
    rewrite Nat.add_1_r in IH. apply (stage_agrees sh _ (compose l) (S (length pre))).
    apply IH. simpl in Hf. lia.
Qed.

(** [Run] on shaped stages is plain nesting; in particular the fuel
    suffices. *)
Lemma Run_compose l w : Run (stage_of <$> l) w = compose l w.
Proof.
  unfold Run. destruct (run_shapes l [] (S (length (stage_of <$> l))) ltac:(rewrite length_fmap; lia) w)
    as [j Hj]. simpl app in Hj. simpl length in Hj at 2. rewrite Hj. by destruct (compose l w).
Qed.
End chain.

(** C35.  Running a chain is plain nesting: for stages that call [next] at most
    once, the closure with its shared index runs every stage inside the one
    before it, in order, and a stage that does not call [next] stops the chain;
    panics travel outwards to the nearest stage that recovers.  The recursion
    depth the model allows is always enough. *)
Theorem chain_run_is_nesting {W : Type} (l : list (shape (W:=W))) (w : W) :
  Run (NewChain (stage_of <$> l)) w = compose l w.
Proof. apply Run_compose. Qed.

(** ** The values of a context ([BaseCtx.Set], [BaseCtx.Get])

    A nil map is [None]; the first [Set] makes one. *)
Section values.
Context {V : Type}.
Definition Values : Type := option (gmap string V).
Definition ctx_Set (key : string) (v : V) (b : Values) : Values := Some (<[key := v]> (default ∅ b)).
Definition ctx_Get (key : string) (b : Values) : option V := b ≫= (.!! key).

(** [Get] gives what was last [Set] for the key; a context without map has
    nothing. *)
Lemma ctx_Get_Set k k' v b : ctx_Get k' (ctx_Set k v b) = if decide (k' = k) then Some v else ctx_Get k' b.
Proof.
  unfold ctx_Get, ctx_Set. cbn. rewrite lookup_insert. repeat case_decide; try congruence. by destruct b.
Qed.
End values.
