(* ===== verification/Uplink.v ===== *)
(** * The uplink pipeline ([gateway/internal/pipeline/uplink/stages.go])

    The six stages a business message of a client goes through, from the
    deferred recover to the hand-over to the worker pool.  The context
    [*UplinkCtx] is shared by the stages and is part of the state. *)

From stdpp Require Import base list gmap strings numbers pretty.
From S2P Require Import Prelude Timer Shard Message Codec Router World Connection Session Pipeline.

(** [proto.Marshal] of the generated payloads (the errors are dropped by the
    callers). *)
Class PayloadLib : Type := {
  marshal_ErrorPayload : Z → string → list Z;
}.

(** [UplinkCtx]: the embedded [BaseCtx] has a [ReceivedAt] of its own, which the
    field of [UplinkCtx] shadows. *)
Record UplinkCtx := mkUplinkCtx {
  u_TraceID : string; u_Aborted : bool; u_AbortReason : string; u_BaseReceivedAt : Z;
  u_Session : positive; u_Conn : positive; u_Message : option positive; u_ReceivedAt : Z;
}.

Definition u_Abort (reason : string) (c : UplinkCtx) : UplinkCtx :=
  mkUplinkCtx (u_TraceID c) true reason (u_BaseReceivedAt c) (u_Session c) (u_Conn c) (u_Message c)
    (u_ReceivedAt c).
Definition u_set_TraceID (t : string) (c : UplinkCtx) : UplinkCtx :=
  mkUplinkCtx t (u_Aborted c) (u_AbortReason c) (u_BaseReceivedAt c) (u_Session c) (u_Conn c)
    (u_Message c) (u_ReceivedAt c).

(** The error frame of a code and a text. *)
Definition error_frame `{PayloadLib} (traceID : string) (ackID : option string) (code : Z)
    (text : string) : Message :=
  mkMessage FrameType_ERROR "" "" None None 0 0 None (Some (mkDelivery QosClass_UNSPECIFIED false ackID))
    (Some (mkTraceContext traceID))
    (Some (mkBody Codec_PROTOBUF CompressAlgo_NONE (marshal_ErrorPayload code text))).

(** [s[:n]] of a string panics beyond its length. *)
Definition str_prefix {S} (n : nat) (s : string) : M S string :=
  if decide (String.length s < n) then panic "slice bounds out of range"
  else mret (String.substring 0 n s).

Section uplink.
Context {TS : Type} `{Scheduler TS timeoutPayload unit} `{MapRange} `{PayloadLib}.
(** [RateLimiter], nil or its [Allow]. *)
Context (limiter : option (string → string → bool)).

Definition UW : Type := World TS * UplinkCtx.
Abbreviation MU := (M UW).

Definition inW {A} (m : M (World TS) A) : MU A := zoom fst (λ w s, (w, s.2)) m.
Definition on_ctx (f : UplinkCtx → UplinkCtx) : MU unit := modify (λ s, (s.1, f s.2)).
Definition abort (reason : string) : MU unit := on_ctx (u_Abort reason).

Definition ReplyError (code : Z) (text : string) : MU unit :=
  c ← gets snd;
  ack ← match u_Message c with
        | Some m => msg ← inW (get_msg m); mret (Some (m_MsgId msg))
        | None => mret None
        end;
  e ← inW (new_msg (error_frame (u_TraceID c) ack code text));
  inW (conn_Submit (u_Conn c) e) ≫= λ _, mret tt.

(** The current message; a nil pointer panics. *)
Definition ctx_msg : MU positive := o ← gets (λ s, u_Message s.2); deref o.

Definition RecoverStage : shape (W:=UW) := mkShape
  (mret true)
  (mret tt)
  (Some (λ why,
    c ← gets snd;
    inW (get_conn (u_Conn c)) ≫= λ _,
    m ← ctx_msg;
    inW (get_msg m) ≫= λ _,
    ReplyError 5000 "internal error" ≫= λ _, abort "panic")).

Definition ValidateStage : shape (W:=UW) := mkShape
  (c ← gets snd;
   match u_Message c with
   | None => abort "nil message" ≫= λ _, mret false
   | Some m =>
       msg ← inW (get_msg m);
       t ← gets (λ s, now s.1);
       if decide (m_MsgId msg = "") then
         ReplyError 4001 "msg_id is required" ≫= λ _,
         abort "missing msg_id" ≫= λ _, mret false
       else if IsExpired t (m_ExpireAt msg) then abort "expired" ≫= λ _, mret false
       else
         k ← inW (get_conn (u_Conn c));
         if conn_IsActive k then mret true
         else ReplyError 4010 "connection not active" ≫= λ _,
              abort "not active" ≫= λ _, mret false
   end)
  (mret tt) None.

Definition RateLimitStage : shape (W:=UW) := mkShape
  (match limiter with
   | None => mret true
   | Some Allow =>
       c ← gets snd;
       s ← inW (get_sess (u_Session c));
       m ← ctx_msg;
       msg ← inW (get_msg m);
       if Allow (userID s) (m_BizCode msg) then mret true
       else ReplyError 4290 "rate limit exceeded" ≫= λ _,
            abort "rate limited" ≫= λ _, mret false
   end)
  (mret tt) None.

Definition TraceStage : shape (W:=UW) := mkShape
  (m ← ctx_msg;
   msg ← inW (get_msg m);
   tc ← deref (m_TraceContext msg);
   t ← gets (λ s, now s.1);
   id ← (if decide (TraceId tc = "") then
           pre ← str_prefix 8 (m_MsgId msg);
           let id := "gw-" +:+ pretty t +:+ "-" +:+ pre in
           inW (on_msg m (set_TraceContext (Some (mkTraceContext id)))) ≫= λ _, mret id
         else mret (TraceId tc));
   on_ctx (u_set_TraceID id) ≫= λ _, mret true)
  (mret tt) None.

(** Only logging surrounds [next]. *)
Definition MetricsStage : shape (W:=UW) := mkShape (mret true) (mret tt) None.

(** The four headers and the sender [SubmitStage] writes. *)
Definition inject (k : Connection) (c : UplinkCtx) (msg : Message) : Message :=
  let msg := put_header "x-conn-id" (ConnID k) msg in
  let msg := put_header "x-device-type" (c_DeviceType k) msg in
  let msg := put_header "x-gw-recv-ts" (pretty (UnixMilli (u_ReceivedAt c))) msg in
  let msg := put_header "x-trace-id" (u_TraceID c) msg in
  match m_From msg with
  | None => set_From (Some (mkRouteTarget RouteTargetType_CONNECTION
                              (m_BizCode msg +:+ ":" +:+ c_UserID k))) msg
  | Some _ => msg
  end.

Definition SubmitStage : shape (W:=UW) := mkShape
  (m ← ctx_msg;
   c ← gets snd;
   k ← inW (get_conn (u_Conn c));
   inW (get_msg m) ≫= λ _,
   inW (on_msg m (inject k c)) ≫= λ _,
   e ← inW (SubmitUpstream (u_Session c) m);
   match e with
   | Some err =>
       ReplyError 5001 ("upstream unavailable: " +:+ err) ≫= λ _,
       abort "submit failed" ≫= λ _, mret false
   | None => mret true
   end)
  (mret tt) None.

Definition uplink_stages : list (shape (W:=UW)) :=
  [RecoverStage; ValidateStage; RateLimitStage; TraceStage; MetricsStage; SubmitStage].

Definition BuildChain : list (Stage (W:=UW)) := NewChain (stage_of <$> uplink_stages).

(** [ChainAdapter.Run]: a fresh context; [ReceivedAt] is only set in the
    embedded [BaseCtx]. *)
Definition newUplinkCtx (t : Z) (sess conn : positive) (msg : option positive) : UplinkCtx :=
  mkUplinkCtx "" false "" t sess conn msg zeroTime.

Definition ChainAdapter_Run (sess conn : positive) (msg : option positive) (w : World TS) :
    outcome unit * UW :=
  Run BuildChain (w, newUplinkCtx (now w) sess conn msg).
End uplink.
