(* ===== verification/UplinkSpec.v ===== *)
(** * Correctness of the uplink pipeline

    What becomes of a client message on every path through the six stages of
    [Uplink.v], and that no panic of a stage leaves the chain. *)

From stdpp Require Import base list gmap strings numbers pretty.
From S2P Require Import Prelude Timer Shard Message Codec Router World Connection Pool Session Demo Pipeline Uplink.

(** ** One shaped stage around the rest *)
Section wrapping.
Context {W : Type}.
Implicit Types (sh : shape (W:=W)) (rest : M W unit).

Lemma wrap_pass sh rest s s1 :
  before sh s = (Ret true, s1) → after sh = mret tt → recover sh = None → wrap sh rest s = rest s1.
Proof.
  intros Hb Ha Hr. unfold wrap. rewrite Hr, (bind_ret_run _ _ _ _ _ Hb), Ha, bind_run.
  by destruct (rest s1) as [[[]|] ?].
Qed.
Lemma wrap_stop sh rest s s1 :
  before sh s = (Ret false, s1) → recover sh = None → wrap sh rest s = (Ret tt, s1).
Proof. intros Hb Hr. unfold wrap. by rewrite Hr, (bind_ret_run _ _ _ _ _ Hb). Qed.
Lemma wrap_panic sh rest s s1 why :
  before sh s = (Panic why, s1) → recover sh = None → wrap sh rest s = (Panic why, s1).
Proof. intros Hb Hr. unfold wrap. by rewrite Hr, (bind_panic_run _ _ _ _ _ Hb). Qed.
End wrapping.

Section spec.
Context {TS : Type} `{Scheduler TS timeoutPayload unit} `{MapRange} `{PayloadLib}.
Context (limiter : option (string → string → bool)).
Implicit Types (w : World TS) (ctx : UplinkCtx).

Lemma inW_run {A} (m : M (World TS) A) w ctx r w' : m w = (r, w') → inW m (w, ctx) = (r, (w', ctx)).
Proof. intros E. unfold inW, zoom. simpl. by rewrite E. Qed.

Lemma inW_Ret {A B} (m : M (World TS) A) (f : A → M UW B) w ctx a w' :
  m w = (Ret a, w') → (inW m ≫= f) (w, ctx) = f a (w', ctx).
Proof. intros E. apply bind_ret_run. by apply inW_run. Qed.


(** The error reply for the message of the context: a fresh error frame,
    submitted to the connection itself. *)
Definition replied ctx (mid : string) (k : Connection) (code : Z) (text : string) w : World TS :=
  let e := fresh (dom (msgs w)) in
  after_submit (u_Conn ctx) e k
    (upd_msgs <[e := error_frame (u_TraceID ctx) (Some mid) code text]> w).

Lemma ReplyError_run w ctx m msg k code text :
  u_Message ctx = Some m → msgs w !! m = Some msg → conns w !! u_Conn ctx = Some k →
  ReplyError code text (w, ctx) = (Ret tt, (replied ctx (m_MsgId msg) k code text w, ctx)).
Proof.
  intros Em E Ek. unfold ReplyError. erewrite bind_ret_run; [|reflexivity]. cbn [snd].
  rewrite Em. rewrite bind_run. rewrite (inW_Ret _ _ _ _ _ _ (get_msg_run m w msg E)). cbn.
  erewrite inW_Ret; [|reflexivity].
  erewrite inW_Ret; [|apply conn_Submit_run; simpl; exact Ek]. done.
Qed.

(** ** What the stages before [SubmitStage] let through *)
Definition valid_uplink w (m : positive) (c : positive) (msg : Message) (k : Connection) : Prop :=
  msgs w !! m = Some msg ∧ conns w !! c = Some k ∧ m_MsgId msg ≠ "" ∧
  IsExpired (now w) (m_ExpireAt msg) = false ∧ conn_IsActive k = true.

Definition allowed (s : Session) (msg : Message) : bool :=
  match limiter with None => true | Some Allow => Allow (userID s) (m_BizCode msg) end.

Definition traceable (msg : Message) : bool :=
  match m_TraceContext msg with
  | Some tc => bool_decide (TraceId tc ≠ "") || bool_decide (8 ≤ String.length (m_MsgId msg))
  | None => false
  end.

(** The trace ID a message leaves [TraceStage] with. *)
Definition trace_of (t : Z) (msg : Message) : string :=
  match m_TraceContext msg with
  | Some tc => if decide (TraceId tc = "")
               then "gw-" +:+ pretty t +:+ "-" +:+ String.substring 0 8 (m_MsgId msg) else TraceId tc
  | None => ""
  end.

Lemma ValidateStage_pass w ctx m msg k :
  u_Message ctx = Some m → valid_uplink w m (u_Conn ctx) msg k →
  before ValidateStage (w, ctx) = (Ret true, (w, ctx)).
Proof.
  intros Em (E & Ek & Hid & Hexp & Hact). cbn [before ValidateStage].
  erewrite bind_ret_run; [|reflexivity]. cbn [snd]. rewrite Em.
  rewrite (inW_Ret _ _ _ _ _ _ (get_msg_run m w msg E)).
  erewrite bind_ret_run; [|reflexivity]. cbn [fst]. rewrite decide_False by done. rewrite Hexp.
  rewrite (inW_Ret _ _ _ _ _ _ (get_conn_run _ w k Ek)). by rewrite Hact.
Qed.

Lemma RateLimitStage_run w ctx m msg k s :
  u_Message ctx = Some m → msgs w !! m = Some msg → conns w !! u_Conn ctx = Some k →
  sessions w !! u_Session ctx = Some s →
  before (RateLimitStage limiter) (w, ctx) =
    if allowed s msg then (Ret true, (w, ctx))
    else (Ret false, (replied ctx (m_MsgId msg) k 4290 "rate limit exceeded" w,
                      u_Abort "rate limited" ctx)).
Proof.
  intros Em E Ek Es. cbn [before RateLimitStage]. unfold allowed.
  destruct limiter as [Allow|]; [|done].
  erewrite bind_ret_run; [|reflexivity]. cbn [snd].
  rewrite (inW_Ret _ _ _ _ _ _ (get_sess_run _ w s Es)).
  unfold ctx_msg. erewrite bind_ret_run; [|unfold gets; cbn; rewrite bind_run; cbn; by rewrite Em].
  rewrite (inW_Ret _ _ _ _ _ _ (get_msg_run m w msg E)).
  destruct (Allow (userID s) (m_BizCode msg)); [done|].
  rewrite (bind_ret_run _ _ _ _ _ (ReplyError_run w ctx m msg k _ _ Em E Ek)). done.
Qed.

(** The message after [TraceStage]: a generated trace ID is written into it. *)
Definition traced (t : Z) (msg : Message) : Message :=
  match m_TraceContext msg with
  | Some tc => if decide (TraceId tc = "")
               then set_TraceContext (Some (mkTraceContext (trace_of t msg))) msg else msg
  | None => msg
  end.

Lemma TraceStage_pass w ctx m msg :
  u_Message ctx = Some m → msgs w !! m = Some msg → traceable msg = true →
  before TraceStage (w, ctx) =
    (Ret true, (upd_msgs <[m := traced (now w) msg]> w, u_set_TraceID (trace_of (now w) msg) ctx)).
Proof.
  intros Em E Ht. cbn [before TraceStage]. unfold ctx_msg, traceable, traced, trace_of in *.
  erewrite bind_ret_run; [|unfold gets; cbn; rewrite bind_run; cbn; by rewrite Em].
  rewrite (inW_Ret _ _ _ _ _ _ (get_msg_run m w msg E)).
  destruct (m_TraceContext msg) as [tc|] eqn:Etc; [|done].
  erewrite bind_ret_run; [|reflexivity]. erewrite bind_ret_run; [|reflexivity]. cbn [fst].
  destruct (decide (TraceId tc = "")) as [D|D].
  - rewrite bool_decide_false in Ht by naive_solver. cbn [orb] in Ht.
    apply bool_decide_eq_true in Ht. unfold str_prefix. rewrite decide_False by lia.
    rewrite bind_run. erewrite bind_ret_run; [|reflexivity].
    erewrite inW_Ret; [|reflexivity]. cbn. do 3 f_equal.
    unfold upd_msgs. f_equal. by rewrite (alter_Some _ _ m msg E).
  - rewrite bind_run. cbn. do 3 f_equal. destruct w. unfold upd_msgs. cbn in *. by rewrite insert_id.
Qed.

(** ** [SubmitStage] *)
Definition biz_of (s : Session) (msg : Message) : string :=
  if decide (m_BizCode msg = "") then s_BizCode s else m_BizCode msg.

(** [Session.SubmitUpstream] panics: [Deps.Worker] was never set, or the channel
    of the business domain is closed. *)
Definition submit_panics w (s : Session) (msg : Message) : bool :=
  bool_decide (biz_of s msg ≠ "") &&
  (negb (d_Worker (deps s)) ||
   match pools w !! biz_of s msg with Some pool => pool_closed pool | None => false end).

(** The answer of [Session.SubmitUpstream] otherwise. *)
Definition upstream_answer w (s : Session) (msg : Message) : error :=
  if decide (biz_of s msg = "") then Some "session: empty biz_code"
  else match pools w !! biz_of s msg with
       | None => Some "ErrUnknownBizCode"
       | Some pool => if decide (length (upstreamCh pool) < pool_cap) then None
                      else Some "worker: pool channel full"
       end.

(** The job is appended to the queue of its business domain. *)
Definition enqueued (p m : positive) (s : Session) (msg : Message) w : World TS :=
  upd_pools (alter (λ pool, upd_upstreamCh (upstreamCh pool ++ [mkUpJob (ref_of p s) m]) pool)
    (biz_of s msg)) w.

Definition pools_open w : Prop := ∀ b pool, pools w !! b = Some pool → pool_closed pool = false.

Lemma submit_panics_wired w s msg : d_Worker (deps s) = true → pools_open w → submit_panics w s msg = false.
Proof.
  intros Hw Hopen. unfold submit_panics. rewrite Hw. apply andb_false_iff. right.
  destruct (pools w !! biz_of s msg) eqn:E; [by apply (Hopen _ _ E)|done].
Qed.

Lemma SubmitUpstream_run p m w s msg :
  sessions w !! p = Some s → msgs w !! m = Some msg → submit_panics w s msg = false →
  SubmitUpstream p m w =
    (Ret (upstream_answer w s msg),
     match upstream_answer w s msg with None => enqueued p m s msg w | Some _ => w end).
Proof.
  intros Es E Hp. unfold SubmitUpstream, mgr_SubmitUpstream, pool_SubmitUpstream,
    upstream_answer, enqueued. fold (biz_of s msg). mrun. rewrite Es, E. fold (biz_of s msg).
  unfold submit_panics in Hp. destruct (decide (biz_of s msg = "")); [done|].
  rewrite bool_decide_true in Hp by done. apply orb_false_iff in Hp as [Hw%negb_false_iff Hp]. rewrite Hw.
  destruct (pools w !! biz_of s msg) as [pool|] eqn:Ep; [|done].
  rewrite Hp. case_decide; [|done]. rewrite (on_pool_run _ _ _ _ Ep). cbn [fst snd]. f_equal.
  unfold upd_pools. f_equal. by rewrite (alter_Some _ _ _ _ Ep).
Qed.

Lemma SubmitUpstream_panics p m w s msg :
  sessions w !! p = Some s → msgs w !! m = Some msg → submit_panics w s msg = true →
  ∃ why, SubmitUpstream p m w = (Panic why, w).
Proof.
  intros Es E [Hb Hp]%andb_true_iff. unfold SubmitUpstream, mgr_SubmitUpstream, pool_SubmitUpstream.
  mrun. rewrite Es, E. fold (biz_of s msg). apply bool_decide_eq_true in Hb. rewrite decide_False by done.
  destruct (d_Worker (deps s)); [|by eexists]. cbn in Hp. destruct (pools w !! biz_of s msg) as [pool|]; [|done].
  rewrite Hp. by eexists.
Qed.

Lemma SubmitStage_run w ctx m msg k s :
  u_Message ctx = Some m → msgs w !! m = Some msg → conns w !! u_Conn ctx = Some k →
  sessions w !! u_Session ctx = Some s → submit_panics w s msg = false →
  let w1 := upd_msgs <[m := inject k ctx msg]> w in
  before SubmitStage (w, ctx) =
    match upstream_answer w s msg with
    | None => (Ret true, (enqueued (u_Session ctx) m s msg w1, ctx))
    | Some e => (Ret false, (replied ctx (m_MsgId msg) k 5001 ("upstream unavailable: " +:+ e) w1,
                             u_Abort "submit failed" ctx))
    end.
Proof.
  intros Em E Ek Es Hp w1. cbn [before SubmitStage]. unfold ctx_msg.
  erewrite bind_ret_run; [|unfold gets; cbn; rewrite bind_run; cbn; by rewrite Em].
  erewrite bind_ret_run; [|reflexivity]. cbn [snd].
  rewrite (inW_Ret _ _ _ _ _ _ (get_conn_run _ w k Ek)).
  rewrite (inW_Ret _ _ _ _ _ _ (get_msg_run m w msg E)).
  assert (on_msg m (inject k ctx) w = (Ret tt, w1)) as E1.
  { unfold w1, on_msg, modify, upd_msgs. by rewrite (alter_Some _ _ m msg E). }
  rewrite (inW_Ret _ _ _ _ _ _ E1).
  assert (m_MsgId (inject k ctx msg) = m_MsgId msg ∧ m_BizCode (inject k ctx msg) = m_BizCode msg)
    as [Hid Hbiz] by (unfold inject; simpl; by destruct (m_From msg)).
  assert (msgs w1 !! m = Some (inject k ctx msg)) as Em1 by apply lookup_insert_eq.
  assert (upstream_answer w1 s (inject k ctx msg) = upstream_answer w s msg) as Ea
    by (unfold upstream_answer, biz_of; by rewrite Hbiz).
  assert (submit_panics w1 s (inject k ctx msg) = false) as Hp1
    by (rewrite <-Hp; unfold submit_panics, biz_of; by rewrite Hbiz).
  rewrite (inW_Ret _ _ _ _ _ _ (SubmitUpstream_run (u_Session ctx) m w1 s _ Es Em1 Hp1)).
  rewrite Ea. destruct (upstream_answer w s msg) as [e|].
  - rewrite (bind_ret_run _ _ _ _ _ (ReplyError_run w1 ctx m (inject k ctx msg) k _ _ Em Em1 Ek)).
    by rewrite Hid.
  - unfold enqueued, biz_of. by rewrite Hbiz.
Qed.

(** ** The chain *)
Definition inner : list (shape (W:=UW (TS:=TS))) :=
  [ValidateStage; RateLimitStage limiter; TraceStage; MetricsStage; SubmitStage].

Lemma ChainAdapter_inner p c om w s' :
  compose inner (w, newUplinkCtx (now w) p c om) = (Ret tt, s') →
  ChainAdapter_Run limiter p c om w = (Ret tt, s').
Proof.
  intros E. unfold ChainAdapter_Run, BuildChain, NewChain. rewrite Run_compose.
  change (compose (uplink_stages limiter)) with (wrap RecoverStage (compose inner)).
  unfold wrap. cbn [recover RecoverStage before after]. unfold with_recover.
  rewrite (bind_ret_run (mret true) _ _ _ true eq_refl), bind_run, E. done.
Qed.

Lemma compose_cons (sh : shape (W:=UW (TS:=TS))) l : compose (sh :: l) = wrap sh (compose l).
Proof. reflexivity. Qed.

Lemma traced_same t msg :
  m_MsgId (traced t msg) = m_MsgId msg ∧ m_BizCode (traced t msg) = m_BizCode msg.
Proof. unfold traced. by repeat case_match. Qed.

Lemma upstream_answer_msgs f w s msg : upstream_answer (upd_msgs f w) s msg = upstream_answer w s msg.
Proof. reflexivity. Qed.

(** The context [SubmitStage] sees. *)
Definition traced_ctx w p c m (msg : Message) : UplinkCtx :=
  u_set_TraceID (trace_of (now w) msg) (newUplinkCtx (now w) p c (Some m)).

Lemma compose_to_submit w p c m msg k s :
  valid_uplink w m c msg k → sessions w !! p = Some s → allowed s msg = true → traceable msg = true →
  compose inner (w, newUplinkCtx (now w) p c (Some m)) =
  wrap SubmitStage (mret tt) (upd_msgs <[m := traced (now w) msg]> w, traced_ctx w p c m msg).
Proof.
  intros Hv Es Hal Htr. unfold inner. rewrite !compose_cons.
  erewrite wrap_pass; [|by eapply (ValidateStage_pass w (newUplinkCtx (now w) p c (Some m)))|done..].
  pose proof Hv as (E & Ek & _).
  erewrite wrap_pass; [|erewrite RateLimitStage_run; [|done..]; by rewrite Hal|done..].
  erewrite wrap_pass; [|by eapply (TraceStage_pass _ (newUplinkCtx (now w) p c (Some m)))|done..].
  erewrite wrap_pass; [|reflexivity|done..]. done.
Qed.

(** ** Rejections by [ValidateStage] *)
Lemma ValidateStage_stop w p c m msg k :
  msgs w !! m = Some msg → conns w !! c = Some k →
  (m_MsgId msg = "" ∨ IsExpired (now w) (m_ExpireAt msg) = true ∨ conn_IsActive k = false) →
  let ctx := newUplinkCtx (now w) p c (Some m) in
  before ValidateStage (w, ctx) =
    if decide (m_MsgId msg = "") then
      (Ret false, (replied ctx (m_MsgId msg) k 4001 "msg_id is required" w, u_Abort "missing msg_id" ctx))
    else if IsExpired (now w) (m_ExpireAt msg) then (Ret false, (w, u_Abort "expired" ctx))
    else (Ret false, (replied ctx (m_MsgId msg) k 4010 "connection not active" w,
                      u_Abort "not active" ctx)).
Proof.
  intros E Ek Hbad ctx. cbn [before ValidateStage]. erewrite bind_ret_run; [|reflexivity]. cbn [snd].
  change (u_Message ctx) with (Some m). cbv iota.
  rewrite (inW_Ret _ _ _ _ _ _ (get_msg_run m w msg E)).
  erewrite bind_ret_run; [|reflexivity]. cbn [fst]. destruct (decide (m_MsgId msg = "")) as [D|D].
  - rewrite (bind_ret_run _ _ _ _ _ (ReplyError_run w ctx m msg k _ _ eq_refl E Ek)). done.
  - destruct (IsExpired (now w) (m_ExpireAt msg)) eqn:Hx; [done|].
    rewrite (inW_Ret _ _ _ _ _ _ (get_conn_run c w k Ek)).
    destruct (conn_IsActive k) eqn:Ha; [naive_solver|].
    by rewrite (bind_ret_run _ _ _ _ _ (ReplyError_run w ctx m msg k _ _ eq_refl E Ek)).
Qed.
End spec.

(** ** No panic leaves the chain *)
Section containment.
Context {TS : Type} `{Scheduler TS timeoutPayload unit} `{MapRange} `{PayloadLib}.
Context (limiter : option (string → string → bool)).

(** Nothing is ever freed. *)
Definition alloc_le (w w' : World TS) : Prop :=
  (∀ m, is_Some (msgs w !! m) → is_Some (msgs w' !! m)) ∧
  (∀ c, is_Some (conns w !! c) → is_Some (conns w' !! c)).

#[export] Instance alloc_le_preorder : PreOrder alloc_le.
Proof. split; [by split|]. intros w1 w2 w3 [A1 A2] [B1 B2]. split; eauto. Qed.

Lemma alloc_on_msg m f : preserves alloc_le (on_msg m f).
Proof.
  apply preserves_modify. intros w. split; simpl; [|done]. intros m'.
  rewrite lookup_alter. case_decide; [subst|done]. intros [x ->]. simpl. eauto.
Qed.
Lemma alloc_on_conn c f : preserves alloc_le (on_conn c f).
Proof.
  apply preserves_modify. intros w. split; simpl; [done|]. intros c'.
  rewrite lookup_alter. case_decide; [subst|done]. intros [x ->]. simpl. eauto.
Qed.
Lemma alloc_new_msg m : preserves alloc_le (new_msg m).
Proof.
  intros w. split; simpl; [|done]. intros m' [x E]. rewrite lookup_insert. case_decide; eauto.
Qed.
Lemma alloc_upd_pools f : preserves alloc_le (modify (upd_pools f)).
Proof. apply preserves_modify. by intros w. Qed.
#[local] Hint Resolve alloc_on_msg alloc_on_conn alloc_new_msg alloc_upd_pools : gw.

Lemma alloc_get_msg m : preserves alloc_le (get_msg m).
Proof. unfold get_msg. preserves_tac. Qed.
Lemma alloc_get_conn c : preserves alloc_le (get_conn c).
Proof. unfold get_conn. preserves_tac. Qed.
Lemma alloc_get_sess p : preserves alloc_le (get_sess p).
Proof. unfold get_sess. preserves_tac. Qed.
#[local] Hint Resolve alloc_get_msg alloc_get_conn alloc_get_sess : gw.

Lemma alloc_conn_Submit c m : preserves alloc_le (conn_Submit c m).
Proof. unfold conn_Submit, enqueue. preserves_tac. Qed.
Lemma alloc_SubmitUpstream p m : preserves alloc_le (SubmitUpstream p m).
Proof. unfold SubmitUpstream, mgr_SubmitUpstream, pool_SubmitUpstream, on_pool. preserves_tac. Qed.
#[local] Hint Resolve alloc_conn_Submit alloc_SubmitUpstream : gw.

(** The stages keep what the deferred handler needs: the pointers of the
    context and the objects behind them. *)
Definition ctx_le (s s' : UW (TS:=TS)) : Prop :=
  alloc_le s.1 s'.1 ∧ u_Conn s'.2 = u_Conn s.2 ∧ u_Message s'.2 = u_Message s.2 ∧
  u_Session s'.2 = u_Session s.2.

#[export] Instance ctx_le_preorder : PreOrder ctx_le.
Proof.
  split; [by split|]. intros s1 s2 s3 (A1 & A2 & A3 & A4) (B1 & B2 & B3 & B4).
  split_and!; [by etrans|congruence..].
Qed.

Lemma ctx_inW {A} (m : M (World TS) A) : preserves alloc_le m → preserves ctx_le (inW m).
Proof.
  intros Hm [w ctx]. unfold inW, zoom. simpl. specialize (Hm w). destruct (m w) as [r w'].
  by split.
Qed.
Lemma ctx_on_ctx f : (∀ c, u_Conn (f c) = u_Conn c ∧ u_Message (f c) = u_Message c ∧
  u_Session (f c) = u_Session c) → preserves ctx_le (on_ctx f).
Proof. intros Hf. apply preserves_modify. intros [w c]. split; simpl; [done|apply Hf]. Qed.
Lemma ctx_abort r : preserves ctx_le (abort r).
Proof. by apply ctx_on_ctx. Qed.
Lemma ctx_trace t : preserves ctx_le (on_ctx (u_set_TraceID t)).
Proof. by apply ctx_on_ctx. Qed.
#[local] Hint Resolve ctx_abort ctx_trace : gw.
#[local] Hint Extern 2 (preserves ctx_le (inW _)) => apply ctx_inW; auto with gw : gw.

Lemma ctx_ReplyError code text : preserves ctx_le (ReplyError code text).
Proof. unfold ReplyError. preserves_tac. Qed.
Lemma ctx_ctx_msg : preserves ctx_le ctx_msg.
Proof. unfold ctx_msg. preserves_tac. Qed.
#[local] Hint Resolve ctx_ReplyError ctx_ctx_msg : gw.

Lemma ctx_wrap sh rest : recover sh = None → preserves ctx_le (before sh) →
  preserves ctx_le (after sh) → preserves ctx_le rest → preserves ctx_le (wrap sh rest).
Proof. intros Hr Hb Ha Hrest. unfold wrap. rewrite Hr. preserves_tac. Qed.

Lemma inner_ctx_le : preserves ctx_le (compose (inner limiter)).
Proof.
  unfold inner. rewrite !compose_cons. repeat (apply ctx_wrap; [done|..]); try (simpl; auto with gw; fail).
  - simpl. preserves_tac.
  - simpl. preserves_tac.
  - simpl. unfold str_prefix. preserves_tac.
  - simpl. preserves_tac.
Qed.

(** The deferred handler answers 5000 whatever panicked. *)
Lemma ChainAdapter_recovered p c om (w : World TS) why (w' : World TS) ctx' m msg k :
  compose (inner limiter) (w, newUplinkCtx (now w) p c om) = (Panic why, (w', ctx')) →
  u_Message ctx' = Some m → msgs w' !! m = Some msg → conns w' !! u_Conn ctx' = Some k →
  ChainAdapter_Run limiter p c om w =
    (Ret tt, (replied ctx' (m_MsgId msg) k 5000 "internal error" w', u_Abort "panic" ctx')).
Proof.
  intros E Em Emsg Ek. unfold ChainAdapter_Run, BuildChain, NewChain. rewrite Run_compose.
  change (compose (uplink_stages limiter)) with
    (wrap (RecoverStage (TS:=TS)) (compose (inner limiter))).
  unfold wrap. cbn [recover RecoverStage before after]. unfold with_recover.
  rewrite (bind_ret_run (mret true) _ _ _ true eq_refl), bind_run, E.
  erewrite bind_ret_run; [|reflexivity]. cbn [snd].
  rewrite (inW_Ret _ _ _ _ _ _ (get_conn_run _ w' k Ek)).
  unfold ctx_msg. erewrite bind_ret_run; [|unfold gets; cbn; rewrite bind_run; cbn; by rewrite Em].
  rewrite (inW_Ret _ _ _ _ _ _ (get_msg_run m w' msg Emsg)).
  by rewrite (bind_ret_run _ _ _ _ _ (ReplyError_run w' ctx' m msg k _ _ Em Emsg Ek)).
Qed.
End containment.


(** Error payloads that travel as their code. *)
Definition demo_payload : PayloadLib := {| marshal_ErrorPayload := λ code _, [code] |}.

Lemma demo_valid : valid_uplink demo_world 1 1 demo_msg demo_conn.
Proof. split_and!; try reflexivity. discriminate. Qed.
Lemma demo_pools_open : pools_open demo_world.
Proof. intros b pool. simpl. rewrite lookup_singleton_Some. by intros [_ <-]. Qed.

(** What the chain leaves of a message that reaches its last stage. *)
Section last_stage.
Context {TS : Type} `{Scheduler TS timeoutPayload unit} `{MapRange} `{PayloadLib}.
Context (limiter : option (string → string → bool)) (w : World TS) (p c m : positive).
Context (msg : Message) (k : Connection) (s : Session).

Definition uplink_result : UW :=
  let ctx := traced_ctx w p c m msg in
  let w1 := upd_msgs <[m := inject k ctx (traced (now w) msg)]> w in
  if submit_panics w s msg then
    (replied ctx (m_MsgId msg) k 5000 "internal error" w1, u_Abort "panic" ctx)
  else match upstream_answer w s msg with
       | None => (enqueued p m s msg w1, ctx)
       | Some e => (replied ctx (m_MsgId msg) k 5001 ("upstream unavailable: " +:+ e) w1,
                    u_Abort "submit failed" ctx)
       end.

Context (Hv : valid_uplink w m c msg k) (Es : sessions w !! p = Some s).
Context (Hal : allowed limiter s msg = true) (Htr : traceable msg = true).

(** [SubmitUpstream] is called after the headers were set. *)
Lemma submitted_world : let ctx := traced_ctx w p c m msg in
  let w0 := upd_msgs <[m := traced (now w) msg]> w in
  let w1 := upd_msgs <[m := inject k ctx (traced (now w) msg)]> w in
  ∃ f, before SubmitStage (w0, ctx) = (inW (SubmitUpstream p m) ≫= f) (w1, ctx).
Proof using Hv.
  intros ctx w0 w1. destruct Hv as (E & Ek & _). eexists. cbn [before SubmitStage]. unfold ctx_msg.
  erewrite bind_ret_run; [|reflexivity]. erewrite bind_ret_run; [|reflexivity]. cbn [snd].
  rewrite (inW_Ret _ _ _ _ _ _ (get_conn_run c w0 k Ek)).
  rewrite (inW_Ret _ _ _ _ _ _ (get_msg_run m w0 _ (lookup_insert_eq _ _ _))).
  rewrite (inW_Ret _ _ _ _ tt w1); [reflexivity|].
  unfold w1, w0, on_msg, modify, upd_msgs. simpl.
  by rewrite (alter_Some _ _ m _ (lookup_insert_eq _ _ _)), insert_insert_eq.
Qed.

Lemma uplink_run : ChainAdapter_Run limiter p c (Some m) w = (Ret tt, uplink_result).
Proof using Hv Es Hal Htr.
  unfold uplink_result. cbv zeta. pose proof Hv as (E & Ek & _).
  pose proof (compose_to_submit limiter w p c m msg k s Hv Es Hal Htr) as Hc.
  destruct (traced_same (now w) msg) as [Hid Hbiz]. set (ctx := traced_ctx w p c m msg) in *.
  set (w0 := upd_msgs <[m := traced (now w) msg]> w) in *.
  assert (submit_panics w0 s (traced (now w) msg) = submit_panics w s msg) as Ep
    by (unfold submit_panics, biz_of; by rewrite Hbiz).
  destruct (submit_panics w s msg) eqn:Hp.
  - set (msg1 := inject k ctx (traced (now w) msg)). set (w1 := upd_msgs <[m := msg1]> w).
    assert (m_MsgId msg1 = m_MsgId msg ∧ m_BizCode msg1 = m_BizCode msg) as [Hid1 Hbiz1].
    { rewrite <-Hid, <-Hbiz. unfold msg1, inject. simpl. by destruct (m_From _). }
    assert (msgs w1 !! m = Some msg1) as Em1 by apply lookup_insert_eq.
    assert (submit_panics w1 s msg1 = true) as Ep1
      by (rewrite <-Hp; unfold submit_panics, biz_of; by rewrite Hbiz1).
    destruct (SubmitUpstream_panics p m w1 s msg1 Es Em1 Ep1) as [why Hpanic].
    destruct submitted_world as [f Hsub]. rewrite <-Hid1.
    eapply ChainAdapter_recovered; [|reflexivity|exact Em1|exact Ek].
    rewrite Hc. eapply wrap_panic; [|reflexivity]. etrans; [exact Hsub|].
    apply bind_panic_run, inW_run. exact Hpanic.
  - apply ChainAdapter_inner. rewrite Hc.
    assert (upstream_answer w0 s (traced (now w) msg) = upstream_answer w s msg) as Ea
      by (unfold upstream_answer, biz_of; by rewrite Hbiz).
    pose proof (SubmitStage_run w0 ctx m (traced (now w) msg) k s
      eq_refl (lookup_insert_eq _ _ _) Ek Es Ep) as Hs.
    rewrite Ea, Hid in Hs.
    assert (∀ x, upd_msgs <[m := x]> w0 = upd_msgs <[m := x]> w) as Eu.
    { intros x. unfold w0, upd_msgs. simpl. by rewrite insert_insert_eq. }
    cbv zeta in Hs. rewrite Eu in Hs.
    destruct (upstream_answer w s msg) as [e|].
    + by rewrite (wrap_stop _ _ _ _ Hs).
    + rewrite (wrap_pass _ _ _ _ Hs) by done. unfold enqueued, biz_of. by rewrite Hbiz.
Qed.
End last_stage.

(** ** Claims *)

(** C16.  What becomes of a message that is valid (it has an ID, is not expired,
    came over an active connection, passed the limiter, can be traced), on every
    branch of the last stage.  When the session names no business domain and
    the message neither, or the domain is unknown or its queue full, nothing is
    queued and the client's connection is handed one error frame 5001 with the
    reason (error frames are dropped when its queue is full).  When the
    session was made without [Deps.Worker] - as the gateway makes every session
    - or the channel of the domain is closed, the call panics, the recover
    stage answers with one error frame 5000, and nothing is queued.  Otherwise
    the message is handed over exactly once: it carries the gateway's headers
    and sender, its job is appended to the queue of its business domain, and
    nothing is sent. *)
Theorem uplink_forwards_or_reports {TS : Type} `{Scheduler TS timeoutPayload unit} `{MapRange}
    `{PayloadLib} (limiter : option (string → string → bool)) (w : World TS) p c m msg k s :
  valid_uplink w m c msg k → sessions w !! p = Some s → allowed limiter s msg = true →
  traceable msg = true →
  let ctx := traced_ctx w p c m msg in
  let w1 := upd_msgs <[m := inject k ctx (traced (now w) msg)]> w in
  let biz := biz_of s msg in
  ChainAdapter_Run limiter p c (Some m) w =
    (Ret tt,
     let refused why := (replied ctx (m_MsgId msg) k 5001 ("upstream unavailable: " +:+ why) w1,
                         u_Abort "submit failed" ctx) in
     let failed := (replied ctx (m_MsgId msg) k 5000 "internal error" w1, u_Abort "panic" ctx) in
     if decide (biz = "") then refused "session: empty biz_code"
     else if negb (d_Worker (deps s)) then failed
     else match pools w !! biz with
          | None => refused "ErrUnknownBizCode"
          | Some pool =>
              if pool_closed pool then failed
              else if decide (length (upstreamCh pool) < pool_cap) then (enqueued p m s msg w1, ctx)
              else refused "worker: pool channel full"
          end).
Proof.
  intros Hv Es Hal Htr ctx w1 biz. rewrite (uplink_run limiter w p c m msg k s Hv Es Hal Htr).
  unfold uplink_result, submit_panics, upstream_answer. fold biz. cbv zeta.
  destruct (decide (biz = "")) as [D|D]; [by rewrite bool_decide_false by naive_solver|].
  rewrite bool_decide_true by done. destruct (d_Worker (deps s)); [|done]. cbn [negb andb orb].
  destruct (pools w !! biz) as [pool|]; [|done]. destruct (pool_closed pool); [done|]. by case_decide.
Qed.

Lemma uplink_forwards_or_reports_witness :
  ∃ w' ctx, ChainAdapter_Run (H1:=demo_payload) None 1 1 (Some 1%positive) demo_world = (Ret tt, (w', ctx)) ∧
    (upstreamCh <$> pools w' !! "im") = Some [mkUpJob demo_ref 1] ∧
    (get_header "x-conn-id" <$> msgs w' !! 1%positive) = Some "c1".
Proof.
  rewrite (uplink_forwards_or_reports (H1:=demo_payload) None demo_world 1 1 1 demo_msg demo_conn demo_session
    demo_valid eq_refl eq_refl eq_refl).
  eexists _, _. split; [vm_compute; reflexivity|]. vm_compute. split; reflexivity.
Defined.

(** No panic leaves the uplink chain: for every message of an allocated
    connection, and also for a nil message, [Run] returns. *)
Theorem uplink_never_panics {TS : Type} `{Scheduler TS timeoutPayload unit} `{MapRange}
    `{PayloadLib} (limiter : option (string → string → bool)) (w : World TS) p c om :
  is_Some (conns w !! c) → (∀ m, om = Some m → is_Some (msgs w !! m)) →
  ∃ s', ChainAdapter_Run limiter p c om w = (Ret tt, s').
Proof.
  intros Hc Hm.
  destruct (compose (inner limiter) (w, newUplinkCtx (now w) p c om)) as [[[]|why] [w' ctx']] eqn:E.
  - eexists. by apply ChainAdapter_inner.
  - destruct om as [m|].
    + pose proof (inner_ctx_le limiter (w, newUplinkCtx (now w) p c (Some m))) as Hle.
      rewrite E in Hle. destruct Hle as ((Hms & Hcs) & Ec & Em & _). simpl in *.
      destruct (Hms m (Hm m eq_refl)) as [msg Emsg], (Hcs c Hc) as [k Ek].
      eexists. eapply ChainAdapter_recovered; [exact E|exact Em|exact Emsg|by rewrite Ec].
    + exfalso. revert E. unfold inner. rewrite compose_cons. by erewrite wrap_stop.
Qed.

Lemma uplink_never_panics_witness :
  ∃ s', ChainAdapter_Run (H1:=demo_payload) None 7 1 (Some 1%positive)
    (demo demo_session demo_conn zeroMessage) = (Ret tt, s').
Proof.
  apply (uplink_never_panics (H1:=demo_payload) None (demo demo_session demo_conn zeroMessage) 7 1).
  - by eexists.
  - intros m [= <-]. by eexists.
Defined.

(** The timestamp header [x-gw-recv-ts] of every forwarded message is that
    of the zero time, not of the reception: [ChainAdapter.Run] sets the field of
    the embedded context and [SubmitStage] reads the one that shadows it. *)
Theorem uplink_recv_ts_is_zero_time {TS : Type} (w : World TS) p c m msg k :
  get_header "x-gw-recv-ts" (inject k (traced_ctx w p c m msg) (traced (now w) msg)) = "-62135596800000".
Proof.
  unfold inject. cbv zeta.
  set (msg1 := put_header "x-device-type" _ _). clearbody msg1.
  assert (get_header "x-gw-recv-ts" (put_header "x-trace-id" (u_TraceID (traced_ctx w p c m msg))
    (put_header "x-gw-recv-ts" (pretty (UnixMilli (u_ReceivedAt (traced_ctx w p c m msg)))) msg1))
    = "-62135596800000") as E.
  { rewrite put_header_get_ne by done. rewrite put_header_get. vm_compute. reflexivity. }
  case_match; exact E.
Qed.

(** A message [ValidateStage] rejects is not forwarded: nothing is queued
    upstream.  Without ID the client gets one error frame 4001; an expired
    message is dropped silently; on a connection that is not active the reply
    4010 is attempted on that same connection, which refuses it. *)
Theorem uplink_rejects_invalid {TS : Type} `{Scheduler TS timeoutPayload unit} `{MapRange}
    `{PayloadLib} (limiter : option (string → string → bool)) (w : World TS) p c m msg k :
  msgs w !! m = Some msg → conns w !! c = Some k →
  m_MsgId msg = "" ∨ IsExpired (now w) (m_ExpireAt msg) = true ∨ conn_IsActive k = false →
  let ctx := newUplinkCtx (now w) p c (Some m) in
  ∃ w' ctx', ChainAdapter_Run limiter p c (Some m) w = (Ret tt, (w', ctx')) ∧
    u_Aborted ctx' = true ∧ pools w' = pools w ∧ sessions w' = sessions w ∧
    w' = if decide (m_MsgId msg = "") then replied ctx "" k 4001 "msg_id is required" w
         else if IsExpired (now w) (m_ExpireAt msg) then w
         else replied ctx (m_MsgId msg) k 4010 "connection not active" w.
Proof.
  intros E Ek Hbad ctx. pose proof (ValidateStage_stop w p c m msg k E Ek Hbad) as Hs. cbv zeta in Hs.
  fold ctx in Hs.
  assert (∀ s', before ValidateStage (w, ctx) = (Ret false, s') →
    ChainAdapter_Run limiter p c (Some m) w = (Ret tt, s')) as Hrun.
  { intros s' Hb. apply ChainAdapter_inner. unfold inner. rewrite compose_cons. by erewrite wrap_stop. }
  destruct (decide (m_MsgId msg = "")) as [D|D]; [rewrite D in Hs|destruct (IsExpired _ _)];
    (eexists _, _; split; [exact (Hrun _ Hs)|]); done.
Qed.

Lemma uplink_rejects_invalid_witness :
  ∃ w' ctx', ChainAdapter_Run (H1:=demo_payload) None 1 1 (Some 1%positive)
      (demo demo_session demo_conn zeroMessage) = (Ret tt, (w', ctx')) ∧
    u_Aborted ctx' = true ∧ (upstreamCh <$> pools w' !! "im") = Some [] ∧
    (writeCh <$> conns w' !! 1%positive) = Some [2%positive] ∧
    ((λ e, b_Data <$> m_Body e) <$> msgs w' !! 2%positive) = Some (Some [4001%Z]).
Proof.
  destruct (uplink_rejects_invalid (H1:=demo_payload) None (demo demo_session demo_conn zeroMessage) 1 1 1
    zeroMessage demo_conn eq_refl eq_refl (or_introl eq_refl)) as (w' & ctx' & E & Ha & _ & _ & Ew).
  exists w', ctx'. split; [exact E|]. split; [exact Ha|]. rewrite Ew. vm_compute. split_and!; reflexivity.
Defined.

(** A session whose [Deps.Worker] was never set does not forward anything:
    the nil interface panics inside the chain, the recover stage answers the
    client with error 5000, and no queue changes. *)
Theorem uplink_unwired_worker {TS : Type} `{Scheduler TS timeoutPayload unit} `{MapRange}
    `{PayloadLib} (limiter : option (string → string → bool)) (w : World TS) p c m msg k s :
  valid_uplink w m c msg k → sessions w !! p = Some s → allowed limiter s msg = true →
  traceable msg = true → d_Worker (deps s) = false → biz_of s msg ≠ "" →
  let ctx := traced_ctx w p c m msg in
  let w1 := upd_msgs <[m := inject k ctx (traced (now w) msg)]> w in
  ChainAdapter_Run limiter p c (Some m) w =
    (Ret tt, (replied ctx (m_MsgId msg) k 5000 "internal error" w1, u_Abort "panic" ctx)).
Proof.
  intros Hv Es Hal Htr Hw Hbiz ctx w1. rewrite (uplink_run limiter w p c m msg k s Hv Es Hal Htr).
  unfold uplink_result, submit_panics. by rewrite bool_decide_true, Hw by done.
Qed.

(** The session of the demo node without worker. *)
Definition unwired_session : Session :=
  mkSession "s1" "app" "u1" "d1" "ios" "im" (Some 1%positive) (mkSubs ∅ ∅) 0 StateActive 0 ∅
    (mkDeps false true true 0) false.

Lemma uplink_unwired_worker_witness :
  ∃ w' ctx', ChainAdapter_Run (H1:=demo_payload) None 1 1 (Some 1%positive)
      (demo unwired_session demo_conn demo_msg) = (Ret tt, (w', ctx')) ∧
    (upstreamCh <$> pools w' !! "im") = Some [] ∧
    ((λ e, b_Data <$> m_Body e) <$> msgs w' !! 2%positive) = Some (Some [5000%Z]).
Proof.
  rewrite (uplink_unwired_worker (H1:=demo_payload) None (demo unwired_session demo_conn demo_msg) 1 1 1
    demo_msg demo_conn unwired_session); [|split_and!; first [reflexivity|discriminate]|first [reflexivity|discriminate]..].
  eexists _, _. split; [reflexivity|]. vm_compute. split; reflexivity.
Defined.
