(* ===== verification/Downlink.v ===== *)
(** * The downlink pipeline ([gateway/internal/pipeline/downlink/stages.go])

    A message from the business side is validated, resolved to local sessions,
    filtered and fanned out.  [store] tells whether the pool was configured with
    an offline store. *)

From stdpp Require Import base list gmap strings numbers pretty.
From S2P Require Import Prelude Timer Shard Message Codec Router World Connection Session Pipeline.

Record FanOutResult := mkFanOut { Total : Z; Sent : Z; Dropped : Z; fo_Offline : Z }.

Record DownlinkCtx := mkDownlinkCtx {
  d_TraceID : string; d_Aborted : bool; d_AbortReason : string; d_ReceivedAt : Z;
  d_Message : option positive; TargetSessions : list SessionRef; FanOut : FanOutResult;
}.

Definition d_Abort (reason : string) (c : DownlinkCtx) : DownlinkCtx :=
  mkDownlinkCtx (d_TraceID c) true reason (d_ReceivedAt c) (d_Message c) (TargetSessions c) (FanOut c).
Definition d_set_TraceID (t : string) (c : DownlinkCtx) : DownlinkCtx :=
  mkDownlinkCtx t (d_Aborted c) (d_AbortReason c) (d_ReceivedAt c) (d_Message c) (TargetSessions c) (FanOut c).
Definition d_set_targets (l : list SessionRef) (c : DownlinkCtx) : DownlinkCtx :=
  mkDownlinkCtx (d_TraceID c) (d_Aborted c) (d_AbortReason c) (d_ReceivedAt c) (d_Message c) l (FanOut c).
Definition d_set_FanOut (r : FanOutResult) (c : DownlinkCtx) : DownlinkCtx :=
  mkDownlinkCtx (d_TraceID c) (d_Aborted c) (d_AbortReason c) (d_ReceivedAt c) (d_Message c)
    (TargetSessions c) r.

Section downlink.
Context {TS : Type} `{Scheduler TS timeoutPayload unit} `{MapRange}.
Context (store : bool).

Definition DW : Type := World TS * DownlinkCtx.
Abbreviation MD := (M DW).

Definition inD {A} (m : M (World TS) A) : MD A := zoom fst (λ w s, (w, s.2)) m.
Definition on_dctx (f : DownlinkCtx → DownlinkCtx) : MD unit := modify (λ s, (s.1, f s.2)).
Definition dabort (reason : string) : MD unit := on_dctx (d_Abort reason).
Definition dctx_msg : MD positive := o ← gets (λ s, d_Message s.2); deref o.

(** [safeGetMsgID] only feeds the log. *)
Definition DRecoverStage : shape (W:=DW) :=
  mkShape (mret true) (mret tt) (Some (λ why, dabort "panic")).

Definition DValidateStage : shape (W:=DW) := mkShape
  (o ← gets (λ s, d_Message s.2);
   match o with
   | None => dabort "nil message" ≫= λ _, mret false
   | Some m =>
       msg ← inD (get_msg m);
       t ← gets (λ s, now s.1);
       match m_To msg with
       | None => dabort "empty To" ≫= λ _, mret false
       | Some _ =>
           if IsExpired t (m_ExpireAt msg) then dabort "expired" ≫= λ _, mret false
           else
             tc ← deref (m_TraceContext msg);
             on_dctx (d_set_TraceID (TraceId tc)) ≫= λ _, mret true
       end
   end)
  (mret tt) None.

Definition RouteStage : shape (W:=DW) := mkShape
  (m ← dctx_msg;
   msg ← inD (get_msg m);
   to ← deref (m_To msg);
   r ← gets (λ s, Resolve (rt_Key to) (router s.1));
   match r with
   | (_, false) =>
       on_dctx (λ c, d_set_FanOut (mkFanOut (Total (FanOut c)) (Sent (FanOut c))
                                            (Dropped (FanOut c)) 1) (d_set_targets [] c)) ≫= λ _,
       mret true
   | (l, true) => on_dctx (d_set_targets l) ≫= λ _, mret true
   end)
  (mret tt) None.

(** The loop of [FilterStage]. *)
Fixpoint filter_targets (excludeID : string) (l : list SessionRef) : MD (list SessionRef) :=
  match l with
  | [] => mret []
  | sess :: l' =>
      active ← inD (sess_IsActive (ref_ptr sess));
      rest ← filter_targets excludeID l';
      mret (if negb active then rest
            else if bool_decide (excludeID ≠ "") && bool_decide (ref_sid sess = excludeID) then rest
            else sess :: rest)
  end.

Definition FilterStage : shape (W:=DW) := mkShape
  (l ← gets (λ s, TargetSessions s.2);
   match l with
   | [] => mret true
   | _ =>
       m ← dctx_msg;
       msg ← inD (get_msg m);
       l' ← filter_targets (get_header "x-exclude-conn" msg) l;
       on_dctx (d_set_targets l') ≫= λ _, mret true
   end)
  (mret tt) None.

(** One round of the delivery loop. *)
Definition fan_out_one (m : positive) (sess : SessionRef) (r : FanOutResult) : MD FanOutResult :=
  ok ← inD (Submit (ref_ptr sess) m);
  if (ok : bool) then mret (mkFanOut (Total r) (Sent r + 1) (Dropped r) (fo_Offline r))
  else
    let r := mkFanOut (Total r) (Sent r) (Dropped r + 1) (fo_Offline r) in
    msg ← inD (get_msg m);
    d ← deref (m_Delivery msg);
    when (Offline d && store && (Dropped r <=? 3)%Z) (inD (OfflineStore_Store m)) ≫= λ _,
    mret r.

Fixpoint fan_out (m : positive) (l : list SessionRef) (r : FanOutResult) : MD FanOutResult :=
  match l with
  | [] => mret r
  | sess :: l' => r' ← fan_out_one m sess r; fan_out m l' r'
  end.

Definition FanOutStage : shape (W:=DW) := mkShape
  (m ← dctx_msg;
   c ← gets snd;
   if (0 <? fo_Offline (FanOut c))%Z then
     msg ← inD (get_msg m);
     d ← deref (m_Delivery msg);
     when (Offline d && (QosClass_AT_LEAST_ONCE <=? Qos d)%Z && store) (inD (OfflineStore_Store m)) ≫= λ _,
     mret true
   else
     r ← fan_out m (TargetSessions c) (mkFanOut (Z.of_nat (length (TargetSessions c))) 0 0 0);
     on_dctx (d_set_FanOut r) ≫= λ _, mret true)
  (mret tt) None.

(** Calls [next] first, then only logs. *)
Definition DMetricsStage : shape (W:=DW) := mkShape (mret true) (mret tt) None.

Definition downlink_stages : list (shape (W:=DW)) :=
  [DRecoverStage; DValidateStage; RouteStage; FilterStage; FanOutStage; DMetricsStage].

Definition downlink_BuildChain : list (Stage (W:=DW)) := NewChain (stage_of <$> downlink_stages).

(** One job of [downstreamWorker] ([worker/pool.go]). *)
Definition newDownlinkCtx (t : Z) (msg : option positive) : DownlinkCtx :=
  mkDownlinkCtx "" false "" t msg [] (mkFanOut 0 0 0 0).

Definition downstream_job (msg : option positive) (w : World TS) : outcome unit * DW :=
  Run downlink_BuildChain (w, newDownlinkCtx (now w) msg).
End downlink.
