(* ===== verification/Layer.v ===== *)
(** * Pipelines keep the node typed

    The stages of a chain run on the world together with a context.  A typed
    context is stable while the world grows, so the rules of [Typing.v] lift
    to stages and to whole chains; with them both pipelines keep the node
    typed, and the deferred recover of their first stage lets no panic out. *)

From stdpp Require Import base list gmap strings numbers infinite.
From S2P Require Import Prelude Timer Shard Message Codec Router World Connection Pool Session.
From S2P Require Import Typing TypedOps Pipeline Uplink Downlink.

(** ** A world with a context *)
Section layer.
Context {TS X : Type} (TX : World TS → X → Prop).
Context (TX_ext : ∀ w w' x, ext w w' → TX w x → TX w' x).
Implicit Types (w : World TS) (s : World TS * X) (E : Prop).

Definition ltyped s : Prop := typed s.1 ∧ TX s.1 s.2.
Definition lext s s' : Prop := ext s.1 s'.1.
#[export] Instance lext_preorder : PreOrder lext.
Proof. split; [by intros s|]. intros s1 s2 s3. unfold lext. by etrans. Qed.

Definition inX {A} (m : M (World TS) A) : M (World TS * X) A := zoom fst (λ w s, (w, s.2)) m.

Abbreviation lgood := (good ltyped lext).

Lemma good_inX {A} E (m : M (World TS) A) Q s :
  wgood E m Q s.1 → TX s.1 s.2 → lgood E (inX m) (λ a s', Q a s'.1 ∧ s'.2 = s.2) s.
Proof.
  destruct s as [w x]. intros (Ht & He & Hq) Hx. unfold good, inX, zoom in *. simpl in *.
  destruct (m w) as [r w'] eqn:Em. simpl in *. split_and!; [split; [done|]|done|].
  - by eapply TX_ext.
  - by destruct r.
Qed.

Lemma lret {A} E (a : A) (Q : A → _ → Prop) s : ltyped s → Q a s → lgood E (mret a) Q s.
Proof. by apply good_ret; apply _. Qed.

Lemma lpanic {A} E why (Q : A → World TS * X → Prop) s : ltyped s → E → lgood E (panic why) Q s.
Proof. by apply good_panic; apply _. Qed.

Lemma lseq {A B} E (m : M (World TS * X) A) (f : A → M (World TS * X) B) Q s :
  lgood E m (λ _ _, True) s → (∀ a s', ltyped s' → lext s s' → lgood E (f a) Q s') →
  lgood E (m ≫= f) Q s.
Proof. intros Hm Hf. eapply good_bind; [apply _|done|]. auto. Qed.

Lemma linX_bind {A B} E (m : M (World TS) A) (f : A → M (World TS * X) B) P Q w x :
  wgood E m P w → TX w x →
  (∀ a w', typed w' → ext w w' → TX w' x → P a w' → lgood E (f a) Q (w', x)) →
  lgood E (inX m ≫= f) Q (w, x).
Proof.
  intros Hm Hx Hf. eapply good_bind; [apply _|apply good_inX; [exact Hm|exact Hx]|].
  intros a [w' x'] [Ht Hx'] He [Hp Hq]. simpl in *. subst. by apply Hf.
Qed.

Lemma linX {A} E (m : M (World TS) A) s :
  wgood E m (λ _ _, True) s.1 → TX s.1 s.2 → lgood E (inX m) (λ _ _, True) s.
Proof. intros Hm Hx. eapply good_mono; [by apply good_inX|done|done]. Qed.

Lemma lderef {A B} E (o : option A) (k : A → M (World TS * X) B) Q s :
  ltyped s → (o = None → E) → (∀ a, o = Some a → lgood E (k a) Q s) → lgood E (deref o ≫= k) Q s.
Proof. by apply good_deref_bind; apply _. Qed.

(** Changing the context. *)
Lemma lctx E (f : X → X) s : ltyped s → TX s.1 (f s.2) →
  lgood E (modify (λ s, (s.1, f s.2))) (λ _ _, True) s.
Proof. destruct s as [w x]. intros [Ht Hx] Hf. split_and!; [done|apply ext_preorder|done]. Qed.

Lemma lwhen E b (m : M (World TS * X) unit) s :
  ltyped s → (b = true → lgood E m (λ _ _, True) s) → lgood E (when b m) (λ _ _, True) s.
Proof. intros ??. by apply good_when; [apply _|..]. Qed.

(** *** Stages *)
Definition stage_good E (sh : shape (W:=World TS * X)) : Prop :=
  (∀ s, ltyped s → lgood E (before sh) (λ _ _, True) s) ∧ after sh = mret tt.

Lemma wrap_good E sh rest s : stage_good E sh → recover sh = None →
  (∀ s, ltyped s → lgood E rest (λ _ _, True) s) → ltyped s → lgood E (wrap sh rest) (λ _ _, True) s.
Proof.
  intros [Hb Ha] Hr Hrest Hs. unfold wrap. rewrite Hr, Ha. apply lseq; [by apply Hb|].
  intros [] s' Hs' _; [|by apply lret]. apply lseq; [by apply Hrest|]. intros. by apply lret.
Qed.

Lemma compose_good E l s : Forall (λ sh, stage_good E sh ∧ recover sh = None) l → ltyped s →
  lgood E (compose l) (λ _ _, True) s.
Proof.
  intros Hl. revert s. induction Hl as [|sh l [Hsh Hr] _ IH]; intros s Hs; simpl; [by apply lret|].
  by apply wrap_good.
Qed.

(** A chain whose first stage recovers panics only if the handler does. *)
Lemma recovered_good E sh h l s : stage_good True sh → recover sh = Some h →
  (∀ why s, ltyped s → lgood E (h why) (λ _ _, True) s) →
  Forall (λ sh, stage_good True sh ∧ recover sh = None) l → ltyped s →
  lgood E (compose (sh :: l)) (λ _ _, True) s.
Proof.
  intros [Hb Ha] Hr Hh Hl Hs. simpl. unfold wrap. rewrite Hr, Ha.
  apply good_recover; [apply _| |intros; by apply Hh].
  apply lseq; [by apply Hb|]. intros [] s' Hs' _; [|by apply lret].
  apply lseq; [by apply compose_good|]. intros. by apply lret.
Qed.
End layer.

Abbreviation lgood TX := (good (ltyped TX) lext).

(** ** The uplink *)
Section uplink.
Context {TS : Type} `{Scheduler TS timeoutPayload unit} `{MapRange} `{PayloadLib}.
Context (limiter : option (string → string → bool)).
Implicit Types (w : World TS) (ctx : UplinkCtx).

Definition uctx_ok w ctx : Prop :=
  conn_ok w (u_Conn ctx) ∧ sess_ok w (u_Session ctx) ∧
  ∃ m, u_Message ctx = Some m ∧ msg_ok w m.

Lemma uctx_ok_ext w w' ctx : ext w w' → uctx_ok w ctx → uctx_ok w' ctx.
Proof. intros He (Hc & Hs & m & Em & Hm). split_and!; eauto with typing. Qed.

Abbreviation ugood := (lgood uctx_ok).
#[local] Hint Resolve uctx_ok_ext : core.

Lemma good_get_msg E m w : typed w → msg_ok w m → wgood E (get_msg m) (λ _ _, True) w.
Proof. intros Ht [a Ea]. split_and!; mrun; rewrite Ea; [done|apply ext_preorder|done]. Qed.
Lemma good_get_conn E c w : typed w → conn_ok w c → wgood E (get_conn c) (λ _ _, True) w.
Proof. intros Ht [a Ea]. split_and!; mrun; rewrite Ea; [done|apply ext_preorder|done]. Qed.
Lemma good_get_sess E p w : typed w → sess_ok w p → wgood E (get_sess p) (λ _ _, True) w.
Proof. intros Ht [a Ea]. split_and!; mrun; rewrite Ea; [done|apply ext_preorder|done]. Qed.
Lemma new_msg_ok E x w : typed w → wgood E (new_msg x) (λ p w', msg_ok w' p) w.
Proof. intros Ht. eapply wmono; [by apply good_new_msg|done|]. simpl. eauto with typing. Qed.
#[local] Hint Resolve good_get_msg good_get_conn good_get_sess : good.

Lemma uctx_conn w ctx : uctx_ok w ctx → conn_ok w (u_Conn ctx).
Proof. by intros []. Qed.
Lemma uctx_sess w ctx : uctx_ok w ctx → sess_ok w (u_Session ctx).
Proof. by intros (_ & ? & _). Qed.
Lemma uctx_msg w ctx m : uctx_ok w ctx → u_Message ctx = Some m → msg_ok w m.
Proof. intros (_ & _ & m' & E & ?) E'. congruence. Qed.
#[local] Hint Resolve uctx_conn uctx_sess uctx_msg : typing.

(** The message of the context. *)
Lemma ugood_ctx_msg {B} E (k : positive → M (UW (TS:=TS)) B) Q s : ltyped uctx_ok s →
  (∀ m, msg_ok s.1 m → ugood E (k m) Q s) → ugood E (ctx_msg ≫= k) Q s.
Proof.
  destruct s as [w ctx]. intros [Ht (Hc & Hs & m & Em & Hm)] Hk.
  assert (ctx_msg (w, ctx) = (Ret m, (w, ctx))) as E1.
  { unfold ctx_msg. rewrite bind_run. cbn in *. by rewrite Em. }
  unfold good. rewrite (bind_ret_run _ _ _ _ _ E1). by apply Hk.
Qed.

(** Take a step through a stage. *)
Ltac ustep :=
  match goal with
  | |- ∀ _, _ => intro
  | Hx : uctx_ok _ _ |- ugood _ (mret _) _ _ => apply lret; [by split|done]
  | |- ugood _ (ctx_msg ≫= _) _ _ => apply ugood_ctx_msg; [by split|intros; cbn [fst] in *]
  | |- ugood True (deref _ ≫= _) _ _ => apply lderef; [by split|done|intros]
  | |- ugood True (str_prefix _ _ ≫= _) _ _ => unfold str_prefix; case_decide
  | |- ugood True (panic _) _ _ => apply lpanic; [by split|done]
  | |- ugood True (panic _ ≫= _) _ _ => apply good_panic_bind; [apply _|by split|done]
  | |- ugood _ (mret _ ≫= _) _ _ => apply good_ret_bind
  | |- ugood _ (gets _ ≫= _) _ _ => apply good_gets_bind; cbn [fst snd]
  | |- ugood _ (inW (new_msg _) ≫= _) _ _ =>
      apply (linX_bind _ uctx_ok_ext _ _ _ (λ p w', msg_ok w' p)); [by apply new_msg_ok|done|intros]
  | |- ugood _ (inW _ ≫= _) _ _ => apply (linX_bind _ uctx_ok_ext _ _ _ (λ _ _, True));
      [gcall|done|intros]
  | |- ugood _ (inW _) _ _ => apply (linX _ uctx_ok_ext); [cbn [fst]; gcall|done]
  | |- ugood _ (match ?x with _ => _ end) _ _ => destruct x eqn:?
  | |- ugood _ (_ ≫= _) _ (_, _) => apply lseq; [|intros ? [? ?] [? ?] ?; cbn [fst snd] in *]
  end.

Lemma ugood_ReplyError E code text s : ltyped uctx_ok s → ugood E (ReplyError code text) (λ _ _, True) s.
Proof.
  destruct s as [w ctx]. intros [Ht Hx]. simpl in Ht, Hx. unfold ReplyError. repeat ustep.
Qed.

Lemma ugood_on_ctx E f s :
  (∀ c, (u_Conn (f c), u_Session (f c), u_Message (f c)) = (u_Conn c, u_Session c, u_Message c)) →
  ltyped uctx_ok s → ugood E (on_ctx f) (λ _ _, True) s.
Proof.
  intros Hf Hs. apply lctx; [done|]. destruct s as [w ctx], Hs as [_ (Hc & Hp & m & Em & Hm)].
  specialize (Hf ctx). simpl in *. injection Hf as E1 E2 E3. unfold uctx_ok. rewrite E1, E2, E3. eauto.
Qed.
Lemma ugood_abort E r s : ltyped uctx_ok s → ugood E (abort r) (λ _ _, True) s.
Proof. by apply ugood_on_ctx. Qed.

#[local] Hint Extern 1 (ugood _ (ReplyError _ _) _ _) => apply ugood_ReplyError; by split : good.
#[local] Hint Extern 1 (ugood _ (abort _) _ _) => apply ugood_abort; by split : good.
#[local] Hint Extern 1 (ugood _ (on_ctx _) _ _) => apply ugood_on_ctx; [done|by split] : good.

Lemma inject_fixed k ctx x : msg_fixed (inject k ctx x) = msg_fixed x.
Proof. unfold inject. by case_match. Qed.
#[local] Hint Extern 1 (wgood _ (on_msg _ (inject _ _)) _ _) =>
  apply good_on_msg; [gside|apply inject_fixed] : good.

Ltac stage_tac :=
  intros [w ctx] [Ht Hx]; cbn [fst snd before] in *; repeat first [ustep | solve [auto with good nocore]].

Lemma RecoverStage_handler E h why s : recover RecoverStage = Some h → ltyped uctx_ok s →
  ugood E (h why) (λ _ _, True) s.
Proof. intros [= <-]. revert s. stage_tac. Qed.
Lemma ValidateStage_good : stage_good uctx_ok True (ValidateStage (TS:=TS)).
Proof. split; [|done]. unfold ValidateStage. stage_tac. Qed.
Lemma RateLimitStage_good : stage_good uctx_ok True (RateLimitStage (TS:=TS) limiter).
Proof. split; [|done]. unfold RateLimitStage. stage_tac. Qed.
Lemma TraceStage_good : stage_good uctx_ok True (TraceStage (TS:=TS)).
Proof. split; [|done]. unfold TraceStage. stage_tac. Qed.
Lemma SubmitStage_good : stage_good uctx_ok True (SubmitStage (TS:=TS)).
Proof. split; [|done]. unfold SubmitStage. stage_tac. Qed.
Lemma pass_good (h : option (string → M (UW (TS:=TS)) unit)) :
  stage_good uctx_ok True (mkShape (mret true) (mret tt) h).
Proof. split; [|done]. intros s Hs. by apply lret. Qed.

Lemma MetricsStage_good : stage_good uctx_ok True (MetricsStage (TS:=TS)).
Proof. apply pass_good. Qed.

Lemma good_ChainAdapter E p c m w : typed w → conn_ok w c → sess_ok w p → msg_ok w m →
  let '(r, (w', _)) := ChainAdapter_Run limiter p c (Some m) w in
  typed w' ∧ ext w w' ∧ match r with Ret _ => True | Panic _ => E end.
Proof.
  intros Ht Hc Hp Hm. unfold ChainAdapter_Run, BuildChain, NewChain. rewrite Run_compose.
  set (s0 := (w, newUplinkCtx (now w) p c (Some m))).
  assert (ugood E (compose (uplink_stages limiter)) (λ _ _, True) s0) as Hg.
  { eapply recovered_good; [apply pass_good|reflexivity|..].
    - intros. by apply RecoverStage_handler.
    - repeat (apply List.Forall_cons; [split; [|reflexivity]|]); try apply List.Forall_nil;
        auto using ValidateStage_good, RateLimitStage_good, TraceStage_good, SubmitStage_good, MetricsStage_good.
    - split; [done|]. split_and!; [done..|]. by exists m. }
  destruct Hg as ([Ht' _] & He & Hr). unfold UW in *.
  destruct (compose _ s0) as [r [w' ctx']]. done.
Qed.
End uplink.

(** ** The downlink *)
Section downlink.
Context {TS : Type} `{Scheduler TS timeoutPayload unit} `{MapRange}.
Context (store : bool).
Implicit Types (w : World TS) (ctx : DownlinkCtx).

Definition dctx_ok w ctx : Prop :=
  Forall (ref_ok w) (TargetSessions ctx) ∧ ∀ m, d_Message ctx = Some m → msg_ok w m.

Lemma dctx_ok_ext w w' ctx : ext w w' → dctx_ok w ctx → dctx_ok w' ctx.
Proof.
  intros He [Hl Hm]. split; [|by eauto with typing]. eapply Forall_impl; [done|]. eauto with typing.
Qed.
#[local] Hint Resolve dctx_ok_ext : core.
#[local] Hint Resolve good_get_msg good_get_conn good_get_sess : good.

Abbreviation dgood := (lgood dctx_ok).

Lemma dctx_message w ctx m : dctx_ok w ctx → d_Message ctx = Some m → msg_ok w m.
Proof. intros [_ Hm]. apply Hm. Qed.
#[local] Hint Resolve dctx_message : typing.

Lemma dgood_dctx_msg {B} (k : positive → M (DW (TS:=TS)) B) Q s : ltyped dctx_ok s →
  (∀ m, msg_ok s.1 m → dgood True (k m) Q s) → dgood True (dctx_msg ≫= k) Q s.
Proof.
  destruct s as [w ctx]. intros [Ht Hx] Hk. unfold dctx_msg, good. rewrite bind_run.
  rewrite bind_run. cbn [gets snd]. destruct (d_Message ctx) as [m|] eqn:Em.
  - apply Hk. by eapply dctx_message.
  - split_and!; simpl; [done|apply lext_preorder|done].
Qed.

Lemma dgood_on_dctx E f s : ltyped dctx_ok s →
  (dctx_ok s.1 s.2 → dctx_ok s.1 (f s.2)) → dgood E (on_dctx f) (λ _ _, True) s.
Proof. intros Hs Hf. apply lctx; [done|]. apply Hf, Hs. Qed.
Lemma dgood_dabort E r s : ltyped dctx_ok s → dgood E (dabort r) (λ _ _, True) s.
Proof. intros Hs. by apply dgood_on_dctx. Qed.

(** Everything [Resolve] finds is a session of the node. *)
Lemma Resolve_ok w to : typed w → Forall (ref_ok w) (Resolve to (router w)).1.
Proof.
  intros Ht. apply Forall_forall. intros ref. destruct (Resolve_spec to (router w)) as [Hs _].
  rewrite (Hs ref). destruct (ty_router _ Ht).
  intros [[k Hm]|[[k Hm]|[k Hm]]]; naive_solver.
Qed.

Ltac dstep :=
  match goal with
  | |- ∀ _, _ => intro
  | Hx : dctx_ok _ _ |- dgood _ (mret _) _ _ => apply lret; [by split|done]
  | |- dgood _ (mret _ ≫= _) _ _ => apply good_ret_bind
  | |- dgood True (dctx_msg ≫= _) _ _ => apply dgood_dctx_msg; [by split|intros; cbn [fst] in *]
  | |- dgood True (deref _ ≫= _) _ _ => apply lderef; [by split|done|intros]
  | |- dgood _ (gets _ ≫= _) _ _ => apply good_gets_bind; cbn [fst snd]
  | |- dgood _ (inD _ ≫= _) _ _ => apply (linX_bind _ dctx_ok_ext _ _ _ (λ _ _, True));
      [gcall|done|intros]
  | |- dgood _ (inD _) _ _ => apply (linX _ dctx_ok_ext); [cbn [fst]; gcall|done]
  | |- dgood _ (when _ _) _ _ => apply lwhen; [by split|intros]
  | |- dgood _ (match ?x with _ => _ end) _ _ => destruct x eqn:?
  | |- dgood _ (_ ≫= _) _ (_, _) => apply lseq; [|intros ? [? ?] [? ?] ?; cbn [fst snd] in *]
  end.
#[local] Hint Extern 1 (dgood _ (dabort _) _ _) => apply dgood_dabort; by split : good.

Ltac dstage_tac :=
  intros [w ctx] [Ht Hx]; cbn [fst snd before] in *; repeat first [dstep | solve [auto with good nocore]].

Lemma DRecoverStage_good : stage_good dctx_ok True (DRecoverStage (TS:=TS)).
Proof. split; [|done]. intros s Hs. by apply lret. Qed.
Lemma DMetricsStage_good : stage_good dctx_ok True (DMetricsStage (TS:=TS)).
Proof. split; [|done]. intros s Hs. by apply lret. Qed.
Lemma DValidateStage_good : stage_good dctx_ok True (DValidateStage (TS:=TS)).
Proof.
  split; [|done]. unfold DValidateStage. dstage_tac. all: by apply dgood_on_dctx; [split|].
Qed.

Lemma RouteStage_good : stage_good dctx_ok True (RouteStage (TS:=TS)).
Proof.
  split; [|done]. unfold RouteStage. dstage_tac.
  - apply dgood_on_dctx; [by split|]. intros [_ Hm]. split; [|done]. simpl.
    match goal with Hr : Resolve ?to (router ?w1) = _ |- _ =>
      pose proof (Resolve_ok w1 to ltac:(done)) as Hl; by rewrite Hr in Hl end.
  - apply dgood_on_dctx; [by split|]. intros [_ Hm]. split; [by constructor|done].
Qed.

Lemma good_sess_IsActive E p w : typed w → sess_ok w p → wgood E (sess_IsActive p) (λ _ _, True) w.
Proof. intros. unfold sess_IsActive. gtac. Qed.
#[local] Hint Resolve good_sess_IsActive : good.

Lemma Forall_ref_ok_ext w w' l : ext w w' → Forall (ref_ok w) l → Forall (ref_ok w') l.
Proof. intros He Hl. eapply Forall_impl; [done|]. eauto with typing. Qed.

Lemma dgood_filter_targets ex l s : ltyped dctx_ok s → Forall (ref_ok s.1) l →
  dgood True (filter_targets ex l) (λ l' s', Forall (ref_ok s'.1) l') s.
Proof.
  intros Hs Hl. revert s Hs Hl. induction l as [|ref l IH]; intros [w ctx] Hs Hl; cbn [filter_targets].
  { by apply lret. }
  destruct Hs as [Ht Hx]. cbn [fst snd] in *. apply Forall_cons in Hl as [Hr Hl].
  apply (linX_bind _ dctx_ok_ext _ _ _ (λ _ _, True)); [by gcall|done|].
  intros act w1 Ht1 He1 Hx1 _. eapply good_bind; [apply _|apply IH; [done|]|].
  { by eapply Forall_ref_ok_ext. }
  intros l' [w2 ctx2] Hs2 He2 Hl2. apply lret; [done|]. cbn [fst] in *.
  repeat case_match; [done..|]. constructor; [|done].
  eapply ref_ok_ext; [exact He2|]. by eapply ref_ok_ext.
Qed.

Lemma FilterStage_good : stage_good dctx_ok True (FilterStage (TS:=TS)).
Proof.
  split; [|done]. unfold FilterStage. intros [w ctx] [Ht Hx]. cbn [fst snd before] in *. dstep.
  destruct (TargetSessions ctx) as [|ref l] eqn:El; [by dstep|]. do 2 dstep.
  eapply good_bind; [apply _|apply dgood_filter_targets|].
  - done.
  - eapply Forall_ref_ok_ext; [done|]. rewrite <-El. apply Hx.
  - intros l' [w2 ctx2] Hs2 He2 Hl2. cbn [fst snd] in *. destruct Hs2 as [Ht2 Hx2]. dstep; [|by repeat dstep].
    apply dgood_on_dctx; [done|]. intros [_ ?]. by split.
Qed.

Lemma dgood_fan_out m l r s : ltyped dctx_ok s → Forall (ref_ok s.1) l → msg_ok s.1 m →
  dgood True (fan_out store m l r) (λ _ _, True) s.
Proof.
  intros Hs Hl Hm. revert r s Hs Hl Hm. induction l as [|ref l IH]; intros r [w ctx] Hs Hl Hm; cbn [fan_out].
  { by apply lret. }
  destruct Hs as [Ht Hx]. cbn [fst snd] in *. apply Forall_cons in Hl as [Hr Hl].
  apply lseq.
  - unfold fan_out_one. apply (linX_bind _ dctx_ok_ext _ _ _ (λ _ _, True)); [|done|].
    { apply good_Submit; eauto with typing. }
    intros ok w1 Ht1 He1 Hx1 _. repeat dstep.
  - intros r' [w1 ctx1] Hs1 He1. apply IH; [done|by eapply Forall_ref_ok_ext|]. cbn [fst]. eauto with typing.
Qed.

Lemma FanOutStage_good : stage_good dctx_ok True (FanOutStage (TS:=TS) store).
Proof.
  split; [|done]. unfold FanOutStage. dstage_tac.
  - apply dgood_fan_out; [done| |done]. apply Hx.
  - by apply dgood_on_dctx.
Qed.

Lemma good_downstream_job om w : typed w → (∀ m, om = Some m → msg_ok w m) →
  let '(r, (w', _)) := downstream_job store om w in typed w' ∧ ext w w' ∧ r = Ret tt.
Proof.
  intros Ht Hm. unfold downstream_job, downlink_BuildChain, NewChain. rewrite Run_compose.
  set (s0 := (w, newDownlinkCtx (now w) om)).
  assert (dgood False (compose (downlink_stages store)) (λ _ _, True) s0) as Hg.
  { eapply recovered_good; [apply DRecoverStage_good|reflexivity|..].
    - intros. by apply dgood_dabort.
    - repeat (apply List.Forall_cons; [split; [|reflexivity]|]); try apply List.Forall_nil;
        auto using DValidateStage_good, RouteStage_good, FilterStage_good, FanOutStage_good,
          DMetricsStage_good.
    - split; [done|]. by split. }
  destruct Hg as ([Ht' _] & He & Hr). unfold DW in *.
  destruct (compose _ s0) as [[[]|] [w' ctx']]; simpl in *; done.
Qed.
End downlink.
