(* ===== verification/DownlinkSpec.v ===== *)
(** * Correctness of the downlink pipeline

    Accounting and isolation of the fan-out, what the filter lets through, and
    what happens to a message nobody can take. *)

From stdpp Require Import base list gmap strings numbers pretty.
From S2P Require Import Prelude Timer Shard Message Codec Router World Connection.
From S2P Require Import Session Demo SessionSpec Pipeline Uplink UplinkSpec Downlink.

Section spec.
Context {TS : Type} `{Scheduler TS timeoutPayload unit} `{MapRange}.
Implicit Types (w : World TS) (ctx : DownlinkCtx).

Lemma inD_Ret {A B} (m : M (World TS) A) (f : A → M DW B) w ctx a w' :
  m w = (Ret a, w') → (inD m ≫= f) (w, ctx) = f a (w', ctx).
Proof. intros E. apply bind_ret_run. unfold inD, zoom. simpl. by rewrite E. Qed.

(** ** One target *)

(** The session behind [ref] is attached to connection [c], which is [k]. *)
Definition attached w (ref : SessionRef) (ck : positive * Connection) : Prop :=
  ∃ s, sessions w !! ref_ptr ref = Some s ∧ s_conn s = Some ck.1 ∧ conns w !! ck.1 = Some ck.2.

(** What [Submit] to one session changes outside it. *)
Lemma Submit_target w ref c k m msg d :
  attached w ref (c, k) → msgs w !! m = Some msg → m_Delivery msg = Some d →
  ∃ w' msg', Submit (ref_ptr ref) m w = (Ret (accepts k), w') ∧
    conns w' = <[c := submitted m k]> (conns w) ∧
    (∀ q, q ≠ ref_ptr ref → sessions w' !! q = sessions w !! q) ∧
    msgs w' !! m = Some msg' ∧ m_Delivery msg' = Some d ∧ now w' = now w.
Proof.
  intros (s & Es & Ec & Ek) Em Ed. simpl in *. destruct (accepts k) eqn:Ha.
  - rewrite (Submit_delivered _ c m w s k msg) by done.
    pose proof (accepts_active k Ha) as Hact.
    eexists _, (set_SeqId (u64 (nextSendSeq k + 1)) msg). split; [reflexivity|].
    unfold after_delivery. destruct (d_Acker (deps s) && at_least_once msg); simpl;
      (split_and!; [done| | |done..]);
      [intros q Hq; by rewrite lookup_insert_ne| |intros q Hq; by rewrite lookup_insert_ne|];
      rewrite lookup_alter_eq, Em; simpl; unfold stamped; by rewrite Hact.
  - assert (conn_allocated s w) as Hal by (intros c' Hc'; simplify_eq; eauto).
    assert (reachable_conn s w = false) as Hr.
    { unfold reachable_conn. rewrite Ec. simpl. by rewrite Ek. }
    rewrite (Submit_refused _ m w s msg d Es Hal Hr Em Ed).
    exists (after_refusal m s msg w), (stamped k msg). split; [done|]. unfold after_refusal.
    rewrite Ec. simpl. rewrite Ek.
    assert (m_Delivery (stamped k msg) = Some d) as Hst by (unfold stamped; by case_match).
    destruct (conn_IsActive k) eqn:Hact.
    + destruct (stores_offline s msg); simpl; rewrite lookup_alter_eq, Em; done.
    + assert (submitted m k = k ∧ stamped k msg = msg) as [-> ->]
        by (unfold submitted, stamped; by rewrite Hact).
      destruct (stores_offline s msg); simpl; rewrite insert_id; done.
Qed.

(** ** The fan-out loop *)
Definition accepted (cks : list (positive * Connection)) : Z :=
  Z.of_nat (length (List.filter (λ ck, accepts ck.2) cks)).

Lemma fan_out_one_run store w ctx ref c k m msg d r :
  attached w ref (c, k) → msgs w !! m = Some msg → m_Delivery msg = Some d →
  ∃ w' msg', fan_out_one store m ref r (w, ctx) =
      (Ret (if accepts k then mkFanOut (Total r) (Sent r + 1) (Dropped r) (fo_Offline r)
            else mkFanOut (Total r) (Sent r) (Dropped r + 1) (fo_Offline r)), (w', ctx)) ∧
    conns w' = <[c := submitted m k]> (conns w) ∧
    (∀ q, q ≠ ref_ptr ref → sessions w' !! q = sessions w !! q) ∧
    msgs w' !! m = Some msg' ∧ m_Delivery msg' = Some d.
Proof.
  intros Hat Em Ed.
  destruct (Submit_target w ref c k m msg d Hat Em Ed) as (w' & msg' & E & Hc & Hs & Hm & Hd & _).
  unfold fan_out_one. rewrite (inD_Ret _ _ _ _ _ _ E). destruct (accepts k).
  - exists w', msg'. done.
  - cbv zeta. rewrite (inD_Ret _ _ _ _ _ _ (get_msg_run m w' msg' Hm)). rewrite Hd.
    erewrite bind_ret_run; [|reflexivity].
    destruct (Offline d && store && _); cbn [when].
    + unfold OfflineStore_Store. erewrite inD_Ret; [|rewrite (bind_ret_run _ _ _ _ _ (get_msg_run m w' msg' Hm)); reflexivity].
      eexists _, msg'. split; [reflexivity|]. done.
    + exists w', msg'. done.
Qed.

Lemma attached_frame w w' c k m ref ref' ck :
  attached w ref' ck → ck.1 ≠ c → ref_ptr ref' ≠ ref_ptr ref →
  conns w' = <[c := submitted m k]> (conns w) →
  (∀ q, q ≠ ref_ptr ref → sessions w' !! q = sessions w !! q) → attached w' ref' ck.
Proof.
  intros (s & Es & Ec & Ek) Hne Hp Hc Hs. exists s. rewrite Hs, Hc by done.
  rewrite lookup_insert_ne by done. done.
Qed.

Lemma attached_list_frame w w' ref s c k m l cks :
  sessions w !! ref_ptr ref = Some s → s_conn s = Some c →
  conns w' = <[c := submitted m k]> (conns w) →
  (∀ q, q ≠ ref_ptr ref → sessions w' !! q = sessions w !! q) →
  c ∉ cks.*1 → Forall2 (attached w) l cks → Forall2 (attached w') l cks.
Proof.
  intros Es Ec Hc Hs Hni Hall. induction Hall as [|ref' ck l cks Hat Hall IH]; constructor.
  - rewrite fmap_cons, not_elem_of_cons in Hni. destruct Hni as [Hne _].
    eapply (attached_frame w w' c k m ref); try done.
    destruct Hat as (s' & Es' & Ec' & _). intros Ep. rewrite Ep in Es'. congruence.
  - apply IH. rewrite fmap_cons, not_elem_of_cons in Hni. tauto.
Qed.

Lemma fan_out_run store l cks w ctx m msg d r :
  Forall2 (attached w) l cks → NoDup cks.*1 → msgs w !! m = Some msg → m_Delivery msg = Some d →
  ∃ w', fan_out store m l r (w, ctx) =
      (Ret (mkFanOut (Total r) (Sent r + accepted cks)
             (Dropped r + (Z.of_nat (length l) - accepted cks)) (fo_Offline r)), (w', ctx)) ∧
    (∀ ck, ck ∈ cks → conns w' !! ck.1 = Some (submitted m ck.2)) ∧
    (∀ c, c ∉ cks.*1 → conns w' !! c = conns w !! c).
Proof.
  revert cks w msg r. induction l as [|ref l IH]; intros cks w msg r Hall Hnd Em Ed.
  - apply Forall2_nil_inv_l in Hall as ->. exists w. unfold accepted. simpl.
    split_and!; [|set_solver|done]. rewrite !Z.add_0_r. by destruct r.
  - apply Forall2_cons_inv_l in Hall as ([c k] & cks' & Hat & Hall & ->).
    rewrite fmap_cons in Hnd. apply NoDup_cons in Hnd as [Hni Hnd]. simpl in Hni.
    destruct (fan_out_one_run store w ctx ref c k m msg d r Hat Em Ed)
      as (w1 & msg1 & E & Hc & Hs & Hm & Hd).
    assert (Forall2 (attached w1) l cks') as Hall1.
    { destruct Hat as (s & Es & Ec & _). by eapply attached_list_frame. }
    match type of E with _ = (Ret ?r1, _) => set (r1' := r1) in E end.
    destruct (IH cks' w1 msg1 r1' Hall1 Hnd Hm Hd) as (w2 & E2 & Hin & Hout).
    exists w2. cbn [fan_out]. rewrite (bind_ret_run _ _ _ _ _ E), E2. split_and!.
    + subst r1'. unfold accepted. cbn [List.filter snd length]. destruct (accepts k); cbn [length Total Sent Dropped fo_Offline]; do 3 f_equal; lia.
    + intros ck [->|Hck]%elem_of_cons; [|by apply Hin]. simpl.
      rewrite Hout by done. rewrite Hc. apply lookup_insert_eq.
    + intros c' Hc'. rewrite fmap_cons, not_elem_of_cons in Hc'. destruct Hc' as [Hne Hc'].
      rewrite Hout by done. rewrite Hc. by rewrite lookup_insert_ne.
Qed.

(** ** The other stages *)
Definition deliverable w (m : positive) (msg : Message) (to : RouteTarget) (d : Delivery) : Prop :=
  msgs w !! m = Some msg ∧ m_To msg = Some to ∧ IsExpired (now w) (m_ExpireAt msg) = false ∧
  is_Some (m_TraceContext msg) ∧ m_Delivery msg = Some d.

Definition dtraced (msg : Message) ctx : DownlinkCtx :=
  d_set_TraceID (from_option TraceId "" (m_TraceContext msg)) ctx.

Lemma DValidateStage_pass w ctx m msg to d :
  d_Message ctx = Some m → deliverable w m msg to d →
  before DValidateStage (w, ctx) = (Ret true, (w, dtraced msg ctx)).
Proof.
  intros Em (E & Hto & Hexp & [tc Htc] & _). cbn [before DValidateStage].
  erewrite bind_ret_run; [|reflexivity]. cbn [snd]. rewrite Em.
  rewrite (inD_Ret _ _ _ _ _ _ (get_msg_run m w msg E)).
  erewrite bind_ret_run; [|reflexivity]. cbn [fst]. rewrite Hto, Hexp.
  unfold dtraced. rewrite Htc. done.
Qed.

Lemma dctx_msg_run w ctx m : d_Message ctx = Some m → dctx_msg (w, ctx) = (Ret m, (w, ctx)).
Proof. intros Em. unfold dctx_msg. rewrite bind_run. cbn. by rewrite Em. Qed.

Lemma RouteStage_run w ctx m msg to :
  d_Message ctx = Some m → msgs w !! m = Some msg → m_To msg = Some to →
  before RouteStage (w, ctx) =
    (Ret true, (w, if (Resolve (rt_Key to) (router w)).2
                   then d_set_targets (Resolve (rt_Key to) (router w)).1 ctx
                   else d_set_FanOut (mkFanOut (Total (FanOut ctx)) (Sent (FanOut ctx))
                          (Dropped (FanOut ctx)) 1) (d_set_targets [] ctx))).
Proof.
  intros Em E Hto. cbn [before RouteStage]. rewrite (bind_ret_run _ _ _ _ _ (dctx_msg_run w ctx m Em)).
  rewrite (inD_Ret _ _ _ _ _ _ (get_msg_run m w msg E)). rewrite Hto.
  erewrite bind_ret_run; [|reflexivity]. erewrite bind_ret_run; [|reflexivity]. cbn [fst].
  by destruct (Resolve (rt_Key to) (router w)) as [l []].
Qed.

(** Which resolved sessions the filter keeps. *)
Definition keep w (excludeID : string) (ref : SessionRef) : bool :=
  match sessions w !! ref_ptr ref with
  | Some s => bool_decide (s_state s = StateActive) &&
              negb (bool_decide (excludeID ≠ "") && bool_decide (ref_sid ref = excludeID))
  | None => false
  end.

Lemma filter_targets_run w ctx ex l :
  Forall (λ ref, is_Some (sessions w !! ref_ptr ref)) l →
  filter_targets ex l (w, ctx) = (Ret (List.filter (keep w ex) l), (w, ctx)).
Proof.
  induction 1 as [|ref l [s Es] _ IH]; [done|]. cbn [filter_targets].
  erewrite inD_Ret; [|unfold sess_IsActive; rewrite (bind_ret_run _ _ _ _ _ (get_sess_run _ w s Es)); reflexivity].
  rewrite (bind_ret_run _ _ _ _ _ IH). cbn [List.filter].
  replace (keep w ex ref) with (bool_decide (s_state s = StateActive) &&
    negb (bool_decide (ex ≠ "") && bool_decide (ref_sid ref = ex))) by (unfold keep; by rewrite Es).
  destruct (bool_decide (s_state s = StateActive)); cbn [negb andb]; [|done].
  by destruct (bool_decide (ex ≠ "") && bool_decide (ref_sid ref = ex)).
Qed.

Lemma FilterStage_run w ctx m msg :
  d_Message ctx = Some m → msgs w !! m = Some msg →
  Forall (λ ref, is_Some (sessions w !! ref_ptr ref)) (TargetSessions ctx) →
  ∃ ctx', before FilterStage (w, ctx) = (Ret true, (w, ctx')) ∧
    ctx' = d_set_targets (List.filter (keep w (get_header "x-exclude-conn" msg)) (TargetSessions ctx)) ctx.
Proof.
  intros Em E Hall. cbn [before FilterStage]. erewrite bind_ret_run; [|reflexivity]. cbn [snd].
  destruct (TargetSessions ctx) as [|ref l] eqn:El.
  - eexists; split; [reflexivity|]. destruct ctx. simpl in *. by subst.
  - rewrite (bind_ret_run _ _ _ _ _ (dctx_msg_run w ctx m Em)).
    rewrite (inD_Ret _ _ _ _ _ _ (get_msg_run m w msg E)).
    rewrite (bind_ret_run _ _ _ _ _ (filter_targets_run w ctx _ _ Hall)).
    eexists; split; [reflexivity|]. done.
Qed.

(** ** The chain *)
Definition dinner (store : bool) : list (shape (W:=DW (TS:=TS))) :=
  [DValidateStage; RouteStage; FilterStage; FanOutStage store; DMetricsStage].

Lemma downstream_inner store om w :
  downstream_job store om w =
    match compose (dinner store) (w, newDownlinkCtx (now w) om) with
    | (Ret _, s') => (Ret tt, s')
    | (Panic _, s') => (Ret tt, (s'.1, d_Abort "panic" s'.2))
    end.
Proof.
  unfold downstream_job, downlink_BuildChain, NewChain. rewrite Run_compose.
  change (compose (downlink_stages store)) with (wrap (DRecoverStage (TS:=TS)) (compose (dinner store))).
  unfold wrap. cbn [recover DRecoverStage before after]. unfold with_recover.
  rewrite (bind_ret_run (mret true) _ _ _ true eq_refl), bind_run.
  by destruct (compose (dinner store) _) as [[[]|] []].
Qed.

(** Everything up to the fan-out of a message with local sessions. *)
Lemma downlink_to_fanout store w m msg to d l :
  deliverable w m msg to d → Resolve (rt_Key to) (router w) = (l, true) →
  Forall (λ ref, is_Some (sessions w !! ref_ptr ref)) l →
  compose (dinner store) (w, newDownlinkCtx (now w) (Some m)) =
  wrap (FanOutStage store) (compose [DMetricsStage])
    (w, d_set_targets (List.filter (keep w (get_header "x-exclude-conn" msg)) l)
          (d_set_targets l (dtraced msg (newDownlinkCtx (now w) (Some m))))).
Proof.
  intros Hd Hres Hall. pose proof Hd as (E & Hto & _). unfold dinner. cbn [compose foldr].
  erewrite wrap_pass; [|by eapply (DValidateStage_pass w (newDownlinkCtx (now w) (Some m)))|done..].
  erewrite wrap_pass; [|erewrite RouteStage_run; [|done..]; rewrite Hres; reflexivity|done..].
  destruct (FilterStage_run w (d_set_targets l (dtraced msg (newDownlinkCtx (now w) (Some m)))) m msg)
    as (ctx' & Ef & ->); [done..|].
  erewrite wrap_pass; [|exact Ef|done..]. done.
Qed.
(** A message the first stage does not let through changes nothing. *)
Lemma downlink_not_routed store w m msg to : msgs w !! m = Some msg → m_To msg = Some to →
  IsExpired (now w) (m_ExpireAt msg) || bool_decide (m_TraceContext msg = None) = true →
  ∃ ctx', downstream_job store (Some m) w = (Ret tt, (w, ctx')) ∧ d_Aborted ctx' = true.
Proof.
  intros E Hto Hbad. rewrite downstream_inner. unfold dinner. cbn [compose foldr].
  assert (before DValidateStage (w, newDownlinkCtx (now w) (Some m)) =
    if IsExpired (now w) (m_ExpireAt msg) then (Ret false, (w, d_Abort "expired" (newDownlinkCtx (now w) (Some m))))
    else (Panic "invalid memory address or nil pointer dereference", (w, newDownlinkCtx (now w) (Some m)))) as Hb.
  { cbn [before DValidateStage]. erewrite bind_ret_run; [|reflexivity]. cbn [snd d_Message newDownlinkCtx].
    rewrite (inD_Ret _ _ _ _ _ _ (get_msg_run m w msg E)).
    erewrite bind_ret_run; [|reflexivity]. cbn [fst]. rewrite Hto.
    destruct (IsExpired (now w) (m_ExpireAt msg)); [done|]. apply bool_decide_eq_true in Hbad. by rewrite Hbad. }
  destruct (IsExpired (now w) (m_ExpireAt msg)).
  - eexists. erewrite wrap_stop; [|exact Hb|done]. by split.
  - eexists. erewrite wrap_panic; [|exact Hb|done]. by split.
Qed.
End spec.

(** ** Claims *)

(** C17.  Fan-out of a message with an address, delivery options and local
    sessions (each attached session has its own connection).  An expired message
    is dropped and one without trace context makes the first stage panic, which
    the chain recovers: both are aborted and change nothing.  Otherwise, of the
    resolved sessions those that are active and not excluded are the targets -
    here each is attached to a connection -; every target whose connection is
    active and has room gets the message appended to its queue, the others do
    not hold it up, no other connection is touched, and the result counts them
    exactly. *)
Theorem downlink_fan_out {TS : Type} `{Scheduler TS timeoutPayload unit} `{MapRange} (store : bool)
    (w : World TS) m msg to d l cks :
  msgs w !! m = Some msg → m_To msg = Some to → m_Delivery msg = Some d →
  Resolve (rt_Key to) (router w) = (l, true) → Forall (λ ref, is_Some (sessions w !! ref_ptr ref)) l →
  let targets := List.filter (keep w (get_header "x-exclude-conn" msg)) l in
  Forall2 (attached w) targets cks → NoDup cks.*1 →
  ∃ w' ctx', downstream_job store (Some m) w = (Ret tt, (w', ctx')) ∧
    if IsExpired (now w) (m_ExpireAt msg) || bool_decide (m_TraceContext msg = None)
    then w' = w ∧ d_Aborted ctx' = true
    else
      d_Aborted ctx' = false ∧
      FanOut ctx' = mkFanOut (Z.of_nat (length targets)) (accepted cks)
                             (Z.of_nat (length targets) - accepted cks) 0 ∧
      (∀ ck, ck ∈ cks → conns w' !! ck.1 = Some (submitted m ck.2)) ∧
      (∀ c, c ∉ cks.*1 → conns w' !! c = conns w !! c).
Proof.
  intros E Hto Ed Hres Hall targets Hatt Hnd.
  destruct (IsExpired (now w) (m_ExpireAt msg) || bool_decide (m_TraceContext msg = None)) eqn:Hbad.
  { destruct (downlink_not_routed store w m msg to E Hto Hbad) as (ctx' & ? & ?). eauto. }
  apply orb_false_iff in Hbad as [Hexp Htc%bool_decide_eq_false].
  apply not_eq_None_Some in Htc. assert (deliverable w m msg to d) as Hd by done.
  rewrite downstream_inner.
  rewrite (downlink_to_fanout store w m msg to d l Hd Hres Hall). fold targets.
  set (ctx := d_set_targets targets _).
  destruct (fan_out_run store targets cks w ctx m msg d
    (mkFanOut (Z.of_nat (length targets)) 0 0 0) Hatt Hnd E Ed) as (w' & Ef & Hin & Hout).
  exists w', (d_set_FanOut (mkFanOut (Z.of_nat (length targets)) (accepted cks)
    (Z.of_nat (length targets) - accepted cks) 0) ctx).
  erewrite wrap_pass; [| |done..].
  2:{ cbn [before FanOutStage]. rewrite (bind_ret_run _ _ _ _ _ (dctx_msg_run w ctx m eq_refl)).
      erewrite bind_ret_run; [|reflexivity]. cbn [snd ctx d_set_targets FanOut dtraced d_set_TraceID
        newDownlinkCtx fo_Offline TargetSessions]. cbn [Z.ltb Z.compare].
      rewrite (bind_ret_run _ _ _ _ _ Ef). reflexivity. }
  done.
Qed.

Lemma downlink_fan_out_witness :
  ∃ w' ctx', downstream_job true (Some 1%positive) demo_world = (Ret tt, (w', ctx')) ∧
    FanOut ctx' = mkFanOut 1 1 0 0 ∧ (writeCh <$> conns w' !! 1%positive) = Some [1%positive].
Proof.
  destruct (downlink_fan_out (H0:=canonical_range) true demo_world 1 demo_msg (mkRouteTarget (RouteTargetType_other 1) "u1")
    (mkDelivery QosClass_AT_LEAST_ONCE true None) [demo_ref] [(1%positive, demo_conn)]
    eq_refl eq_refl eq_refl eq_refl) as (w' & ctx' & E & _ & Hf & Hin & _).
  - repeat constructor. by eexists.
  - repeat constructor. exists demo_session. split_and!; reflexivity.
  - apply NoDup_singleton.
  - exists w', ctx'. split; [exact E|]. split; [exact Hf|].
    pose proof (Hin (1%positive, demo_conn) (list_elem_of_here _ _)) as Hc. simpl in Hc.
    rewrite Hc. reflexivity.
Defined.

(** No panic leaves the downlink chain, whatever the message. *)
Theorem downlink_never_panics {TS : Type} `{Scheduler TS timeoutPayload unit} `{MapRange} (store : bool)
    (om : option positive) (w : World TS) :
  ∃ s', downstream_job store om w = (Ret tt, s').
Proof. rewrite downstream_inner. destruct (compose _ _) as [[[]|] []]; eauto. Qed.

(** When every resolved session is suspended (or excluded) the message is
    dropped: the world does not change at all, so nothing reaches the offline
    store, not even for a QoS-1 message marked for it, and the result does not
    count it as offline. *)
Theorem downlink_suspended_targets_lose_message {TS : Type} `{Scheduler TS timeoutPayload unit}
    `{MapRange} (store : bool) (w : World TS) m msg to d l :
  deliverable w m msg to d → Resolve (rt_Key to) (router w) = (l, true) →
  Forall (λ ref, is_Some (sessions w !! ref_ptr ref)) l →
  Forall (λ ref, keep w (get_header "x-exclude-conn" msg) ref = false) l →
  ∃ ctx', downstream_job store (Some m) w = (Ret tt, (w, ctx')) ∧ FanOut ctx' = mkFanOut 0 0 0 0.
Proof.
  intros Hd Hres Hall Hkeep. rewrite downstream_inner.
  rewrite (downlink_to_fanout store w m msg to d l Hd Hres Hall).
  assert (List.filter (keep w (get_header "x-exclude-conn" msg)) l = []) as ->.
  { clear -Hkeep. induction Hkeep as [|ref l E _ IH]; [done|]. simpl. by rewrite E. }
  eexists. split; [|]; cycle 1; [|erewrite wrap_pass; [reflexivity|reflexivity|done..]]. done.
Qed.

(** The demo node while the session is suspended. *)
Definition suspended_session : Session := upd_s_state StateSuspended 7 (upd_s_conn None demo_session).

Lemma downlink_suspended_targets_lose_message_witness :
  let w := demo suspended_session demo_conn demo_msg in
  ∃ ctx', downstream_job true (Some 1%positive) w = (Ret tt, (w, ctx')) ∧ FanOut ctx' = mkFanOut 0 0 0 0.
Proof.
  apply (downlink_suspended_targets_lose_message true (demo suspended_session demo_conn demo_msg) 1 demo_msg
    (mkRouteTarget (RouteTargetType_other 1) "u1") (mkDelivery QosClass_AT_LEAST_ONCE true None) [demo_ref]).
  - split_and!; try reflexivity. by eexists.
  - reflexivity.
  - repeat constructor. by eexists.
  - repeat constructor.
Defined.

(** A message for an address without local session goes to the offline
    store exactly if it asks for it with QoS at least once and the pool has a
    store; nothing else changes. *)
Theorem downlink_unresolved_stored {TS : Type} `{Scheduler TS timeoutPayload unit} `{MapRange}
    (store : bool) (w : World TS) m msg to d :
  deliverable w m msg to d → (Resolve (rt_Key to) (router w)).2 = false →
  ∃ ctx', downstream_job store (Some m) w =
    (Ret tt, (if Offline d && (QosClass_AT_LEAST_ONCE <=? Qos d)%Z && store
              then upd_offline (λ l, l ++ [msg]) w else w, ctx')) ∧ fo_Offline (FanOut ctx') = 1%Z.
Proof.
  intros Hd Hres. pose proof Hd as (E & Hto & _ & _ & Ed). rewrite downstream_inner.
  unfold dinner. cbn [compose foldr].
  erewrite wrap_pass; [|by eapply (DValidateStage_pass w (newDownlinkCtx (now w) (Some m)))|done..].
  erewrite wrap_pass; [|erewrite RouteStage_run; [|done..]; rewrite Hres; reflexivity|done..].
  erewrite wrap_pass; [|reflexivity|done..].
  eexists. split; cycle 1; [|erewrite wrap_pass; [reflexivity| |done..]].
  2:{ cbn [before FanOutStage]. erewrite bind_ret_run; [|apply dctx_msg_run; reflexivity].
      erewrite bind_ret_run; [|reflexivity]. cbn [snd d_set_FanOut FanOut fo_Offline].
      cbn [Z.ltb Z.compare]. rewrite (inD_Ret _ _ _ _ _ _ (get_msg_run m w msg E)). rewrite Ed.
      erewrite bind_ret_run; [|reflexivity].
      destruct (Offline d && _ && store); cbn [when]; [|reflexivity].
      unfold OfflineStore_Store.
      erewrite inD_Ret; [|rewrite (bind_ret_run _ _ _ _ _ (get_msg_run m w msg E)); reflexivity].
      reflexivity. }
  done.
Qed.

(** A message for a user who is not on this node. *)
Definition absent_msg : Message :=
  mkMessage FrameType_BUSINESS "message-2" "im" None (Some (mkRouteTarget (RouteTargetType_other 1) "u9"))
    0 0 None (Some (mkDelivery QosClass_AT_LEAST_ONCE true None)) (Some (mkTraceContext "t1")) None.

Lemma downlink_unresolved_stored_witness :
  let w := demo demo_session demo_conn absent_msg in
  ∃ ctx', downstream_job true (Some 1%positive) w = (Ret tt, (upd_offline (λ l, l ++ [absent_msg]) w, ctx')) ∧
    fo_Offline (FanOut ctx') = 1%Z.
Proof.
  apply (downlink_unresolved_stored true (demo demo_session demo_conn absent_msg) 1 absent_msg
    (mkRouteTarget (RouteTargetType_other 1) "u9") (mkDelivery QosClass_AT_LEAST_ONCE true None)).
  - split_and!; try reflexivity. by eexists.
  - reflexivity.
Defined.
