(* ===== verification/Worker.v ===== *)
(** * Worker goroutines ([gateway/internal/worker/pool.go])

    One turn of the loops that empty the channels of a pool: an upstream job is
    sent to the business side and, when that fails, answered through the
    session; a downstream job runs the downlink chain. *)

From stdpp Require Import base list gmap strings numbers pretty.
From S2P Require Import Prelude Timer Shard Message Codec Router World Connection.
From S2P Require Import Pool Session Demo SessionSpec Pipeline Uplink UplinkSpec Downlink.

(** [gateway.ERR_UPSTREAM_SEND_FAILED] *)
Definition ERR_UPSTREAM_SEND_FAILED : Z := 4001.

Section worker.
Context {TS : Type} `{Scheduler TS timeoutPayload unit} `{MapRange} `{PayloadLib}.
(** [UpstreamSender.Send] of the pool. *)
Context (sender : Message → error).
Abbreviation MW := (M (World TS)).

(** What [upstreamWorker] does with one job. *)
Definition upstream_job (job : UpstreamJob) : MW unit :=
  msg ← get_msg (uj_Msg job);
  t ← gets now;
  if IsExpired t (m_ExpireAt msg) then mret tt
  else
    match sender msg with
    | None => mret tt
    | Some err =>
        e ← new_msg (error_frame (m_MsgId msg) (Some (m_MsgId msg)) ERR_UPSTREAM_SEND_FAILED
                       ("upstream send failed: " +:+ err));
        Submit (ref_ptr (uj_Sess job)) e ≫= λ _, mret tt
    end.

(** One turn of [upstreamWorker].  Receiving from a closed, empty channel
    yields the zero job, whose message is nil.  [pick_done] resolves the
    choice of [select] when the context is done as well. *)
Definition upstreamWorker_turn (pick_done : bool) (biz : string) : MW turn :=
  o ← gets (λ w, pools w !! biz);
  pool ← deref o;
  if pool_done pool && pick_done then mret Exit
  else match upstreamCh pool with
       | job :: q =>
           on_pool biz (upd_upstreamCh q) ≫= λ _, upstream_job job ≫= λ _, mret Continue
       | [] =>
           if pool_closed pool then panic "invalid memory address or nil pointer dereference"
           else if pool_done pool then mret Exit else mret Block
       end.

(** One turn of [downstreamWorker]; the zero job of a closed channel is a nil
    message, which the chain drops. *)
Definition downstreamWorker_turn (pick_done : bool) (biz : string) : MW turn :=
  o ← gets (λ w, pools w !! biz);
  pool ← deref o;
  let run (m : option positive) : MW unit :=
    λ w, let '(r, (w', _)) := downstream_job (pool_store pool) m w in (r, w') in
  if pool_done pool && pick_done then mret Exit
  else match downstreamCh pool with
       | m :: q => on_pool biz (upd_downstreamCh q) ≫= λ _, run (Some m) ≫= λ _, mret Continue
       | [] =>
           if pool_closed pool then run None ≫= λ _, mret Continue
           else if pool_done pool then mret Exit else mret Block
       end.
End worker.

Section spec.
Context {TS : Type} `{Scheduler TS timeoutPayload unit} `{MapRange} `{PayloadLib}.
Implicit Types w : World TS.

(** A message that reached the business side leaves no trace but in the queue. *)
Lemma upstream_job_sent sender job w msg :
  msgs w !! uj_Msg job = Some msg →
  (IsExpired (now w) (m_ExpireAt msg) = true ∨ sender msg = None) →
  upstream_job sender job w = (Ret tt, w).
Proof.
  intros E Hok. unfold upstream_job. rewrite (bind_ret_run _ _ _ _ _ (get_msg_run _ w msg E)).
  erewrite bind_ret_run; [|reflexivity].
  destruct (IsExpired (now w) (m_ExpireAt msg)); [done|]. destruct Hok as [?| ->]; done.
Qed.
End spec.

(** ** Claims *)

(** A failed upstream send is reported to its sender: the worker takes the
    job off the queue and, when the session is connected and its connection has
    room, appends one error frame 4001 that names the message; a job that was
    sent or has expired changes nothing else. *)
Theorem upstream_failure_reported {TS : Type} `{Scheduler TS timeoutPayload unit} `{MapRange} `{PayloadLib}
    (sender : Message → error) (w : World TS) biz pool job q msg err s c k :
  pools w !! biz = Some pool → upstreamCh pool = job :: q →
  msgs w !! uj_Msg job = Some msg → IsExpired (now w) (m_ExpireAt msg) = false → sender msg = Some err →
  sessions w !! ref_ptr (uj_Sess job) = Some s → s_conn s = Some c → conns w !! c = Some k →
  accepts k = true →
  ∃ w' e f, upstreamWorker_turn sender false biz w = (Ret Continue, w') ∧
    pools w' = <[biz := upd_upstreamCh q pool]> (pools w) ∧
    msgs w !! e = None ∧ msgs w' !! e = Some f ∧
    (writeCh <$> conns w' !! c) = Some (writeCh k ++ [e]) ∧
    m_Type f = FrameType_ERROR ∧ m_Delivery f = Some (mkDelivery QosClass_UNSPECIFIED false (Some (m_MsgId msg))) ∧
    m_Body f = Some (mkBody Codec_PROTOBUF CompressAlgo_NONE
      (marshal_ErrorPayload ERR_UPSTREAM_SEND_FAILED ("upstream send failed: " +:+ err))).
Proof.
  intros Ep Eq Em Hexp Hsend Es Ec Ek Ha. pose proof (accepts_active k Ha) as Hact.
  unfold upstreamWorker_turn. erewrite bind_ret_run by reflexivity. rewrite Ep.
  erewrite bind_ret_run by reflexivity. rewrite andb_false_r, Eq.
  rewrite (bind_ret_run _ _ _ _ _ (on_pool_run biz _ w pool Ep)).
  set (w1 := upd_pools <[biz := upd_upstreamCh q pool]> w).
  set (e := fresh (dom (msgs w))).
  set (f := error_frame (m_MsgId msg) (Some (m_MsgId msg)) ERR_UPSTREAM_SEND_FAILED
              ("upstream send failed: " +:+ err)).
  assert (upstream_job sender job w1 = (Ret tt,
    after_delivery (ref_ptr (uj_Sess job)) c e s k f (upd_msgs <[e := f]> w1))) as Ej.
  { unfold upstream_job. rewrite (bind_ret_run _ _ _ _ _ (get_msg_run _ w1 msg Em)).
    erewrite bind_ret_run by reflexivity. change (now w1) with (now w). rewrite Hexp, Hsend.
    erewrite bind_ret_run by reflexivity.
    rewrite (bind_ret_run _ _ _ _ _ (Submit_delivered (ref_ptr (uj_Sess job)) c e
      (upd_msgs <[e := f]> w1) s k f Es Ec Ek Ha (lookup_insert_eq _ _ _))). done. }
  rewrite (bind_ret_run _ _ _ _ _ Ej).
  eexists _, e, (set_SeqId (u64 (nextSendSeq k + 1)) f). split; [reflexivity|].
  assert (d_Acker (deps s) && at_least_once f = false) as Hf by apply andb_false_r.
  unfold after_delivery. rewrite Hf. simpl. split_and!; try done.
  - apply not_elem_of_dom, is_fresh.
  - rewrite lookup_alter_eq, lookup_insert_eq. simpl. unfold stamped. by rewrite Hact.
  - rewrite lookup_insert_eq. simpl. unfold submitted. rewrite Hact.
    unfold accepts in Ha. rewrite Hact in Ha. apply bool_decide_eq_true in Ha. by rewrite decide_True.
Qed.

Definition busy_pool : WorkerPool := mkPool [mkUpJob demo_ref 1] [] true false false.
Definition busy_world : World demo_TS := upd_pools (λ _, {[ "im" := busy_pool ]}) demo_world.

Lemma upstream_failure_reported_witness :
  ∃ w' e f, upstreamWorker_turn (H1:=demo_payload) (λ _, Some "broker down") false "im" busy_world =
      (Ret Continue, w') ∧
    msgs w' !! e = Some f ∧ (writeCh <$> conns w' !! 1%positive) = Some [e] ∧
    m_Body f = Some (mkBody Codec_PROTOBUF CompressAlgo_NONE [4001%Z]).
Proof.
  destruct (upstream_failure_reported (H1:=demo_payload) (λ _, Some "broker down") busy_world "im" busy_pool
    (mkUpJob demo_ref 1) [] demo_msg "broker down" demo_session 1 demo_conn
    eq_refl eq_refl eq_refl eq_refl eq_refl eq_refl eq_refl eq_refl eq_refl)
    as (w' & e & f & E & _ & _ & Hf & Hq & _ & _ & Hb).
  exists w', e, f. split_and!; assumption.
Defined.

(** C38.  Back-pressure of the upstream queue, while no pool is stopped: a message
    for an unknown business domain or a full queue is refused with an error and
    changes nothing, otherwise its job is appended; no other domain is affected, and a queue
    never holds more than its capacity. *)
Theorem upstream_backpressure {TS : Type} (biz : string) (sess : SessionRef) (m : positive) (w : World TS) :
  pools_bounded w → (∀ b p, pools w !! b = Some p → pool_closed p = false) →
  ∃ w', mgr_SubmitUpstream biz sess m w =
      (Ret (match pools w !! biz with
            | None => Some "ErrUnknownBizCode"
            | Some p => if decide (length (upstreamCh p) < pool_cap) then None
                        else Some "worker: pool channel full"
            end), w') ∧
    pools_bounded w' ∧ (∀ b, b ≠ biz → pools w' !! b = pools w !! b) ∧
    (upstreamCh <$> pools w' !! biz) =
      (λ p, if decide (length (upstreamCh p) < pool_cap) then upstreamCh p ++ [mkUpJob sess m]
            else upstreamCh p) <$> pools w !! biz.
Proof.
  intros Hb Hopen. pose proof (mgr_SubmitUpstream_bounded biz sess m w Hb) as Hb'.
  pose proof (λ b, mgr_SubmitUpstream_isolated biz sess m w b) as Hiso.
  revert Hb' Hiso. unfold mgr_SubmitUpstream, pool_SubmitUpstream. mrun.
  destruct (pools w !! biz) as [p|] eqn:E; [|intros Hb' Hiso; exists w; rewrite E; split_and!; done].
  rewrite (Hopen _ _ E). destruct (decide _); intros Hb' Hiso.
  - rewrite (on_pool_run _ _ _ _ E) in *. eexists. split; [reflexivity|]. split; [exact Hb'|].
    split; [exact Hiso|]. simpl. rewrite lookup_insert_eq. simpl. by rewrite decide_True.
  - exists w. rewrite E. split_and!; try done. simpl. by rewrite decide_False.
Qed.

Lemma upstream_backpressure_witness :
  ∃ w', mgr_SubmitUpstream "im" demo_ref 1 demo_world = (Ret None, w') ∧ pools_bounded w' ∧
    (∀ b, b ≠ "im" → pools w' !! b = pools demo_world !! b) ∧
    (upstreamCh <$> pools w' !! "im") = Some [mkUpJob demo_ref 1].
Proof.
  refine (upstream_backpressure "im" demo_ref 1 demo_world _ _).
  - intros b p. simpl. rewrite lookup_singleton_Some. intros [_ <-]. vm_compute. split; lia.
  - exact demo_pools_open.
Defined.

(** Stopping a pool can crash the process: [Stop] closes the upstream
    channel, and a worker that then receives from it instead of noticing the
    cancelled context dereferences a nil message. *)
Theorem stopped_pool_may_crash {TS : Type} `{Scheduler TS timeoutPayload unit} `{MapRange} `{PayloadLib}
    (sender : Message → error) (w : World TS) biz pool :
  pools w !! biz = Some pool → pool_closed pool = false → upstreamCh pool = [] →
  ∃ w1 why, pool_Stop biz w = (Ret tt, w1) ∧ upstreamWorker_turn sender false biz w1 = (Panic why, w1) ∧
    upstreamWorker_turn sender true biz w1 = (Ret Exit, w1).
Proof.
  intros Ep Hc Hq. unfold pool_Stop. erewrite bind_ret_run by reflexivity. rewrite Ep.
  erewrite bind_ret_run by reflexivity. rewrite Hc, (on_pool_run _ _ _ _ Ep).
  eexists _, _. split; [reflexivity|]. unfold upstreamWorker_turn.
  split; (erewrite bind_ret_run by reflexivity); simpl; rewrite lookup_insert_eq;
    (erewrite bind_ret_run by reflexivity); simpl; rewrite ?Hq; reflexivity.
Qed.

Lemma stopped_pool_may_crash_witness :
  ∃ w1 why, pool_Stop "im" demo_world = (Ret tt, w1) ∧
    upstreamWorker_turn (H1:=demo_payload) (λ _, None) false "im" w1 = (Panic why, w1) ∧
    upstreamWorker_turn (H1:=demo_payload) (λ _, None) true "im" w1 = (Ret Exit, w1).
Proof.
  exact (stopped_pool_may_crash (H1:=demo_payload) (λ _, None) demo_world "im" demo_pool
    eq_refl eq_refl eq_refl).
Defined.
