(* ===== verification/PoolLife.v ===== *)
(** * Life of the worker pools ([worker/pool.go], [worker/manager.go])

    [StartAll] launches the goroutines of every pool, [Stop] of the manager stops
    every pool in a goroutine of its own.  A turn of a worker is that of
    [Worker.v]; here are the goroutines themselves, the [WaitGroup] of each pool
    and who waits for whom. *)

From stdpp Require Import base list gmap strings numbers.
From S2P Require Import Prelude Threads Timer Shard Message Codec Router World Connection Pool Session Demo SessionSpec.
From S2P Require Import Pipeline Uplink UplinkSpec Downlink Worker.

(** A worker's goroutine calls [p.wg.Done()] first and works afterwards. *)
Inductive worker_pc : Set := Launched | Working | Gone.
(** A goroutine of [Manager.Stop]: [p.Stop()] is not called yet, it waits in
    [p.wg.Wait()], it has returned. *)
Inductive stop_pc : Set := NotCalled | Calling | Waiting | Returned.
#[export] Instance stop_pc_eq_dec : EqDecision stop_pc.
Proof. solve_decision. Defined.

(** The goroutines of a pool: its workers (upstream or not), the count of its
    [WaitGroup], the goroutine that stops it. *)
Record PoolRun := mkPoolRun {
  pr_biz : string; pr_workers : list (bool * worker_pc); pr_wg : nat; pr_stop : stop_pc;
}.
Record Runtime (TS : Type) := mkRuntime { rt_world : World TS; rt_pools : list PoolRun; rt_crashed : bool }.
Arguments mkRuntime {TS}. Arguments rt_world {TS}. Arguments rt_pools {TS}. Arguments rt_crashed {TS}.

(** [WorkerPool.Start]: [wg.Add(1)] and a goroutine for each worker. *)
Definition pool_Start (cfg : PoolConfig) (pr : PoolRun) : PoolRun :=
  let up := Z.to_nat (UpstreamWorkers cfg) in
  let down := Z.to_nat (DownstreamWorkers cfg) in
  mkPoolRun (pr_biz pr) (pr_workers pr ++ replicate up (true, Launched) ++ replicate down (false, Launched))
    (pr_wg pr + up + down) (pr_stop pr).
Definition pool_run (cfg : PoolConfig) : PoolRun := mkPoolRun (cfg_BizCode cfg) [] 0 NotCalled.
(** [Manager.StartAll] *)
Definition StartAll {TS} (cfgs : list PoolConfig) (w : World TS) : Runtime TS :=
  mkRuntime w ((λ cfg, pool_Start cfg (pool_run cfg)) <$> cfgs) false.

(** What can happen next. *)
Inductive pool_event : Type :=
  | EvWorker (j i : nat) (pick_done : bool)      (* worker [i] of pool [j] goes on *)
  | EvStopper (j : nat)                          (* the goroutine that stops pool [j] goes on *)
  | EvManagerStop                                (* [Manager.Stop] is called *)
  | EvSubmitUp (biz : string) (sess : SessionRef) (m : positive)
  | EvSubmitDown (biz : string) (m : positive).

Section life.
Context {TS : Type} `{Scheduler TS timeoutPayload unit} `{MapRange} `{PayloadLib}.
(** [UpstreamSender.Send], by pool. *)
Context (sender : string → Message → error).
Implicit Types (w : World TS) (r : Runtime TS) (pr : PoolRun).

(** A call in a goroutine: a panic ends the process. *)
Definition in_goroutine {A} (m : M (World TS) A) r (k : A → World TS → option (Runtime TS)) : option (Runtime TS) :=
  match m (rt_world r) with
  | (Ret a, w') => k a w'
  | (Panic _, w') => Some (mkRuntime w' (rt_pools r) true)
  end.

Definition worker_turn (up pick_done : bool) (biz : string) : M (World TS) turn :=
  if up then upstreamWorker_turn (sender biz) pick_done biz else downstreamWorker_turn pick_done biz.

Definition set_pool (j : nat) pr w r : Runtime TS := mkRuntime w (<[j := pr]> (rt_pools r)) (rt_crashed r).
Definition worker_step (j : nat) pr (i : nat) (pick_done up : bool) (pc : worker_pc) r : option (Runtime TS) :=
  let at_pc pc' wg := mkPoolRun (pr_biz pr) (<[i := (up, pc')]> (pr_workers pr)) wg (pr_stop pr) in
  match pc with
  | Launched => Some (set_pool j (at_pc Working (pred (pr_wg pr))) (rt_world r) r)
  | Working =>
      in_goroutine (worker_turn up pick_done (pr_biz pr)) r (λ t w',
        match t with
        | Continue => Some (set_pool j pr w' r)
        | Exit => Some (set_pool j (at_pc Gone (pr_wg pr)) w' r)
        | Block => None
        end)
  | Gone => None
  end.
Definition stopper_step (j : nat) pr r : option (Runtime TS) :=
  let at_stop sp := mkPoolRun (pr_biz pr) (pr_workers pr) (pr_wg pr) sp in
  match pr_stop pr with
  | Calling => in_goroutine (pool_Stop (pr_biz pr)) r (λ _ w', Some (set_pool j (at_stop Waiting) w' r))
  | Waiting => if decide (pr_wg pr = 0) then Some (set_pool j (at_stop Returned) (rt_world r) r) else None
  | _ => None
  end.
Definition call_stop pr : PoolRun := mkPoolRun (pr_biz pr) (pr_workers pr) (pr_wg pr) Calling.

Definition exec (e : pool_event) r : option (Runtime TS) :=
  if rt_crashed r then None else
  match e with
  | EvWorker j i pick_done =>
      pr ← rt_pools r !! j; '(up, pc) ← pr_workers pr !! i; worker_step j pr i pick_done up pc r
  | EvStopper j => pr ← rt_pools r !! j; stopper_step j pr r
  | EvManagerStop =>
      if decide (Forall (λ pr, pr_stop pr = NotCalled) (rt_pools r))
      then Some (mkRuntime (rt_world r) (call_stop <$> rt_pools r) false) else None
  | EvSubmitUp biz sess m =>
      in_goroutine (mgr_SubmitUpstream biz sess m) r (λ _ w', Some (mkRuntime w' (rt_pools r) false))
  | EvSubmitDown biz m =>
      in_goroutine (mgr_SubmitDownstream biz m) r (λ _ w', Some (mkRuntime w' (rt_pools r) false))
  end.

Fixpoint run (es : list pool_event) r : option (Runtime TS) :=
  match es with [] => Some r | e :: es' => exec e r ≫= run es' end.

(** [wg.Wait()] of [Manager.Stop] has returned. *)
Definition stop_returned r : Prop := Forall (λ pr, pr_stop pr = Returned) (rt_pools r).
Definition stop_called r : Prop := Forall (λ pr, pr_stop pr ≠ NotCalled) (rt_pools r).

(** ** The count of a [WaitGroup] is that of the goroutines not begun *)
Definition not_begun (wk : bool * worker_pc) : nat := match wk.2 with Launched => 1 | _ => 0 end.
Record pool_ok pr : Prop := {
  po_wg : pr_wg pr = total not_begun (pr_workers pr);
  po_stop : pr_stop pr = Returned → pr_wg pr = 0;
}.
Definition life_ok r : Prop := ∀ j pr, rt_pools r !! j = Some pr → pool_ok pr.

Lemma StartAll_ok cfgs w : life_ok (StartAll cfgs w).
Proof.
  intros j pr E. cbn in E. rewrite list_lookup_fmap in E. destruct (cfgs !! j) as [cfg|]; [|done].
  injection E as <-. split; [|done]. cbn. unfold total.
  rewrite sum_list_with_app. fold (total not_begun). 
  pose proof (total_replicate not_begun) as Ht. unfold total in Ht |- *. rewrite !Ht. cbn. lia.
Qed.

(** What [Stop] still has to see: goroutines not begun, stoppers not done. *)
Definition stop_rank (sp : stop_pc) : nat := match sp with Calling => 2 | Waiting => 1 | _ => 0 end.
Definition pool_rank pr : nat := total not_begun (pr_workers pr) + stop_rank (pr_stop pr).
Definition remaining r : nat := total pool_rank (rt_pools r).

Lemma remaining_set j pr pr' w r : rt_pools r !! j = Some pr →
  remaining (set_pool j pr' w r) + pool_rank pr = remaining r + pool_rank pr'.
Proof. intros E. by apply total_insert. Qed.

(** What a step makes of the pool it is taken in. *)
Inductive moved pr : PoolRun → Prop :=
  | moved_begin i up : pr_workers pr !! i = Some (up, Launched) →
      moved pr (mkPoolRun (pr_biz pr) (<[i := (up, Working)]> (pr_workers pr)) (pred (pr_wg pr)) (pr_stop pr))
  | moved_work : moved pr pr
  | moved_exit i up : pr_workers pr !! i = Some (up, Working) →
      moved pr (mkPoolRun (pr_biz pr) (<[i := (up, Gone)]> (pr_workers pr)) (pr_wg pr) (pr_stop pr))
  | moved_closed : pr_stop pr = Calling → moved pr (mkPoolRun (pr_biz pr) (pr_workers pr) (pr_wg pr) Waiting)
  | moved_returned : pr_stop pr = Waiting → pr_wg pr = 0 →
      moved pr (mkPoolRun (pr_biz pr) (pr_workers pr) (pr_wg pr) Returned).

Lemma moved_ok pr pr' : pool_ok pr → moved pr pr' →
  pool_ok pr' ∧ pool_rank pr' ≤ pool_rank pr ∧ (pr_stop pr ≠ NotCalled → pr_stop pr' ≠ NotCalled).
Proof.
  intros [Hwg Hst] Hm. unfold pool_rank. inversion Hm as [i up E| |i up E|Es|Es Hz]; subst; cbn [pr_workers pr_wg pr_stop].
  - pose proof (total_insert not_begun _ i _ (up, Working) E) as Ht. cbn [not_begun snd] in Ht.
    split_and!; [|lia|done]. split; cbn [pr_wg pr_workers pr_stop]; [lia|]. intros Hr. specialize (Hst Hr). lia.
  - split_and!; [by split|lia|done].
  - pose proof (total_insert not_begun _ i _ (up, Gone) E) as Ht. cbn [not_begun snd] in Ht.
    split_and!; [|lia|done]. split; cbn [pr_wg pr_workers pr_stop]; [lia|done].
  - rewrite Es. cbn [stop_rank]. split_and!; [|lia|done]. by split.
  - rewrite Es. cbn [stop_rank]. split_and!; [|lia|done]. by split.
Qed.

(** Every event moves one pool, or calls [Stop], or leaves the pools alone. *)
Lemma exec_moves e r r' : exec e r = Some r' →
  (∃ j pr pr', rt_pools r !! j = Some pr ∧ moved pr pr' ∧ rt_pools r' = <[j := pr']> (rt_pools r)) ∨
  (Forall (λ pr, pr_stop pr = NotCalled) (rt_pools r) ∧ rt_pools r' = call_stop <$> rt_pools r) ∨
  rt_pools r' = rt_pools r.
Proof.
  unfold exec. destruct (rt_crashed r); [done|]. destruct e as [j i pick_done|j| |biz sess m|biz m].
  - destruct (rt_pools r !! j) as [pr|] eqn:Ej; [|done]. cbn. destruct (pr_workers pr !! i) as [[up pc]|] eqn:Ei; [|done].
    cbn. destruct pc; cbn; [intros [= <-]; left; exists j, pr; eauto using moved_begin| |done].
    unfold in_goroutine. destruct (worker_turn _ _ _ _) as [[[]|why] w']; intros [=<-]; [left..|by right; right].
    + exists j, pr. eauto using moved_work.
    + exists j, pr. eauto using moved_exit.
  - destruct (rt_pools r !! j) as [pr|] eqn:Ej; [|done]. cbn. unfold stopper_step.
    destruct (pr_stop pr) eqn:Es; [done| | |done].
    + unfold in_goroutine. destruct (pool_Stop _ _) as [[a|why] w']; intros [= <-]; [left|by right; right].
      exists j, pr. eauto using moved_closed.
    + case_decide as Hz; [|done]. intros [= <-]. left. exists j, pr. eauto using moved_returned.
  - case_decide as Hn; [|done]. intros [= <-]. right. by left.
  - unfold in_goroutine. destruct (mgr_SubmitUpstream _ _ _ _) as [[]]; intros [= <-]; by right; right.
  - unfold in_goroutine. destruct (mgr_SubmitDownstream _ _ _) as [[]]; intros [= <-]; by right; right.
Qed.

Lemma life_exec_ok e r r' : life_ok r → exec e r = Some r' → life_ok r'.
Proof.
  intros Hok [(j & pr & pr' & Ej & Hm & E)|[[_ E]|E]]%exec_moves; intros k q; rewrite E; [| |apply Hok].
  - intros [[-> ->]|[_ Ek]]%lookup_insert_cases; [by apply (moved_ok pr); [apply (Hok j)|]|by apply (Hok k)].
  - rewrite list_lookup_fmap. destruct (rt_pools r !! k) as [q0|] eqn:Ek; [|done]. intros [= <-].
    destruct (Hok _ _ Ek) as [Hwg _]. by split.
Qed.
Lemma life_run_ok es r r' : life_ok r → run es r = Some r' → life_ok r'.
Proof.
  revert r. induction es as [|e es IH]; intros r Hok E; cbn in E; [by simplify_eq|].
  destruct (exec e r) as [r1|] eqn:E1; [|done]. cbn in E. eauto using life_exec_ok.
Qed.

(** Once called, [Stop] never has more to wait for. *)
Lemma exec_remaining e r r' : life_ok r → stop_called r → exec e r = Some r' → remaining r' ≤ remaining r ∧ stop_called r'.
Proof.
  intros Hok Hc He. unfold stop_called, remaining in *. rewrite Forall_lookup in Hc. 
  apply exec_moves in He as [(j & pr & pr' & Ej & Hm & E)|[[Hn E]|E]]; rewrite E; [| |by rewrite Forall_lookup].
  - destruct (moved_ok _ _ (Hok _ _ Ej) Hm) as (_ & Hle & Hnc).
    pose proof (total_insert pool_rank _ j _ pr' Ej). split; [lia|]. rewrite Forall_lookup.
    intros k q [[-> ->]|[_ Ek]]%lookup_insert_cases; [|by eapply Hc]. apply Hnc. by eapply Hc.
  - rewrite Forall_lookup in Hn. destruct (rt_pools r) as [|pr prs]; [done|].
    destruct (Hc 0 pr eq_refl). by apply (Hn 0 pr).
Qed.

(** With nothing left it has returned. *)
Lemma idle_returned r : stop_called r → ¬ stop_returned r → remaining r ≠ 0.
Proof.
  intros Hc Hn Hz. apply Hn, Forall_lookup. intros j pr Ej. unfold stop_called in Hc. rewrite Forall_lookup in Hc.
  pose proof (total_one pool_rank _ _ _ Ej) as Hle. unfold remaining in Hz. rewrite Hz in Hle. specialize (Hc _ _ Ej).
  unfold pool_rank in Hle. destruct (pr_stop pr); cbn [stop_rank] in Hle; (done || lia).
Qed.

(** What it waits for can happen. *)
Lemma stop_progress r : life_ok r → stop_called r → rt_crashed r = false → ¬ stop_returned r →
  ∃ e r', exec e r = Some r' ∧ (rt_crashed r' = true ∨ remaining r' < remaining r).
Proof.
  intros Hok Hc Hcr Hn. unfold stop_returned in Hn.
  apply not_Forall_Exists, list.Exists_exists in Hn as (pr & Hin & Hpr); [|intros ?; solve_decision].
  apply list_elem_of_lookup in Hin as [j Ej]. pose proof (Hok _ _ Ej) as [Hwg _].
  unfold stop_called in Hc. rewrite Forall_lookup in Hc. specialize (Hc _ _ Ej). cbn in Hpr.
  destruct (pr_stop pr) eqn:Es; [done| | |done].
  - destruct (pool_Stop (pr_biz pr) (rt_world r)) as [[[]|why] w'] eqn:Ep.
    + eexists (EvStopper j), _. unfold exec. rewrite Hcr, Ej. cbn. unfold stopper_step, in_goroutine. rewrite Es, Ep.
      split; [done|]. right. pose proof (remaining_set j pr (mkPoolRun (pr_biz pr) (pr_workers pr) (pr_wg pr) Waiting) w' r Ej) as Hr.
      unfold pool_rank in Hr. rewrite Es in Hr. cbn [pr_workers pr_stop stop_rank] in Hr. lia.
    + eexists (EvStopper j), _. unfold exec. rewrite Hcr, Ej. cbn. unfold stopper_step, in_goroutine. rewrite Es, Ep.
      split; [done|]. by left.
  - destruct (decide (pr_wg pr = 0)) as [Hz|Hz].
    + eexists (EvStopper j), _. unfold exec. rewrite Hcr, Ej. cbn. unfold stopper_step. rewrite Es, decide_True by done.
      split; [done|]. right. pose proof (remaining_set j pr (mkPoolRun (pr_biz pr) (pr_workers pr) (pr_wg pr) Returned) (rt_world r) r Ej) as Hr.
      unfold pool_rank in Hr. rewrite Es in Hr. cbn [pr_workers pr_stop stop_rank] in Hr. lia.
    + destruct (some_positive not_begun (pr_workers pr)) as (i & [up pc] & Ei & Hpc); [lia|].
      destruct pc; cbn in Hpc; try lia. eexists (EvWorker j i false), _. unfold exec. rewrite Hcr, Ej. cbn. rewrite Ei. cbn.
      split; [done|]. right.
      pose proof (remaining_set j pr (mkPoolRun (pr_biz pr) (<[i := (up, Working)]> (pr_workers pr)) (pred (pr_wg pr)) (pr_stop pr)) (rt_world r) r Ej) as Hr.
      pose proof (total_insert not_begun _ i _ (up, Working) Ei) as Ht. unfold pool_rank in Hr. cbn [pr_workers pr_stop not_begun snd] in Hr, Ht. lia.
Qed.
End life.

(** ** Claims *)

(** [Stop] of the manager returns, and what it waits for is not the work.  From
    any moment after it was called, nothing that happens gives it more to wait
    for, and at most as many steps as there are goroutines not begun and pools
    not closed - each of them possible at once, none of them a turn of a
    worker - bring it to its return or the process to a crash.  When it has
    returned every worker has begun; that none still works, or that no job is
    queued, does not follow ([stop_abandons_work]). *)
Theorem manager_stops {TS : Type} `{Scheduler TS timeoutPayload unit} `{MapRange} `{PayloadLib}
    (sender : string → Message → error) (cfgs : list PoolConfig) (w : World TS) es r :
  run sender es (StartAll cfgs w) = Some r → stop_called r →
  (∀ e r', exec sender e r = Some r' → remaining r' ≤ remaining r ∧ stop_called r') ∧
  (∃ es' r', length es' ≤ remaining r ∧ run sender es' r = Some r' ∧ (rt_crashed r' = true ∨ stop_returned r')) ∧
  (stop_returned r → ∀ j pr i up pc, rt_pools r !! j = Some pr → pr_workers pr !! i = Some (up, pc) → pc ≠ Launched).
Proof.
  intros E Hc. pose proof (life_run_ok sender _ _ _ (StartAll_ok cfgs w) E) as Hok. split_and!.
  - intros e r' He. by eapply exec_remaining.
  - clear E. remember (remaining r) as n eqn:En. revert r En Hok Hc.
    induction n as [n IH] using lt_wf_ind. intros r -> Hok Hc.
    destruct (rt_crashed r) eqn:Hcr; [exists [], r; cbn; split_and!; [lia|done|by left]|].
    destruct (decide (Forall (λ pr, pr_stop pr = Returned) (rt_pools r))) as [Hr|Hr];
      [exists [], r; cbn; split_and!; [lia|done|by right]|].
    destruct (stop_progress sender r Hok Hc Hcr Hr) as (e & r1 & He & [Hcr1|Hlt]).
    + exists [e], r1. cbn. rewrite He. split_and!; [|done|by left].
      apply Nat.neq_0_lt_0, (idle_returned r Hc), Hr.
    + destruct (exec_remaining sender _ _ _ Hok Hc He) as [_ Hc1].
      destruct (IH _ Hlt r1 eq_refl (life_exec_ok sender _ _ _ Hok He) Hc1) as (es' & r' & Hl & Er & Hend).
      exists (e :: es'), r'. cbn. rewrite He. split_and!; [lia|done|done].
  - intros Hr j pr i up pc Ej Ei ->. unfold stop_returned in Hr. rewrite Forall_lookup in Hr. destruct (Hok _ _ Ej) as [Hwg Hst].
    pose proof (total_one not_begun _ _ _ Ei) as Hone. specialize (Hst (Hr _ _ Ej)). cbn in Hone. lia.
Qed.

(** A pool with one worker each way, stopped after it took a job over. *)
Definition demo_cfg : PoolConfig := mkPoolConfig "im" 1 100 1 100 true.
Definition demo_start : Runtime demo_TS := StartAll [demo_cfg] demo_world.
Definition demo_life : list pool_event :=
  [EvWorker 0 0 false; EvSubmitUp "im" demo_ref 1; EvManagerStop; EvStopper 0].
Definition demo_sender (biz : string) (m : Message) : error := None.
Abbreviation demo_pools es := (run (H1:=demo_payload) demo_sender es demo_start).

Lemma manager_stops_witness : ∃ r, demo_pools demo_life = Some r ∧ stop_called r ∧ ¬ stop_returned r ∧
  ∃ es' r', length es' ≤ 2 ∧ run (H1:=demo_payload) demo_sender es' r = Some r' ∧ (rt_crashed r' = true ∨ stop_returned r').
Proof.
  assert (rt_pools <$> demo_pools demo_life = Some [mkPoolRun "im" [(true, Working); (false, Launched)] 1 Waiting]) as E
    by (vm_compute; reflexivity).
  apply fmap_Some in E as (r & Er & Ep). exists r. split; [done|].
  assert (stop_called r) as Hc by (unfold stop_called; rewrite <-Ep; by repeat constructor).
  split; [done|]. split; [unfold stop_returned; rewrite <-Ep; by inversion 1|].
  destruct (manager_stops (H1:=demo_payload) demo_sender [demo_cfg] demo_world demo_life r Er Hc) as (_ & Hr & _).
  unfold remaining in Hr. rewrite <-Ep in Hr. exact Hr.
Defined.

(** [Stop] has returned, a worker still works and the job it was given is still
    queued; the worker sends it after all, and then reads the nil message of the
    closed channel, which ends the process. *)
Lemma stop_abandons_work :
  let stopped := demo_life ++ [EvWorker 0 1 false; EvStopper 0] in
  (rt_pools <$> demo_pools stopped = Some [mkPoolRun "im" [(true, Working); (false, Working)] 0 Returned]) ∧
  ((λ r, length ∘ upstreamCh <$> pools (rt_world r) !! "im") <$> demo_pools stopped = Some (Some 1)) ∧
  ((λ r, rt_crashed r) <$> demo_pools (stopped ++ [EvWorker 0 0 false]) = Some false) ∧
  ((λ r, rt_crashed r) <$> demo_pools (stopped ++ [EvWorker 0 0 false; EvWorker 0 0 false]) = Some true).
Proof. split_and!; vm_compute; reflexivity. Qed.

(** A message that comes after [Stop] was called ends the process as well. *)
Lemma late_message_crashes :
  (λ r, rt_crashed r) <$> demo_pools (demo_life ++ [EvSubmitDown "im" 1]) = Some true.
Proof. vm_compute. reflexivity. Qed.
