(* ===== verification/Handler.v ===== *)
(** * Frame handlers ([gateway/internal/access/handler])

    [Dispatch] looks the handler of a frame type up in a table that [Build]
    fills; there is no fallback handler. *)

From Stdlib Require Import Ascii.
From stdpp Require Import base list gmap strings numbers pretty.
From S2P Require Import Prelude Timer Shard Message Codec Router World Connection.
From S2P Require Import Pool Session Demo SessionSpec Pipeline Uplink UplinkSpec.

(** [[]byte(s)] *)
Definition bytes_of (s : string) : list Z := (λ c, Z.of_N (N_of_ascii c)) <$> String.list_ascii_of_string s.

Inductive MsgHandler : Set := HeartbeatHandler | LogoutHandler | UpstreamHandler.

(** [ImplRegistry]: the table and the fallback (nil after [NewRegistry]). *)
Record HandlerRegistry := mkHandlerRegistry {
  handlers : gmap FrameType MsgHandler; fallback : option MsgHandler;
}.

Definition NewHandlerRegistry : HandlerRegistry := mkHandlerRegistry ∅ None.
Definition Register (t : FrameType) (h : MsgHandler) (r : HandlerRegistry) : HandlerRegistry :=
  mkHandlerRegistry (<[t := h]> (handlers r)) (fallback r).
Definition Build : HandlerRegistry :=
  Register FrameType_BUSINESS UpstreamHandler
    (Register FrameType_KICK LogoutHandler
      (Register FrameType_PING HeartbeatHandler NewHandlerRegistry)).

Section handlers.
Context {TS : Type} `{Scheduler TS timeoutPayload unit} `{MapRange} `{PayloadLib}.
Context (limiter : option (string → string → bool)).
Abbreviation MW := (M (World TS)).

(** A frame with a type and a body, every other field zero. *)
Definition plain_frame (t : FrameType) (data : string) : Message :=
  mkMessage t "" "" None None 0 0 None None None (Some (mkBody 0 0 (bytes_of data))).

Definition handle_heartbeat (conn m : positive) : MW error :=
  msg ← get_msg m;
  let reply := if decide (m_Type msg ≠ FrameType_PING)
               then plain_frame FrameType_ERROR "invalid message type"
               else plain_frame FrameType_PONG "pong" in
  r ← new_msg reply;
  conn_Submit conn r ≫= λ _, mret None.

Definition handle_logout (sess conn m : positive) : MW error :=
  msg ← get_msg m;
  tc ← deref (m_TraceContext msg);
  r ← new_msg (mkMessage FrameType_KICK (m_MsgId msg) "" None None 0 0 None None
                 (Some (mkTraceContext (TraceId tc))) (Some (mkBody 0 0 [])));
  conn_Submit conn r ≫= λ _,
  sess_Close sess ≫= λ _, mret None.

Definition handle_upstream (sess conn m : positive) : MW error := λ w,
  let '(r, (w', _)) := ChainAdapter_Run limiter sess conn (Some m) w in
  (match r with Ret _ => Ret None | Panic why => Panic why end, w').

Definition Handle (h : MsgHandler) (sess conn m : positive) : MW error :=
  match h with
  | HeartbeatHandler => handle_heartbeat conn m
  | LogoutHandler => handle_logout sess conn m
  | UpstreamHandler => handle_upstream sess conn m
  end.

(** A nil interface panics when its method is called. *)
Definition Dispatch (reg : HandlerRegistry) (sess conn m : positive) : MW error :=
  msg ← get_msg m;
  match handlers reg !! m_Type msg with
  | Some h => Handle h sess conn m
  | None =>
      h ← deref (fallback reg);
      Handle h sess conn m ≫= λ _, mret (Some "no handler for msg type")
  end.

(** The closure [CreateAndRun] gives to [Run]. *)
Definition onMessage (reg : HandlerRegistry) (sess conn m : positive) : MW unit :=
  Dispatch reg sess conn m ≫= λ _, mret tt.
End handlers.

(** ** Claims *)

(** Heartbeat: a ping on a connection that accepts messages is answered by
    exactly one pong appended to its queue, and dispatch reports no error; no
    session changes. *)
Theorem ping_answered_by_pong {TS : Type} `{Scheduler TS timeoutPayload unit} `{MapRange} `{PayloadLib}
    (limiter : option (string → string → bool)) (w : World TS) sess c m msg k :
  msgs w !! m = Some msg → m_Type msg = FrameType_PING → conns w !! c = Some k → accepts k = true →
  ∃ w' r f, Dispatch limiter Build sess c m w = (Ret None, w') ∧
    (writeCh <$> conns w' !! c) = Some (writeCh k ++ [r]) ∧ msgs w' !! r = Some f ∧
    m_Type f = FrameType_PONG ∧ m_SeqId f = u64 (nextSendSeq k + 1) ∧ sessions w' = sessions w.
Proof.
  intros Em Ht Ek Ha. pose proof (accepts_active k Ha) as Hact. unfold Dispatch.
  rewrite (bind_ret_run _ _ _ _ _ (get_msg_run m w msg Em)). rewrite Ht.
  change (handlers Build !! FrameType_PING) with (Some HeartbeatHandler). cbn [Handle].
  unfold handle_heartbeat. rewrite (bind_ret_run _ _ _ _ _ (get_msg_run m w msg Em)).
  rewrite decide_False by naive_solver. erewrite bind_ret_run by reflexivity.
  set (r := fresh (dom (msgs w))). set (f := plain_frame FrameType_PONG "pong").
  rewrite (bind_ret_run _ _ _ _ _ (conn_Submit_run c r (upd_msgs <[r := f]> w) k Ek)).
  eexists _, r, (set_SeqId (u64 (nextSendSeq k + 1)) f). split; [reflexivity|]. simpl. split_and!; try done.
  - rewrite lookup_insert_eq. simpl. unfold submitted. rewrite Hact.
    unfold accepts in Ha. rewrite Hact in Ha. apply bool_decide_eq_true in Ha. by rewrite decide_True.
  - rewrite lookup_alter_eq, lookup_insert_eq. simpl. unfold stamped. by rewrite Hact.
Qed.

Definition ping : Message :=
  mkMessage FrameType_PING "" "" None None 0 0 None None None None.

Lemma ping_answered_by_pong_witness :
  ∃ w' r f, Dispatch (H1:=demo_payload) None Build 1 1 1 (demo demo_session demo_conn ping) = (Ret None, w') ∧
    (writeCh <$> conns w' !! 1%positive) = Some [r] ∧ msgs w' !! r = Some f ∧
    m_Type f = FrameType_PONG ∧ m_SeqId f = 1%Z ∧ sessions w' = {[ 1%positive := demo_session ]}.
Proof.
  exact (ping_answered_by_pong (H1:=demo_payload) None (demo demo_session demo_conn ping) 1 1 1 ping demo_conn
    eq_refl eq_refl eq_refl eq_refl).
Defined.

(** Any frame other than ping, kick and business (an acknowledgement or a
    subscription, for example) panics in the reader of its connection: there is
    no handler for it and the fallback is nil.  In particular no frame leads to
    [Session.Ack]. *)
Theorem unregistered_frame_panics {TS : Type} `{Scheduler TS timeoutPayload unit} `{MapRange} `{PayloadLib}
    (limiter : option (string → string → bool)) (w : World TS) sess c m msg :
  msgs w !! m = Some msg →
  m_Type msg ∉ [FrameType_PING; FrameType_KICK; FrameType_BUSINESS] →
  ∃ why, onMessage limiter Build sess c m w = (Panic why, w).
Proof.
  intros Em Ht. rewrite !not_elem_of_cons in Ht. destruct Ht as (H1' & H2' & H3' & _).
  unfold onMessage, Dispatch. rewrite bind_run, (bind_ret_run _ _ _ _ _ (get_msg_run m w msg Em)).
  assert (handlers Build !! m_Type msg = None) as ->.
  { unfold Build, Register. simpl. rewrite !lookup_insert_ne by done. apply lookup_empty. }
  simpl. eexists. reflexivity.
Qed.

Lemma unregistered_frame_panics_witness :
  ∃ why, onMessage (H1:=demo_payload) None Build 1 1 1 (demo demo_session demo_conn zeroMessage) =
    (Panic why, demo demo_session demo_conn zeroMessage).
Proof.
  apply (unregistered_frame_panics (H1:=demo_payload) None (demo demo_session demo_conn zeroMessage) 1 1 1
    zeroMessage eq_refl).
  rewrite !not_elem_of_cons. split_and!; try discriminate. apply not_elem_of_nil.
Defined.
