(* ===== verification/Factory.v ===== *)
(** * From a transport to a running connection
      ([gateway/internal/access/connruntime/factory.go],
       [gateway/internal/access/handler/handshake.go])

    [CreateAndRun] performs the handshake, finds or creates the session, wires
    the new connection to session, router and registry, answers the client and
    then runs the connection; [onClose] undoes the wiring.  The auth service,
    the generated handshake messages, the UUID of the connection and the
    cross-node router are outside the node and are parameters. *)

From stdpp Require Import base list gmap strings numbers pretty.
From S2P Require Import Prelude Timer Shard Message Codec Router World Connection.
From S2P Require Import Pool Session Pipeline Uplink Handler.

Record HandshakeRequest := mkHandshakeRequest { Token : string; AppId : string; hs_DeviceType : string }.

(** [handler.AuthResponse], what the auth service answers. *)
Record AuthResponse := mkAuthResponse {
  ar_Code : Z; ar_Msg : string; ar_Valid : bool; ar_UserID : string; ar_DeviceID : string;
}.

Record authInfo := mkAuthInfo {
  ai_userID : string; ai_deviceID : string; ai_appID : string; ai_deviceType : string;
  ai_bizCode : string; ai_connID : string;
}.

(** The error the handshake failed with, or its result. *)
Definition wrap_error (p : string) (e : string) : string := p +:+ ": " +:+ e.

Class HandshakeLib : Type := {
  unmarshal_HandshakeRequest : list Z → string + HandshakeRequest;
  (** [proto.Marshal] of the handshake response: session ID, heartbeat seconds,
      body size, replay position. *)
  marshal_HandshakeResponse : string → Z → Z → Z → list Z;
  marshal_KickRequest : Z → string → list Z;
  (** [http.Post] to the auth service and decoding of its answer. *)
  validateToken : string → string + AuthResponse;
}.

(** [AuthVerifier.Verify] *)
Definition Verify `{HandshakeLib} (token : string) : string + (string * string) :=
  match validateToken token with
  | inl e => inl (wrap_error "validate token failed" e)
  | inr r => if ar_Valid r then inr (ar_UserID r, ar_DeviceID r)
             else inl (wrap_error "token invalid" (ar_Msg r))
  end.

Section factory.
Context {TS : Type} `{Scheduler TS timeoutPayload unit} `{MapRange} `{PayloadLib}
  `{WireLib} `{HandshakeLib}.
Context (fc : FrameCodec) (sha256_hex16 : string → string).
(** [tp.Write] of the transport of the connection. *)
Context (tp_Write : bool → list Z → error).
(** [FactoryDeps]: heartbeat timeout (nanoseconds) and body size. *)
Context (HeartbeatTimeout MaxBodySize : Z).
Abbreviation MW := (M (World TS)).

(** [deadline] is what [SetReadDeadline] returns, [input] what [tp.Read]
    returns, [uuid] the fresh connection ID.  The error for a wrong frame type
    goes on to name it; that suffix is left out. *)
Definition doHandshake (deadline : error) (input : string + list Z) (uuid : string) :
    string + (authInfo * Message) :=
  match deadline with
  | Some e => inl (wrap_error "set deadline" e)
  | None =>
  match input with
  | inl e => inl (wrap_error "read request" e)
  | inr raw =>
  match Decode fc raw with
  | inl e => inl (wrap_error "codec decode request" e)
  | inr msg =>
      if decide (m_Type msg ≠ FrameType_HANDSHAKE) then inl "expected Handshake"
      else
        match unmarshal_HandshakeRequest (from_option b_Data [] (m_Body msg)) with
        | inl e => inl (wrap_error "unmarshal auth payload" e)
        | inr req =>
            if decide (Token req = "") then inl "empty token"
            else
              match Verify (Token req) with
              | inl e => inl (wrap_error "auth verify" e)
              | inr (uid, did) =>
                  inr (mkAuthInfo uid did (AppId req) (hs_DeviceType req) (m_BizCode msg) uuid, msg)
              end
        end
  end end end.

(** [gatewayv1.ERR_HANDSHAKE_FAILED] *)
Definition ERR_HANDSHAKE_FAILED : Z := 1002.

(** The frame [sendRawKick] writes. *)
Definition raw_kick (code : Z) (reason : string) : Message :=
  mkMessage FrameType_KICK "" "" None None 0 0 None None None
    (Some (mkBody Codec_PROTOBUF CompressAlgo_NONE (marshal_KickRequest code reason))).

(** [ref.TraceContext] is dereferenced without a test. *)
Definition sendAuthResponse (c : positive) (ref : Message) (sid : string) (lastSeq : Z) : MW error :=
  tc ← deref (m_TraceContext ref);
  r ← new_msg (mkMessage FrameType_HANDSHAKE_ACK (m_MsgId ref) "" None None 0 0 None None
                 (Some (mkTraceContext (TraceId tc)))
                 (Some (mkBody Codec_PROTOBUF CompressAlgo_NONE
                    (marshal_HandshakeResponse sid (Z.quot HeartbeatTimeout (10 ^ 9)) MaxBodySize
                       (u64 (lastSeq + 1))))));
  encodeAndWrite fc tp_Write c r.

(** Steps 2 to 9 of [CreateAndRun], after a successful handshake: the session
    and connection to run, or [None] when the connection was given up. *)
Definition wire (ai : authInfo) (req : Message) : MW (option (SessionRef * positive)) :=
  '(sess, _) ← GetOrCreate sha256_hex16 (ai_userID ai) (ai_deviceID ai) (ai_appID ai)
                 (ai_deviceType ai) (ai_bizCode ai);
  t ← gets now;
  c ← gets (λ w, fresh (dom (conns w)));
  modify (upd_conns <[c := newConnection t (ai_connID ai) (ai_userID ai) (ai_appID ai)
    (ai_deviceID ai) (ai_deviceType ai) (ai_bizCode ai)]>) ≫= λ _,
  lastSeq ← AttachConn (ref_ptr sess) c;
  kicked ← (λ w, let '(k, r) := RegisterSession (ai_userID ai) (ai_deviceID ai) sess (router w) in
                 (Ret k, upd_router (λ _, r) w));
  match kicked with
  | Some old => sess_Close (ref_ptr old)
  | None => mret tt
  end ≫= λ _,
  e ← RegisterConn (ai_connID ai) c;
  match e with
  | Some _ => DetachConn (ref_ptr sess) ≫= λ _, on_conn c upd_tp_closed ≫= λ _, mret None
  | None =>
      Activate c ≫= λ _,
      e ← sendAuthResponse c req (ref_sid sess) lastSeq;
      match e with
      | Some _ =>
          DetachConn (ref_ptr sess) ≫= λ _, UnregisterConn (ai_connID ai) ≫= λ _,
          on_conn c upd_tp_closed ≫= λ _, mret None
      | None => mret (Some (sess, c))
      end
  end.

(** [CreateAndRun] up to [conn.Run]; a failed handshake is answered with a
    kick frame on the bare transport ([out] collects such frames). *)
Definition CreateAndRun (deadline : error) (input : string + list Z) (uuid : string) :
    MW (option (SessionRef * positive) * list (list Z)) :=
  match doHandshake deadline input uuid with
  | inl e =>
      let data := match Encode fc (raw_kick ERR_HANDSHAKE_FAILED e) with inl _ => [] | inr d => d end in
      mret (None, match tp_Write false data with None => [data] | Some _ => [] end)
  | inr (ai, req) => r ← wire ai req; mret (r, [])
  end.

(** The cleanup [Run] calls when it ends. *)
Definition onClose (sess : SessionRef) (c : positive) : MW unit :=
  k ← get_conn c;
  DetachConn (ref_ptr sess) ≫= λ _,
  UnregisterConn (ConnID k) ≫= λ _,
  on_router (UnregisterAll sess).
End factory.
