(* ===== verification/FactorySpec.v ===== *)
(** * Connection set-up: what it guarantees and where it undoes itself *)

From stdpp Require Import base list gmap strings numbers pretty.
From S2P Require Import Prelude Timer Shard Message Codec Router World Connection.
From S2P Require Import Pool Session Demo Sync Pipeline Uplink UplinkSpec Handler.
From S2P Require Import Factory.

Lemma bind_Ret_inv {S A B} (m : M S A) (f : A → M S B) s b s' :
  (m ≫= f) s = (Ret b, s') → ∃ a s1, m s = (Ret a, s1) ∧ f a s1 = (Ret b, s').
Proof. rewrite bind_run. destruct (m s) as [[a|] s1]; [|done]. eauto. Qed.

(** ** Operations that leave the user and device indexes alone *)
Section quiet.
Context {TS : Type} `{Scheduler TS timeoutPayload unit} `{MapRange} `{PayloadLib}
  `{WireLib} `{HandshakeLib}.
Implicit Types w : World TS.

Definition ident (s : Session) := (sessionID s, userID s, deviceID s, s_once s).

Definition quiet w w' : Prop :=
  userConns (router w') = userConns (router w) ∧ deviceConn (router w') = deviceConn (router w) ∧
  ∀ p, ident <$> sessions w' !! p = ident <$> sessions w !! p.

#[export] Instance quiet_preorder : PreOrder quiet.
Proof.
  split; [done|]. intros w1 w2 w3 (A1 & A2 & A3) (B1 & B2 & B3). split_and!; [congruence..|].
  intros p. by rewrite B3.
Qed.

Lemma quiet_on_sess p f : (∀ s, ident (f s) = ident s) → preserves quiet (on_sess p f).
Proof.
  intros Hf. apply preserves_modify. intros w. split_and!; [done..|]. intros q. simpl.
  rewrite lookup_alter. case_decide; [subst|done]. destruct (sessions w !! q); simpl; by rewrite ?Hf.
Qed.
Lemma quiet_on_router f : (∀ r, userConns (f r) = userConns r ∧ deviceConn (f r) = deviceConn r) →
  preserves quiet (on_router f).
Proof. intros Hf. apply preserves_modify. intros w. simpl. split; [apply Hf|split; [apply Hf|done]]. Qed.
Lemma quiet_modify f : (∀ w, router (f w) = router w ∧ sessions (f w) = sessions w) →
  preserves quiet (modify f).
Proof.
  intros Hf. apply preserves_modify. intros w. destruct (Hf w) as [E1 E2]. split_and!; by rewrite ?E1, ?E2.
Qed.
Lemma quiet_new_msg m : preserves quiet (new_msg m).
Proof. by intros w. Qed.
#[local] Hint Resolve quiet_new_msg : gw.
#[local] Hint Extern 2 (preserves quiet (on_sess _ _)) => apply quiet_on_sess; done : gw.
#[local] Hint Extern 2 (preserves quiet (on_router _)) => apply quiet_on_router; done : gw.
#[local] Hint Extern 2 (preserves quiet (modify _)) => apply quiet_modify; done : gw.
#[local] Hint Extern 2 (preserves quiet (on_conn _ _)) => apply quiet_modify; done : gw.
#[local] Hint Extern 2 (preserves quiet (on_msg _ _)) => apply quiet_modify; done : gw.

Lemma quiet_get_msg m : preserves quiet (get_msg m).
Proof. unfold get_msg. preserves_tac. Qed.
Lemma quiet_get_conn c : preserves quiet (get_conn c).
Proof. unfold get_conn. preserves_tac. Qed.
Lemma quiet_get_sess p : preserves quiet (get_sess p).
Proof. unfold get_sess. preserves_tac. Qed.
#[local] Hint Resolve quiet_get_msg quiet_get_conn quiet_get_sess : gw.
Lemma quiet_conn_Submit c m : preserves quiet (conn_Submit c m).
Proof. unfold conn_Submit, enqueue. preserves_tac. Qed.
Lemma quiet_Track m ref : preserves quiet (Track m ref).
Proof. unfold Track. preserves_tac. Qed.
Lemma quiet_CancelAll sid : preserves quiet (CancelAll sid).
Proof. unfold CancelAll. preserves_tac. Qed.
#[local] Hint Resolve quiet_conn_Submit quiet_Track quiet_CancelAll : gw.
Lemma quiet_flush_entry p c s id : preserves quiet (flush_entry p c s id).
Proof. unfold flush_entry. preserves_tac. Qed.
#[local] Hint Resolve quiet_flush_entry : gw.
Lemma quiet_AttachConn p c : preserves quiet (AttachConn p c).
Proof. unfold AttachConn, snapshot. preserves_tac. Qed.
Lemma quiet_DetachConn p : preserves quiet (DetachConn p).
Proof. unfold DetachConn. preserves_tac. Qed.
Lemma quiet_RegisterConn id c : preserves quiet (RegisterConn id c).
Proof. unfold RegisterConn. preserves_tac. Qed.
Lemma quiet_UnregisterConn id : preserves quiet (UnregisterConn id).
Proof. unfold UnregisterConn. preserves_tac. Qed.
Lemma quiet_Activate c : preserves quiet (Activate c).
Proof. unfold Activate. preserves_tac. Qed.
Lemma quiet_sendAuthResponse fc tpw hb mb c ref sid seq :
  preserves quiet (sendAuthResponse fc tpw hb mb c ref sid seq).
Proof. unfold sendAuthResponse, encodeAndWrite. preserves_tac. Qed.
#[local] Hint Resolve quiet_AttachConn quiet_DetachConn quiet_RegisterConn quiet_UnregisterConn
  quiet_Activate quiet_sendAuthResponse : gw.

Lemma quiet_run {A} (m : M (World TS) A) w r w' : preserves quiet m → m w = (r, w') → quiet w w'.
Proof. intros Hm E. specialize (Hm w). by rewrite E in Hm. Qed.

(** What closing a session for the first time does to the indexes. *)
Lemma sess_Close_unregisters p w r w' s :
  sessions w !! p = Some s → s_once s = false → sess_Close p w = (r, w') →
  userConns (router w') = index_remove (userID s) (deviceID s) (userConns (router w)) ∧
  deviceConn (router w') = delete (deviceID s) (deviceConn (router w)) ∧
  ∃ s', sessions w' !! p = Some s' ∧ s_once s' = true.
Proof.
  intros Es Ho E. unfold sess_Close in E.
  rewrite (bind_ret_run _ _ _ _ _ (get_sess_run p w s Es)), Ho in E.
  erewrite bind_ret_run in E by reflexivity. erewrite bind_ret_run in E by reflexivity.
  assert (∀ w2 : World TS, userConns (router w2) = userConns (router w) →
    deviceConn (router w2) = deviceConn (router w) →
    (∃ s', sessions w2 !! p = Some s' ∧ s_once s' = true) →
    (on_router (UnregisterSession (userID s) (deviceID s)) ≫= λ _,
      when (d_Acker (deps s)) (CancelAll (sessionID s)) ≫= λ _, on_sess p (upd_pendingAcks ∅)) w2 = (r, w') →
    userConns (router w') = index_remove (userID s) (deviceID s) (userConns (router w)) ∧
    deviceConn (router w') = delete (deviceID s) (deviceConn (router w)) ∧
    ∃ s', sessions w' !! p = Some s' ∧ s_once s' = true) as Hrest.
  { intros w2 Hu Hd (s2 & Es2 & Ho2) E2. erewrite bind_ret_run in E2 by reflexivity.
    assert (preserves quiet (when (d_Acker (deps s)) (CancelAll (sessionID s)) ≫= λ _,
      on_sess p (upd_pendingAcks ∅))) as Hq by preserves_tac.
    destruct (quiet_run _ _ _ _ Hq E2) as (Q1 & Q2 & Q3). simpl in *.
    rewrite Q1, Q2, Hu, Hd. split_and!; [done..|]. specialize (Q3 p). rewrite Es2 in Q3.
    destruct (sessions w' !! p) as [s'|]; [|done]. apply (inj Some) in Q3. injection Q3 as ????.
    exists s'. split; congruence. }
  assert (∃ s', alter (λ s, upd_s_state StateClosed (suspendedAt s) s) p
    (alter upd_s_once p (sessions w)) !! p = Some s' ∧ s_once s' = true) as Hs1.
  { rewrite !lookup_alter_eq, Es. simpl. eauto. }
  destruct (s_conn s); (erewrite bind_ret_run in E by reflexivity);
    (eapply Hrest; [| | |exact E]); done.
Qed.
End quiet.

(** A handshake library for the witnesses: the request is the token "t" if the
    body is not empty, and the auth service knows that token as user u1 on
    device d1. *)
Definition demo_handshake : HandshakeLib := {|
  unmarshal_HandshakeRequest := λ d,
    inr (mkHandshakeRequest (match d with [] => "" | _ => "t" end) "app" "ios");
  marshal_HandshakeResponse := λ sid hb mb seq, [hb; mb; seq];
  marshal_KickRequest := λ code reason, [code];
  validateToken := λ t, if decide (t = "t") then inr (mkAuthResponse 0 "" true "u1" "d1")
                        else inr (mkAuthResponse 401 "no such token" false "" "");
|}.

Definition hello (body : list Z) : Message :=
  mkMessage FrameType_HANDSHAKE "m0" "im" None None 0 0 None None (Some (mkTraceContext "t0"))
    (Some (mkBody 0 0 body)).

(** The frame a client sends to open a connection. *)
Definition hello_frame (body : list Z) : string + list Z :=
  match Encode (H:=toyWire) JSONConfig (hello body) with inl e => inl e | inr d => inr d end.

(** ** Claims *)

(** C36.  No session without authentication: the handshake only succeeds for a
    handshake frame with a non-empty token that the auth service declares
    valid, and the user and device of the connection are the ones the service
    named. *)
Theorem handshake_authenticated `{WireLib} `{HandshakeLib} (fc : FrameCodec) (deadline : error)
    (input : string + list Z) (uuid : string) (ai : authInfo) (msg : Message) :
  doHandshake fc deadline input uuid = inr (ai, msg) →
  ∃ raw req r, input = inr raw ∧ Decode fc raw = inr msg ∧ m_Type msg = FrameType_HANDSHAKE ∧
    unmarshal_HandshakeRequest (from_option b_Data [] (m_Body msg)) = inr req ∧ Token req ≠ "" ∧
    validateToken (Token req) = inr r ∧ ar_Valid r = true ∧
    ai_userID ai = ar_UserID r ∧ ai_deviceID ai = ar_DeviceID r ∧ ai_connID ai = uuid.
Proof.
  unfold doHandshake. destruct deadline; [done|]. destruct input as [e|raw]; [done|].
  destruct (Decode fc raw) as [e|m] eqn:Ed; [done|]. case_decide as Ht; [done|].
  destruct (unmarshal_HandshakeRequest _) as [e|req] eqn:Eu; [done|]. case_decide as Htok; [done|].
  unfold Verify. destruct (validateToken (Token req)) as [e|r] eqn:Ev; [done|].
  destruct (ar_Valid r) eqn:Hv; [|done]. intros [= <- <-]. exists raw, req, r.
  split_and!; try done; by apply dec_stable.
Qed.

Lemma handshake_authenticated_witness :
  ∃ ai, doHandshake (H2:=toyWire) (H3:=demo_handshake) JSONConfig None (hello_frame [1%Z]) "c9" =
      inr (ai, hello [1%Z]) ∧ ai_userID ai = "u1" ∧ ai_deviceID ai = "d1".
Proof.
  destruct (doHandshake (H2:=toyWire) (H3:=demo_handshake) JSONConfig None (hello_frame [1%Z]) "c9")
    as [e|[ai msg]] eqn:E; [vm_compute in E; discriminate|].
  destruct (handshake_authenticated (H:=toyWire) (H0:=demo_handshake) JSONConfig None (hello_frame [1%Z]) "c9"
    ai msg E) as (raw & req & r & _ & _ & _ & _ & _ & Hv & Hval & Hu & Hd & _).
  exists ai. assert (msg = hello [1%Z]) as -> by (vm_compute in E; injection E as _ <-; reflexivity).
  split; [reflexivity|]. rewrite Hu, Hd. simpl in Hv.
  destruct (decide (Token req = "t")); injection Hv as <-; [split; reflexivity|discriminate].
Defined.

(** A failed handshake leaves no trace on the node: no session, no
    connection, no index entry; the only effect is one kick frame on the
    transport, if it takes it. *)
Theorem handshake_failure_no_effect {TS : Type} `{Scheduler TS timeoutPayload unit} `{MapRange}
    `{WireLib} `{HandshakeLib} (fc : FrameCodec) (sha : string → string)
    (tp_Write : bool → list Z → error) (hb mb : Z) (deadline : error) (input : string + list Z)
    (uuid e : string) (w : World TS) :
  doHandshake fc deadline input uuid = inl e →
  ∃ out, CreateAndRun fc sha tp_Write hb mb deadline input uuid w = (Ret (None, out), w) ∧
    length out ≤ 1.
Proof.
  intros E. unfold CreateAndRun. rewrite E. eexists. split; [reflexivity|].
  destruct (tp_Write false _); simpl; lia.
Qed.

Lemma handshake_failure_no_effect_witness :
  ∃ out, CreateAndRun (H2:=toyWire) (H3:=demo_handshake) JSONConfig (λ x, x) (λ _ _, None) 30 1024 None
      (hello_frame []) "c9" demo_world = (Ret (None, out), demo_world) ∧ length out ≤ 1.
Proof.
  apply (handshake_failure_no_effect (H1:=toyWire) (H2:=demo_handshake) JSONConfig (λ x, x) (λ _ _, None) 30 1024
    None (hello_frame []) "c9" "empty token" demo_world).
  vm_compute. reflexivity.
Defined.

(** A device that reconnects is cut off by its own login: its session is
    the one [RegisterSession] returns as replaced, so [CreateAndRun] closes the
    session it has just attached and the user index no longer has the device:
    messages to the user do not reach it. *)
Theorem reconnect_closes_own_session {TS : Type} `{Scheduler TS timeoutPayload unit} `{MapRange}
    `{WireLib} `{HandshakeLib} (fc : FrameCodec) (sha : string → string)
    (tp_Write : bool → list Z → error) (hb mb : Z) (ai : authInfo) (req : Message)
    (w w' : World TS) r ref s :
  member (userIndex (registry w)) (ai_userID ai) (ai_deviceID ai) = Some ref →
  sessions w !! ref_ptr ref = Some s → ref = ref_of (ref_ptr ref) s → s_once s = false →
  userID s = ai_userID ai → deviceID s = ai_deviceID ai →
  deviceConn (router w) !! deviceID s = Some ref →
  wire fc sha tp_Write hb mb ai req w = (Ret r, w') →
  member (userConns (router w')) (ai_userID ai) (ai_deviceID ai) = None ∧
  ∃ s', sessions w' !! ref_ptr ref = Some s' ∧ s_once s' = true.
Proof.
  intros Hm Es Href Ho Huid Hdid Hdev E. unfold wire in E.
  erewrite bind_ret_run in E by (unfold GetOrCreate; mrun; rewrite Hm; reflexivity).
  cbv beta iota in E.
  erewrite bind_ret_run in E by reflexivity. erewrite bind_ret_run in E by reflexivity.
  erewrite bind_ret_run in E by reflexivity.
  apply bind_Ret_inv in E as (lastSeq & w1 & E1 & E).
  destruct (quiet_run _ _ _ _ (quiet_AttachConn _ _) E1) as (Q1 & Q2 & Q3).
  cbn [router upd_conns sessions] in Q1, Q2, Q3.
  assert (∃ s1, sessions w1 !! ref_ptr ref = Some s1 ∧ ident s1 = ident s) as (s1 & Es1 & Hid).
  { specialize (Q3 (ref_ptr ref)). rewrite Es in Q3. destruct (sessions w1 !! ref_ptr ref) as [s1|]; [|done].
    apply (inj Some) in Q3. eauto. }
  injection Hid as Hsid Hu1 Hd1 Ho1.
  assert (DeviceID ref = deviceID s) as Edev by (rewrite Href; done).
  erewrite bind_ret_run in E by reflexivity. unfold RegisterSession in E. cbn [router] in E.
  rewrite Edev, Q2, Hdev, decide_True in E by done. cbn [fst snd] in E.
  apply bind_Ret_inv in E as ([] & w2 & E2 & E).
  unshelve epose proof (sess_Close_unregisters _ _ _ _ s1 _ (eq_trans Ho1 Ho) E2)
    as (U2 & _ & (s2 & Es2 & Ho2)); [exact Es1|].
  match type of E with ?m w2 = _ => assert (preserves quiet m) as Hq end.
  { apply preserves_bind; [apply _|apply quiet_RegisterConn|intros [e|]].
    - apply preserves_bind; [apply _|apply quiet_DetachConn|intros []].
      apply preserves_bind; [apply _|by apply quiet_modify|intros []]. auto with gw.
    - apply preserves_bind; [apply _|apply quiet_Activate|intros []].
      apply preserves_bind; [apply _|apply quiet_sendAuthResponse|intros [e|]]; [|auto with gw].
      apply preserves_bind; [apply _|apply quiet_DetachConn|intros []].
      apply preserves_bind; [apply _|apply quiet_UnregisterConn|intros []].
      apply preserves_bind; [apply _|by apply quiet_modify|intros []]. auto with gw. }
  destruct (quiet_run _ _ _ _ Hq E) as (R1 & _ & R3). split.
  - rewrite R1, U2, member_remove. rewrite decide_True by (split; congruence). done.
  - specialize (R3 (ref_ptr ref)). rewrite Es2 in R3. destruct (sessions w' !! ref_ptr ref) as [s3|]; [|done].
    apply (inj Some) in R3. injection R3 as ????. exists s3. split; congruence.
Qed.

Lemma reconnect_closes_own_session_witness :
  ∃ r w', wire (H2:=toyWire) (H3:=demo_handshake) JSONConfig (λ x, x) (λ _ _, None) 30 1024
      (mkAuthInfo "u1" "d1" "app" "ios" "im" "c9") (hello []) demo_world = (Ret r, w') ∧
    is_Some r ∧ member (userConns (router w')) "u1" "d1" = None ∧
    ∃ s', sessions w' !! 1%positive = Some s' ∧ s_once s' = true.
Proof.
  destruct (wire (H2:=toyWire) (H3:=demo_handshake) JSONConfig (λ x, x) (λ _ _, None) 30 1024
      (mkAuthInfo "u1" "d1" "app" "ios" "im" "c9") (hello []) demo_world) as [[r|why] w'] eqn:E.
  2:{ apply (f_equal fst) in E. vm_compute in E. discriminate. }
  exists r, w'. split; [reflexivity|]. split.
  - apply (f_equal fst) in E. vm_compute in E. injection E as <-. by eexists.
  - apply (reconnect_closes_own_session (H1:=toyWire) (H2:=demo_handshake) JSONConfig (λ x, x) (λ _ _, None)
      30 1024 (mkAuthInfo "u1" "d1" "app" "ios" "im" "c9") (hello []) demo_world w' r demo_ref demo_session);
      first [reflexivity|exact E].
Defined.

(** The late end of an old connection cuts off the new one: [onClose] of any
    connection detaches whatever connection the session has by then, suspends
    the session and removes it from all its rooms and topics. *)
Theorem late_close_detaches_new_connection {TS : Type} `{Scheduler TS timeoutPayload unit} `{MapRange}
    (w : World TS) (sess : SessionRef) s old new k :
  sessions w !! ref_ptr sess = Some s → ref_sid sess = sessionID s → s_conn s = Some new →
  conns w !! old = Some k → old ≠ new →
  ∃ w' s', onClose sess old w = (Ret tt, w') ∧ sessions w' !! ref_ptr sess = Some s' ∧
    s_conn s' = None ∧ s_state s' = StateSuspended ∧ conns w' = conns w ∧
    ∀ r, member (rooms (router w')) r (sessionID s) = None ∧
         member (topics (router w')) r (sessionID s) = None.
Proof.
  intros Es Hsid Ec Ek Hne. unfold onClose.
  rewrite (bind_ret_run _ _ _ _ _ (get_conn_run old w k Ek)).
  assert (∃ w1, DetachConn (ref_ptr sess) w = (Ret tt, w1) ∧
    sessions w1 !! ref_ptr sess = Some (upd_s_state StateSuspended (UnixMilli (now w)) (upd_s_conn None s)) ∧
    conns w1 = conns w) as (w1 & E1 & Es1 & Ec1).
  { unfold DetachConn. rewrite (bind_ret_run _ _ _ _ _ (get_sess_run _ w s Es)).
    rewrite Ec. eexists. split; [reflexivity|]. simpl. by rewrite !lookup_alter_eq, Es. }
  rewrite (bind_ret_run _ _ _ _ _ E1). erewrite bind_ret_run by reflexivity.
  eexists _, _. split; [reflexivity|]. split; [exact Es1|]. split; [done|]. split; [done|]. split; [exact Ec1|].
  intros r. simpl. rewrite !member_purge, Hsid, !decide_True by done. split; reflexivity.
Qed.

Lemma late_close_detaches_new_connection_witness :
  let w := upd_conns <[2%positive := demo_conn]> demo_world in
  ∃ w' s', onClose demo_ref 2 w = (Ret tt, w') ∧ sessions w' !! 1%positive = Some s' ∧
    s_conn s' = None ∧ s_state s' = StateSuspended ∧ conns w' = conns w ∧
    ∀ r, member (rooms (router w')) r "s1" = None ∧ member (topics (router w')) r "s1" = None.
Proof.
  apply (late_close_detaches_new_connection (upd_conns <[2%positive := demo_conn]> demo_world) demo_ref
    demo_session 2 1 demo_conn); first [reflexivity|discriminate].
Defined.
