(* ===== verification/Node.v ===== *)
(** * A gateway node as one transition system

    The goroutines of a node share the world of [World.v]: one reader and one
    writer per running connection, the workers of the pools, the consumers that
    feed them, the ACK scanner, callers of the session API, and the life cycle
    of the process.  An event is one turn of one goroutine; [node_exec] is what
    it does.  Each turn is atomic, the turns interleave in any order.

    A turn whose goroutine does not exist, or has returned, does nothing. *)

From stdpp Require Import base list gmap strings numbers.
From S2P Require Import Prelude Timer Shard Message Codec Router World Connection.
From S2P Require Import Pool Session Pipeline Uplink Downlink Worker Handler Factory Sync.

(** ** The end of the process's context ([app/lifecycle.go], [gs.cancel()]) *)
Definition upd_ctx_done (k : Connection) : Connection :=
  mkConnection (ConnID k) (c_UserID k) (c_AppID k) (c_DeviceID k) (c_DeviceType k) (c_BizCode k)
    (writeCh k) (c_state k) (lastPingAt k) (lastRecvSeq k) (nextSendSeq k) true (tp_closed k)
    (doneCh_closed k) (c_out k).
Definition upd_pool_done (p : WorkerPool) : WorkerPool :=
  mkPool (upstreamCh p) (downstreamCh p) (pool_store p) true (pool_closed p).

(** ** The worker goroutines of a pool ([worker/pool.go], [WorkerPool.Start])

    How many [upstreamWorker] and [downstreamWorker] loops of a pool run. *)
Record Crew := mkCrew { up_workers : nat; down_workers : nat }.
Definition one_left (up : bool) (k : Crew) : Crew :=
  if up then mkCrew (pred (up_workers k)) (down_workers k) else mkCrew (up_workers k) (pred (down_workers k)).
Definition hired (cfg : PoolConfig) (k : Crew) : Crew :=
  mkCrew (up_workers k + Z.to_nat (UpstreamWorkers cfg)) (down_workers k + Z.to_nat (DownstreamWorkers cfg)).

Section node.
Context {TS : Type} `{Scheduler TS timeoutPayload unit} `{MapRange} `{PayloadLib}
  `{WireLib} `{HandshakeLib}.
Context (fc : FrameCodec) (sha256_hex16 : string → string).
Context (tp_Write : bool → list Z → error) (HeartbeatTimeout MaxBodySize : Z).
Context (limiter : option (string → string → bool)).
(** The [UpstreamSender] of each business domain. *)
Context (sender : string → Message → error).

(** The contexts of connections and pools derive from the server's. *)
Definition gs_cancel : M (World TS) unit :=
  modify (upd_conns (fmap upd_ctx_done)) ≫= λ _, modify (upd_pools (fmap upd_pool_done)).

(** The connections [CreateAndRun] runs, with the session their closures
    capture, and the worker goroutines of each pool that are in their loop. *)
Record Node := mkNode {
  n_world : World TS; n_runs : gmap positive (SessionRef * runState); n_workers : gmap string Crew;
}.
Abbreviation MN := (M Node).

Definition inN {A} (m : M (World TS) A) : MN A :=
  zoom n_world (λ w n, mkNode w (n_runs n) (n_workers n)) m.
Definition set_run (c : positive) (ref : SessionRef) (r : runState) : MN unit :=
  modify (λ n, mkNode (n_world n) (<[c := (ref, r)]> (n_runs n)) (n_workers n)).

(** Is a worker of that pool left?  [up] tells [upstreamWorker] from
    [downstreamWorker]. *)
Definition has_worker (up : bool) (biz : string) (n : Node) : bool :=
  match n_workers n !! biz with Some k => 0 <? (if up then up_workers k else down_workers k) | None => false end.
(** A worker whose turn was [Exit] has returned from its loop. *)
Definition worker_after (up : bool) (biz : string) (t : turn) : MN unit :=
  when (bool_decide (t = Exit))
    (modify (λ n, mkNode (n_world n) (n_runs n) (alter (one_left up) biz (n_workers n)))).
Lemma worker_after_world up biz t n : n_world (worker_after up biz t n).2 = n_world n.
Proof. unfold worker_after. by destruct (bool_decide _). Qed.
(** [pool.Start]: its loops add the configured number of goroutines. *)
Definition start_workers (biz : string) (cfg : PoolConfig) : MN unit :=
  modify (λ n, mkNode (n_world n) (n_runs n)
    (<[biz := hired cfg (default (mkCrew 0 0) (n_workers n !! biz))]> (n_workers n))).

(** What callers of the session API do with a session they hold. *)
Inductive session_call : Set :=
  | CallJoinRoom (r : string) | CallLeaveRoom (r : string)
  | CallSubscribe (t : string) | CallUnsubscribe (t : string)
  | CallAck (msgID : string) | CallClose.

Definition do_call (p : positive) (o : session_call) : M (World TS) unit :=
  match o with
  | CallJoinRoom r => sess_JoinRoom p r
  | CallLeaveRoom r => sess_LeaveRoom p r
  | CallSubscribe t => sess_Subscribe p t
  | CallUnsubscribe t => sess_Unsubscribe p t
  | CallAck mid => Ack p mid
  | CallClose => sess_Close p
  end.

Inductive node_event : Type :=
  (** A transport was accepted: [CreateAndRun] up to [conn.Run]. *)
  | EvConnect (deadline : error) (input : string + list Z) (uuid : string)
  (** A turn of the reader, the writer, the watchdog of a connection. *)
  | EvRead (c : positive) (deadline : error) (input : string + list Z)
  | EvWrite (c : positive) (pick_done : bool)
  | EvWatchdog (c : positive)
  (** [Run] returns: its deferred function and [onClose]. *)
  | EvFinish (c : positive)
  (** [StartAll] reaches a pool; a turn of one of its workers; a consumer hands
      a message over. *)
  | EvStartPool (biz : string) (cfg : PoolConfig)
  | EvUpstream (biz : string) (pick_done : bool)
  | EvDownstream (biz : string) (pick_done : bool)
  | EvConsume (biz : string) (msg : Message)
  | EvAckTimeout (task : Task timeoutPayload unit)
  | EvSession (p : positive) (o : session_call)
  | EvStopPool (biz : string)
  | EvCancel
  | EvTick (t : Z).

Definition node_exec (e : node_event) : MN unit :=
  match e with
  | EvConnect deadline input uuid =>
      '(o, _) ← inN (CreateAndRun fc sha256_hex16 tp_Write HeartbeatTimeout MaxBodySize
                       deadline input uuid);
      match o with
      | Some (ref, c) => set_run c ref (mkRun false false false)
      | None => mret tt
      end
  | EvRead c deadline input =>
      o ← gets (λ n, n_runs n !! c);
      match o with
      | Some (ref, mkRun false wd false) =>
          t ← inN (readLoop_turn fc (onMessage limiter Build (ref_ptr ref)) deadline input c);
          set_run c ref (mkRun (bool_decide (t = Exit)) wd false)
      | _ => mret tt
      end
  | EvWrite c pick_done =>
      o ← gets (λ n, n_runs n !! c);
      match o with
      | Some (ref, mkRun rd false false) =>
          t ← inN (writeLoop_turn fc tp_Write pick_done c);
          set_run c ref (mkRun rd (bool_decide (t = Exit)) false)
      | _ => mret tt
      end
  | EvWatchdog c =>
      o ← gets (λ n, n_runs n !! c);
      match o with
      | Some _ => inN (HeartbeatWatchdog_tick HeartbeatTimeout c) ≫= λ _, mret tt
      | None => mret tt
      end
  | EvFinish c =>
      o ← gets (λ n, n_runs n !! c);
      match o with
      | Some (ref, mkRun true true false) =>
          inN (run_cleanup (onClose ref) c) ≫= λ _, set_run c ref (mkRun true true true)
      | _ => mret tt
      end
  | EvStartPool biz cfg =>
      o ← gets (λ n, pools (n_world n) !! biz);
      match o with Some _ => start_workers biz cfg | None => mret tt end
  | EvUpstream biz pick_done =>
      o ← gets (λ n, (pools (n_world n) !! biz, has_worker true biz n));
      match o with
      | (Some _, true) => inN (upstreamWorker_turn (sender biz) pick_done biz) ≫= worker_after true biz
      | _ => mret tt
      end
  | EvDownstream biz pick_done =>
      o ← gets (λ n, (pools (n_world n) !! biz, has_worker false biz n));
      match o with
      | (Some _, true) => inN (downstreamWorker_turn pick_done biz) ≫= worker_after false biz
      | _ => mret tt
      end
  | EvConsume biz msg =>
      inN (m ← new_msg msg; mgr_SubmitDownstream biz m) ≫= λ _, mret tt
  | EvAckTimeout task => inN (handleTimeout task)
  | EvSession p o =>
      x ← gets (λ n, sessions (n_world n) !! p);
      match x with Some _ => inN (do_call p o) | None => mret tt end
  | EvStopPool biz =>
      o ← gets (λ n, pools (n_world n) !! biz);
      match o with Some _ => inN (pool_Stop biz) | None => mret tt end
  | EvCancel => inN gs_cancel
  | EvTick t => inN (tick t)
  end.

(** A new session gets an ID of its own: no collision of the hash and no
    ambiguous [userID + ":" + deviceID]. *)
Definition event_ok (e : node_event) (n : Node) : Prop :=
  match e with
  | EvConnect deadline input uuid =>
      ∀ ai req, doHandshake fc deadline input uuid = inr (ai, req) →
        no_collision (TS:=TS) sha256_hex16
          (OpGetOrCreate (ai_userID ai) (ai_deviceID ai) (ai_appID ai) (ai_deviceType ai) (ai_bizCode ai))
          (n_world n)
  | _ => True
  end.

(** A panic ends the process; the steps below go on from the state it leaves,
    so that a statement about all reachable states covers that one as well. *)
Inductive node_moves : Node → Node → Prop :=
  | node_move e n : event_ok e n → node_moves n (node_exec e n).2.

(** A node right after its start: nothing connected, the pools of the
    configuration without workers ([NewManager] and [AddPool] start none), a
    scanner with its handler. *)
Definition start_node (d : Deps) (acker : bool) (timeout t0 : Z) (t : TS)
    (ps : gmap string PoolConfig) : Node :=
  mkNode (upd_pools (λ _, newWorkerPool <$> ps)
            (upd_scanner (λ s, mkScanner (ackTimeout s) (sessAcks s) acker)
              (upd_timer (λ _, t) (mkWorld t0 ∅ ∅ ∅ NewLocalRouter (NewRegistry d acker)
                 (NewScanner timeout) t ∅ ∅ []))))
         ∅ ∅.

(** ** What can go wrong

    The frame an input carries, if it gets as far as the handler. *)
Definition frame_of (t : Z) (deadline : error) (input : string + list Z) : option Message :=
  match deadline, input with
  | None, inr raw =>
      match Decode fc raw with
      | inr msg => if IsExpired t (m_ExpireAt msg) then None else Some msg
      | inl _ => None
      end
  | _, _ => None
  end.

(** A frame the handlers cannot take. *)
Definition fatal_frame (msg : Message) : bool :=
  match m_Type msg with
  | FrameType_PING | FrameType_BUSINESS => false
  | FrameType_KICK => bool_decide (m_TraceContext msg = None)
  | _ => true
  end.

(** The events that make the node panic. *)
Definition crashes (e : node_event) (n : Node) : Prop :=
  let w := n_world n in
  match e with
  | EvConnect deadline input uuid =>
      ∃ ai req, doHandshake fc deadline input uuid = inr (ai, req) ∧ ai_connID ai ≠ "" ∧
        m_TraceContext req = None
  | EvRead c deadline input =>
      ∃ ref wd k msg, n_runs n !! c = Some (ref, mkRun false wd false) ∧ conns w !! c = Some k ∧
        ctx_done k = false ∧ frame_of (now w) deadline input = Some msg ∧ fatal_frame msg = true
  | EvUpstream biz pick_done =>
      has_worker true biz n = true ∧
      ∃ pool, pools w !! biz = Some pool ∧ pool_closed pool = true ∧ upstreamCh pool = [] ∧
        pool_done pool && pick_done = false
  | EvWatchdog c => is_Some (n_runs n !! c) ∧ ticker_panics HeartbeatTimeout = true
  | EvConsume biz _ | EvStopPool biz => ∃ pool, pools w !! biz = Some pool ∧ pool_closed pool = true
  | _ => False
  end.
End node.
