(* ===== verification/NodeTyping.v ===== *)
(** * Every turn of every goroutine keeps the node typed

    Connections, handlers, workers and the factory on top of [TypedOps.v] and
    [Layer.v], with the exact conditions under which a turn may panic. *)

From stdpp Require Import base list gmap strings numbers infinite.
From S2P Require Import Prelude Timer Shard Message Codec Router World Connection Pool Session.
From S2P Require Import Typing TypedOps Pipeline Uplink Downlink Layer Worker Handler Factory Sync Node.

#[export] Hint Resolve good_get_msg good_get_conn good_get_sess new_msg_ok : good.

(** ** The loops of a connection *)
Section loops.
Context {TS : Type} `{Scheduler TS timeoutPayload unit} `{MapRange} `{PayloadLib}
  `{WireLib} `{HandshakeLib}.
Context (fc : FrameCodec) (tp_Write : bool → list Z → error).
Context (limiter : option (string → string → bool)).
Implicit Types (w : World TS) (c m p : positive).

(** Writes to a connection that leave the queue and the counter alone. *)
Lemma good_on_conn_plain E c f w : typed w →
  (∀ k, (writeCh (f k), nextSendSeq (f k), ConnID (f k)) = (writeCh k, nextSendSeq k, ConnID k)) →
  wgood E (on_conn c f) (λ _ _, True) w.
Proof.
  intros Ht Hf. apply good_on_conn; [done|..]; intros k; specialize (Hf k); [|congruence].
  injection Hf as E1 E2 E3. intros []. split; by rewrite ?E1, ?E2.
Qed.
Hint Extern 3 (wgood _ (on_conn _ _) _ _) => apply good_on_conn_plain; [gside|done] : good.

Lemma good_set_queue E c q w : typed w → Forall (msg_ok w) q → length q ≤ WriteChannelSize →
  wgood E (on_conn c (upd_writeCh q)) (λ _ _, True) w.
Proof. intros Ht Hq Hl. apply good_on_conn; [done|..|done]. by intros k []. Qed.

Lemma good_encodeAndWrite E c m w : typed w → conn_ok w c → msg_ok w m →
  wgood E (encodeAndWrite fc tp_Write c m) (λ _ _, True) w.
Proof. intros. unfold encodeAndWrite. gtac. Qed.
Hint Resolve good_encodeAndWrite : good.

Lemma good_drain E c w : typed w → conn_ok w c → wgood E (drain fc tp_Write c) (λ _ _, True) w.
Proof.
  intros Ht Hc. unfold drain. gstep.
  match goal with Hk : conns w !! c = Some ?k |- _ => destruct (ty_conns _ Ht c k Hk) as [Hq Hl Hs] end.
  pose proof (proj1 (Forall_forall _ _) Hq) as Hin.
  gstep; [apply good_set_queue; simpl; [done|constructor|lia]|]. gtac.
Qed.

Lemma good_writeLoop_turn E pick c w : typed w → conn_ok w c →
  wgood E (writeLoop_turn fc tp_Write pick c) (λ _ _, True) w.
Proof.
  intros Ht Hc. unfold writeLoop_turn. gstep.
  match goal with Hk : conns w !! c = Some ?k |- _ => destruct (ty_conns _ Ht c k Hk) as [Hq Hl Hs] end.
  destruct (writeCh _) as [|m q] eqn:Eq; [by gtac|]. apply Forall_cons in Hq as [Hm Hq]. simpl in Hl.
  case_match; [gstep; [by apply good_drain|gtac]|].
  gstep; [by apply good_set_queue; [| |lia]|]. gtac.
Qed.

(** The value returned tells that the frame that was read satisfies [P]. *)
Lemma good_readLoop_turn E (P : Message → Prop) onM deadline input c w : typed w → conn_ok w c →
  (∀ m msg k w', typed w' → ext w w' → msgs w' !! m = Some msg →
     conns w !! c = Some k → ctx_done k = false → frame_of fc (now w) deadline input = Some msg →
     wgood E (onM c m) (λ _ _, P msg) w') →
  wgood E (readLoop_turn fc onM deadline input c)
    (λ _ _, ∀ k msg, conns w !! c = Some k → ctx_done k = false →
       frame_of fc (now w) deadline input = Some msg → P msg) w.
Proof.
  intros Ht Hc Hon. unfold readLoop_turn.
  apply good_get_conn_bind; [done|intros k Ek].
  destruct (ctx_done k) eqn:Ed; [by apply wret; [done|intros; simplify_eq; congruence]|].
  destruct deadline as [e|]; [by apply wret|]. destruct input as [e|raw]; [by apply wret|].
  gstep. gstep; [by gcall|].
  destruct (Decode fc raw) as [e|msg] eqn:Edec; [apply wret; [done|]; simpl; by rewrite Edec|].
  eapply wbind; [by apply good_new_msg|]. intros m w2 Ht2 He2 Hm2. cbn beta in Hm2.
  eapply (wbind _ _ _ (λ _ w', msgs w' !! m = Some msg)).
  { destruct (0 <? m_SeqId msg)%Z; cbn [when]; [|by apply wret].
    by destruct (good_on_conn_plain E c (upd_lastRecvSeq (m_SeqId msg)) w2 Ht2 ltac:(done)) as (? & ? & _). }
  intros _ w3 Ht3 He3 Hm3.
  assert (frame_of fc (now w) None (inr raw) =
    if IsExpired (now w) (m_ExpireAt msg) then None else Some msg) as Ef by (simpl; by rewrite Edec).
  destruct (IsExpired (now w) (m_ExpireAt msg)) eqn:Ex.
  { apply wret; [done|]. intros ? ? _ _. by rewrite Ef. }
  eapply wbind; [eapply (Hon m msg); [done| |done..]|].
  - by repeat (etrans; [eassumption|]).
  - intros ? w4 Ht4 _ HP. apply wret; [done|]. intros k' msg' _ _. rewrite Ef. by intros [= <-].
Qed.

(** ** The handlers *)
Lemma good_handle_heartbeat E c m w : typed w → conn_ok w c → msg_ok w m →
  wgood E (handle_heartbeat c m) (λ _ _, True) w.
Proof.
  intros. unfold handle_heartbeat. gstep. cbv zeta.
  eapply wbind; [by apply new_msg_ok|]. intros. gtac.
Qed.

Lemma good_handle_logout E p c m msg w : typed w → conn_ok w c → sess_ok w p → msgs w !! m = Some msg →
  (m_TraceContext msg = None → E) →
  wgood E (handle_logout p c m) (λ _ _, m_TraceContext msg ≠ None) w.
Proof.
  intros Ht Hc Hp Hm HE. unfold handle_logout. gstep. simplify_eq. gstep; [done|]. intros tc Etc.
  eapply wbind; [by apply new_msg_ok|]. intros r w' Ht' He' Hr.
  gstep; [by gcall|]. gstep; [by gcall|]. apply wret; congruence.
Qed.

Lemma good_handle_upstream E p c m w : typed w → conn_ok w c → sess_ok w p → msg_ok w m →
  wgood E (handle_upstream limiter p c m) (λ _ _, True) w.
Proof.
  intros Ht Hc Hp Hm. pose proof (good_ChainAdapter limiter E p c m w Ht Hc Hp Hm) as Hg.
  unfold good, handle_upstream. destruct (ChainAdapter_Run _ _ _ _ _) as [r [w' ctx']].
  destruct Hg as (? & ? & ?). split_and!; [done..|]. simpl. by destruct r.
Qed.

Lemma handlers_Build t : handlers Build !! t =
  match t with
  | FrameType_BUSINESS => Some UpstreamHandler
  | FrameType_KICK => Some LogoutHandler
  | FrameType_PING => Some HeartbeatHandler
  | _ => None
  end.
Proof.
  unfold Build, Register, NewHandlerRegistry. cbn [handlers].
  by destruct t; rewrite !lookup_insert, ?lookup_empty; repeat case_decide.
Qed.

Lemma good_onMessage E p c m msg w : typed w → conn_ok w c → sess_ok w p → msgs w !! m = Some msg →
  (fatal_frame msg = true → E) →
  wgood E (onMessage limiter Build p c m) (λ _ _, fatal_frame msg = false) w.
Proof.
  intros Ht Hc Hp Hm HE. unfold onMessage, Dispatch.
  apply (wbind _ _ _ (λ _ _, fatal_frame msg = false)); [|intros; by apply wret].
  gstep. simplify_eq. rewrite handlers_Build. unfold fatal_frame in *.
  destruct (m_Type msg) eqn:Et; cbn [Handle]; try (apply wderef; [done|by intros; apply HE|by intros]).
  - eapply wmono; [apply (good_handle_heartbeat E); eauto with typing|done|done].
  - eapply wmono; [apply (good_handle_upstream E); eauto with typing|done|done].
  - eapply wmono; [apply (good_handle_logout E p c m msg); [done..|]|done|].
    + intros. apply HE. by apply bool_decide_eq_true.
    + intros ? ? _ _ Hn. by apply bool_decide_eq_false.
Qed.

End loops.

#[export] Hint Resolve good_encodeAndWrite : good.
#[export] Hint Extern 3 (wgood _ (on_conn _ _) _ _) => apply good_on_conn_plain; [gside|done] : good.

(** ** Workers and consumers *)
Section workers.
Context {TS : Type} `{Scheduler TS timeoutPayload unit} `{MapRange} `{PayloadLib}.
Implicit Types (w : World TS).
Context (sender : Message → error).

Lemma good_upstream_job E job w : typed w → ref_ok w (uj_Sess job) → msg_ok w (uj_Msg job) →
  wgood E (upstream_job sender job) (λ _ _, True) w.
Proof.
  intros Ht Hr Hm. unfold upstream_job. gstep. gstep. case_match; [by gtac|]. case_match; [|by gtac].
  eapply wbind; [by apply good_new_msg|]. simpl. intros e w' Ht' He' Em.
  gstep; [|by gtac]. apply good_Submit; [by eauto with typing..|].
  intros (x & Ex & Hx). simplify_eq.
Qed.

Lemma good_upstreamWorker_turn E pick biz pool w : typed w → pools w !! biz = Some pool →
  let crash := pool_closed pool = true ∧ upstreamCh pool = [] ∧ pool_done pool && pick = false in
  (crash → E) → wgood E (upstreamWorker_turn sender pick biz) (λ _ _, ¬ crash) w.
Proof.
  intros Ht Ep crash HE. unfold upstreamWorker_turn. gstep. rewrite Ep. apply good_ret_bind. subst crash.
  destruct (pool_done pool && pick) eqn:Ed; [apply wret; naive_solver|].
  destruct (ty_pools _ Ht _ _ Ep) as [Hu Hd Hcu Hcd].
  destruct (upstreamCh pool) as [|job q] eqn:Eq.
  - destruct (pool_closed pool) eqn:Ecl; [by apply wpanic; [|apply HE]|].
    destruct (pool_done pool); apply wret; naive_solver.
  - apply Forall_cons in Hu as [[Hr Hm] Hu]. simpl in Hcu.
    gstep; [|gstep; [by apply good_upstream_job; eauto with typing|by apply wret; naive_solver]].
    apply good_on_pool; [done|]. intros pl []. split; [done|done|simpl; lia|done].
Qed.

Lemma good_downstreamWorker_turn E pick biz pool w : typed w → pools w !! biz = Some pool →
  wgood E (downstreamWorker_turn pick biz) (λ _ _, True) w.
Proof.
  intros Ht Ep. unfold downstreamWorker_turn. gstep. rewrite Ep. apply good_ret_bind.
  assert (∀ om w', typed w' → (∀ m, om = Some m → msg_ok w' m) →
    wgood E (λ w, let '(r, (w', _)) := downstream_job (pool_store pool) om w in (r, w')) (λ _ _, True) w')
    as Hjob.
  { intros om w' Ht' Hm. pose proof (good_downstream_job (pool_store pool) om w' Ht' Hm) as Hg.
    unfold good. destruct (downstream_job _ _ _) as [r [w'' ctx]]. by destruct Hg as (? & ? & ->). }
  cbv zeta. case_match; [by gtac|]. destruct (ty_pools _ Ht _ _ Ep) as [Hu Hd Hcu Hcd].
  destruct (downstreamCh pool) as [|m q] eqn:Eq.
  - case_match; [gstep; [by apply Hjob|by gtac]|]. by gtac.
  - apply Forall_cons in Hd as [Hm Hd]. simpl in Hcd.
    gstep; [|gstep; [|by gtac]].
    + apply good_on_pool; [done|]. intros pl []. split; [done|done|done|simpl; lia].
    + apply Hjob; [done|]. intros ? [= <-]. eauto with typing.
Qed.

Lemma good_consume E b x w : typed w →
  let crash := ∃ pl, pools w !! b = Some pl ∧ pool_closed pl = true in
  (crash → E) → wgood E (m ← new_msg x; mgr_SubmitDownstream b m) (λ _ _, ¬ crash) w.
Proof.
  intros Ht crash HE. destruct (new_msg_ok E x w Ht) as (Ht' & He' & Hm).
  pose (m := fresh (dom (msgs w))). pose (w' := upd_msgs <[m := x]> w).
  destruct (good_SubmitDownstream E b m w' Ht' Hm HE) as (T2 & R2 & Q2).
  unfold good. rewrite (bind_ret_run (new_msg x) _ w w' m eq_refl).
  split_and!; [exact T2|by etrans|exact Q2].
Qed.
End workers.

(** ** The factory *)
Section factory.
Context {TS : Type} `{Scheduler TS timeoutPayload unit} `{MapRange} `{WireLib} `{HandshakeLib}.
Context (fc : FrameCodec) (tp_Write : bool → list Z → error).
Implicit Types (w : World TS).
Context (sha256_hex16 : string → string) (HeartbeatTimeout MaxBodySize : Z).

Lemma good_new_conn E k w : typed w → conn_ty w k →
  let c := fresh (dom (conns w)) in
  wgood E (modify (upd_conns <[c := k]>)) (λ _ w', conns w' !! c = Some k) w.
Proof.
  intros Ht Hk c. assert (ext w (upd_conns <[c := k]> w)) as He.
  { split; simpl; [done| |done]. apply kept_fresh, not_elem_of_dom, is_fresh. }
  apply good_modify; [|done|simpl; apply lookup_insert_eq]. apply (typed_update w); auto.
  intros c' k'. simpl. rewrite lookup_insert_Some. intros [[<- <-]|[_ ?]]; [right|by left].
  by eapply conn_ty_ext.
Qed.

Lemma good_sendAuthResponse E c req sid seq w : typed w → conn_ok w c →
  (m_TraceContext req = None → E) →
  wgood E (sendAuthResponse fc tp_Write HeartbeatTimeout MaxBodySize c req sid seq)
    (λ _ _, m_TraceContext req ≠ None) w.
Proof.
  intros Ht Hc HE. unfold sendAuthResponse. gstep; [done|]. intros tc Etc.
  eapply wbind; [by apply new_msg_ok|]. intros r w' Ht' He' Hr.
  eapply wmono; [apply (good_encodeAndWrite fc tp_Write E); eauto with typing|done|]. congruence.
Qed.

(** A connection keeps its ID. *)
Lemma connID_ext w w' c k : ext w w' → conns w !! c = Some k →
  ∀ k', conns w' !! c = Some k' → ConnID k' = ConnID k.
Proof. intros [_ Hc _] E k' E'. destruct (Hc _ _ E) as (k1 & E1 & ?). congruence. Qed.

Lemma good_wire E ai req w : typed w →
  (ai_connID ai ≠ "" ∧ m_TraceContext req = None → E) →
  wgood E (wire fc sha256_hex16 tp_Write HeartbeatTimeout MaxBodySize ai req)
    (λ o w', (∀ ref c, o = Some (ref, c) → ref_ok w' ref ∧ conn_ok w' c) ∧
             ¬ (ai_connID ai ≠ "" ∧ m_TraceContext req = None)) w.
Proof.
  intros Ht HE. unfold wire. eapply wbind; [by apply good_GetOrCreate|].
  intros [sess b] w1 Ht1 He1 (Hr & Hu & Hd). cbn [fst] in *. gstep. gstep.
  eapply wbind; [apply good_new_conn; [done|]|].
  { split; simpl; [constructor|lia|lia]. }
  cbn zeta. generalize (fresh (dom (conns w1))). intros c _ w2 Ht2 He2 Hc2.
  assert (conn_ok w2 c) as Hok by by eauto with typing.
  apply wseq; [by gcall|]. intros lastSeq w3 Ht3 He3.
  eapply wbind; [apply good_RegisterSession; [done|by eauto with typing|done]|].
  intros kicked w4 Ht4 He4 Hk4. apply wseq.
  { destruct kicked as [old|]; [|by gtac]. specialize (Hk4 old eq_refl). gcall. }
  intros _ w5 Ht5 He5. eapply wbind; [apply good_RegisterConn; [done| |by eauto 20 with typing]|].
  { intros k Ek. refine (connID_ext w2 w5 c _ _ Hc2 k Ek). by do 2 (etrans; [|eassumption]). }
  intros e w6 Ht6 He6 Hreg. destruct e as [err|].
  { gstep; [by gcall|]. gstep; [by gcall|]. apply wret; naive_solver. }
  assert (ai_connID ai ≠ "") as Hid by naive_solver.
  assert (conn_ok w6 c) as Hc6 by eauto 20 with typing.
  assert (ref_ok w6 sess) as Hr6 by eauto 20 with typing.
  gstep; [by gcall|]. eapply wbind.
  { apply good_sendAuthResponse; [done|by eauto with typing|auto]. }
  intros e7 w7 Ht7 He7 Htc. destruct e7 as [err|].
  { gstep; [by gcall|]. gstep; [by gcall|]. gstep; [by gcall|]. apply wret; naive_solver. }
  apply wret; [done|]. split; [|naive_solver]. intros ? ? [= <- <-]. eauto 20 with typing.
Qed.

Lemma good_CreateAndRun E deadline input uuid w : typed w →
  let crash := ∃ ai req, doHandshake fc deadline input uuid = inr (ai, req) ∧ ai_connID ai ≠ "" ∧
    m_TraceContext req = None in
  (crash → E) →
  wgood E (CreateAndRun fc sha256_hex16 tp_Write HeartbeatTimeout MaxBodySize deadline input uuid)
    (λ r w', (∀ ref c, r.1 = Some (ref, c) → ref_ok w' ref ∧ conn_ok w' c) ∧ ¬ crash) w.
Proof.
  intros Ht crash HE. subst crash. unfold CreateAndRun.
  destruct (doHandshake _ _ _ _) as [e|[ai req]]; [apply wret; naive_solver|].
  eapply wbind; [apply good_wire; [done|naive_solver]|]. intros o w' Ht' He' Ho. apply wret; naive_solver.
Qed.

Lemma good_onClose E ref c w : typed w → ref_ok w ref → conn_ok w c →
  wgood E (onClose ref c) (λ _ _, True) w.
Proof. intros. unfold onClose. gtac. Qed.

Lemma good_run_cleanup E ref c w : typed w → ref_ok w ref → conn_ok w c →
  wgood E (run_cleanup (onClose ref) c) (λ _ _, True) w.
Proof.
  intros. unfold run_cleanup. gstep; [by gcall|]. apply good_onClose; eauto with typing.
Qed.
End factory.
