(* ===== verification/NodeSync.v ===== *)
(** * Sessions and router stay in step on a whole node

    [Sync.v] proves the agreement of sessions and router for the operations of
    the session layer; here it is carried through readers, pipelines, workers,
    the factory and the closing of connections. *)

From stdpp Require Import base list gmap strings numbers infinite.
From S2P Require Import Prelude Timer Shard Message Codec Router World Connection Pool Session.
From S2P Require Import Typing Pipeline Uplink Downlink Layer Worker Handler Factory Sync Node.

(** ** Frames of chains *)
Section chains.
Context {V X : Type} (R : relation V) `{!PreOrder R}.

(** The relation on the world, whatever the context does. *)
Definition on_world (s s' : V * X) : Prop := R s.1 s'.1.
#[export] Instance on_world_preorder : PreOrder on_world.
Proof. split; [by intros s; unfold on_world|]. intros s1 s2 s3. unfold on_world. by etrans. Qed.

Lemma preserves_zoom {A} (m : M V A) : preserves R m →
  preserves on_world (zoom fst (λ w s, (w, s.2)) m : M (V * X) A).
Proof.
  intros Hm [w x]. unfold on_world, zoom. simpl. specialize (Hm w). by destruct (m w).
Qed.
Lemma preserves_context (f : X → X) : preserves on_world (modify (λ s, (s.1, f s.2)) : M (V * X) unit).
Proof. intros [w x]. unfold on_world. simpl. reflexivity. Qed.

Definition stage_preserves (sh : shape (W:=V * X)) : Prop :=
  preserves on_world (before sh) ∧ preserves on_world (after sh) ∧
  ∀ h why, recover sh = Some h → preserves on_world (h why).

Lemma preserves_compose l : Forall stage_preserves l → preserves on_world (compose l).
Proof.
  induction 1 as [|sh l (Hb & Ha & Hr) _ IH]; simpl; [apply preserves_ret, _|].
  unfold wrap. assert (preserves on_world
    (go ← before sh; if (go : bool) then compose l ≫= λ _, after sh else mret tt)) as Hbody.
  { apply preserves_bind; [apply _|done|]. intros []; [|apply preserves_ret, _].
    by apply preserves_bind; [apply _|..]. }
  destruct (recover sh) as [h|]; [|done]. apply preserves_with_recover; [apply _|done|].
  intros why. by apply Hr.
Qed.
End chains.

(** ** The pipelines leave subscriptions and router alone *)
Section pipelines.
Context {TS : Type} `{Scheduler TS timeoutPayload unit} `{MapRange} `{PayloadLib}.
Context (limiter : option (string → string → bool)) (store : bool).

Abbreviation uframes := (preserves (on_world (V:=World TS) (X:=UplinkCtx) sync_frame)).
Abbreviation dframes := (preserves (on_world (V:=World TS) (X:=DownlinkCtx) sync_frame)).

Lemma frames_inW {A} (m : M (World TS) A) : frames m → uframes (inW m).
Proof. intros. by apply preserves_zoom. Qed.
Lemma frames_inD {A} (m : M (World TS) A) : frames m → dframes (inD m).
Proof. intros. by apply preserves_zoom. Qed.
Lemma frames_on_ctx f : uframes (on_ctx f).
Proof. apply preserves_context, _. Qed.
Lemma frames_on_dctx f : dframes (on_dctx f).
Proof. apply preserves_context, _. Qed.

Lemma frames_get_msg m : frames (TS:=TS) (get_msg m).
Proof. unfold get_msg. frames_tac. Qed.
Lemma frames_get_conn c : frames (TS:=TS) (get_conn c).
Proof. unfold get_conn. frames_tac. Qed.
Lemma frames_get_sess p : frames (TS:=TS) (get_sess p).
Proof. unfold get_sess. frames_tac. Qed.
Lemma frames_on_msg m f : frames (TS:=TS) (on_msg m f).
Proof. unfold on_msg. frames_tac. Qed.
Lemma frames_on_conn c f : frames (TS:=TS) (on_conn c f).
Proof. unfold on_conn. frames_tac. Qed.
Lemma frames_sess_IsActive p : frames (TS:=TS) (sess_IsActive p).
Proof. unfold sess_IsActive, get_sess. frames_tac. Qed.
#[local] Hint Resolve frames_get_msg frames_get_conn frames_get_sess frames_on_msg frames_on_conn
  frames_conn_Submit frames_Submit frames_Store frames_SubmitUpstream frames_sess_IsActive
  frames_new_msg : gw.
#[local] Hint Extern 2 (preserves _ (inW _)) => apply frames_inW; auto with gw : gw.
#[local] Hint Extern 2 (preserves _ (inD _)) => apply frames_inD; auto with gw : gw.
#[local] Hint Resolve frames_on_ctx frames_on_dctx : gw.

Lemma frames_ReplyError code text : uframes (ReplyError code text).
Proof. unfold ReplyError. preserves_tac. Qed.
#[local] Hint Resolve frames_ReplyError : gw.

Lemma frames_ctx_msg : uframes ctx_msg.
Proof. unfold ctx_msg. preserves_tac. Qed.
Lemma frames_dctx_msg : dframes dctx_msg.
Proof. unfold dctx_msg. preserves_tac. Qed.
Lemma frames_str_prefix n s : uframes (str_prefix n s).
Proof. unfold str_prefix. preserves_tac. Qed.
#[local] Hint Resolve frames_ctx_msg frames_dctx_msg frames_str_prefix : gw.

Lemma frames_filter_targets ex l : dframes (filter_targets ex l).
Proof. induction l; simpl; preserves_tac. Qed.
Lemma frames_fan_out m l r : dframes (fan_out store m l r).
Proof. revert r. induction l; intros r; simpl; unfold fan_out_one; preserves_tac. Qed.
#[local] Hint Resolve frames_filter_targets frames_fan_out : gw.

Ltac stage_frames := split_and!; [..|intros ? ? [= <-]]; simpl; unfold abort, dabort; preserves_tac.

Lemma frames_uplink : uframes (compose (uplink_stages limiter)).
Proof.
  apply preserves_compose; [apply _|]. repeat apply List.Forall_cons; try apply List.Forall_nil;
    stage_frames.
Qed.
Lemma frames_downlink : dframes (compose (downlink_stages store)).
Proof.
  apply preserves_compose; [apply _|]. repeat apply List.Forall_cons; try apply List.Forall_nil;
    stage_frames.
Qed.

Lemma frames_handle_upstream p c m : frames (TS:=TS) (handle_upstream limiter p c m).
Proof.
  intros w. unfold handle_upstream, ChainAdapter_Run, BuildChain, NewChain. rewrite Run_compose.
  pose proof (frames_uplink (w, newUplinkCtx (now w) p c (Some m))) as Hf. unfold UW in *.
  by destruct (compose _ _) as [r [w' ctx]].
Qed.
Lemma frames_downstream_run om : frames (TS:=TS)
  (λ w, let '(r, (w', _)) := downstream_job store om w in (r, w')).
Proof.
  intros w. unfold downstream_job, downlink_BuildChain, NewChain. rewrite Run_compose.
  pose proof (frames_downlink (w, newDownlinkCtx (now w) om)) as Hf. unfold DW in *.
  by destruct (compose _ _) as [r [w' ctx]].
Qed.
End pipelines.

(** ** Operations that keep the agreement *)
Section keeps.
Context {TS : Type} `{Scheduler TS timeoutPayload unit} `{MapRange} `{PayloadLib}
  `{WireLib} `{HandshakeLib}.
Implicit Types (w : World TS).

Definition keeps {A} (P : World TS → Prop) (m : M (World TS) A) : Prop := ∀ w, P w → P (m w).2.

Lemma keeps_bind {A B} P (m : M (World TS) A) (f : A → M (World TS) B) :
  keeps P m → (∀ a, keeps P (f a)) → keeps P (m ≫= f).
Proof.
  intros Hm Hf w Hw. rewrite bind_run. specialize (Hm w Hw).
  destruct (m w) as [[a|] w1]; [by apply Hf|done].
Qed.
Lemma keeps_ret {A} P (a : A) : keeps P (mret a).
Proof. by intros w. Qed.

(** A property of the world that the operations of the session layer keep. *)
Record session_stable (P : World TS → Prop) : Prop := {
  keeps_frames {A} (m : M (World TS) A) : frames m → keeps P m;
  keeps_JoinRoom p r : keeps P (sess_JoinRoom p r);
  keeps_LeaveRoom p r : keeps P (sess_LeaveRoom p r);
  keeps_Subscribe p t : keeps P (sess_Subscribe p t);
  keeps_Unsubscribe p t : keeps P (sess_Unsubscribe p t);
  keeps_AttachConn p c : keeps P (AttachConn p c);
  keeps_DetachConn p : keeps P (DetachConn p);
  keeps_Close p : keeps P (sess_Close p);
}.

#[local] Hint Resolve frames_get_msg frames_get_conn frames_get_sess frames_on_msg frames_on_conn
  frames_conn_Submit frames_Submit frames_Store frames_new_msg frames_handle_upstream
  frames_downstream_run frames_handleTimeout frames_Ack : gw.

Context (fc : FrameCodec) (tp_Write : bool → list Z → error).
Context (limiter : option (string → string → bool)) (sha256_hex16 : string → string).
Context (P : World TS → Prop) (HP : session_stable P).

Lemma frames_encodeAndWrite c m : frames (TS:=TS) (encodeAndWrite fc tp_Write c m).
Proof. unfold encodeAndWrite. frames_tac. Qed.
#[local] Hint Resolve frames_encodeAndWrite : gw.
Lemma frames_writeLoop_turn pick c : frames (TS:=TS) (writeLoop_turn fc tp_Write pick c).
Proof. unfold writeLoop_turn, drain. frames_tac. Qed.

Lemma keeps_onMessage p c m : keeps P (onMessage limiter Build p c m).
Proof.
  unfold onMessage, Dispatch.
  assert (∀ h, keeps P (Handle limiter h p c m)) as Hh.
  { intros []; cbn [Handle].
    - apply (keeps_frames P HP). unfold handle_heartbeat. frames_tac.
    - unfold handle_logout. do 4 (apply keeps_bind; [apply (keeps_frames P HP); frames_tac|intros ?]).
      apply keeps_bind; [apply (keeps_Close P HP)|intros ?]. apply keeps_ret.
    - apply (keeps_frames P HP). auto with gw. }
  apply keeps_bind; [|intros ?; apply keeps_ret].
  apply keeps_bind; [apply (keeps_frames P HP); auto with gw|intros msg].
  case_match; [by apply Hh|]. apply keeps_bind; [apply (keeps_frames P HP); auto with gw|intros h].
  apply keeps_bind; [by apply Hh|intros ?; apply keeps_ret].
Qed.

Lemma keeps_readLoop_turn onM deadline input c : (∀ m, keeps P (onM c m)) →
  keeps P (readLoop_turn fc onM deadline input c).
Proof.
  intros Hon. unfold readLoop_turn.
  apply keeps_bind; [apply (keeps_frames P HP); auto with gw|intros k]. case_match; [apply keeps_ret|].
  destruct deadline; [apply keeps_ret|]. destruct input; [apply keeps_ret|].
  do 2 (apply keeps_bind; [apply (keeps_frames P HP); frames_tac|intros ?]).
  destruct (Decode _ _); [apply keeps_ret|].
  do 2 (apply keeps_bind; [apply (keeps_frames P HP); frames_tac|intros ?]).
  case_match; [apply keeps_ret|]. apply keeps_bind; [apply Hon|intros ?; apply keeps_ret].
Qed.

Lemma frames_mgr_SubmitUpstream b ref m : frames (TS:=TS) (mgr_SubmitUpstream b ref m).
Proof. unfold mgr_SubmitUpstream, pool_SubmitUpstream, on_pool. frames_tac. Qed.
Lemma frames_consume b x : frames (TS:=TS) (m ← new_msg x; mgr_SubmitDownstream b m).
Proof. unfold mgr_SubmitDownstream, pool_SubmitDownstream, on_pool. frames_tac. Qed.
Lemma frames_upstreamWorker sender pick b : frames (TS:=TS) (upstreamWorker_turn sender pick b).
Proof. unfold upstreamWorker_turn, upstream_job, on_pool. frames_tac. Qed.
Lemma frames_downstreamWorker pick b : frames (TS:=TS) (downstreamWorker_turn pick b).
Proof. unfold downstreamWorker_turn, on_pool. cbv zeta. frames_tac. Qed.
Lemma frames_pool_Stop b : frames (TS:=TS) (pool_Stop b).
Proof. unfold pool_Stop, on_pool. frames_tac. Qed.
Lemma frames_watchdog t c : frames (TS:=TS) (HeartbeatWatchdog_tick t c).
Proof. unfold HeartbeatWatchdog_tick, conn_Close. frames_tac. Qed.
Lemma frames_gs_cancel : frames (TS:=TS) gs_cancel.
Proof. unfold gs_cancel. frames_tac. Qed.
Lemma frames_tick t : frames (TS:=TS) (tick t).
Proof. unfold tick. frames_tac. Qed.

Lemma keeps_call p o : keeps P (do_call (TS:=TS) p o).
Proof.
  destruct o; cbn [do_call].
  - apply (keeps_JoinRoom P HP).
  - apply (keeps_LeaveRoom P HP).
  - apply (keeps_Subscribe P HP).
  - apply (keeps_Unsubscribe P HP).
  - apply (keeps_frames P HP). auto with gw.
  - apply (keeps_Close P HP).
Qed.

(** *** Connecting and closing *)
Context (HeartbeatTimeout MaxBodySize : Z).

Lemma frames_RegisterSession uid did ref : frames (TS:=TS)
  (λ w, let '(k, r) := RegisterSession uid did ref (router w) in (Ret k, upd_router (λ _, r) w)).
Proof. by intros w. Qed.
Lemma frames_sendAuthResponse c req sid seq :
  frames (TS:=TS) (sendAuthResponse fc tp_Write HeartbeatTimeout MaxBodySize c req sid seq).
Proof. unfold sendAuthResponse. frames_tac. Qed.

(** A login keeps what finding or creating the session keeps. *)
Lemma wire_keeps ai req w :
  P (GetOrCreate sha256_hex16 (ai_userID ai) (ai_deviceID ai) (ai_appID ai) (ai_deviceType ai) (ai_bizCode ai) w).2 →
  P (wire fc sha256_hex16 tp_Write HeartbeatTimeout MaxBodySize ai req w).2.
Proof.
  intros H1'. unfold wire. rewrite bind_run.
  destruct (GetOrCreate _ _ _ _ _ _ w) as [[[sess b]|] w1]; [|done]. simpl in H1'. revert w1 H1'.
  match goal with |- ∀ w1, P w1 → P (?m w1).2 => enough (keeps P m) by done end.
  pose proof (keeps_DetachConn P HP) as Hdet.
  do 3 (apply keeps_bind; [apply (keeps_frames P HP); frames_tac|intros ?]).
  apply keeps_bind; [apply (keeps_AttachConn P HP)|intros lastSeq].
  apply keeps_bind; [apply (keeps_frames P HP), frames_RegisterSession|intros kicked].
  apply keeps_bind.
  { destruct kicked; [apply (keeps_Close P HP)|apply keeps_ret]. }
  intros _. apply keeps_bind; [apply (keeps_frames P HP); unfold RegisterConn; frames_tac|intros [e|]].
  { apply keeps_bind; [done|intros ?]. apply (keeps_frames P HP). frames_tac. }
  apply keeps_bind; [apply (keeps_frames P HP); unfold Activate; frames_tac|intros ?].
  apply keeps_bind; [apply (keeps_frames P HP), frames_sendAuthResponse|intros [e|]]; [|apply keeps_ret].
  apply keeps_bind; [done|intros ?]. apply (keeps_frames P HP). unfold UnregisterConn. frames_tac.
Qed.
End keeps.

Section sync.
Context {TS : Type} `{Scheduler TS timeoutPayload unit} `{MapRange} `{PayloadLib}
  `{WireLib} `{HandshakeLib}.
Implicit Types (w : World TS).
Context (sha256_hex16 : string → string).

Lemma in_sync_stable : session_stable (TS:=TS) in_sync.
Proof.
  split.
  - intros A m Hf w. by apply frames_in_sync.
  - intros p r w. by apply JoinRoom_in_sync.
  - intros p r w. by apply LeaveRoom_in_sync.
  - intros p t w. by apply Subscribe_in_sync.
  - intros p t w. by apply Unsubscribe_in_sync.
  - intros p c w. by apply (AttachConn_in_sync sha256_hex16).
  - intros p w. by apply DetachConn_in_sync.
  - intros p w. by apply Close_in_sync.
Qed.

(** The last step of [onClose] finds the session detached. *)
Lemma purge_detached_in_sync ref s w : in_sync w → sessions w !! ref_ptr ref = Some s →
  ref = ref_of (ref_ptr ref) s → s_conn s = None → in_sync (on_router (UnregisterAll ref) w).2.
Proof.
  intros Hin Es Er Hc. pose proof Hin as [Hu Sr St].
  assert (ref_sid ref = sessionID s) as Eid by by rewrite Er.
  assert (∀ sub ix, row_ok sub ix (index_purge (SessionID ref) ix) (ref_ptr ref) s s) as Hrow.
  { intros sub ix. change (SessionID ref) with (ref_sid ref). rewrite Eid. eapply row_purge. by left. }
  eapply (in_sync_row w _ (ref_ptr ref) s s Hin Es); [done| |apply Hrow|apply Hrow].
  symmetry. by apply insert_id.
Qed.

Lemma DetachConn_run p w s : sessions w !! p = Some s →
  ∃ w', DetachConn p w = (Ret tt, w') ∧
    sessions w' !! p = Some (upd_s_state StateSuspended (UnixMilli (now w)) (upd_s_conn None s)).
Proof.
  intros Es. unfold DetachConn. rewrite (bind_ret_run _ _ _ _ _ (get_sess_run p w s Es)).
  erewrite (bind_ret_run (gets _)) by reflexivity. erewrite (bind_ret_run (on_sess _ _)) by reflexivity.
  destruct (s_conn s); simpl; eexists; (split; [reflexivity|]); simpl; by rewrite !lookup_alter_eq, Es.
Qed.

Lemma onClose_in_sync ref c w : ref_ok w ref → in_sync w → in_sync (onClose ref c w).2.
Proof.
  intros (s & Es & Er) Hin. unfold onClose, get_conn. rewrite bind_run, (bind_run (gets _)). cbn [gets fst snd].
  destruct (conns w !! c) as [k|]; [|done]. cbn [deref mret M_ret].
  destruct (DetachConn_run (ref_ptr ref) w s Es) as (w1 & E1 & Es1).
  pose proof (DetachConn_in_sync (ref_ptr ref) w Hin) as Hin1. rewrite E1 in Hin1.
  rewrite (bind_ret_run _ _ _ _ _ E1). unfold UnregisterConn. erewrite bind_ret_run by reflexivity.
  eapply purge_detached_in_sync; [|simpl; exact Es1|by rewrite Er|done].
  by apply (frames_in_sync (UnregisterConn (ConnID k)) w1); [unfold UnregisterConn; frames_tac|].
Qed.

Lemma run_cleanup_in_sync ref c w : ref_ok w ref → in_sync w → in_sync (run_cleanup (onClose ref) c w).2.
Proof.
  intros Hr Hin. unfold run_cleanup. erewrite bind_ret_run by reflexivity. apply onClose_in_sync.
  - exact Hr.
  - by apply (frames_in_sync (on_conn c upd_torn_down) w); [apply frames_on_conn|].
Qed.
End sync.
