(* ===== verification/NodeSpec.v ===== *)
(** * What holds in every state a node reaches

    References and queues are typed, sessions and router agree, messages reach
    the right sessions, and the node panics exactly for the reasons listed in
    [crashes]. *)

From stdpp Require Import base list gmap strings numbers infinite relations.
From S2P Require Import Prelude Timer Shard Message Codec Router World Connection Pool Session Demo.
From S2P Require Import Typing TypedOps Pipeline Uplink Downlink Layer Worker Handler Factory Sync.
From S2P Require Import UplinkSpec FactorySpec Node NodeTyping NodeSync.

Section lifting.
Context {TS : Type}.
Implicit Types (n : Node (TS:=TS)) (w : World TS).

Record node_ok n : Prop := {
  no_world : typed (n_world n);
  no_runs c ref r : n_runs n !! c = Some (ref, r) → ref_ok (n_world n) ref ∧ conn_ok (n_world n) c;
}.
Definition next n n' : Prop := ext (n_world n) (n_world n').
#[export] Instance next_preorder : PreOrder next.
Proof. split; [by intros n; unfold next|]. intros n1 n2 n3. unfold next. by etrans. Qed.

Abbreviation ngood := (good node_ok next).

Lemma good_inN {A} E (m : M (World TS) A) Q n : node_ok n → wgood E m Q (n_world n) →
  ngood E (inN m) (λ a n', Q a (n_world n') ∧ n_runs n' = n_runs n) n.
Proof.
  destruct n as [w rs ws]. intros [Hw Hr] (Ht & He & Hq). unfold good, inN, zoom in *. cbn [n_world n_runs] in *.
  destruct (m w) as [r w']. cbn [fst snd] in *. split_and!; [split; [done|]|done|by destruct r].
  cbn. intros c ref rn E1. destruct (Hr _ _ _ E1). eauto with typing.
Qed.

Lemma good_inN_bind {A B} E (m : M (World TS) A) (f : A → M Node B) P Q n :
  node_ok n → wgood E m P (n_world n) →
  (∀ a n', node_ok n' → next n n' → P a (n_world n') → n_runs n' = n_runs n → ngood E (f a) Q n') →
  ngood E (inN m ≫= f) Q n.
Proof.
  intros Hn Hm Hf. eapply good_bind; [apply _|by apply good_inN|]. intros a n' Hn' He [Hp Hr]. by apply Hf.
Qed.
Lemma nret {A} E (a : A) (Q : A → _ → Prop) n : node_ok n → Q a n → ngood E (mret a) Q n.
Proof. by apply good_ret, _. Qed.

Lemma good_set_run E c ref r n : node_ok n → ref_ok (n_world n) ref → conn_ok (n_world n) c →
  ngood E (set_run c ref r) (λ _ _, True) n.
Proof.
  intros [Hw Hr] Href Hc. split_and!; [|apply ext_preorder|done]. split; [done|].
  intros c' ref' r'. cbn. rewrite lookup_insert_Some. intros [[<- [= <- <-]]|[_ ?]]; eauto.
Qed.
End lifting.

Abbreviation ngood := (good node_ok next).

Section node.
Context {TS : Type} `{Scheduler TS timeoutPayload unit} `{MapRange} `{PayloadLib}
  `{WireLib} `{HandshakeLib}.
Context (fc : FrameCodec) (sha256_hex16 : string → string).
Context (tp_Write : bool → list Z → error) (HeartbeatTimeout MaxBodySize : Z).
Context (limiter : option (string → string → bool)) (sender : string → Message → error).
Implicit Types (n : Node (TS:=TS)) (w : World TS).

Abbreviation exec := (node_exec fc sha256_hex16 tp_Write HeartbeatTimeout MaxBodySize limiter sender).
Abbreviation moves := (node_moves fc sha256_hex16 tp_Write HeartbeatTimeout MaxBodySize limiter sender).

Lemma good_do_call E p o w : typed w → sess_ok w p → wgood E (do_call p o) (λ _ _, True) w.
Proof.
  intros Ht Hp. destruct o; cbn [do_call].
  - by apply good_sess_JoinRoom.
  - by apply good_sess_LeaveRoom.
  - by apply good_sess_Subscribe.
  - by apply good_sess_Unsubscribe.
  - by apply good_Ack.
  - by apply good_sess_Close.
Qed.

Lemma good_gs_cancel E w : typed w → wgood E gs_cancel (λ _ _, True) w.
Proof.
  intros Ht. unfold gs_cancel. apply wseq.
  - assert (ext w (upd_conns (fmap upd_ctx_done) w)) as He.
    { split; simpl; [done| |done]. intros c k E1. rewrite lookup_fmap, E1. simpl. eauto. }
    apply good_modify; [|done..]. apply (typed_update w); auto.
    intros c k. simpl. rewrite lookup_fmap, fmap_Some. intros (k0 & E0 & ->). right.
    eapply conn_ty_ext; [exact He|]. by destruct (ty_conns _ Ht _ _ E0).
  - intros _ w' Ht' He'. assert (ext w' (upd_pools (fmap upd_pool_done) w')) as He2 by by apply ext_same.
    apply good_modify; [|done..]. apply (typed_update w'); auto.
    intros c k. simpl. rewrite lookup_fmap, fmap_Some. intros (k0 & E0 & ->). right.
    eapply pool_ty_ext; [exact He2|]. by destruct (ty_pools _ Ht' _ _ E0).
Qed.

Lemma good_tick E t w : typed w → wgood E (tick t) (λ _ _, True) w.
Proof.
  intros Ht. unfold tick. set (f := λ w, mkWorld _ _ _ _ _ _ _ _ _ _ _).
  assert (ext w (f w)) as He by by apply ext_same.
  apply good_modify; [|done..]. apply (typed_update w); auto.
Qed.

Lemma good_set_run_bind E c ref r P n : node_ok n → ref_ok (n_world n) ref → conn_ok (n_world n) c →
  P → ngood E (set_run c ref r) (λ _ _, P) n.
Proof. intros ????. eapply good_mono; [by apply (good_set_run E)|done|done]. Qed.

(** The workers may come and go. *)
Lemma good_crew E (f : Node → gmap string Crew) (P : Prop) n : node_ok n → P →
  ngood E (modify (λ n, mkNode (n_world n) (n_runs n) (f n))) (λ _ _, P) n.
Proof. intros [Hw Hr] HP. split_and!; [by split|apply ext_preorder|done]. Qed.
Lemma good_worker_after E up b t (P : Prop) n : node_ok n → P →
  ngood E (worker_after up b t) (λ _ _, P) n.
Proof. intros Hn HP. unfold worker_after. destruct (bool_decide _); cbn [when]; [by apply good_crew|by apply nret]. Qed.

(** An operation on the world alone. *)
Lemma good_inN_only {A} E (m : M (World TS) A) (P : Prop) n : node_ok n →
  wgood E m (λ _ _, P) (n_world n) → ngood E (inN m) (λ _ _, P) n.
Proof. intros Hn Hm. eapply good_mono; [by apply (good_inN E)|done|]. by intros ?? _ _ [? _]. Qed.

(** Every event keeps the node well formed, panics only when [crashes] says
    so, and returns only when [crashes] does not. *)
Lemma exec_good e n : node_ok n → ngood (crashes fc HeartbeatTimeout e n) (exec e) (λ _ _, ¬ crashes fc HeartbeatTimeout e n) n.
Proof.
  intros Hn. pose proof Hn as [Ht Hruns].
  destruct e as [d i u|c d i|c pick|c|c|b cfg|b pick|b pick|b x|task|p o|b| |t]; cbn [node_exec].
  - eapply good_inN_bind; [done|apply (good_CreateAndRun _ _ _ _ _ (crashes fc HeartbeatTimeout (EvConnect d i u) n)); done|].
    intros [o out] n' Hn' He' [Ho Hcr] _. cbn [fst] in Ho.
    destruct o as [[ref c]|]; [|by apply nret]. destruct (Ho _ _ eq_refl). by apply good_set_run_bind.
  - apply good_gets_bind. destruct (n_runs n !! c) as [[ref [[] wd []]]|] eqn:Er;
      try (apply nret; [done|]; intros (? & ? & ? & ? & ? & _); congruence).
    destruct (Hruns _ _ _ Er) as [Href Hc].
    eapply good_inN_bind; [done|apply (good_readLoop_turn _ _ (λ msg, fatal_frame msg = false)); [done..|]|].
    + intros m msg k w' Ht' He' Hm Hk Hd Hf. apply good_onMessage; eauto with typing.
      intros Hfat. by exists ref, wd, k, msg.
    + intros t n' Hn' He' Hq Er'. apply good_set_run_bind; unfold next in *; eauto with typing.
      intros (? & ? & k & msg & _ & Hk & Hd & Hf & Hfat). rewrite (Hq _ _ Hk Hd Hf) in Hfat. done.
  - apply good_gets_bind. destruct (n_runs n !! c) as [[ref [rd [] []]]|] eqn:Er; try by apply nret; [|intros []].
    destruct (Hruns _ _ _ Er) as [Href Hc].
    eapply good_inN_bind; [done|by apply good_writeLoop_turn|].
    intros t n' Hn' He' _ Er'. apply good_set_run_bind; unfold next in *; eauto with typing.
  - apply good_gets_bind. destruct (n_runs n !! c) as [[ref r]|] eqn:Er; [|apply nret; [done|]; intros [[? ?] _]; congruence].
    destruct (Hruns _ _ _ Er) as [Href Hc]. unfold HeartbeatWatchdog_tick, conn_Close. cbn [crashes].
    destruct (ticker_panics HeartbeatTimeout) eqn:Etp.
    + eapply (good_inN_bind _ _ _ (λ _ _, False)); [done| |by intros ? ? ? ? []].
      apply wpanic; [done|]. rewrite Er. split; [by eexists|done].
    + eapply (good_inN_bind _ _ _ (λ _ _, True)); [done| |by intros; apply nret; [|intros [_ ?]]].
      gtac.
  - apply good_gets_bind. destruct (n_runs n !! c) as [[ref [[] [] []]]|] eqn:Er; try by apply nret; [|intros []].
    destruct (Hruns _ _ _ Er) as [Href Hc].
    eapply good_inN_bind; [done|by apply good_run_cleanup|].
    intros t n' Hn' He' _ Er'. apply good_set_run_bind; unfold next in *; eauto with typing.
  - apply good_gets_bind. destruct (pools _ !! b); [|by apply nret; [|intros []]].
    by apply good_crew; [|intros []].
  - apply good_gets_bind. destruct (pools _ !! b) as [pool|] eqn:Ep;
      [|apply nret; [done|]; intros (_ & ? & ? & _); congruence].
    destruct (has_worker true b n) eqn:Ew; [|apply nret; [done|]; intros (? & _); congruence].
    eapply good_inN_bind; [done|apply (good_upstreamWorker_turn _ _ _ _ pool); [done|done|]|].
    + intros Hcl. split; [done|]. by exists pool.
    + intros ? n' Hn' He' Hq _. apply good_worker_after; [done|]. intros (_ & pool' & Ep' & Hc). apply Hq. congruence.
  - apply good_gets_bind. destruct (pools _ !! b) as [pool|] eqn:Ep; [|by apply nret; [|intros []]].
    destruct (has_worker false b n); [|by apply nret; [|intros []]].
    eapply good_inN_bind; [done|by eapply good_downstreamWorker_turn|]. intros. by apply good_worker_after; [|intros []].
  - eapply good_inN_bind; [done|apply (good_consume (crashes fc HeartbeatTimeout (EvConsume b x) n)); done|].
    intros ? n' Hn' He' Hq _. by apply nret.
  - eapply good_inN_only; [done|]. eapply wmono; [by apply (good_handleTimeout False)|done|by intros; intros []].
  - apply good_gets_bind. destruct (sessions _ !! p) as [s|] eqn:Es; [|by apply nret; [|intros []]].
    eapply good_inN_only; [done|]. eapply wmono; [apply (good_do_call False); [done|by exists s]|done|by intros; intros []].
  - apply good_gets_bind. destruct (pools _ !! b) as [pool|] eqn:Ep;
      [|apply nret; [done|]; intros (? & ? & _); congruence].
    eapply good_inN_only; [done|]. eapply wmono; [by apply (good_pool_Stop (pool_closed pool = true) _ pool)| |].
    + intros Hcl. by exists pool.
    + intros ? ? _ _ Hcl (pool' & Ep' & Hcl'). congruence.
  - eapply good_inN_only; [done|]. eapply wmono; [by apply (good_gs_cancel False)|done|by intros; intros []].
  - eapply good_inN_only; [done|]. eapply wmono; [by apply (good_tick False)|done|by intros; intros []].
Qed.

(** ** Reachable states *)
Lemma moves_ok n n' : moves n n' → node_ok n → node_ok n'.
Proof. intros [e n0 _] Hn. by destruct (exec_good e n0 Hn). Qed.

Lemma moves_ext n n' : moves n n' → node_ok n → ext (n_world n) (n_world n').
Proof. intros [e n0 _] Hn. by destruct (exec_good e n0 Hn) as (_ & ? & _). Qed.

Lemma reachable_ok n n' : rtc moves n n' → node_ok n → node_ok n' ∧ ext (n_world n) (n_world n').
Proof.
  induction 1 as [|n1 n2 n3 Hm _ IH]; intros Hn; [split; [done|reflexivity]|].
  destruct (IH (moves_ok _ _ Hm Hn)) as [??]. split; [done|]. etrans; [by apply moves_ext|done].
Qed.

Lemma start_ok d acker timeout t0 (t : TS) ps : node_ok (start_node d acker timeout t0 t ps).
Proof.
  split; [|done]. split; simpl; try done.
  intros b pl. rewrite lookup_fmap, fmap_Some. intros (cfg & _ & ->).
  split; simpl; [constructor|constructor|unfold pool_cap; lia|unfold pool_cap; lia].
Qed.

(** ** A property of the world along one event

    What the session layer keeps, every event keeps, as far as finding a
    session at login and the end of a connection keep it. *)
Section kept.
Context (P : World TS → Prop) (HP : session_stable P).

Lemma inN_keeps {A} (m : M (World TS) A) n : P (m (n_world n)).2 → P (n_world (inN m n).2).
Proof. unfold inN, zoom. by destruct (m (n_world n)). Qed.
Lemma inN_bind_keeps {A B} (m : M (World TS) A) (f : A → M Node B) n :
  P (m (n_world n)).2 → (∀ a n', n_world (f a n').2 = n_world n') → P (n_world ((inN m ≫= f) n).2).
Proof.
  intros Hm Hf. rewrite bind_run. unfold inN, zoom. destruct (m (n_world n)) as [[a|] w'] eqn:E; [|done].
  by rewrite Hf.
Qed.

Definition login_keeps e n : Prop := match e with
  | EvConnect d i u => ∀ ai req, doHandshake fc d i u = inr (ai, req) →
      P (GetOrCreate sha256_hex16 (ai_userID ai) (ai_deviceID ai) (ai_appID ai) (ai_deviceType ai)
           (ai_bizCode ai) (n_world n)).2
  | EvFinish c => ∀ ref r, n_runs n !! c = Some (ref, r) → P (run_cleanup (onClose ref) c (n_world n)).2
  | _ => True
  end.

Lemma exec_keeps e n : login_keeps e n → P (n_world n) → P (n_world (exec e n).2).
Proof.
  intros Hlog Hw. assert (∀ A (m : M (World TS) A), frames m → P (m (n_world n)).2) as Hf.
  { intros A m Hm. by apply (keeps_frames P HP). }
  destruct e as [d i u|c d i|c pick|c|c|b cfg|b pick|b pick|b x|task|p o|b| |t]; cbn [node_exec].
  - apply inN_bind_keeps; [|by intros [[[ref c]|] ?] ?].
    unfold CreateAndRun. destruct (doHandshake _ _ _ _) as [e|[ai req]] eqn:Eh; [done|].
    pose proof (wire_keeps fc tp_Write sha256_hex16 P HP HeartbeatTimeout MaxBodySize ai req (n_world n)
      (Hlog _ _ Eh)) as Hwire.
    rewrite bind_run. by destruct (wire _ _ _ _ _ _ _ _) as [[|] ?].
  - erewrite bind_ret_run by reflexivity. destruct (n_runs n !! c) as [[ref [[] wd []]]|] eqn:Er; try done.
    apply inN_bind_keeps; [|done]. apply keeps_readLoop_turn; [done| |done]. intros m. by apply keeps_onMessage.
  - erewrite bind_ret_run by reflexivity. destruct (n_runs n !! c) as [[ref [rd [] []]]|] eqn:Er; try done.
    apply inN_bind_keeps; [|done]. apply Hf, frames_writeLoop_turn.
  - erewrite bind_ret_run by reflexivity. destruct (n_runs n !! c) as [[ref r]|] eqn:Er; [|done].
    apply inN_bind_keeps; [|done]. apply Hf, frames_watchdog.
  - erewrite bind_ret_run by reflexivity. destruct (n_runs n !! c) as [[ref [[] [] []]]|] eqn:Er; try done.
    apply inN_bind_keeps; [|done]. by eapply Hlog.
  - erewrite bind_ret_run by reflexivity. by destruct (pools _ !! b).
  - erewrite bind_ret_run by reflexivity. destruct (pools _ !! b); [|done]. destruct (has_worker true b n); [|done].
    apply inN_bind_keeps; [|by apply worker_after_world]. apply Hf, frames_upstreamWorker.
  - erewrite bind_ret_run by reflexivity. destruct (pools _ !! b); [|done]. destruct (has_worker false b n); [|done].
    apply inN_bind_keeps; [|by apply worker_after_world]. apply Hf, frames_downstreamWorker.
  - apply inN_bind_keeps; [|done]. apply Hf, frames_consume.
  - apply inN_keeps, Hf, frames_handleTimeout.
  - erewrite bind_ret_run by reflexivity. destruct (sessions _ !! p); [|done].
    apply inN_keeps. by apply keeps_call.
  - erewrite bind_ret_run by reflexivity. destruct (pools _ !! b); [|done].
    apply inN_keeps, Hf, frames_pool_Stop.
  - apply inN_keeps, Hf, frames_gs_cancel.
  - apply inN_keeps, Hf, frames_tick.
Qed.
End kept.

Lemma exec_sync e n : event_ok fc sha256_hex16 e n → node_ok n → in_sync (n_world n) →
  in_sync (n_world (exec e n).2).
Proof.
  intros He [Ht Hruns] Hs. apply exec_keeps; [by apply in_sync_stable|destruct e; cbn [login_keeps]; try done|done].
  - intros ai req Eh. apply GetOrCreate_in_sync; [|done]. by eapply He.
  - intros ref r Er. apply run_cleanup_in_sync; [|done]. by eapply Hruns.
Qed.

Lemma reachable_sync n n' : rtc moves n n' → node_ok n → in_sync (n_world n) →
  node_ok n' ∧ in_sync (n_world n').
Proof.
  induction 1 as [|n1 n2 n3 Hm _ IH]; intros Hn Hs; [done|].
  apply IH; [by eapply moves_ok|]. destruct Hm as [e n0 He]. by apply exec_sync.
Qed.
End node.

(** ** A run of the demo node *)

(** A node with one pool, started. *)
Definition demo_start : Node :=
  start_node demo_deps true 0 (10 ^ 9) demo_timer
    {[ "im" := mkPoolConfig "im" 1 100 1 100 true ]}.

Abbreviation demo_exec := (node_exec (H1:=demo_payload) (H2:=toyWire) (H3:=demo_handshake) JSONConfig
  (λ x, x) (λ _ _, None) (30 * 10 ^ 9) 2097152 None (λ _ _, None)).
Abbreviation demo_moves := (node_moves (H1:=demo_payload) (H2:=toyWire) (H3:=demo_handshake) JSONConfig
  (λ x, x) (λ _ _, None) (30 * 10 ^ 9) 2097152 None (λ _ _, None)).

(** User u1 connects and joins a room. *)
Definition demo_hello : node_event := EvConnect None (hello_frame [1%Z]) "c1".
Definition demo_joins : node_event := EvSession 1 (CallJoinRoom "r1").
Definition demo_connected : Node := (demo_exec demo_hello demo_start).2.
Definition demo_node : Node := (demo_exec demo_joins demo_connected).2.

Lemma demo_node_reachable : rtc demo_moves demo_start demo_node.
Proof.
  apply (rtc_l _ _ demo_connected); [|apply rtc_once]; apply node_move; [|done].
  intros ai req _ _ p s Hs. simpl in Hs. by rewrite lookup_empty in Hs.
Qed.

(** ** Claims *)

(** C6.  Typing of the whole node.  In every state a node reaches from its start,
    by any interleaving of reader, writer and worker turns, logins, session
    calls, ACK time-outs, consumers and shutdown, panicking turns included, in
    which new sessions get an ID of their own ([event_ok]: no collision of the
    hash): every queued, waiting or registered reference leads to an object of the
    node with the recorded identity (a session listed under a user and device
    belongs to that user and device, a waiting message has the ID it waits
    under and asks for acknowledgement), write queues hold at most 4096 and
    worker channels at most 100 messages, sequence numbers fit 64 bits, and
    nothing allocated earlier is lost. *)
Theorem node_stays_typed {TS : Type} `{Scheduler TS timeoutPayload unit} `{MapRange} `{PayloadLib}
    `{WireLib} `{HandshakeLib} (fc : FrameCodec) (sha : string → string)
    (tp_Write : bool → list Z → error) (hb mb : Z) (limiter : option (string → string → bool))
    (sender : string → Message → error) d acker timeout t0 (t : TS) ps (n1 n2 : Node) :
  let moves := node_moves fc sha tp_Write hb mb limiter sender in
  rtc moves (start_node d acker timeout t0 t ps) n1 → rtc moves n1 n2 →
  typed (n_world n2) ∧
  (∀ c ref r, n_runs n2 !! c = Some (ref, r) → ref_ok (n_world n2) ref ∧ conn_ok (n_world n2) c) ∧
  ext (n_world n1) (n_world n2).
Proof.
  intros moves R1 R2.
  destruct (reachable_ok fc sha tp_Write hb mb limiter sender _ _ R1 (start_ok d acker timeout t0 t ps)) as [Hn _].
  destruct (reachable_ok fc sha tp_Write hb mb limiter sender _ _ R2 Hn) as [[]]. done.
Qed.

Lemma node_stays_typed_witness :
  typed (n_world demo_node) ∧ n_runs demo_node !! 1%positive = Some (mkRef 1 "u1:d1" "u1" "d1", mkRun false false false).
Proof.
  split; [|vm_compute; reflexivity].
  apply (node_stays_typed (H1:=demo_payload) (H2:=toyWire) (H3:=demo_handshake) JSONConfig (λ x, x)
    (λ _ _, None) (30 * 10 ^ 9) 2097152 None (λ _ _, None) demo_deps true 0 (10 ^ 9) demo_timer
    {[ "im" := mkPoolConfig "im" 1 100 1 100 true ]} demo_start demo_node).
  - apply rtc_refl.
  - exact demo_node_reachable.
Defined.

(** C5.  What can crash a node, exactly.  In a reachable state (new sessions got an
    ID of their own on the way) a turn panics if and only if: a client logs in
    without trace context; a running reader gets a frame whose type has no
    handler, or a logout without trace context; an upstream worker that is left
    in a stopped pool receives from its closed, empty channel;
    a consumer hands a message to a stopped pool; a pool is stopped twice; or a
    watchdog starts with a heartbeat time-out under two nanoseconds (the
    gateway's is 30 seconds).
    In particular neither the pipelines nor the ACK time-outs nor the writers
    ever panic. *)
Theorem node_panics_exactly {TS : Type} `{Scheduler TS timeoutPayload unit} `{MapRange} `{PayloadLib}
    `{WireLib} `{HandshakeLib} (fc : FrameCodec) (sha : string → string)
    (tp_Write : bool → list Z → error) (hb mb : Z) (limiter : option (string → string → bool))
    (sender : string → Message → error) d acker timeout t0 (t : TS) ps (n : Node) (e : node_event) :
  rtc (node_moves fc sha tp_Write hb mb limiter sender) (start_node d acker timeout t0 t ps) n →
  (∃ why, (node_exec fc sha tp_Write hb mb limiter sender e n).1 = Panic why) ↔ crashes fc hb e n.
Proof.
  intros R.
  destruct (reachable_ok fc sha tp_Write hb mb limiter sender _ _ R (start_ok d acker timeout t0 t ps)) as [Hn _].
  destruct (exec_good fc sha tp_Write hb mb limiter sender e n Hn) as (_ & _ & Hq).
  destruct (node_exec _ _ _ _ _ _ _ e n) as [[[]|why] n']; cbn [fst snd] in *; [|split; by eauto].
  split; [by intros [? ?]|done].
Qed.

Lemma node_panics_exactly_witness :
  ∃ why, (demo_exec (EvRead 1 None
    (match Encode (H:=toyWire) JSONConfig zeroMessage with inl e => inl e | inr d => inr d end)) demo_node).1 =
    Panic why.
Proof.
  apply (node_panics_exactly (H1:=demo_payload) (H2:=toyWire) (H3:=demo_handshake) JSONConfig (λ x, x)
    (λ _ _, None) (30 * 10 ^ 9) 2097152 None (λ _ _, None) demo_deps true 0 (10 ^ 9) demo_timer
    {[ "im" := mkPoolConfig "im" 1 100 1 100 true ]} demo_node _ demo_node_reachable).
  exists (mkRef 1 "u1:d1" "u1" "d1"), false.
  destruct (conns (n_world demo_node) !! 1%positive) as [k|] eqn:Ek; [|vm_compute in Ek; discriminate].
  exists k, zeroMessage. split_and!; [vm_compute; reflexivity|first [exact Ek|reflexivity]| |vm_compute; reflexivity..].
  vm_compute in Ek. injection Ek as <-. reflexivity.
Defined.

(** C2.  Addresses lead to the right sessions, on the whole node.  In every
    reachable state, whatever [Resolve] finds for an address is a session of
    the node that belongs to the user of that name, or is attached to a
    connection and subscribed to the room or topic of that name; and every open
    attached session is found under each of its rooms and topics.  (New
    sessions get an ID of their own.) *)
Theorem node_resolves_intended {TS : Type} `{Scheduler TS timeoutPayload unit} `{MapRange} `{PayloadLib}
    `{WireLib} `{HandshakeLib} (fc : FrameCodec) (sha : string → string)
    (tp_Write : bool → list Z → error) (hb mb : Z) (limiter : option (string → string → bool))
    (sender : string → Message → error) d acker timeout t0 (t : TS) ps (n : Node) (to : string) :
  rtc (node_moves fc sha tp_Write hb mb limiter sender) (start_node d acker timeout t0 t ps) n →
  let w := n_world n in
  (∀ ref, ref ∈ (Resolve to (router w)).1 →
     ∃ s, sessions w !! ref_ptr ref = Some s ∧ ref = ref_of (ref_ptr ref) s ∧
       (userID s = to ∨
        is_Some (s_conn s) ∧ (sub_rooms (subs s) !! to = Some tt ∨ sub_topics (subs s) !! to = Some tt))) ∧
  (∀ p s, sessions w !! p = Some s → s_once s = false → is_Some (s_conn s) →
     sub_rooms (subs s) !! to = Some tt ∨ sub_topics (subs s) !! to = Some tt →
     ref_of p s ∈ (Resolve to (router w)).1).
Proof.
  intros R w.
  destruct (reachable_sync fc sha tp_Write hb mb limiter sender _ _ R (start_ok d acker timeout t0 t ps))
    as [[Ht _] [Hu Sr St]]; [by split|].
  destruct (Resolve_spec to (router w)) as [Hres _]. split.
  - intros ref. rewrite Hres. intros [[did Hm]|[[k Hm]|[k Hm]]].
    + destruct (rt_users _ _ (ty_router _ Ht) _ _ _ Hm) as ((s & Es & Er) & Hu' & _).
      exists s. split_and!; [done..|]. left. by rewrite <-Hu', Er.
    + destruct (sync_sound _ _ _ Sr _ _ _ Hm) as (s & ? & ? & ? & ? & ?). naive_solver.
    + destruct (sync_sound _ _ _ St _ _ _ Hm) as (s & ? & ? & ? & ? & ?). naive_solver.
  - intros p s Es Ho Hc [Hs|Hs]; apply Hres; right.
    + left. exists (sessionID s). by apply (sync_complete _ _ _ Sr).
    + right. exists (sessionID s). by apply (sync_complete _ _ _ St).
Qed.

Lemma node_resolves_intended_witness :
  mkRef 1 "u1:d1" "u1" "d1" ∈ (Resolve "r1" (router (n_world demo_node))).1.
Proof.
  destruct (node_resolves_intended (H1:=demo_payload) (H2:=toyWire) (H3:=demo_handshake) JSONConfig (λ x, x)
    (λ _ _, None) (30 * 10 ^ 9) 2097152 None (λ _ _, None) demo_deps true 0 (10 ^ 9) demo_timer
    {[ "im" := mkPoolConfig "im" 1 100 1 100 true ]} demo_node "r1" demo_node_reachable) as [_ Hfound].
  destruct (sessions (n_world demo_node) !! 1%positive) as [s|] eqn:Es; [|vm_compute in Es; discriminate].
  assert (s_once s = false ∧ is_Some (s_conn s) ∧ sub_rooms (subs s) !! "r1" = Some tt ∧
    ref_of 1 s = mkRef 1 "u1:d1" "u1" "d1") as (Ho & Hc & Hs & Hr).
  { vm_compute in Es. injection Es as <-. split_and!; try reflexivity. by eexists. }
  rewrite <-Hr. apply (Hfound 1%positive s Es Ho Hc). left. exact Hs.
Defined.
