(* ===== verification/NodeDrain.v ===== *)
(** * What is queued in a node leaves its queue

    Workers take from the channels of the pools and put into the queues of
    connections, writers take from these; a worker whose context is done may
    leave and take nothing any more.  A turn that does one of these lowers, in
    lexicographic order, the number of workers, of jobs in the pools and of
    messages in the write queues. *)

From Stdlib Require Import Relation_Operators Wellfounded.
From stdpp Require Import base list list_numbers gmap strings numbers well_founded relations.
From S2P Require Import Prelude Timer Shard Message Codec Router World Connection Pool Session Demo.
From S2P Require Import Typing Pipeline Uplink Downlink Layer Worker Handler Factory Sync UplinkSpec FactorySpec Node NodeSync.

(** ** Sums over a map *)
Section map_sum.
Context {K A : Type} `{Countable K}.
Definition map_sum (f : A → nat) (m : gmap K A) : nat := sum_list_with f (map_to_list m).*2.

Lemma sum_list_perm (f : A → nat) l l' : l ≡ₚ l' → sum_list_with f l = sum_list_with f l'.
Proof. induction 1; cbn; lia. Qed.

Lemma map_sum_delete f m i x : m !! i = Some x → map_sum f m = f x + map_sum f (delete i m).
Proof.
  intros E. unfold map_sum. rewrite (sum_list_perm f _ (x :: (map_to_list (delete i m)).*2)); [done|].
  rewrite <-(insert_delete_id _ _ _ E) at 1. rewrite map_to_list_insert by apply lookup_delete_eq. done.
Qed.
Lemma map_sum_insert f m i x y : m !! i = Some x → map_sum f (<[i := y]> m) + f x = map_sum f m + f y.
Proof.
  intros E. rewrite (map_sum_delete f m i x E), (map_sum_delete f (<[i := y]> m) i y) by apply lookup_insert_eq.
  rewrite delete_insert_eq. lia.
Qed.
End map_sum.

Section drain.
Context {TS : Type} `{Scheduler TS timeoutPayload unit} `{MapRange} `{PayloadLib} `{WireLib} `{HandshakeLib}.
Implicit Types (w : World TS).

(** ** What is queued *)
Definition pool_jobs (p : WorkerPool) : nat := length (upstreamCh p) + length (downstreamCh p).
Definition jobs w : nat := map_sum pool_jobs (pools w).
Definition unwritten w : nat := map_sum length (writeCh <$> conns w).

(** ** Work on the sessions leaves the pools alone *)
Definition same_pools w w' : Prop := pools w' = pools w.
#[export] Instance same_pools_preorder : PreOrder same_pools.
Proof. split; [by intros w|]. intros w1 w2 w3. unfold same_pools. congruence. Qed.
Definition same_queues w w' : Prop := pools w' = pools w ∧ writeCh <$> conns w' = writeCh <$> conns w.
#[export] Instance same_queues_preorder : PreOrder same_queues.
Proof. split; [by intros w|]. intros w1 w2 w3 [] []. split; congruence. Qed.

#[local] Hint Extern 3 (preserves same_pools (modify _)) => by intros ? : gw.
#[local] Hint Extern 3 (preserves same_pools (new_msg _)) => by intros ? : gw.
Ltac pools_tac := unfold get_msg, get_conn, get_sess, on_msg, on_conn, on_sess, on_router; preserves_tac.

Lemma pools_Submit p m : preserves same_pools (Submit p m).
Proof. unfold Submit, conn_Submit, enqueue, handleUndelivered, OfflineStore_Store, Track. pools_tac. Qed.
Lemma pools_Store m : preserves same_pools (OfflineStore_Store m).
Proof. unfold OfflineStore_Store. pools_tac. Qed.
Lemma pools_IsActive p : preserves same_pools (sess_IsActive p).
Proof. unfold sess_IsActive. pools_tac. Qed.
Lemma pools_get_msg m : preserves same_pools (get_msg m).
Proof. pools_tac. Qed.
Lemma pools_new_msg m : preserves same_pools (new_msg m).
Proof. by intros w. Qed.
#[local] Hint Resolve pools_Submit pools_Store pools_IsActive pools_get_msg pools_new_msg : gw.

Abbreviation dpools := (preserves (on_world (V:=World TS) (X:=DownlinkCtx) same_pools)).
Lemma pools_inD {A} (m : M (World TS) A) : preserves same_pools m → dpools (inD m).
Proof. intros. by apply preserves_zoom. Qed.
Lemma pools_on_dctx f : dpools (on_dctx f).
Proof. apply preserves_context, _. Qed.
#[local] Hint Extern 2 (preserves _ (inD _)) => apply pools_inD; auto with gw : gw.
#[local] Hint Resolve pools_on_dctx : gw.
Lemma pools_dctx_msg : dpools dctx_msg.
Proof. unfold dctx_msg. preserves_tac. Qed.
#[local] Hint Resolve pools_dctx_msg : gw.
Lemma pools_filter_targets ex l : dpools (filter_targets ex l).
Proof. induction l; simpl; preserves_tac. Qed.
Lemma pools_fan_out store m l r : dpools (fan_out store m l r).
Proof. revert r. induction l; intros r; simpl; unfold fan_out_one; preserves_tac. Qed.
#[local] Hint Resolve pools_filter_targets pools_fan_out : gw.

Lemma pools_downlink store : dpools (compose (downlink_stages store)).
Proof.
  apply preserves_compose; [apply _|]. repeat apply List.Forall_cons; try apply List.Forall_nil;
    (split_and!; [..|intros ? ? [= <-]]; simpl; unfold dabort; preserves_tac).
Qed.
Lemma pools_downstream_run store om : preserves same_pools
  (λ w, let '(r, (w', _)) := downstream_job store om w in (r, w')).
Proof.
  intros w. unfold downstream_job, downlink_BuildChain, NewChain. rewrite Run_compose.
  pose proof (pools_downlink store (w, newDownlinkCtx (now w) om)) as Hf. unfold DW in *.
  by destruct (compose _ _) as [r [w' ctx]].
Qed.
Lemma pools_upstream_job sender job : preserves same_pools (upstream_job sender job).
Proof. unfold upstream_job. preserves_tac. Qed.

(** ** Turns of workers *)
Lemma jobs_pop biz p p' w : pools w !! biz = Some p → pool_jobs p' < pool_jobs p →
  map_sum pool_jobs (<[biz := p']> (pools w)) < jobs w.
Proof. intros E Hlt. pose proof (map_sum_insert pool_jobs _ _ _ p' E). unfold jobs. lia. Qed.

(** A worker that takes a job does not leave, and only its channel changes. *)
Definition takes biz p' w (o : outcome turn * World TS) : Prop :=
  pools o.2 = <[biz := p']> (pools w) ∧ o.1 ≠ Ret Exit.

Lemma takes_rest {A} biz p p' w (m : M (World TS) A) : pools w !! biz = Some p → preserves same_pools m →
  takes biz p' w ((m ≫= λ _, mret Continue) (upd_pools <[biz := p']> w)).
Proof.
  intros Ep Hm. specialize (Hm (upd_pools <[biz := p']> w)). rewrite bind_run.
  by destruct (m _) as [[]]; split.
Qed.

Lemma upstream_turn_takes sender pick biz p job q w :
  pools w !! biz = Some p → upstreamCh p = job :: q → pool_done p && pick = false →
  takes biz (upd_upstreamCh q p) w (upstreamWorker_turn sender pick biz w).
Proof.
  intros Ep Eq Hd. unfold upstreamWorker_turn. erewrite bind_ret_run by reflexivity. rewrite Ep.
  erewrite bind_ret_run by reflexivity. rewrite Hd, Eq, (bind_ret_run _ _ _ _ _ (on_pool_run biz _ w p Ep)).
  eapply takes_rest; [done|apply pools_upstream_job].
Qed.

Lemma downstream_turn_takes pick biz p m q w :
  pools w !! biz = Some p → downstreamCh p = m :: q → pool_done p && pick = false →
  takes biz (upd_downstreamCh q p) w (downstreamWorker_turn pick biz w).
Proof.
  intros Ep Eq Hd. unfold downstreamWorker_turn. erewrite bind_ret_run by reflexivity. rewrite Ep.
  erewrite bind_ret_run by reflexivity. cbv zeta. rewrite Hd, Eq, (bind_ret_run _ _ _ _ _ (on_pool_run biz _ w p Ep)).
  eapply takes_rest; [done|apply pools_downstream_run].
Qed.

Lemma takes_jobs biz p p' w o : pools w !! biz = Some p → pool_jobs p' < pool_jobs p → takes biz p' w o →
  jobs o.2 < jobs w.
Proof. intros Ep Hlt [Hp _]. unfold jobs. rewrite Hp. by apply (jobs_pop _ p). Qed.

(** ** Turns of writers *)
Section writer.
Context (fc : FrameCodec) (tp_Write : bool → list Z → error).

Lemma queues_on_conn c f : (∀ k, writeCh (f k) = writeCh k) → preserves same_queues (on_conn (TS:=TS) c f).
Proof.
  intros Hf w. split; [done|]. cbn. apply map_eq. intros c'. rewrite !lookup_fmap.
  destruct (decide (c' = c)) as [->|Hne]; [|by rewrite lookup_alter_ne].
  rewrite lookup_alter_eq. destruct (conns w !! c); cbn; [by rewrite Hf|done].
Qed.
Lemma queues_encodeAndWrite c m : preserves same_queues (encodeAndWrite (TS:=TS) fc tp_Write c m).
Proof.
  unfold encodeAndWrite, get_conn, get_msg. preserves_tac. by apply queues_on_conn.
Qed.
Lemma same_queues_unwritten w w' : same_queues w w' → pools w' = pools w ∧ unwritten w' = unwritten w.
Proof. intros [Hp Hq]. unfold unwritten. by rewrite Hq. Qed.

(** Taking from one queue. *)
Lemma unwritten_take c k q w : conns w !! c = Some k → length q < length (writeCh k) →
  unwritten (upd_conns <[c := upd_writeCh q k]> w) < unwritten w.
Proof.
  intros Ek Hlt. unfold unwritten. cbn. rewrite fmap_insert. cbn.
  pose proof (map_sum_insert length (writeCh <$> conns w) c (writeCh k) q) as Hs.
  rewrite lookup_fmap, Ek in Hs. specialize (Hs eq_refl). lia.
Qed.

Lemma write_turn_unwritten pick c k w : conns w !! c = Some k → writeCh k ≠ [] →
  pools (writeLoop_turn fc tp_Write pick c w).2 = pools w ∧
  unwritten (writeLoop_turn fc tp_Write pick c w).2 < unwritten w.
Proof.
  intros Ek Hq. unfold writeLoop_turn. rewrite (bind_ret_run _ _ _ _ _ (get_conn_run _ _ _ Ek)).
  destruct (writeCh k) as [|m q] eqn:Eq; [done|].
  assert (∀ (A : Type) (f : M (World TS) A) q', length q' < length (writeCh k) → preserves same_queues f →
    pools (f (upd_conns <[c := upd_writeCh q' k]> w)).2 = pools w ∧
    unwritten (f (upd_conns <[c := upd_writeCh q' k]> w)).2 < unwritten w) as Hrest.
  { intros A f q' Hlt Hf. destruct (same_queues_unwritten _ _ (Hf (upd_conns <[c := upd_writeCh q' k]> w))) as [-> ->].
    split; [done|]. by apply unwritten_take. }
  destruct (ctx_done k && pick).
  - unfold drain. rewrite bind_run, (bind_ret_run _ _ _ _ _ (get_conn_run _ _ _ Ek)),
      (bind_ret_run _ _ _ _ _ (on_conn_run _ _ _ _ Ek)), Eq.
    destruct (Hrest _ (for_each (λ m, encodeAndWrite fc tp_Write c m ≫= λ _, mret tt) (m :: q)) []) as [Hj Hu].
    { rewrite Eq. cbn. lia. }
    { apply preserves_for_each; [apply _|]. intros m'. apply preserves_bind; [apply _|apply queues_encodeAndWrite|].
      intros ?. apply preserves_ret, _. }
    by destruct (for_each _ _ _) as [[[]|] w'].
  - rewrite (bind_ret_run _ _ _ _ _ (on_conn_run _ _ _ _ Ek)).
    apply (Hrest _ _ q); [rewrite Eq; cbn; lia|]. apply preserves_bind; [apply _|apply queues_encodeAndWrite|].
    intros ?. apply preserves_ret, _.
Qed.
End writer.

(** ** Turns that find something to do *)

(** A worker of that direction is left, and it finds a job, or leaves: [select]
    may take the closed [Done] of its context even with jobs at hand. *)
Definition worker_works (up : bool) (biz : string) (pick : bool) (n : Node (TS:=TS)) : Prop :=
  has_worker up biz n = true ∧ ∃ p, pools (n_world n) !! biz = Some p ∧
    ((if up then upstreamCh p ≠ [] else downstreamCh p ≠ []) ∨ pool_done p && pick = true).
Definition works (e : node_event) (n : Node (TS:=TS)) : Prop :=
  match e with
  | EvUpstream biz pick => worker_works true biz pick n
  | EvDownstream biz pick => worker_works false biz pick n
  | EvWrite c _ => ∃ ref rd k, n_runs n !! c = Some (ref, mkRun rd false false) ∧
      conns (n_world n) !! c = Some k ∧ writeCh k ≠ []
  | _ => False
  end.

(** What is queued, in the order of its way through the node, and who is there
    to take it. *)
Definition crew_size (k : Crew) : nat := up_workers k + down_workers k.
Definition node_queued (n : Node (TS:=TS)) : nat * (nat * nat) :=
  (jobs (n_world n), (unwritten (n_world n), map_sum crew_size (n_workers n))).
Definition less_queued (n' n : Node (TS:=TS)) : Prop :=
  slexprod nat (nat * nat) lt (slexprod nat nat lt lt) (node_queued n') (node_queued n).

Lemma less_queued_wf : well_founded less_queued.
Proof.
  apply (wf_projected (slexprod nat (nat * nat) lt (slexprod nat nat lt lt)) node_queued); [done|].
  repeat apply wf_slexprod; apply lt_wf.
Qed.

Lemma one_left_less up biz (n : Node (TS:=TS)) : has_worker up biz n = true →
  map_sum crew_size (alter (one_left up) biz (n_workers n)) < map_sum crew_size (n_workers n).
Proof.
  unfold has_worker. destruct (n_workers n !! biz) as [k|] eqn:E; [|done]. intros Hk%Nat.ltb_lt.
  rewrite (alter_Some _ _ _ _ E). pose proof (map_sum_insert crew_size _ _ _ (one_left up k) E) as Hs.
  assert (crew_size (one_left up k) < crew_size k) by (destruct up, k; unfold crew_size; cbn in *; lia). lia.
Qed.

Section turns.
Context (fc : FrameCodec) (sha256_hex16 : string → string).
Context (tp_Write : bool → list Z → error) (HeartbeatTimeout MaxBodySize : Z).
Context (limiter : option (string → string → bool)) (sender : string → Message → error).
Abbreviation exec := (node_exec fc sha256_hex16 tp_Write HeartbeatTimeout MaxBodySize limiter sender).

(** The world after a turn of [inN]. *)
Lemma inN_world {A B} (m : M (World TS) A) (f : A → M Node B) n :
  (∀ a n, n_world (f a n).2 = n_world n) → n_world ((inN m ≫= f) n).2 = (m (n_world n)).2.
Proof.
  intros Hf. rewrite bind_run. unfold inN, zoom. destruct (m (n_world n)) as [[a|why] w']; cbn; [|done].
  by rewrite Hf.
Qed.

(** A worker leaves. *)
Lemma leaves_less up biz (n : Node (TS:=TS)) m : has_worker up biz n = true → m (n_world n) = (Ret Exit, n_world n) →
  less_queued ((inN m ≫= worker_after up biz) n).2 n.
Proof.
  intros Hh Em. unfold less_queued, node_queued. rewrite bind_run. unfold inN, zoom. rewrite Em. cbn.
  right. right. exact (one_left_less up biz n Hh).
Qed.

Lemma works_less e n : works e n → less_queued (exec e n).2 n.
Proof.
  destruct e as [| |c pick| | | |biz pick|biz pick| | | | | |]; try done; cbn [works].
  - intros (ref & rd & k & Er & Ek & Hq). unfold less_queued, node_queued. cbn [node_exec].
    erewrite bind_ret_run by reflexivity. rewrite Er, inN_world by done.
    destruct (write_turn_unwritten fc tp_Write pick c k (n_world n) Ek Hq) as [Hp Hlt].
    unfold jobs. rewrite Hp. right. by left.
  - intros (Hh & p & Ep & Hq). cbn [node_exec]. erewrite bind_ret_run by reflexivity. rewrite Ep, Hh.
    destruct (pool_done p && pick) eqn:Hd.
    { apply leaves_less; [done|]. unfold upstreamWorker_turn. erewrite bind_ret_run by reflexivity. rewrite Ep.
      erewrite bind_ret_run by reflexivity. by rewrite Hd. }
    destruct Hq as [Hq|]; [|done]. left. rewrite inN_world by (intros; apply worker_after_world).
    destruct (upstreamCh p) as [|job q] eqn:Eq; [done|].
    eapply takes_jobs; [done| |by eapply upstream_turn_takes]. unfold pool_jobs. rewrite Eq. cbn. lia.
  - intros (Hh & p & Ep & Hq). cbn [node_exec]. erewrite bind_ret_run by reflexivity. rewrite Ep, Hh.
    destruct (pool_done p && pick) eqn:Hd.
    { apply leaves_less; [done|]. unfold downstreamWorker_turn. erewrite bind_ret_run by reflexivity. rewrite Ep.
      erewrite bind_ret_run by reflexivity. by rewrite Hd. }
    destruct Hq as [Hq|]; [|done]. left. rewrite inN_world by (intros; apply worker_after_world).
    destruct (downstreamCh p) as [|job q] eqn:Eq; [done|].
    eapply takes_jobs; [done| |by eapply downstream_turn_takes]. unfold pool_jobs. rewrite Eq. cbn. lia.
Qed.

(** While no context is done the workers stay. *)
Definition undone w : Prop := ∀ biz p, pools w !! biz = Some p → pool_done p = false.
Lemma worker_keeps up biz p p' (n : Node (TS:=TS)) m : undone (n_world n) → pools (n_world n) !! biz = Some p →
  pool_done p' = pool_done p → takes biz p' (n_world n) (m (n_world n)) →
  n_workers ((inN m ≫= worker_after up biz) n).2 = n_workers n ∧ undone (n_world ((inN m ≫= worker_after up biz) n).2).
Proof.
  intros Hd Ep Ed [Hp Hx]. assert (undone (m (n_world n)).2) as Hu.
  { intros b q. rewrite Hp, lookup_insert_Some. intros [[<- <-]|[_ Eq]]; [|by eapply Hd].
    rewrite Ed. by eapply Hd. }
  rewrite bind_run. unfold inN, zoom. destruct (m (n_world n)) as [[t|why] w'] eqn:Em; [|by split].
  cbn in Hx, Hu |- *. unfold worker_after. rewrite bool_decide_false by congruence. by split.
Qed.

Lemma works_keeps e n : works e n → undone (n_world n) →
  n_workers (exec e n).2 = n_workers n ∧ undone (n_world (exec e n).2).
Proof.
  destruct e as [| |c pick| | | |biz pick|biz pick| | | | | |]; try done; cbn [works]; intros Hw Hd.
  - destruct Hw as (ref & rd & k & Er & Ek & Hq). cbn [node_exec].
    erewrite bind_ret_run by reflexivity. rewrite Er.
    destruct (write_turn_unwritten fc tp_Write pick c k (n_world n) Ek Hq) as [Hp _].
    rewrite bind_run. unfold inN, zoom. destruct (writeLoop_turn _ _ _ _ _) as [[t|why] w']; cbn in Hp |- *;
      (split; [done|]); intros b q; rewrite Hp; apply Hd.
  - destruct Hw as (Hh & p & Ep & Hq). cbn [node_exec]. erewrite bind_ret_run by reflexivity. rewrite Ep, Hh.
    pose proof (Hd _ _ Ep) as Hp. rewrite Hp in Hq. destruct Hq as [Hq|]; [|done].
    destruct (upstreamCh p) as [|job q] eqn:Eq; [done|].
    eapply worker_keeps; [done|done| |eapply upstream_turn_takes; [done|done|by rewrite Hp]]. done.
  - destruct Hw as (Hh & p & Ep & Hq). cbn [node_exec]. erewrite bind_ret_run by reflexivity. rewrite Ep, Hh.
    pose proof (Hd _ _ Ep) as Hp. rewrite Hp in Hq. destruct Hq as [Hq|]; [|done].
    destruct (downstreamCh p) as [|job q] eqn:Eq; [done|].
    eapply worker_keeps; [done|done| |eapply downstream_turn_takes; [done|done|by rewrite Hp]]. done.
Qed.

(** A turn that does something. *)
Definition node_works (n n' : Node) : Prop := ∃ e, works e n ∧ n' = (exec e n).2.
End turns.
End drain.

(** C10.  What is queued leaves its queue as long as somebody is there to take
    it.  Turns of workers and writers that find something to take, and turns in
    which a worker leaves because its context is done, cannot go on for ever,
    in whatever order they come and whatever they meet - failing senders, full
    queues, closed transports, panics: every sequence of them is finite.  It can
    only end when each channel of each pool is empty or no worker of that
    direction is left, when a pool whose context is done has no worker left,
    and when the queue of every connection whose writer still runs is empty.
    Workers leave only in a pool whose context is done; in a node whose contexts
    are not done, what has a worker is drained.  (A pool that is stopped may
    keep its jobs: [cancel_leaves_jobs]; [Bootstrap.v] starts no worker.) *)
Theorem node_drains {TS : Type} `{Scheduler TS timeoutPayload unit} `{MapRange} `{PayloadLib}
    `{WireLib} `{HandshakeLib} (fc : FrameCodec) (sha : string → string) (tp_Write : bool → list Z → error)
    (timeout body : Z) (limiter : option (string → string → bool)) (sender : string → Message → error) :
  let works_to := node_works fc sha tp_Write timeout body limiter sender in
  well_founded (flip works_to) ∧
  (∀ n, nf works_to n →
    (∀ biz p up, pools (n_world n) !! biz = Some p → has_worker up biz n = true →
       pool_done p = false ∧ if up then upstreamCh p = [] else downstreamCh p = []) ∧
    (∀ c ref rd k, n_runs n !! c = Some (ref, mkRun rd false false) → conns (n_world n) !! c = Some k → writeCh k = [])) ∧
  (∀ n n', rtc works_to n n' → undone (n_world n) → n_workers n' = n_workers n ∧ undone (n_world n')).
Proof.
  intros works_to. split_and!.
  - apply (wf_projected less_queued id); [|apply less_queued_wf]. intros n' n (e & Hw & ->). by apply works_less.
  - intros n Hn. assert (∀ e, ¬ works e n) as Hno.
    { intros e He. apply Hn. eexists. exists e. by split. }
    split.
    + intros biz p up Ep Hh. assert (∀ pick, ¬ worker_works up biz pick n) as Hnw.
      { intros pick Hw. destruct up; [by apply (Hno (EvUpstream biz pick))|by apply (Hno (EvDownstream biz pick))]. }
      split.
      * destruct (pool_done p) eqn:Hd; [|done]. destruct (Hnw true). split; [done|]. exists p. split; [done|].
        right. by rewrite Hd.
      * destruct up; [destruct (upstreamCh p) eqn:Eq|destruct (downstreamCh p) eqn:Eq]; try done;
          (destruct (Hnw false); split; [done|]; exists p; split; [done|]; left; by rewrite Eq).
    + intros c ref rd k Er Ek. destruct (writeCh k) eqn:Eq; [done|].
      destruct (Hno (EvWrite c false)). exists ref, rd, k. by rewrite Eq.
  - induction 1 as [|n1 n2 n3 (e & He & ->) _ IH]; intros Hd; [done|].
    destruct (works_keeps fc sha tp_Write timeout body limiter sender e n1 He Hd) as [Hk Hd2].
    destruct (IH Hd2) as [-> ?]. by split.
Qed.

(** A node with one job and a worker each way: the turn that sends it leaves
    nothing to take. *)
Definition demo_crew : gmap string Crew := {[ "im" := mkCrew 1 1 ]}.
Definition demo_busy : Node (TS:=demo_TS) := mkNode busy_world ∅ demo_crew.
Definition demo_quiet : Node (TS:=demo_TS) :=
  mkNode (upd_pools (λ _, {[ "im" := demo_pool ]}) demo_world) ∅ demo_crew.
Abbreviation demo_works := (node_works (H1:=demo_payload) (H2:=toyWire) (H3:=demo_handshake) JSONConfig
  (λ x, x) (λ _ _, None) 0 0 None (λ _ _, None)).

Lemma node_drains_witness :
  demo_works demo_busy demo_quiet ∧ n_workers demo_quiet = demo_crew ∧
  (∀ p, pools (n_world demo_quiet) !! "im" = Some p → upstreamCh p = [] ∧ downstreamCh p = []).
Proof.
  destruct (node_drains (H1:=demo_payload) (H2:=toyWire) (H3:=demo_handshake) JSONConfig (λ x, x) (λ _ _, None)
    0 0 None (λ _ _, None)) as (_ & Hnf & _). split_and!; [|reflexivity|].
  - exists (EvUpstream "im" false). split; [|reflexivity]. split; [reflexivity|]. exists busy_pool.
    split; [reflexivity|]. left. discriminate.
  - intros p Ep. destruct (Hnf demo_quiet) as [Hq _].
    + intros [n' (e & He & _)]. destruct e; try done; cbn [works demo_quiet n_world upd_pools pools] in He.
      * by destruct He as (? & ? & ? & [=] & _).
      * destruct He as (_ & q & Eq & Hq). cbn in Eq. apply lookup_singleton_Some in Eq as [_ <-]. by destruct Hq as [[]|].
      * destruct He as (_ & q & Eq & Hq). cbn in Eq. apply lookup_singleton_Some in Eq as [_ <-]. by destruct Hq as [[]|].
    + split; [by apply (Hq "im" p true Ep)|by apply (Hq "im" p false Ep)].
Defined.

(** Once the process's context is cancelled a worker may leave with the job
    still queued, and then nothing takes it any more. *)
Definition demo_abandoned : Node (TS:=demo_TS) :=
  (for_each (node_exec (H1:=demo_payload) (H2:=toyWire) (H3:=demo_handshake) JSONConfig (λ x, x)
    (λ _ _, None) 0 0 None (λ _ _, None)) [EvCancel; EvUpstream "im" true; EvDownstream "im" true] demo_busy).2.

Lemma abandoned_workers up biz : has_worker up biz demo_abandoned = false.
Proof.
  unfold has_worker.
  replace (n_workers demo_abandoned) with ({[ "im" := mkCrew 0 0 ]} : gmap string Crew) by (vm_compute; reflexivity).
  destruct (decide (biz = "im")) as [->|]; [by rewrite lookup_singleton_eq; destruct up|by rewrite lookup_singleton_ne].
Qed.

Lemma cancel_leaves_jobs : nf demo_works demo_abandoned ∧
  (length ∘ upstreamCh <$> pools (n_world demo_abandoned) !! "im") = Some 1.
Proof.
  split; [|vm_compute; reflexivity]. intros [n' (e & He & _)]. destruct e; try done; cbn [works] in He.
  - destruct He as (? & ? & ? & E & _). vm_compute in E. discriminate.
  - destruct He as [Hh _]. by rewrite abandoned_workers in Hh.
  - destruct He as [Hh _]. by rewrite abandoned_workers in Hh.
Qed.
