(* ===== verification/Journey.v ===== *)
(** * From one end of a node to the other

    The two journeys of a message, composed from the turns of the goroutines of
    [Node.v]: from a consumer to the wire of a connected user, and from the
    wire of a client to the upstream sender, whose verdict comes back. *)

From stdpp Require Import base list gmap strings numbers infinite.
From S2P Require Import Prelude Timer Shard Message Codec Router World Connection Pool Session Demo.
From S2P Require Import SessionSpec Pipeline Uplink UplinkSpec Downlink DownlinkSpec Worker Handler.
From S2P Require Import Factory FactorySpec Sync Node NodeSync NodeSpec.

Section turns.
Context {TS : Type} `{Scheduler TS timeoutPayload unit} `{MapRange} `{PayloadLib} `{WireLib}.
Implicit Types (w : World TS) (n : Node (TS:=TS)).

Lemma inN_run {A} (m : M (World TS) A) n a w' : m (n_world n) = (Ret a, w') →
  inN m n = (Ret a, mkNode w' (n_runs n) (n_workers n)).
Proof. intros E. unfold inN, zoom. by rewrite E. Qed.

Lemma consume_run b x pool w : pools w !! b = Some pool → pool_closed pool = false →
  length (downstreamCh pool) < pool_cap →
  let m := fresh (dom (msgs w)) in
  (m ← new_msg x; mgr_SubmitDownstream b m) w =
    (Ret true, upd_pools <[b := upd_downstreamCh (downstreamCh pool ++ [m]) pool]>
                 (upd_msgs <[m := x]> w)).
Proof.
  intros Ep Hc Hl m. erewrite bind_ret_run by reflexivity. unfold mgr_SubmitDownstream.
  erewrite bind_ret_run by reflexivity. cbn [pools upd_msgs]. rewrite Ep. unfold pool_SubmitDownstream.
  rewrite Hc, decide_True by done. by rewrite (bind_ret_run _ _ _ _ _ (on_pool_run b _ (upd_msgs _ w) pool Ep)).
Qed.

(** A message for one session that accepts it. *)
Lemma downstream_single store w m msg to d ref s c k :
  deliverable w m msg to d → Resolve (rt_Key to) (router w) = ([ref], true) →
  sessions w !! ref_ptr ref = Some s → s_state s = StateActive →
  get_header "x-exclude-conn" msg ≠ ref_sid ref →
  s_conn s = Some c → conns w !! c = Some k → accepts k = true →
  ∃ ctx, downstream_job store (Some m) w =
    (Ret tt, (after_delivery (ref_ptr ref) c m s k msg w, ctx)).
Proof.
  intros Hd Hres Es Hact Hex Ec Ek Ha. pose proof Hd as (E & _ & _ & _ & Ed). rewrite downstream_inner.
  rewrite (downlink_to_fanout store w m msg to d [ref] Hd Hres) by (repeat constructor; by eexists).
  assert (keep w (get_header "x-exclude-conn" msg) ref = true) as Hk.
  { unfold keep. rewrite Es, (bool_decide_true _ Hact). simpl.
    rewrite (bool_decide_false (ref_sid ref = _)) by congruence. by rewrite andb_false_r. }
  cbn [List.filter]. rewrite Hk. set (ctx := d_set_targets [ref] _).
  pose proof (Submit_delivered (ref_ptr ref) c m w s k msg Es Ec Ek Ha E) as Hs.
  erewrite wrap_pass; [| |done..].
  2:{ cbn [before FanOutStage]. rewrite (bind_ret_run _ _ _ _ _ (dctx_msg_run w ctx m eq_refl)).
      erewrite bind_ret_run by reflexivity. cbn [snd ctx d_set_targets FanOut dtraced d_set_TraceID
        newDownlinkCtx fo_Offline TargetSessions Z.ltb Z.compare fan_out].
      rewrite bind_run, bind_run. unfold fan_out_one. rewrite (inD_Ret _ _ _ _ _ _ Hs). reflexivity. }
  eexists. reflexivity.
Qed.

Lemma downstream_turn_run b m pool w r w' ctx :
  pools w !! b = Some pool → pool_done pool = false → downstreamCh pool = [m] →
  downstream_job (pool_store pool) (Some m) (upd_pools <[b := upd_downstreamCh [] pool]> w) =
    (Ret r, (w', ctx)) →
  downstreamWorker_turn false b w = (Ret Continue, w').
Proof.
  intros Ep Hd Hq Hj. unfold downstreamWorker_turn. erewrite bind_ret_run by reflexivity. rewrite Ep.
  erewrite bind_ret_run by reflexivity. rewrite andb_false_r, Hq.
  rewrite (bind_ret_run _ _ _ _ _ (on_pool_run b _ w pool Ep)). rewrite bind_run, Hj. done.
Qed.

Context (fc : FrameCodec) (tp_Write : bool → list Z → error).

Lemma write_turn_run c k m q msg data w :
  conns w !! c = Some k → writeCh k = m :: q → ctx_done k = false → msgs w !! m = Some msg →
  Encode fc msg = inr data → tp_Write false data = None →
  writeLoop_turn fc tp_Write false c w =
    (Ret Continue, upd_conns <[c := upd_c_out (c_out k ++ [data]) (upd_writeCh q k)]> w).
Proof.
  intros Ek Hq Hd Em He Htp. unfold writeLoop_turn, encodeAndWrite. mrun. rewrite Ek, Hq, Hd. cbn.
  rewrite lookup_alter_eq, Ek. cbn. rewrite Em, He, Hd, Htp. cbn. f_equal. unfold upd_conns. cbn. f_equal.
  by rewrite (alter_Some _ _ c k Ek), (alter_Some _ _ c _ (lookup_insert_eq _ _ _)), insert_insert_eq.
Qed.
End turns.

(** ** Turns as events of the node *)
Section events.
Context {TS : Type} `{Scheduler TS timeoutPayload unit} `{MapRange} `{PayloadLib} `{WireLib} `{HandshakeLib}.
Context (fc : FrameCodec) (sha : string → string) (tp_Write : bool → list Z → error) (hb mb : Z).
Context (limiter : option (string → string → bool)) (sender : string → Message → error).
Abbreviation exec := (node_exec fc sha tp_Write hb mb limiter sender).
Implicit Types (n : Node (TS:=TS)) (w : World TS).

Lemma exec_read n c ref wd d i t w' : n_runs n !! c = Some (ref, mkRun false wd false) →
  readLoop_turn fc (onMessage limiter Build (ref_ptr ref)) d i c (n_world n) = (Ret t, w') → t ≠ Exit →
  ∃ rs, exec (EvRead c d i) n = (Ret tt, mkNode w' rs (n_workers n)) ∧ rs !! c = Some (ref, mkRun false wd false).
Proof.
  intros Er Et Hx. cbn [node_exec]. erewrite bind_ret_run by reflexivity. rewrite Er.
  rewrite (bind_ret_run _ _ _ _ _ (inN_run _ _ _ _ Et)), bool_decide_false by done.
  eexists. split; [reflexivity|apply lookup_insert_eq].
Qed.

Lemma exec_write n c ref rd pick t w' : n_runs n !! c = Some (ref, mkRun rd false false) →
  writeLoop_turn fc tp_Write pick c (n_world n) = (Ret t, w') →
  ∃ rs, exec (EvWrite c pick) n = (Ret tt, mkNode w' rs (n_workers n)).
Proof.
  intros Er Et. cbn [node_exec]. erewrite bind_ret_run by reflexivity. rewrite Er.
  rewrite (bind_ret_run _ _ _ _ _ (inN_run _ _ _ _ Et)). by eexists.
Qed.

Lemma exec_consume n b x a w' : (m ← new_msg x; mgr_SubmitDownstream b m) (n_world n) = (Ret a, w') →
  exec (EvConsume b x) n = (Ret tt, mkNode w' (n_runs n) (n_workers n)).
Proof. intros E. cbn [node_exec]. by rewrite (bind_ret_run _ _ _ _ _ (inN_run _ _ _ _ E)). Qed.

Lemma exec_upstream n b pool pick t w' : pools (n_world n) !! b = Some pool → has_worker true b n = true →
  upstreamWorker_turn (sender b) pick b (n_world n) = (Ret t, w') → t ≠ Exit →
  exec (EvUpstream b pick) n = (Ret tt, mkNode w' (n_runs n) (n_workers n)).
Proof.
  intros Ep Hw E Hx. cbn [node_exec]. erewrite bind_ret_run by reflexivity. rewrite Ep, Hw.
  rewrite (bind_ret_run _ _ _ _ _ (inN_run _ _ _ _ E)). unfold worker_after. by rewrite bool_decide_false.
Qed.

Lemma exec_downstream n b pool pick t w' : pools (n_world n) !! b = Some pool → has_worker false b n = true →
  downstreamWorker_turn pick b (n_world n) = (Ret t, w') → t ≠ Exit →
  exec (EvDownstream b pick) n = (Ret tt, mkNode w' (n_runs n) (n_workers n)).
Proof.
  intros Ep Hw E Hx. cbn [node_exec]. erewrite bind_ret_run by reflexivity. rewrite Ep, Hw.
  rewrite (bind_ret_run _ _ _ _ _ (inN_run _ _ _ _ E)). unfold worker_after. by rewrite bool_decide_false.
Qed.

Lemma three_turns e1 e2 e3 n n1 n2 n3 : exec e1 n = (Ret tt, n1) → exec e2 n1 = (Ret tt, n2) →
  exec e3 n2 = (Ret tt, n3) → for_each exec [e1; e2; e3] n = (Ret tt, n3).
Proof.
  intros E1 E2 E3. cbn [for_each]. rewrite (bind_ret_run _ _ _ _ _ E1), (bind_ret_run _ _ _ _ _ E2).
  by rewrite (bind_ret_run _ _ _ _ _ E3).
Qed.
End events.

(** What [after_delivery] leaves, as far as the journey goes on. *)
Section delivered.
Context {TS : Type} `{Scheduler TS timeoutPayload unit} `{MapRange}.
Implicit Types (w : World TS).

Lemma submitted_accepted m k : accepts k = true →
  submitted m k = upd_writeCh (writeCh k ++ [m]) (upd_nextSendSeq (u64 (nextSendSeq k + 1)) k).
Proof.
  intros Ha. unfold submitted. rewrite (accepts_active k Ha). unfold accepts in Ha.
  apply andb_true_iff in Ha as [_ Ha]. apply bool_decide_eq_true in Ha. by rewrite decide_True.
Qed.

Lemma after_delivery_conn p c m s k msg w : accepts k = true → msgs w !! m = Some msg →
  let w' := after_delivery p c m s k msg w in
  conns w' !! c = Some (submitted m k) ∧
  msgs w' !! m = Some (set_SeqId (u64 (nextSendSeq k + 1)) msg) ∧
  sessions w' !! p = Some (delivered s m msg (now w) (u64 (nextSendSeq k + 1))) ∧ pools w' = pools w.
Proof.
  intros Ha Em. pose proof (accepts_active k Ha) as Hact. unfold after_delivery.
  destruct (d_Acker (deps s) && at_least_once msg); simpl; split_and!; try done;
    rewrite ?lookup_insert_eq, ?lookup_alter_eq, ?Em; simpl; unfold stamped; by rewrite ?Hact.
Qed.
End delivered.

(** ** The way up *)
Section up.
Context {TS : Type} `{Scheduler TS timeoutPayload unit} `{MapRange} `{PayloadLib} `{WireLib}.
Context (fc : FrameCodec) (limiter : option (string → string → bool)).
Implicit Types (w : World TS).

(** The connection after a turn of its reader. *)
Definition heard (t : Z) (x : Message) (k : Connection) : Connection :=
  let k := upd_lastPingAt (UnixMilli t) k in
  if (0 <? m_SeqId x)%Z then upd_lastRecvSeq (m_SeqId x) k else k.

(** The message as the sender of the business domain gets it. *)
Definition forwarded (t : Z) (k : Connection) (x : Message) : Message :=
  inject k (u_set_TraceID (trace_of t x) (newUplinkCtx t 1 1 None)) (traced t x).

Lemma heard_same t x k :
  writeCh (heard t x k) = writeCh k ∧ c_out (heard t x k) = c_out k ∧ ctx_done (heard t x k) = ctx_done k ∧
  nextSendSeq (heard t x k) = nextSendSeq k ∧ conn_IsActive (heard t x k) = conn_IsActive k.
Proof. unfold heard. by case_match. Qed.

(** What the way up leaves of the client's message. *)
Lemma forwarded_same t k x :
  m_Body (forwarded t k x) = m_Body x ∧ m_MsgId (forwarded t k x) = m_MsgId x ∧
  m_ExpireAt (forwarded t k x) = m_ExpireAt x ∧ get_header "x-conn-id" (forwarded t k x) = ConnID k.
Proof.
  destruct (traced_same t x) as [Htid _]. unfold forwarded, inject, traced.
  repeat case_match; split_and!; try done; unfold get_header; simpl;
    by rewrite !lookup_insert_ne, lookup_insert_eq by done.
Qed.

(** The node when the message has been decoded. *)
Definition arrived w c k (x : Message) : World TS :=
  upd_msgs <[fresh (dom (msgs w)) := x]> (upd_conns <[c := heard (now w) x k]> w).
(** The node after the reader queued the message. *)
Definition queued w p c (s : Session) k (x : Message) : World TS :=
  let m := fresh (dom (msgs w)) in
  enqueued p m s x
    (upd_msgs <[m := forwarded (now w) k x]> (upd_conns <[c := heard (now w) x k]> w)).

Section reader.
Context (w : World TS) (p c : positive) (s : Session) (k : Connection) (x : Message).
Let m := fresh (dom (msgs w)).
Let result := uplink_result (arrived w c k x) p c m x (heard (now w) x k) s.

Lemma read_turn_business raw :
  conns w !! c = Some k → ctx_done k = false → conn_IsActive k = true →
  Decode fc raw = inr x → m_Type x = FrameType_BUSINESS → m_MsgId x ≠ "" →
  IsExpired (now w) (m_ExpireAt x) = false → sessions w !! p = Some s →
  allowed limiter s x = true → traceable x = true →
  readLoop_turn fc (onMessage limiter Build p) None (inr raw) c w = (Ret Continue, result.1).
Proof.
  intros Ek Hctx Hact Hdec Hty Hid Hx Es Hal Htr. unfold readLoop_turn.
  rewrite (bind_ret_run _ _ _ _ _ (get_conn_run c w k Ek)), Hctx.
  erewrite bind_ret_run by reflexivity. erewrite bind_ret_run by reflexivity. rewrite Hdec.
  erewrite bind_ret_run by reflexivity. cbn [msgs upd_conns]. fold m.
  set (w3 := arrived w c k x). erewrite bind_ret_run.
  2:{ instantiate (1 := w3). instantiate (1 := tt). subst w3. unfold arrived, heard. fold m.
      destruct (0 <? m_SeqId x)%Z; cbn [when]; unfold on_conn, modify, mret, M_ret, upd_msgs, upd_conns;
        cbn; do 3 f_equal; rewrite (alter_Some _ _ c k Ek); [|done].
      by rewrite (alter_Some _ _ c _ (lookup_insert_eq _ _ _)), insert_insert_eq. }
  rewrite Hx. erewrite bind_ret_run; [reflexivity|].
  assert (msgs w3 !! m = Some x) as Em by apply lookup_insert_eq.
  unfold onMessage, Dispatch. erewrite bind_ret_run; [reflexivity|].
  rewrite (bind_ret_run _ _ _ _ _ (get_msg_run m w3 x Em)). rewrite Hty.
  change (handlers Build !! FrameType_BUSINESS) with (Some UpstreamHandler). cbn [Handle].
  unfold handle_upstream.
  assert (valid_uplink w3 m c x (heard (now w) x k)) as Hv.
  { split_and!; try done; [apply lookup_insert_eq|]. unfold heard. by case_match. }
  rewrite (uplink_run limiter w3 p c m x (heard (now w) x k) s Hv Es Hal Htr). unfold result.
  by destruct (uplink_result _ _ _ _ _ _ _).
Qed.

(** A session with its worker set: the message is queued. *)
Lemma result_queued pool : d_Worker (deps s) = true → biz_of s x ≠ "" →
  pools w !! biz_of s x = Some pool → pool_closed pool = false → length (upstreamCh pool) < pool_cap →
  result.1 = queued w p c s k x.
Proof.
  intros Hw Hbiz Ep Hcl Hl. unfold result, uplink_result, submit_panics, upstream_answer.
  change (pools (arrived w c k x)) with (pools w). rewrite Ep, Hw, Hcl, andb_false_r.
  rewrite decide_False by done. rewrite decide_True by done. cbv zeta. cbn [fst]. unfold queued. fold m. f_equal.
  unfold arrived. fold m. unfold upd_msgs, upd_conns. cbn. f_equal. rewrite insert_insert_eq. f_equal.
  unfold forwarded, inject, heard. by destruct (0 <? m_SeqId x)%Z.
Qed.

(** A session without it: the answer is queued at the client's connection. *)
Lemma result_failed : d_Worker (deps s) = false → biz_of s x ≠ "" →
  let k1 := heard (now w) x k in
  pools result.1 = pools w ∧ ∃ e, conns result.1 !! c = Some (submitted e k1) ∧
    msgs result.1 !! e = Some (stamped k1 (error_frame (trace_of (now w) x) (Some (m_MsgId x)) 5000 "internal error")).
Proof.
  intros Hw Hbiz k1. unfold result, uplink_result, submit_panics. rewrite Hw, bool_decide_true by done.
  cbn [negb andb orb fst]. unfold replied, after_submit. cbv zeta.
  match goal with |- context [fresh ?a] => generalize (fresh a) end. intros e.
  split; [reflexivity|]. exists e. cbn [conns msgs upd_msgs upd_conns]. rewrite lookup_insert_eq.
  split; [reflexivity|]. by rewrite lookup_alter_eq, lookup_insert_eq.
Qed.
End reader.
End up.

(** ** Claims *)

(** C3.  A message for a connected user arrives.  On a node with a pool for the
    business domain that is neither stopped nor cancelled, has an empty
    downstream channel and a downstream worker: a consumer hands over a message
    that has not expired and carries trace context and delivery options, for an
    address behind which there is exactly one session, active, not excluded and
    attached to an active connection with an empty queue, a writer and a
    context that is not done.  Then, when the message can be encoded and the
    transport takes it, one turn of the worker and one turn of the writer put
    its encoding, stamped with the next sequence number of that connection, on
    the wire behind everything sent before, and a message that asks for
    acknowledgement waits for it under its ID if the session has a scanner. *)
Theorem downlink_journey {TS : Type} `{Scheduler TS timeoutPayload unit} `{MapRange} `{PayloadLib}
    `{WireLib} `{HandshakeLib} (fc : FrameCodec) (sha : string → string)
    (tp_Write : bool → list Z → error) (hb mb : Z) (limiter : option (string → string → bool))
    (sender : string → Message → error) (n : Node (TS:=TS)) biz pool x to d ref s c k r0 rd data :
  let w := n_world n in
  let exec := node_exec fc sha tp_Write hb mb limiter sender in
  pools w !! biz = Some pool → pool_closed pool = false → pool_done pool = false → downstreamCh pool = [] →
  m_To x = Some to → IsExpired (now w) (m_ExpireAt x) = false → is_Some (m_TraceContext x) →
  m_Delivery x = Some d → Resolve (rt_Key to) (router w) = ([ref], true) →
  sessions w !! ref_ptr ref = Some s → s_state s = StateActive →
  get_header "x-exclude-conn" x ≠ ref_sid ref →
  s_conn s = Some c → conns w !! c = Some k → conn_IsActive k = true → ctx_done k = false → writeCh k = [] →
  n_runs n !! c = Some (r0, mkRun rd false false) → has_worker false biz n = true →
  Encode fc (set_SeqId (u64 (nextSendSeq k + 1)) x) = inr data → tp_Write false data = None →
  ∃ n', for_each exec [EvConsume biz x; EvDownstream biz false; EvWrite c false] n = (Ret tt, n') ∧
    (∃ k', conns (n_world n') !! c = Some k' ∧ c_out k' = c_out k ++ [data] ∧ writeCh k' = []) ∧
    (d_Acker (deps s) = true → at_least_once x = true →
     ∃ s' e, sessions (n_world n') !! ref_ptr ref = Some s' ∧ pendingAcks s' !! m_MsgId x = Some e ∧
       retryCount e = 0%Z).
Proof.
  intros w exec Ep Hc Hd Hq Hto Hx Htc Hdel Hres Es Hact Hex Ec Ek Hka Hctx Hwq Hrun Hwk He Htp.
  assert (accepts k = true) as Ha.
  { unfold accepts. rewrite Hka, Hwq. apply bool_decide_eq_true. simpl. unfold WriteChannelSize. lia. }
  pose proof (consume_run biz x pool w Ep Hc) as E1. rewrite Hq in E1. specialize (E1 ltac:(simpl; unfold pool_cap; lia)).
  cbv zeta in E1. revert E1. generalize (fresh (dom (msgs w))). intros m E1. simpl app in E1.
  set (pool1 := upd_downstreamCh [m] pool) in E1.
  set (w1 := upd_pools <[biz := pool1]> (upd_msgs <[m := x]> w)) in E1.
  set (w2 := upd_pools <[biz := upd_downstreamCh [] pool1]> w1).
  assert (deliverable w2 m x to d) as Hdv by (split_and!; [apply lookup_insert_eq|done..]).
  destruct (downstream_single (pool_store pool1) w2 m x to d ref s c k Hdv Hres Es Hact Hex Ec Ek Ha) as [ctx Ej].
  pose proof (downstream_turn_run biz m pool1 w1 _ _ _ (lookup_insert_eq _ _ _) Hd eq_refl Ej) as E2.
  destruct (after_delivery_conn (ref_ptr ref) c m s k x w2 Ha (lookup_insert_eq _ _ _)) as (Hk3 & Hm3 & Hs3 & _).
  set (w3 := after_delivery (ref_ptr ref) c m s k x w2) in *.
  rewrite (submitted_accepted m k Ha), Hwq in Hk3.
  pose proof (write_turn_run fc tp_Write c _ m [] _ data w3 Hk3 eq_refl Hctx Hm3 He Htp) as E3.
  pose proof (exec_consume fc sha tp_Write hb mb limiter sender n _ _ _ _ E1) as X1.
  pose proof (exec_downstream fc sha tp_Write hb mb limiter sender (mkNode w1 (n_runs n) (n_workers n))
    biz pool1 false _ _ (lookup_insert_eq _ _ _) Hwk E2 ltac:(done)) as X2.
  destruct (exec_write fc sha tp_Write hb mb limiter sender (mkNode w3 (n_runs n) (n_workers n))
    c _ _ false _ _ Hrun E3) as [rs X3].
  eexists. split; [exact (three_turns _ _ _ _ _ _ _ _ _ _ _ _ _ _ X1 X2 X3)|split].
  - eexists. cbn [n_world conns upd_conns]. rewrite lookup_insert_eq. done.
  - intros Hack Hq1. cbn [n_world sessions upd_conns]. eexists _, _. split; [exact Hs3|].
    unfold delivered. rewrite Hack, Hq1. cbn [andb]. simpl. rewrite lookup_insert_eq. done.
Qed.

(** The demo node with the two loops of its connection running, and a worker each
    way. *)
Definition running : Node (TS:=demo_TS) :=
  mkNode demo_world {[ 1%positive := (demo_ref, mkRun false false false) ]} {[ "im" := mkCrew 1 1 ]}.

Lemma downlink_journey_witness :
  ∃ data n', Encode (H:=toyWire) JSONConfig (set_SeqId 1 demo_msg) = inr data ∧
    for_each demo_exec [EvConsume "im" demo_msg; EvDownstream "im" false; EvWrite 1 false] running = (Ret tt, n') ∧
    ∃ k', conns (n_world n') !! 1%positive = Some k' ∧ c_out k' = [data].
Proof.
  destruct (Encode (H:=toyWire) JSONConfig (set_SeqId 1 demo_msg)) as [e|data] eqn:E; [discriminate|].
  destruct (downlink_journey (H1:=demo_payload) (H2:=toyWire) (H3:=demo_handshake) JSONConfig (λ x, x)
    (λ _ _, None) (30 * 10 ^ 9) 2097152 None (λ _ _, None) running "im" demo_pool demo_msg
    (mkRouteTarget (RouteTargetType_other 1) "u1") (mkDelivery QosClass_AT_LEAST_ONCE true None) demo_ref
    demo_session 1 demo_conn demo_ref false data) as (n' & En & (k' & Ek & Ho & _) & _);
    try reflexivity; try assumption; [by eexists|discriminate|].
  exists data, n'. split; [reflexivity|]. split; [exact En|]. exists k'. split; [exact Ek|exact Ho].
Defined.

Section worker.
Context {TS : Type} `{Scheduler TS timeoutPayload unit} `{MapRange} `{PayloadLib} `{WireLib}.
Context (sender : Message → error).
Implicit Types (w : World TS).

(** The error frame of a failed upstream send. *)
Definition send_failed (id err : string) : Message :=
  error_frame id (Some id) ERR_UPSTREAM_SEND_FAILED ("upstream send failed: " +:+ err).

(** What a connection is left with when it is given a frame, or none. *)
Definition given (o : option Message) k c w : Prop :=
  match o with
  | None => conns w !! c = Some k
  | Some f => ∃ e, conns w !! c = Some (submitted e k) ∧ msgs w !! e = Some (set_SeqId (u64 (nextSendSeq k + 1)) f)
  end.

(** One upstream job whose sender is connected: what its connection and the
    messages are afterwards. *)
Lemma upstream_turn_run biz pool m p c s k y w :
  pools w !! biz = Some pool → pool_done pool = false → upstreamCh pool = [mkUpJob (ref_of p s) m] →
  msgs w !! m = Some y → IsExpired (now w) (m_ExpireAt y) = false →
  sessions w !! p = Some s → s_conn s = Some c → conns w !! c = Some k → accepts k = true →
  ∃ w', upstreamWorker_turn sender false biz w = (Ret Continue, w') ∧
    pools w' = <[biz := upd_upstreamCh [] pool]> (pools w) ∧ given (send_failed (m_MsgId y) <$> sender y) k c w'.
Proof.
  intros Ep Hd Hq Em Hx Es Ec Ek Ha. unfold upstreamWorker_turn.
  erewrite bind_ret_run by reflexivity. rewrite Ep. erewrite bind_ret_run by reflexivity.
  rewrite andb_false_r, Hq. rewrite (bind_ret_run _ _ _ _ _ (on_pool_run biz _ w pool Ep)).
  set (w1 := upd_pools <[biz := upd_upstreamCh [] pool]> w).
  unfold upstream_job. cbn [uj_Msg uj_Sess ref_of ref_ptr].
  rewrite bind_run, (bind_ret_run _ _ _ _ _ (get_msg_run m w1 y Em)).
  erewrite bind_ret_run by reflexivity. change (now w1) with (now w). rewrite Hx.
  destruct (sender y) as [err|]; [|eexists; split; [reflexivity|done]].
  erewrite bind_ret_run by reflexivity. fold (send_failed (m_MsgId y) err).
  set (e := fresh (dom (msgs w1))). set (w2 := upd_msgs <[e := _]> w1).
  assert (msgs w2 !! e = Some (send_failed (m_MsgId y) err)) as Ee by apply lookup_insert_eq.
  rewrite (bind_ret_run _ _ _ _ _ (Submit_delivered p c e w2 s k _ Es Ec Ek Ha Ee)).
  destruct (after_delivery_conn p c e s k _ w2 Ha Ee) as (Hk & Hm & _ & Hp).
  eexists. split; [reflexivity|]. split; [by rewrite Hp|]. by exists e.
Qed.

(** With nothing queued it waits. *)
Lemma upstream_turn_idle biz pool w : pools w !! biz = Some pool → pool_closed pool = false →
  pool_done pool = false → upstreamCh pool = [] → upstreamWorker_turn sender false biz w = (Ret Block, w).
Proof.
  intros Ep Hcl Hd Hq. unfold upstreamWorker_turn. erewrite bind_ret_run by reflexivity. rewrite Ep.
  erewrite bind_ret_run by reflexivity. by rewrite Hd, Hq, Hcl.
Qed.

(** The writer's turn after it. *)
Lemma answer_written (fc : FrameCodec) (tp_Write : bool → list Z → error) c k o (reply : list Z) w :
  accepts k = true → writeCh k = [] → ctx_done k = false →
  (∀ f, o = Some f → Encode fc (set_SeqId (u64 (nextSendSeq k + 1)) f) = inr reply ∧ tp_Write false reply = None) →
  given o k c w →
  ∃ w' t k', writeLoop_turn fc tp_Write false c w = (Ret t, w') ∧ pools w' = pools w ∧
    conns w' !! c = Some k' ∧ writeCh k' = [] ∧
    c_out k' = c_out k ++ match o with None => [] | Some _ => [reply] end.
Proof.
  intros Ha Hq Hc Hrep Hres. destruct o as [f|].
  - destruct Hres as (e & Ek & Em). rewrite (submitted_accepted e k Ha), Hq in Ek.
    destruct (Hrep f eq_refl) as [He Htp].
    rewrite (write_turn_run fc tp_Write c _ e [] _ _ w Ek eq_refl Hc Em He Htp).
    eexists _, _, _. split; [reflexivity|]. split; [done|].
    cbn [conns upd_conns]. rewrite lookup_insert_eq. split; [reflexivity|]. by split.
  - exists w, Block, k. unfold writeLoop_turn. rewrite (bind_ret_run _ _ _ _ _ (get_conn_run c w k Hres)).
    rewrite Hq, Hc, app_nil_r. done.
Qed.
End worker.

(** The two turns between the wire and the writer. *)
Section forward.
Context {TS : Type} `{Scheduler TS timeoutPayload unit} `{MapRange} `{PayloadLib} `{WireLib}.
Context (limiter : option (string → string → bool)) (sender : string → Message → error).
Context (w : World TS) (p c : positive) (s : Session) (k : Connection) (x : Message) (pool : WorkerPool).
Let biz := biz_of s x.
Let sent := forwarded (now w) k x.
Let result := (uplink_result (arrived w c k x) p c (fresh (dom (msgs w))) x (heard (now w) x k) s).1.

(** The frame the client gets back, if any. *)
Definition fate : option Message :=
  if d_Worker (deps s) then send_failed (m_MsgId x) <$> sender biz sent
  else Some (error_frame (trace_of (now w) x) (Some (m_MsgId x)) 5000 "internal error").

Context (Ek : conns w !! c = Some k) (Hact : conn_IsActive k = true) (Hwq : writeCh k = []).
Context (Es : sessions w !! p = Some s) (Ec : s_conn s = Some c).
Context (Hx : IsExpired (now w) (m_ExpireAt x) = false).
Context (Hbiz : biz ≠ "") (Ep : pools w !! biz = Some pool) (Hq : upstreamCh pool = []).
Context (Hcl : pool_closed pool = false) (Hdone : pool_done pool = false).

Lemma heard_accepts : accepts (heard (now w) x k) = true.
Proof using Hact Hwq.
  destruct (heard_same (now w) x k) as (Hq1 & _ & _ & _ & Ha1). unfold accepts.
  rewrite Ha1, Hact, Hq1, Hwq. apply bool_decide_eq_true. simpl. unfold WriteChannelSize. lia.
Qed.

Lemma forward_turn : ∃ w2 t, upstreamWorker_turn (sender biz) false biz result = (Ret t, w2) ∧ t ≠ Exit ∧
  (upstreamCh <$> pools w2 !! biz) = Some [] ∧ is_Some (pools result !! biz) ∧
  given fate (heard (now w) x k) c w2.
Proof using Ec Ek Ep Es Hact Hbiz Hcl Hdone Hq Hwq Hx.
  pose proof heard_accepts as Hacc. unfold fate. destruct (d_Worker (deps s)) eqn:Hw.
  - assert (result = queued w p c s k x) as -> by (apply (result_queued w p c s k x pool); try done;
      rewrite Hq; simpl; unfold pool_cap; lia).
    set (m := fresh (dom (msgs w))). set (pool1 := upd_upstreamCh [mkUpJob (ref_of p s) m] pool).
    assert (pools (queued w p c s k x) !! biz = Some pool1) as Ep1.
    { unfold queued, enqueued. cbn [pools upd_pools upd_msgs upd_conns]. fold biz.
      rewrite lookup_alter_eq, Ep. simpl. by rewrite Hq. }
    destruct (forwarded_same (now w) k x) as (_ & Hi & Hexp & _). fold sent in Hi, Hexp.
    destruct (upstream_turn_run (sender biz) biz pool1 m p c s (heard (now w) x k) sent (queued w p c s k x)
      Ep1 Hdone eq_refl (lookup_insert_eq _ _ _) ltac:(by rewrite Hexp) Es Ec (lookup_insert_eq _ _ _) Hacc)
      as (w2 & E2 & Hp2 & Hres).
    exists w2, Continue. rewrite Hp2, lookup_insert_eq, Ep1, <-Hi. split_and!; done.
  - destruct (result_failed w p c s k x Hw Hbiz) as (Hp & e & Hk & Hm). fold result in Hp, Hk, Hm.
    exists result, Block. rewrite (upstream_turn_idle (sender biz) biz pool result) by (try done; by rewrite Hp).
    rewrite Hp, Ep. cbn. rewrite Hq. split_and!; try done. exists e. split; [done|].
    rewrite Hm. unfold stamped. by rewrite (accepts_active _ Hacc).
Qed.
End forward.


(** A frame of the demo client, and the error frames it may get back. *)
Definition demo_raw : list Z :=
  match Encode (H:=toyWire) JSONConfig demo_msg with inl _ => [] | inr d => d end.
Definition demo_reply (err : string) : list Z :=
  match Encode (H:=toyWire) JSONConfig
    (set_SeqId 1 (send_failed (H1:=demo_payload) (m_MsgId demo_msg) err)) with inl _ => [] | inr d => d end.

Lemma demo_raw_decodes : Decode (H:=toyWire) JSONConfig demo_raw = inr demo_msg.
Proof. vm_compute. reflexivity. Qed.

