(* ===== verification/DistRouter.v ===== *)
(** * The cross-node router ([gateway/internal/router/distributed.go])

    Which gateway a user or device is on is kept in Redis, under keys that
    expire.  Redis is outside the repository: it is the class [Redis] with the
    documented behaviour of the five commands used.  A pipeline is no
    transaction: one that reports an error may have run any of its commands. *)

From stdpp Require Import base list gmap strings numbers relations.
From S2P Require Import Prelude Timer Shard Message Codec Router World Connection.
From S2P Require Import Pool Session Demo Factory FactorySpec.

(** Times are nanoseconds; every command reads the server's clock. *)
Class Redis (R : Type) : Type := {
  redis_SET : Z → string → string → Z → R → R;      (* now key value ttl *)
  redis_EXPIRE : Z → string → Z → R → R;            (* now key ttl *)
  redis_DEL : string → R → R;
  redis_SADD : string → string → R → R;
  redis_GET : Z → string → R → option string;       (* now key *)
}.

(** A key holds its value up to its deadline; other keys are unaffected. *)
Class RedisLaws (R : Type) `{Redis R} : Prop := {
  get_SET now t k v ttl k' r : (now ≤ t)%Z →
    redis_GET t k' (redis_SET now k v ttl r) =
      if decide (k' = k) then (if (t <? now + ttl)%Z then Some v else None) else redis_GET t k' r;
  get_EXPIRE now t k ttl k' r : (now ≤ t)%Z →
    redis_GET t k' (redis_EXPIRE now k ttl r) =
      if decide (k' = k)
      then (v ← redis_GET now k r; if (t <? now + ttl)%Z then Some v else None)
      else redis_GET t k' r;
  get_DEL t k k' r : redis_GET t k' (redis_DEL k r) = if decide (k' = k) then None else redis_GET t k' r;
  (** [k] names a set, not a string. *)
  get_SADD t k v k' r : k' ≠ k → redis_GET t k' (redis_SADD k v r) = redis_GET t k' r;
}.

(** ** [consts] *)
Definition GatewayRedis_User : string := "gateway:user:".
Definition GatewayRedis_Device : string := "gateway:device:".
Definition GatewayRedis_Nodes : string := "gateway:nodes".
(** 120 seconds. *)
Definition RedisKeyExpireTime : Z := 120 * 10 ^ 9.

Record DistributedRouter := mkDistRouter { gatewayAddr : string }.
Definition NewDistributedRouter (addr : string) : DistributedRouter := mkDistRouter addr.

Section ops.
Context {R : Type} `{Redis R}.
Implicit Types (dr : DistributedRouter) (r : R) (net : error) (pnet : option (string * list bool)).

(** The effect of a list of commands, and of those of them that are marked. *)
Definition run_cmds (cmds : list (R → R)) r : R := foldl (λ r cmd, cmd r) r cmds.
Fixpoint marked (done : list bool) (cmds : list (R → R)) : list (R → R) :=
  match done, cmds with
  | b :: done', cmd :: cmds' => if b then cmd :: marked done' cmds' else marked done' cmds'
  | _, _ => []
  end.

(** [pipe.Exec(ctx)]: [pnet] is the error of the connection or of a command, if
    any, with the commands that took effect all the same. *)
Definition pipe_Exec pnet (cmds : list (R → R)) r : error * R :=
  match pnet with
  | Some (e, done) => (Some e, run_cmds (marked done cmds) r)
  | None => (None, run_cmds cmds r)
  end.

Definition RegisterUser dr pnet (now : Z) (userID deviceID : string) : R → error * R :=
  pipe_Exec pnet
    [redis_SET now (GatewayRedis_User +:+ userID) (gatewayAddr dr) RedisKeyExpireTime;
     redis_SET now (GatewayRedis_Device +:+ deviceID) (gatewayAddr dr) RedisKeyExpireTime;
     redis_SADD GatewayRedis_Nodes (gatewayAddr dr)].

Definition dist_Refresh dr pnet (now : Z) (userID deviceID : string) : R → error * R :=
  pipe_Exec pnet
    [redis_EXPIRE now (GatewayRedis_User +:+ userID) RedisKeyExpireTime;
     redis_EXPIRE now (GatewayRedis_Device +:+ deviceID) RedisKeyExpireTime].

Definition UnregisterUser dr pnet (userID deviceID : string) : R → error * R :=
  pipe_Exec pnet
    [redis_DEL (GatewayRedis_User +:+ userID); redis_DEL (GatewayRedis_Device +:+ deviceID)].

(** [Get(...).Result()]: a missing key is the error [redis.Nil]. *)
Definition dist_get (key : string) net (now : Z) r : string + string :=
  match net with
  | Some e => inl e
  | None => match redis_GET now key r with Some v => inr v | None => inl "redis: nil" end
  end.
Definition GetNodeByUserID dr net now (userID : string) : R → string + string :=
  dist_get (GatewayRedis_User +:+ userID) net now.
Definition GetNodeByDeviceID dr net now (deviceID : string) : R → string + string :=
  dist_get (GatewayRedis_Device +:+ deviceID) net now.
End ops.

(** ** What a route is

    The contract: the route of a user (of a device) is the gateway that
    registered it last, until it is unregistered or its lease runs out. *)
Record lease := mkLease { l_node : string; l_until : Z }.
Record routes := mkRoutes { r_users : gmap string lease; r_devices : gmap string lease }.

Inductive route_op : Type :=
  | OpRegister (node : string) (uid did : string)
  | OpRefresh (uid did : string)
  | OpUnregister (node : string) (uid did : string).

Definition renew (t : Z) (l : lease) : lease :=
  if (t <? l_until l)%Z then mkLease (l_node l) (t + RedisKeyExpireTime) else l.

Definition abs_route (t : Z) (o : route_op) (a : routes) : routes :=
  match o with
  | OpRegister g u d => let l := mkLease g (t + RedisKeyExpireTime) in
      mkRoutes (<[u := l]> (r_users a)) (<[d := l]> (r_devices a))
  | OpRefresh u d => mkRoutes (alter (renew t) u (r_users a)) (alter (renew t) d (r_devices a))
  | OpUnregister _ u d => mkRoutes (delete u (r_users a)) (delete d (r_devices a))
  end.

Definition live (t : Z) (o : option lease) : option string :=
  l ← o; if (t <? l_until l)%Z then Some (l_node l) else None.

Section refinement.
Context {R : Type} `{RedisLaws R}.
Implicit Types (r : R) (a : routes).

(** The same step of the code, on any node. *)
Definition do_route (t : Z) (o : route_op) r : R :=
  match o with
  | OpRegister g u d => (RegisterUser (NewDistributedRouter g) None t u d r).2
  | OpRefresh u d => (dist_Refresh (NewDistributedRouter "") None t u d r).2
  | OpUnregister g u d => (UnregisterUser (NewDistributedRouter g) None u d r).2
  end.

(** From time [t] on both give the same answers. *)
Definition routes_agree (t : Z) r a : Prop := ∀ t', (t ≤ t')%Z →
  (∀ u, redis_GET t' (GatewayRedis_User +:+ u) r = live t' (r_users a !! u)) ∧
  (∀ d, redis_GET t' (GatewayRedis_Device +:+ d) r = live t' (r_devices a !! d)).

Lemma user_key_inj u u' : GatewayRedis_User +:+ u = GatewayRedis_User +:+ u' ↔ u = u'.
Proof. split; [|by intros ->]. unfold GatewayRedis_User. simpl. by intros [=]. Qed.
Lemma device_key_inj d d' : GatewayRedis_Device +:+ d = GatewayRedis_Device +:+ d' ↔ d = d'.
Proof. split; [|by intros ->]. unfold GatewayRedis_Device. simpl. by intros [=]. Qed.
Lemma user_device_key u d : GatewayRedis_User +:+ u ≠ GatewayRedis_Device +:+ d.
Proof. done. Qed.
Lemma user_nodes_key u : GatewayRedis_User +:+ u ≠ GatewayRedis_Nodes.
Proof. done. Qed.
Lemma device_nodes_key d : GatewayRedis_Device +:+ d ≠ GatewayRedis_Nodes.
Proof. done. Qed.

(** A test on two keys is a test on the names in them. *)
Lemma decide_user {A} u u' (x y : A) :
  (if decide (GatewayRedis_User +:+ u = GatewayRedis_User +:+ u') then x else y) = if decide (u' = u) then x else y.
Proof. pose proof (user_key_inj u u'). repeat case_decide; naive_solver. Qed.
Lemma decide_device {A} u u' (x y : A) :
  (if decide (GatewayRedis_Device +:+ u = GatewayRedis_Device +:+ u') then x else y) = if decide (u' = u) then x else y.
Proof. pose proof (device_key_inj u u'). repeat case_decide; naive_solver. Qed.
Lemma decide_user_device {A} u d (x y : A) :
  (if decide (GatewayRedis_User +:+ u = GatewayRedis_Device +:+ d) then x else y) = y.
Proof. pose proof (user_device_key u d). by rewrite decide_False. Qed.
Lemma decide_device_user {A} u d (x y : A) :
  (if decide (GatewayRedis_Device +:+ d = GatewayRedis_User +:+ u) then x else y) = y.
Proof. pose proof (user_device_key u d). by rewrite decide_False. Qed.

Lemma live_renew t t' o : (t ≤ t')%Z →
  live t' (renew t <$> o) = (v ← live t o; if (t' <? t + RedisKeyExpireTime)%Z then Some v else None).
Proof.
  intros Hle. destruct o as [[g e]|]; [|done]. unfold live, renew. simpl.
  destruct (t <? e)%Z eqn:E; simpl; [done|].
  destruct (t' <? e)%Z eqn:E'; [|done]. rewrite Z.ltb_lt in E'. rewrite Z.ltb_ge in E. lia.
Qed.

Lemma route_step_agrees t o r a : routes_agree t r a → routes_agree t (do_route t o r) (abs_route t o a).
Proof.
  intros Ha t' Hle. destruct (Ha t' Hle) as [Hu Hd]. destruct (Ha t ltac:(lia)) as [Hu0 Hd0].
  destruct o as [g u d|u d|g u d]; cbn [do_route abs_route RegisterUser dist_Refresh UnregisterUser pipe_Exec run_cmds foldl snd
    r_users r_devices gatewayAddr NewDistributedRouter]; split; intros x;
    rewrite ?get_SADD by (apply user_nodes_key || apply device_nodes_key);
    repeat first [rewrite get_SET by exact Hle | rewrite get_EXPIRE by (exact Hle || apply Z.le_refl)
                 | rewrite get_DEL];
    rewrite ?decide_user, ?decide_device, ?decide_user_device, ?decide_device_user,
      ?lookup_insert, ?lookup_delete, ?lookup_alter.
  all: case_decide; [subst|exact (Hu x) || exact (Hd x)].
  all: rewrite ?live_renew, ?Hu0, ?Hd0 by exact Hle; reflexivity.
Qed.

(** A pipeline that fails half-way: on every key it was as if it had not run, or
    as if it had run to its end. *)
Definition halfway (t : Z) (r r1 r' : R) : Prop := ∀ t' k, (t ≤ t')%Z → k ≠ GatewayRedis_Nodes →
  redis_GET t' k r' = redis_GET t' k r ∨ redis_GET t' k r' = redis_GET t' k r1.

Lemma marked_nil done : marked (R:=R) done [] = [].
Proof. by destruct done. Qed.

Ltac halfway done :=
  intros t' k Hle Hk; destruct done as [|[] [|[] [|[] ?]]];
  cbn [RegisterUser dist_Refresh UnregisterUser pipe_Exec run_cmds marked foldl snd];
  rewrite ?marked_nil; cbn [foldl]; rewrite ?get_SADD by exact Hk;
  repeat first [rewrite get_SET by exact Hle | rewrite get_EXPIRE by (exact Hle || apply Z.le_refl) | rewrite get_DEL];
  rewrite ?decide_user_device, ?decide_device_user;
  repeat (case_decide; subst); auto; by destruct (user_device_key _ _ ltac:(eassumption)).

Lemma RegisterUser_halfway dr t u d r e done :
  halfway t r (RegisterUser dr None t u d r).2 (RegisterUser dr (Some (e, done)) t u d r).2.
Proof. halfway done. Qed.
Lemma dist_Refresh_halfway dr t u d r e done :
  halfway t r (dist_Refresh dr None t u d r).2 (dist_Refresh dr (Some (e, done)) t u d r).2.
Proof. halfway done. Qed.
Lemma UnregisterUser_halfway dr t u d r e done :
  halfway t r (UnregisterUser dr None u d r).2 (UnregisterUser dr (Some (e, done)) u d r).2.
Proof. halfway done. Qed.

Fixpoint run_routes (ops : list (Z * route_op)) r : R :=
  match ops with [] => r | (t, o) :: ops' => run_routes ops' (do_route t o r) end.
Fixpoint abs_routes (ops : list (Z * route_op)) a : routes :=
  match ops with [] => a | (t, o) :: ops' => abs_routes ops' (abs_route t o a) end.

(** The clock does not run backwards. *)
Fixpoint timed (t : Z) (ops : list (Z * route_op)) : Prop :=
  match ops with [] => True | (t', _) :: ops' => (t ≤ t')%Z ∧ timed t' ops' end.
Definition end_time (t : Z) (ops : list (Z * route_op)) : Z := from_option fst t (last ops).

Lemma routes_agree_later t t' r a : (t ≤ t')%Z → routes_agree t r a → routes_agree t' r a.
Proof. intros Hle Ha t'' ?. apply Ha. lia. Qed.

Lemma run_routes_agree ops : ∀ t r a, timed t ops → routes_agree t r a →
  routes_agree (end_time t ops) (run_routes ops r) (abs_routes ops a).
Proof.
  induction ops as [|[t' o] ops IH]; intros t r a Ht Ha; [done|]. destruct Ht as [Hle Ht].
  assert (end_time t ((t', o) :: ops) = end_time t' ops) as ->.
  { unfold end_time. rewrite last_cons. by destruct (last ops). }
  cbn [run_routes abs_routes]. apply IH; [done|]. apply route_step_agrees.
  by eapply routes_agree_later.
Qed.
End refinement.

(** ** Where the factory uses it ([connruntime/factory.go])

    [CreateAndRun] registers the route as soon as the handshake succeeded,
    before it knows whether the connection will run; only [onClose] removes
    it. *)
Section factory.
Context {R : Type} `{Redis R} `{WireLib} `{HandshakeLib}.

Definition CreateAndRun_route (dr : DistributedRouter) net (fc : FrameCodec) (deadline : error)
    (input : string + list Z) (uuid : string) (now : Z) (r : R) : R :=
  match doHandshake fc deadline input uuid with
  | inl _ => r
  | inr (ai, _) => (RegisterUser dr net now (ai_userID ai) (ai_deviceID ai) r).2
  end.

Definition onClose_route (dr : DistributedRouter) net (k : Connection) (r : R) : R :=
  (UnregisterUser dr net (c_UserID k) (c_DeviceID k) r).2.
End factory.

(** ** An in-memory Redis *)
Record MemRedis := mkMemRedis { mr_strings : gmap string (string * Z); mr_sets : gmap string (gset string) }.

#[export] Instance mem_Redis : Redis MemRedis := {|
  redis_SET now k v ttl r := mkMemRedis (<[k := (v, now + ttl)%Z]> (mr_strings r)) (mr_sets r);
  redis_EXPIRE now k ttl r := mkMemRedis
    (alter (λ '(v, e), (v, if (now <? e)%Z then (now + ttl)%Z else e)) k (mr_strings r)) (mr_sets r);
  redis_DEL k r := mkMemRedis (delete k (mr_strings r)) (mr_sets r);
  redis_SADD k v r := mkMemRedis (mr_strings r) (<[k := {[ v ]} ∪ default ∅ (mr_sets r !! k)]> (mr_sets r));
  redis_GET now k r := '(v, e) ← mr_strings r !! k; if (now <? e)%Z then Some v else None;
|}.

#[export] Instance mem_RedisLaws : RedisLaws MemRedis.
Proof.
  split; intros; cbn.
  - rewrite lookup_insert. case_decide; subst; rewrite ?decide_True, ?decide_False by done; done.
  - rewrite lookup_alter. case_decide; subst; rewrite ?decide_True, ?decide_False by done; [|done].
    destruct (mr_strings r !! k') as [[v e]|]; [|done]. simpl.
    destruct (now <? e)%Z eqn:E1; simpl; [done|]. rewrite Z.ltb_ge in E1.
    by rewrite (proj2 (Z.ltb_ge t e)) by lia.
  - rewrite lookup_delete. case_decide; subst; rewrite ?decide_True, ?decide_False by done; done.
  - done.
Qed.

Definition mem_empty : MemRedis := mkMemRedis ∅ ∅.

(** ** Claims *)

(** C21.  The cross-node router implements its contract.  Starting from an empty
    Redis, after any sequence of registrations, refreshes and removals by any
    nodes at non-decreasing times, and from then on: asking for the node of a
    user or device gives the one that registered it last, unless it was removed
    since or 120 seconds passed since it was registered or refreshed; users and
    devices of the same name do not interfere.  When Redis cannot be reached
    every operation reports the error and changes nothing; when a pipeline
    fails after some of its commands took effect, its operation reports the
    error, and the entry of the user and that of the device are each as before
    or as after the whole operation. *)
Theorem dist_router_refines {R : Type} `{RedisLaws R} (r0 : R) (t0 : Z) (ops : list (Z * route_op))
    (t : Z) (dr : DistributedRouter) (u d : string) :
  (∀ t k, redis_GET t k r0 = None) → timed t0 ops → (end_time t0 ops ≤ t)%Z →
  let r := run_routes ops r0 in
  let a := abs_routes ops (mkRoutes ∅ ∅) in
  let answer o := match live t o with Some g => inr g | None => inl "redis: nil" end in
  GetNodeByUserID dr None t u r = answer (r_users a !! u) ∧
  GetNodeByDeviceID dr None t d r = answer (r_devices a !! d) ∧
  ∀ e, (RegisterUser dr (Some (e, [])) t u d r = (Some e, r) ∧ dist_Refresh dr (Some (e, [])) t u d r = (Some e, r) ∧
        UnregisterUser dr (Some (e, [])) u d r = (Some e, r) ∧ GetNodeByUserID dr (Some e) t u r = inl e ∧
        GetNodeByDeviceID dr (Some e) t d r = inl e) ∧
    ∀ done, Forall (λ op : option (string * list bool) → R → error * R,
        (op (Some (e, done)) r).1 = Some e ∧ halfway t r (op None r).2 (op (Some (e, done)) r).2)
      [λ pnet, RegisterUser dr pnet t u d; λ pnet, dist_Refresh dr pnet t u d; λ pnet, UnregisterUser dr pnet u d].
Proof.
  intros H0' Ht Hle r a answer.
  destruct (run_routes_agree ops t0 r0 (mkRoutes ∅ ∅) Ht) with (t' := t) as [Hu Hd]; [|done|].
  { intros t' _. split; intros x; cbn; by rewrite H0', lookup_empty. }
  split_and!.
  - unfold GetNodeByUserID, dist_get. by rewrite Hu.
  - unfold GetNodeByDeviceID, dist_get. by rewrite Hd.
  - intros e. split; [done|]. intros done.
    repeat (apply Forall_cons; split; [split; [done|]|]); [apply RegisterUser_halfway|
      apply dist_Refresh_halfway|apply UnregisterUser_halfway|apply Forall_nil_2].
Qed.

Lemma dist_router_refines_witness :
  let ops := [(0, OpRegister "g1" "u" "d"); (100 * 10 ^ 9, OpRefresh "u" "d");
              (150 * 10 ^ 9, OpRegister "g2" "u2" "d2")]%Z in
  GetNodeByUserID (NewDistributedRouter "g1") None (200 * 10 ^ 9) "u" (run_routes ops mem_empty) = inr "g1" ∧
  GetNodeByUserID (NewDistributedRouter "g1") None (200 * 10 ^ 9) "d" (run_routes ops mem_empty) = inl "redis: nil".
Proof.
  split.
  - refine (proj1 (dist_router_refines mem_empty 0 _ (200 * 10 ^ 9) (NewDistributedRouter "g1") "u" "d" _ _ _)).
    + reflexivity.
    + vm_compute. repeat split; discriminate.
    + vm_compute. discriminate.
  - refine (proj1 (dist_router_refines mem_empty 0 _ (200 * 10 ^ 9) (NewDistributedRouter "g1") "d" "d" _ _ _)).
    + reflexivity.
    + vm_compute. repeat split; discriminate.
    + vm_compute. discriminate.
Defined.

(** Routes and connections drift apart.  A user who moved from node g1 to
    node g2 loses the route when g1 cleans up late, because the removal does not
    look at who holds the route; a user who stays connected has no route 120
    seconds after the login, because nothing refreshes it; and the route is set as
    soon as the handshake succeeded, whatever becomes of the login after that. *)
Theorem routes_drift {R : Type} `{RedisLaws R} `{WireLib} `{HandshakeLib} (fc : FrameCodec) (r : R)
    (g1 g2 u d : string) (t1 t2 t3 t : Z) :
  (t1 ≤ t2 ≤ t3)%Z → (t3 ≤ t)%Z →
  let at_node g := RegisterUser (NewDistributedRouter g) None in
  (let r' := (UnregisterUser (NewDistributedRouter g1) None u d
                (at_node g2 t2 u d (at_node g1 t1 u d r).2).2).2 in
   GetNodeByUserID (NewDistributedRouter g2) None t u r' = inl "redis: nil") ∧
  (t1 + RedisKeyExpireTime ≤ t →
   GetNodeByUserID (NewDistributedRouter g1) None t u (at_node g1 t1 u d r).2 = inl "redis: nil")%Z ∧
  (∀ deadline input uuid ai req, doHandshake fc deadline input uuid = inr (ai, req) →
     (t3 <? t1 + RedisKeyExpireTime = true)%Z →
     GetNodeByUserID (NewDistributedRouter g1) None t3 (ai_userID ai)
       (CreateAndRun_route (NewDistributedRouter g1) None fc deadline input uuid t1 r) = inr g1).
Proof.
  intros [H12 H23] H3t at_node. subst at_node.
  assert (∀ g t0 t' u d r, (t0 ≤ t')%Z → redis_GET t' (GatewayRedis_User +:+ u)
    (RegisterUser (NewDistributedRouter g) None t0 u d r).2 =
    if (t' <? t0 + RedisKeyExpireTime)%Z then Some g else None) as Hreg.
  { intros g t0 t' u' d' r' Hle. cbn [RegisterUser pipe_Exec run_cmds foldl snd gatewayAddr NewDistributedRouter].
    rewrite get_SADD by apply user_nodes_key. do 2 rewrite get_SET by exact Hle.
    rewrite decide_user_device. by rewrite decide_True. }
  split_and!.
  - unfold GetNodeByUserID, dist_get. cbn [UnregisterUser pipe_Exec run_cmds foldl snd]. rewrite !get_DEL, decide_user_device.
    by rewrite decide_True.
  - intros Hexp. unfold GetNodeByUserID, dist_get. rewrite Hreg by lia.
    by rewrite (proj2 (Z.ltb_ge t (t1 + RedisKeyExpireTime))) by lia.
  - intros deadline input uuid ai req Hh Hlive. unfold CreateAndRun_route. rewrite Hh.
    unfold GetNodeByUserID, dist_get. rewrite Hreg by lia. by rewrite Hlive.
Qed.

Lemma routes_drift_witness :
  let at_node g := RegisterUser (R:=MemRedis) (NewDistributedRouter g) None in
  GetNodeByUserID (NewDistributedRouter "g2") None 30 "u"
    (UnregisterUser (NewDistributedRouter "g1") None "u" "d"
      (at_node "g2" 20%Z "u" "d" (at_node "g1" 10%Z "u" "d" mem_empty).2).2).2 = inl "redis: nil" ∧
  GetNodeByUserID (NewDistributedRouter "g1") None 30 "u1"
    (CreateAndRun_route (H0:=toyWire) (H1:=demo_handshake) (NewDistributedRouter "g1") None JSONConfig None
      (hello_frame [1%Z]) "c1" 10 mem_empty) = inr "g1".
Proof.
  destruct (routes_drift (H1:=toyWire) (H2:=demo_handshake) JSONConfig mem_empty "g1" "g2" "u" "d" 10 20 30 30)
    as (H1 & _ & H3); [lia|lia|].
  split; [exact H1|].
  destruct (doHandshake (H2:=toyWire) (H3:=demo_handshake) JSONConfig None (hello_frame [1%Z]) "c1")
    as [e|[ai req]] eqn:E; [vm_compute in E; discriminate|].
  specialize (H3 None (hello_frame [1%Z]) "c1" ai req E eq_refl).
  assert (ai_userID ai = "u1") as Hu by (vm_compute in E; injection E as <- _; reflexivity).
  rewrite Hu in H3. exact H3.
Defined.
