(* ===== verification/Kafka.v ===== *)
(** * Kafka on the way down ([gateway/internal/utils/kafka], [worker/downstream])

    Kafka itself is outside the repository.  A reader of a consumer group is
    the class [KafkaReader]; its laws are about one partition: records are
    handed out in order, a commit moves the offset from which the group goes on
    after a restart, and may fail, with or without having moved it.  Between two
    turns the group may take the partition away and give it back: other members
    may have committed, and the reader goes on from the commit point.  Every
    consumer of the repository follows one discipline on its reader, stated once
    ([disciplined]) and used by each. *)

From stdpp Require Import base list gmap strings numbers.
From S2P Require Import Prelude Timer Shard Message Codec Router World Connection.
From S2P Require Import Pool Session Demo SessionSpec UplinkSpec Handler.

(** [kafka.Message] as it is read. *)
Record KRecord := mkKRecord { kr_Value : list Z; kr_Offset : nat }.

(** [*kafka.Reader]; [inl] and [Some] are errors. *)
Class KafkaReader (K : Type) : Type := {
  FetchMessage : K → (string + KRecord) * K;
  CommitMessages : nat → K → error * K;
  (** From where this reader, and from where a new member of the group reads. *)
  position : K → nat;
  committed : K → nat;
  (** The offsets of the partition at which there is a record. *)
  holds_record : nat → Prop;
}.

Class KafkaReaderLaws (K : Type) `{KafkaReader K} : Prop := {
  fetch_record k r k' : FetchMessage k = (inr r, k') →
    position k ≤ kr_Offset r ∧ (∀ o, position k ≤ o < kr_Offset r → ¬ holds_record o) ∧
    position k' = S (kr_Offset r) ∧ committed k' = committed k;
  fetch_error k e k' : FetchMessage k = (inl e, k') →
    position k' = position k ∧ committed k' = committed k;
  commit_ok o k k' : CommitMessages o k = (None, k') → position k' = position k ∧ committed k' = S o;
  commit_error o e k k' : CommitMessages o k = (Some e, k') →
    position k' = position k ∧ (committed k' = committed k ∨ committed k' = S o);
}.

(** How a turn of a consuming loop ends. *)
Inductive verdict : Set :=
  | Stopped | FetchFailed
  | Poison      (* not decodable, committed *)
  | Refused     (* "will be redelivered" *)
  | Accepted    (* handled and committed *)
  | Uncommitted (* its commit failed *).
#[export] Instance verdict_eq_dec : EqDecision verdict.
Proof. solve_decision. Defined.

Definition fetched (v : verdict) : bool := match v with Stopped | FetchFailed => false | _ => true end.
(** Whether the record of the turn was committed, and whether that was tried. *)
Definition handled (v : verdict) : bool := match v with Poison | Accepted => true | _ => false end.
Definition tries_commit (v : verdict) : bool := match v with Poison | Accepted | Uncommitted => true | _ => false end.

(** What happens to the commit point [c] when the record at [o] ends as [v]. *)
Definition commit_effect (v : verdict) (o c c' : nat) : Prop :=
  match v with
  | Poison | Accepted => c' = S o
  | Uncommitted => c' = c ∨ c' = S o
  | _ => c' = c
  end.

(** ** The discipline of the consuming loops *)
Section discipline.
Context {K : Type} `{KafkaReaderLaws K} {S : Type} (rd : S → K) (turn : bool → bool → M S verdict).

(** A turn fetches at most one record, the next one there is, and commits it if
    it was handled. *)
Definition disciplined : Prop := ∀ d d' s v s', turn d d' s = (Ret v, s') →
  if fetched v
  then ∃ o, position (rd s) ≤ o ∧ (∀ o', position (rd s) ≤ o' < o → ¬ holds_record o') ∧
       position (rd s') = Datatypes.S o ∧ commit_effect v o (committed (rd s)) (committed (rd s'))
  else position (rd s') = position (rd s) ∧ committed (rd s') = committed (rd s).

(** What a run of the loop is to the group: the offsets and fates of the records
    fetched, and the commit points from which the reader went on after the group
    was rebalanced. *)
Inductive fetch_event : Type := Fetched (o : nat) (v : verdict) | Rebalanced (c : nat).

(** The loop's turns, in between anything else that leaves the reader alone, and
    rebalances: the partition comes back with a commit point that other members
    may have moved on. *)
Inductive consumes : list fetch_event → S → S → Prop :=
  | consumes_start s : consumes [] s s
  | consumes_other h s s1 s2 : consumes h s s1 → rd s2 = rd s1 → consumes h s s2
  | consumes_rebalanced h s s1 s2 : consumes h s s1 →
      committed (rd s1) ≤ committed (rd s2) → position (rd s2) = committed (rd s2) →
      consumes (h ++ [Rebalanced (committed (rd s2))]) s s2
  | consumes_turn h s s1 d d' v s2 : consumes h s s1 → turn d d' s1 = (Ret v, s2) →
      consumes (h ++ if fetched v then [Fetched (pred (position (rd s2))) v] else []) s s2.

(** Position and commit point along a history: from [p] and [c] to the last
    two. *)
Inductive goes (p c : nat) : list fetch_event → nat → nat → Prop :=
  | goes_nil : goes p c [] p c
  | goes_fetched h p1 c1 o v c2 : goes p c h p1 c1 → p1 ≤ o → (∀ o', p1 ≤ o' < o → ¬ holds_record o') →
      fetched v = true → commit_effect v o c1 c2 → goes p c (h ++ [Fetched o v]) (Datatypes.S o) c2
  | goes_rebalanced h p1 c1 c2 : goes p c h p1 c1 → c1 ≤ c2 → goes p c (h ++ [Rebalanced c2]) c2 c2.

Lemma consumes_goes h s s' : disciplined → consumes h s s' →
  goes (position (rd s)) (committed (rd s)) h (position (rd s')) (committed (rd s')).
Proof.
  intros Hd Hc. induction Hc as [s|h s s1 s2 _ IH E|h s s1 s2 _ IH Hle E|h s s1 d d' v s2 _ IH E].
  - constructor.
  - by rewrite E.
  - rewrite E. by eapply goes_rebalanced.
  - pose proof (Hd _ _ _ _ _ E) as Hv. destruct (fetched v) eqn:Ev.
    + destruct Hv as (o & Ho & Hgap & Hp & Hce). rewrite Hp. cbn [pred]. by eapply goes_fetched.
    + destruct Hv as [-> ->]. by rewrite app_nil_r.
Qed.

(** The commit point only moves on, and stays behind the position. *)
Lemma goes_bounds p c h p1 c1 : c ≤ p → goes p c h p1 c1 →
  c ≤ c1 ≤ p1 ∧ (∀ o v, Fetched o v ∈ h → c ≤ o ∧ fetched v = true).
Proof.
  intros Hcp. induction 1 as [|h p1 c1 o v c2 _ [IH1 IH2] Ho _ Hf Hce|h p1 c1 c2 _ [IH1 IH2] Hle].
  - split; [lia|]. intros o v Hin. by apply elem_of_nil in Hin.
  - split; [destruct v; cbn in Hce; lia|]. intros o' v' [Hin|Hin%list_elem_of_singleton]%elem_of_app; [eauto|].
    injection Hin as -> ->. split; [lia|done].
  - split; [lia|]. intros o' v' [Hin|Hin%list_elem_of_singleton]%elem_of_app; [eauto|done].
Qed.

(** A bound of the last commit point bounds every commit and every commit point
    in between; and what bounds all that may have been committed bounds it. *)
Lemma goes_commits p c h p1 c1 x : c ≤ p → goes p c h p1 c1 →
  (c1 ≤ x → (∀ o v, Fetched o v ∈ h → handled v = true → o < x) ∧ (∀ c', Rebalanced c' ∈ h → c' ≤ x)) ∧
  (c ≤ x → (∀ o v, Fetched o v ∈ h → tries_commit v = true → o < x) → (∀ c', Rebalanced c' ∈ h → c' ≤ x) → c1 ≤ x).
Proof.
  intros Hcp. induction 1 as [|h p1 c1 o v c2 Hg [IH1 IH2] Ho _ Hf Hce|h p1 c1 c2 Hg [IH1 IH2] Hle].
  - split; [|done]. intros _. split; intros *; by intros Hin%elem_of_nil.
  - destruct (goes_bounds _ _ _ _ _ Hcp Hg) as [Hb _]. split.
    + intros Hx. destruct IH1 as [Ha Hr]; [destruct v; cbn in Hce; lia|]. split.
      * intros o' v' [Hin|Hin%list_elem_of_singleton]%elem_of_app Hh; [eauto|]. injection Hin as -> ->.
        destruct v; try done; cbn in Hce; lia.
      * intros c' [Hin|Hin%list_elem_of_singleton]%elem_of_app; [eauto|done].
    + intros Hc0 Ha Hr. assert (c1 ≤ x) as H1.
      { apply IH2; [done|..]; intros *; intros Hin; [apply Ha|apply Hr]; apply elem_of_app; by left. }
      specialize (Ha o v ltac:(apply elem_of_app; right; by apply list_elem_of_singleton)).
      destruct v; cbn in Hce, Ha; try lia; specialize (Ha eq_refl); lia.
  - destruct (goes_bounds _ _ _ _ _ Hcp Hg) as [Hb _]. split.
    + intros Hx. destruct IH1 as [Ha Hr]; [lia|]. split.
      * intros o' v' [Hin|Hin%list_elem_of_singleton]%elem_of_app Hh; [eauto|done].
      * intros c' [Hin|Hin%list_elem_of_singleton]%elem_of_app; [eauto|]. injection Hin as ->. lia.
    + intros _ _ Hr. apply Hr, elem_of_app. right. by apply list_elem_of_singleton.
Qed.

(** Whether the group reads a record of the run again: not if it, or a later one,
    was committed; surely if no commit of one was even tried and no other member
    committed past it. *)
Lemma consumes_redelivery h s s' o v : disciplined → consumes h s s' →
  committed (rd s) ≤ position (rd s) → Fetched o v ∈ h →
  (committed (rd s') ≤ o → (∀ o' v', Fetched o' v' ∈ h → o ≤ o' → v' = Refused ∨ v' = Uncommitted) ∧
     (∀ c, Rebalanced c ∈ h → c ≤ o)) ∧
  ((∀ o' v', Fetched o' v' ∈ h → o ≤ o' → v' = Refused) → (∀ c, Rebalanced c ∈ h → c ≤ o) →
     committed (rd s') ≤ o).
Proof.
  intros Hd Hc Hle Hin. pose proof (consumes_goes _ _ _ Hd Hc) as Hg.
  destruct (goes_bounds _ _ _ _ _ Hle Hg) as [_ Hf]. destruct (goes_commits _ _ _ _ _ o Hle Hg) as [H1 H2]. split.
  - intros Hx. destruct (H1 Hx) as [Ha Hr]. split; [|done]. intros o' v' Hi Ho.
    destruct (Hf _ _ Hi) as [_ Hv]. destruct v'; try done; [|by left| |by right];
      specialize (Ha _ _ Hi eq_refl); lia.
  - intros Ha Hr. apply H2; [by destruct (Hf _ _ Hin)| |done].
    intros o' v' Hi Ht. destruct (decide (o' < o)) as [|Hge]; [done|]. rewrite (Ha _ _ Hi) in Ht by lia. done.
Qed.
End discipline.
Arguments goes {K _} p c h p1 c1 : assert.

(** ** The consumer of [utils/kafka/consumer.go]

    A consuming goroutine works on its reader and on the state of its process. *)
Record Intake (K W : Type) := mkIntake { in_reader : K; in_world : W }.
Arguments mkIntake {K W}. Arguments in_reader {K W}. Arguments in_world {K W}.

Section intake.
Context {K W : Type}.
Definition onK {A} (f : K → A * K) : M (Intake K W) A := λ i,
  let '(a, k) := f (in_reader i) in (Ret a, mkIntake k (in_world i)).
Definition onW {A} (m : M W A) : M (Intake K W) A := zoom in_world (λ w i, mkIntake (in_reader i) w) m.

(** Work on the process leaves the reader alone. *)
Lemma onW_reader {A} (m : M W A) i r i' : onW m i = (r, i') → in_reader i' = in_reader i.
Proof. unfold onW, zoom. destruct (m (in_world i)). by intros [= <- <-]. Qed.

(** The end of a turn that commits: its error is logged or not even looked at. *)
Definition commit_as `{KafkaReader K} (v : verdict) (o : nat) : M (Intake K W) verdict :=
  err ← onK (CommitMessages o);
  mret (match (err : error) with None => v | Some _ => Uncommitted end).

Definition commit_verdict `{KafkaReader K} (v : verdict) (o : nat) (k : K) : verdict :=
  match (CommitMessages o k).1 with None => v | Some _ => Uncommitted end.

Lemma commit_run `{KafkaReader K} v o k w :
  commit_as v o (mkIntake k w) = (Ret (commit_verdict v o k), mkIntake (CommitMessages o k).2 w).
Proof.
  unfold commit_as, commit_verdict. rewrite bind_run. unfold onK. cbn [in_reader in_world].
  by destruct (CommitMessages o k).
Qed.

Lemma commit_as_effect `{KafkaReaderLaws K} v o k : handled v = true →
  let v' := commit_verdict v o k in
  fetched v' = true ∧ position (CommitMessages o k).2 = position k ∧
  commit_effect v' o (committed k) (committed (CommitMessages o k).2).
Proof.
  intros Hv. unfold commit_verdict. cbv zeta. destruct (CommitMessages o k) as [[e|] k'] eqn:E; cbn [fst snd].
  - destruct (commit_error _ _ _ _ E). done.
  - destruct (commit_ok _ _ _ E). by destruct v.
Qed.

(** A turn that fetched and then only worked on the process, or committed. *)
Lemma refused_turn `{KafkaReaderLaws K} (i i' : Intake K W) r k1 :
  FetchMessage (in_reader i) = (inr r, k1) → in_reader i' = k1 →
  ∃ o, position (in_reader i) ≤ o ∧ (∀ o', position (in_reader i) ≤ o' < o → ¬ holds_record o') ∧
    position (in_reader i') = S o ∧ commit_effect Refused o (committed (in_reader i)) (committed (in_reader i')).
Proof. intros Ef ->. destruct (fetch_record _ _ _ Ef) as (? & ? & ? & ?). by exists (kr_Offset r). Qed.

Lemma committed_turn `{KafkaReaderLaws K} (i : Intake K W) r k1 v :
  FetchMessage (in_reader i) = (inr r, k1) → handled v = true →
  let v' := commit_verdict v (kr_Offset r) k1 in
  let k2 := (CommitMessages (kr_Offset r) k1).2 in
  fetched v' = true ∧ ∃ o, position (in_reader i) ≤ o ∧
    (∀ o', position (in_reader i) ≤ o' < o → ¬ holds_record o') ∧
    position k2 = S o ∧ commit_effect v' o (committed (in_reader i)) (committed k2).
Proof.
  intros Ef Hv. destruct (fetch_record _ _ _ Ef) as (Ho & Hgap & Hp & Hc).
  destruct (commit_as_effect v (kr_Offset r) k1 Hv) as (Hf & Hp2 & Hce). split; [done|].
  exists (kr_Offset r). rewrite <-Hc, Hp2, Hp. done.
Qed.
End intake.

Section consumer.
Context {K TS : Type} `{KafkaReader K} `{MapRange} `{WireLib}.
Abbreviation MI := (M (Intake K (World TS))).

(** [Manager.bizCodes], in map order. *)
Definition bizCodes : M (World TS) (list string) := gets (λ w, (map_range (pools w)).*1).

(** [Manager.GetPool]: the error names the code asked for and those known. *)
Definition GetPool (bizCode : string) : M (World TS) (string * list string + WorkerPool) :=
  o ← gets (λ w, pools w !! bizCode);
  match o with
  | None => codes ← bizCodes; mret (inl (bizCode, codes))
  | Some p => mret (inr p)
  end.

(** One turn of the loop of [Consumer.Start]: [ctx_done] is what the [select]
    sees, [ctx_err] what [ctx.Err()] says after a failed fetch. *)
Definition Consumer_turn (ctx_done ctx_err : bool) : MI verdict :=
  if ctx_done then mret Stopped
  else
    r ← onK FetchMessage;
    match r with
    | inl _ => mret (if ctx_err then Stopped else FetchFailed)
    | inr msg =>
        match proto_Unmarshal (kr_Value msg) with
        | inl _ => commit_as Poison (kr_Offset msg)
        | inr downstreamMsg =>
            m ← onW (new_msg downstreamMsg);
            p ← onW (GetPool (m_BizCode downstreamMsg));
            match p with
            | inl _ => mret Refused
            | inr pool =>
                ok ← onW (pool_SubmitDownstream (m_BizCode downstreamMsg) pool m);
                if (ok : bool)
                then commit_as Accepted (kr_Offset msg)
                else mret Refused
            end
        end
    end.

(** One turn of [consumeTopic] of [worker/downstream/consumer.go], on pools
    shared with the manager. *)
Definition consumeTopic_turn (ctx_done : bool) : MI verdict :=
  if ctx_done then mret Stopped
  else
    r ← onK FetchMessage;
    match r with
    | inl _ => mret FetchFailed
    | inr msg =>
        match proto_Unmarshal (kr_Value msg) with
        | inl _ => commit_as Poison (kr_Offset msg)
        | inr downstreamMsg =>
            m ← onW (new_msg downstreamMsg);
            o ← onW (gets (λ w, pools w !! m_BizCode downstreamMsg));
            match o with
            | Some pool => onW (pool_SubmitDownstream (m_BizCode downstreamMsg) pool m) ≫= λ _, mret tt
            | None => mret tt
            end ≫= λ _,
            commit_as Accepted (kr_Offset msg)
        end
    end.
End consumer.

Section consumer_spec.
Context {K TS : Type} `{KafkaReaderLaws K} `{MapRange} `{WireLib}.
Implicit Types (i : Intake K (World TS)) (w : World TS).

(** What one submitted message does to the pools. *)
Definition taken (w : World TS) (m : positive) (msg : Message) : bool * World TS :=
  let w1 := upd_msgs <[m := msg]> w in
  match pools w !! m_BizCode msg with
  | Some p => if decide (length (downstreamCh p) < pool_cap)
              then (true, upd_pools <[m_BizCode msg := upd_downstreamCh (downstreamCh p ++ [m]) p]> w1)
              else (false, w1)
  | None => (false, w1)
  end.

Lemma submit_taken w msg p (Hopen : pool_closed p = false) :
  pools w !! m_BizCode msg = Some p →
  let m := fresh (dom (msgs w)) in
  pool_SubmitDownstream (m_BizCode msg) p m (upd_msgs <[m := msg]> w) =
    (Ret (taken w m msg).1, (taken w m msg).2).
Proof.
  intros E m. unfold pool_SubmitDownstream, taken. rewrite Hopen, E. case_decide; [|done].
  by rewrite (bind_ret_run _ _ _ _ _ (on_pool_run _ _ (upd_msgs _ w) p E)).
Qed.

(** The turn on a record, as a function of what it finds. *)
Lemma Consumer_turn_run i d' r k1 :
  FetchMessage (in_reader i) = (inr r, k1) →
  (∀ b p, pools (in_world i) !! b = Some p → pool_closed p = false) →
  Consumer_turn false d' i =
    match proto_Unmarshal (kr_Value r) with
    | inl _ => (Ret (commit_verdict Poison (kr_Offset r) k1),
                mkIntake (CommitMessages (kr_Offset r) k1).2 (in_world i))
    | inr msg =>
        let '(ok, w') := taken (in_world i) (fresh (dom (msgs (in_world i)))) msg in
        if ok then (Ret (commit_verdict Accepted (kr_Offset r) k1), mkIntake (CommitMessages (kr_Offset r) k1).2 w')
        else (Ret Refused, mkIntake k1 w')
    end.
Proof.
  intros Hf Hopen. unfold Consumer_turn. rewrite bind_run. unfold onK at 1. rewrite Hf.
  destruct (proto_Unmarshal (kr_Value r)) as [e|msg].
  { apply commit_run. }
  rewrite bind_run. unfold onW at 1, zoom at 1. cbn [new_msg in_world in_reader]. set (m := fresh _).
  rewrite bind_run. unfold onW at 1, zoom at 1, GetPool. rewrite bind_run. cbn [gets in_world].
  change (pools (upd_msgs ?f ?w)) with (pools w).
  destruct (pools (in_world i) !! m_BizCode msg) as [p|] eqn:Ep.
  - cbn [mret M_ret in_world in_reader]. rewrite bind_run. unfold onW, zoom. cbn [in_world in_reader].
    unfold m. rewrite (submit_taken (in_world i) msg p (Hopen _ _ Ep) Ep). fold m.
    destruct (taken (in_world i) m msg) as [[] w'] eqn:Et; cbn [fst snd]; [|done].
    apply commit_run.
  - unfold taken. rewrite Ep. done.
Qed.

Lemma GetPool_run b w : ∃ r, GetPool b w = (Ret r, w) ∧ (∀ p, r = inr p → pools w !! b = Some p).
Proof.
  unfold GetPool. rewrite bind_run. cbn [gets]. destruct (pools w !! b) as [p|] eqn:E.
  - eexists. split; [reflexivity|]. intros p' [= <-]. done.
  - eexists. split; [reflexivity|]. discriminate.
Qed.

Lemma Consumer_disciplined : disciplined in_reader (Consumer_turn (K:=K) (TS:=TS)).
Proof.
  intros d d' i v i'. unfold Consumer_turn. destruct d; [intros [= <- <-]; done|].
  rewrite bind_run. unfold onK at 1. destruct (FetchMessage (in_reader i)) as [[e|r] k1] eqn:Ef.
  { intros [= <- <-]. destruct d'; cbn; eapply fetch_error; eassumption. }
  assert (∀ (w : World TS) v', handled v' = true → commit_as v' (kr_Offset r) (mkIntake k1 w) = (Ret v, i') →
    fetched v = true ∧ ∃ o, position (in_reader i) ≤ o ∧
      (∀ o', position (in_reader i) ≤ o' < o → ¬ holds_record o') ∧
      position (in_reader i') = S o ∧ commit_effect v o (committed (in_reader i)) (committed (in_reader i'))) as Hcommit.
  { intros w v' Hv. rewrite commit_run. intros [= <- <-]. by apply (committed_turn i r k1 v'). }
  destruct (proto_Unmarshal (kr_Value r)) as [e|msg].
  { intros E. apply Hcommit in E as [-> ?]; done. }
  rewrite bind_run. destruct (onW _ (mkIntake k1 (in_world i))) as [[m|why] i1] eqn:E1; [|discriminate].
  apply onW_reader in E1. rewrite bind_run.
  destruct (onW (GetPool _) i1) as [[p|why] i2] eqn:E2; [|discriminate]. apply onW_reader in E2.
  destruct p as [e|p].
  { intros [= <- <-]. eapply refused_turn; [done|]. by rewrite E2, E1. }
  rewrite bind_run. destruct (onW _ i2) as [[ok|why] i3] eqn:E3; [|discriminate]. apply onW_reader in E3.
  assert (in_reader i3 = k1) as Ek by (rewrite E3, E2, E1; done).
  destruct ok; [|intros [= <- <-]; by eapply refused_turn].
  destruct i3 as [k3 w3]. simpl in Ek. subst k3. intros E. apply Hcommit in E as [-> ?]; done.
Qed.
End consumer_spec.

(** ** A reader in memory *)
Record MemReader := mkMemReader { mr_log : list (list Z); mr_pos : nat; mr_committed : nat }.

#[export] Instance mem_Reader : KafkaReader MemReader := {|
  FetchMessage k :=
    match mr_log k !! mr_pos k with
    | Some v => (inr (mkKRecord v (mr_pos k)), mkMemReader (mr_log k) (S (mr_pos k)) (mr_committed k))
    | None => (inl "context deadline exceeded", k)
    end;
  CommitMessages o k := (None, mkMemReader (mr_log k) (mr_pos k) (S o));
  position := mr_pos;
  committed := mr_committed;
  holds_record _ := True;
|}.

#[export] Instance mem_ReaderLaws : KafkaReaderLaws MemReader.
Proof.
  split; cbn.
  - intros k r k'. destruct (mr_log k !! mr_pos k); [|done]. intros [= <- <-]. cbn. split_and!; [lia|lia|done..].
  - intros k e k'. destruct (mr_log k !! mr_pos k); [done|]. by intros [= <- <-].
  - intros o k k' [= <-]. done.
  - done.
Qed.

(** ** Claims *)

(** What one turn of the consumer does with a record, on a node whose pools
    are open.  A record that cannot be decoded is dropped and a message for a
    business domain whose downstream channel has room is appended to it, and
    their commit is tried; any other message is neither queued nor committed. *)
Theorem consumer_queues_or_refuses {K TS : Type} `{KafkaReaderLaws K} `{MapRange} `{WireLib}
    (k k1 : K) (w : World TS) (r : KRecord) (d : bool) :
  FetchMessage k = (inr r, k1) → (∀ b p, pools w !! b = Some p → pool_closed p = false) →
  let k2 := (CommitMessages (kr_Offset r) k1).2 in
  match proto_Unmarshal (kr_Value r) with
  | inl _ => Consumer_turn false d (mkIntake k w) = (Ret (commit_verdict Poison (kr_Offset r) k1), mkIntake k2 w)
  | inr msg =>
      ∃ m, msgs w !! m = None ∧
      let w1 := upd_msgs <[m := msg]> w in
      Consumer_turn false d (mkIntake k w) =
        match pools w !! m_BizCode msg with
        | Some p =>
            if decide (length (downstreamCh p) < pool_cap)
            then (Ret (commit_verdict Accepted (kr_Offset r) k1), mkIntake k2
                    (upd_pools <[m_BizCode msg := upd_downstreamCh (downstreamCh p ++ [m]) p]> w1))
            else (Ret Refused, mkIntake k1 w1)
        | None => (Ret Refused, mkIntake k1 w1)
        end
  end.
Proof.
  intros Hf Hopen k2. pose proof (Consumer_turn_run (mkIntake k w) d r k1 Hf Hopen) as E. cbn [in_world in_reader] in E.
  destruct (proto_Unmarshal (kr_Value r)) as [e|msg]; [exact E|].
  exists (fresh (dom (msgs w))). split; [apply not_elem_of_dom, is_fresh|]. cbv zeta. rewrite E. unfold taken.
  destruct (pools w !! m_BizCode msg) as [p|]; [|done]. by case_decide.
Qed.

(** C20.  Which refused messages come back.  Take any run of the consumer's loop
    on a partition whose commit point is not ahead of the fetch position when it
    starts, in between any other activity of the node, with commits that may fail
    and rebalances that give the partition to other members for a while.  The
    records are fetched in order, none left out, from the commit point on after a
    rebalance.  When the group goes on from the commit point next, it reads a
    record of the run again only if neither this record nor a later one of the
    run was queued or undecodable and then committed without error, and no other
    member had committed past it.  It surely does so if all of these were refused
    and no other member had committed past it.  The comment on a refused message
    promises more: it is lost as soon as a later message is accepted. *)
Theorem consumer_redelivers_only_tail {K TS : Type} `{KafkaReaderLaws K} `{MapRange} `{WireLib}
    (h : list fetch_event) (i i' : Intake K (World TS)) :
  committed (in_reader i) ≤ position (in_reader i) →
  consumes in_reader (Consumer_turn (K:=K) (TS:=TS)) h i i' →
  goes (position (in_reader i)) (committed (in_reader i)) h (position (in_reader i')) (committed (in_reader i')) ∧
  ∀ o v, Fetched o v ∈ h →
    (committed (in_reader i') ≤ o →
       (∀ o' v', Fetched o' v' ∈ h → o ≤ o' → v' = Refused ∨ v' = Uncommitted) ∧
       (∀ c, Rebalanced c ∈ h → c ≤ o)) ∧
    ((∀ o' v', Fetched o' v' ∈ h → o ≤ o' → v' = Refused) → (∀ c, Rebalanced c ∈ h → c ≤ o) →
       committed (in_reader i') ≤ o).
Proof.
  intros Hle Hc. split; [by apply (consumes_goes _ _ _ _ _ Consumer_disciplined Hc)|].
  intros o v Hin. by apply (consumes_redelivery _ _ _ _ _ _ _ Consumer_disciplined Hc Hle Hin).
Qed.

(** The consumer of [worker/downstream] commits what it loses: a message for
    which there is no pool, or whose pool is full, is committed although no
    channel has received it. *)
Theorem downstream_consumer_commits_lost {K TS : Type} `{KafkaReaderLaws K} `{MapRange} `{WireLib}
    (k k1 k' : K) (w : World TS) (r : KRecord) (msg : Message) :
  FetchMessage k = (inr r, k1) → CommitMessages (kr_Offset r) k1 = (None, k') →
  proto_Unmarshal (kr_Value r) = inr msg →
  (∀ p, pools w !! m_BizCode msg = Some p → pool_closed p = false ∧ pool_cap ≤ length (downstreamCh p)) →
  ∃ w', consumeTopic_turn false (mkIntake k w) = (Ret Accepted, mkIntake k' w') ∧
    pools w' = pools w ∧ committed k' = S (kr_Offset r).
Proof.
  intros Hf Hcm Hu Hp. destruct (commit_ok _ _ _ Hcm) as [_ Hc].
  set (m := fresh (dom (msgs w))). set (w1 := upd_msgs <[m := msg]> w).
  exists w1. split_and!; [|done|done].
  unfold consumeTopic_turn. rewrite bind_run. unfold onK at 1. cbn [in_reader in_world]. rewrite Hf, Hu.
  rewrite bind_run. unfold onW at 1, zoom at 1. cbn [new_msg in_world in_reader]. fold m w1.
  rewrite bind_run. unfold onW at 1, zoom at 1. cbn [gets in_world in_reader].
  change (pools w1) with (pools w).
  assert (commit_as Accepted (kr_Offset r) (mkIntake k1 w1) = (Ret Accepted, mkIntake k' w1)) as Hend
    by (rewrite commit_run; unfold commit_verdict; by rewrite Hcm).
  destruct (pools w !! m_BizCode msg) as [p|] eqn:E; [|exact Hend].
  destruct (Hp p eq_refl) as [Hopen Hfull]. erewrite bind_ret_run; [exact Hend|].
  unfold onW, zoom. rewrite bind_run. cbn [in_world in_reader]. unfold pool_SubmitDownstream. rewrite Hopen.
  rewrite decide_False by lia. done.
Qed.

(** Two messages in a topic, the first for a business domain without a pool. *)
Definition stray_msg : Message :=
  mkMessage FrameType_BUSINESS "m-stray" "nowhere" None None 0 0 None None None None.
Definition record_of (m : Message) : list Z := [Z.pos (encode m)].
Definition demo_topic : MemReader := mkMemReader [record_of stray_msg; record_of demo_msg] 0 0.
Definition demo_intake : Intake MemReader (World demo_TS) := mkIntake demo_topic demo_world.

Lemma decode_record m : proto_Unmarshal (WireLib:=toyWire) (record_of m) = inr m.
Proof. cbn. by rewrite decode_encode. Qed.

Lemma consumer_queues_or_refuses_witness :
  ∃ m, msgs demo_world !! m = None ∧
    Consumer_turn (H1:=toyWire) false false (mkIntake (mkMemReader [record_of demo_msg] 0 0) demo_world) =
      (Ret Accepted, mkIntake (mkMemReader [record_of demo_msg] 1 1)
         (upd_pools <["im" := upd_downstreamCh [m] demo_pool]> (upd_msgs <[m := demo_msg]> demo_world))).
Proof.
  pose proof (consumer_queues_or_refuses (H2:=toyWire) (mkMemReader [record_of demo_msg] 0 0)
    (mkMemReader [record_of demo_msg] 1 0) demo_world (mkKRecord (record_of demo_msg) 0) false
    eq_refl demo_pools_open) as J. cbv zeta in J. cbn [kr_Value] in J. rewrite decode_record in J. exact J.
Defined.

Lemma fetch_demo n v c : mr_log demo_topic !! n = Some v →
  FetchMessage (mkMemReader (mr_log demo_topic) n c) =
    (inr (mkKRecord v n), mkMemReader (mr_log demo_topic) (S n) c).
Proof. intros E. cbn [FetchMessage mem_Reader mr_log mr_pos mr_committed]. by rewrite E. Qed.

(** Two turns: the stray message is refused, the next one accepted. *)
Definition demo_after1 : Intake MemReader (World demo_TS) :=
  (Consumer_turn (H1:=toyWire) false false demo_intake).2.
Definition demo_after2 : Intake MemReader (World demo_TS) :=
  (Consumer_turn (H1:=toyWire) false false demo_after1).2.

Lemma demo_first : ∃ w, pools w = pools demo_world ∧
  Consumer_turn (H1:=toyWire) false false demo_intake =
    (Ret Refused, mkIntake (mkMemReader (mr_log demo_topic) 1 0) w).
Proof.
  eexists. split; [|rewrite (Consumer_turn_run (H2:=toyWire) demo_intake false _ _ (fetch_demo 0 _ 0 eq_refl) demo_pools_open);
    cbn [kr_Value]; rewrite decode_record; reflexivity].
  reflexivity.
Qed.

Lemma demo_turn1 : Consumer_turn (H1:=toyWire) false false demo_intake = (Ret Refused, demo_after1).
Proof. unfold demo_after1. destruct demo_first as (w & _ & ->). done. Qed.

Lemma demo_second (w : World demo_TS) : pools w = pools demo_world →
  let i := mkIntake (mkMemReader (mr_log demo_topic) 1 0) w in
  Consumer_turn (H1:=toyWire) false false i = (Ret Accepted, (Consumer_turn (H1:=toyWire) false false i).2).
Proof.
  intros Hw i. assert (∀ b p, pools w !! b = Some p → pool_closed p = false) as Hopen.
  { rewrite Hw. exact demo_pools_open. }
  assert (FetchMessage (in_reader i) = (inr (mkKRecord (record_of demo_msg) 1), mkMemReader (mr_log demo_topic) 2 0))
    as Hf by exact (fetch_demo 1 (record_of demo_msg) 0 eq_refl).
  pose proof (Consumer_turn_run (H2:=toyWire) i false) as E. specialize (E _ _ Hf Hopen). clear Hf.
  cbn [kr_Value] in E. rewrite decode_record in E. rewrite E. clear E. unfold taken. change (in_world i) with w. rewrite Hw.
  replace (pools demo_world !! m_BizCode demo_msg) with (Some demo_pool) by reflexivity.
  rewrite decide_True by (vm_compute; lia). reflexivity.
Qed.

Lemma demo_turn2 : Consumer_turn (H1:=toyWire) false false demo_after1 = (Ret Accepted, demo_after2).
Proof. unfold demo_after2, demo_after1. destruct demo_first as (w & Hw & ->). by apply demo_second. Qed.

(** A reader in memory has a record at every offset. *)
Lemma mem_next (i i' : Intake MemReader (World demo_TS)) v : fetched v = true →
  Consumer_turn (H1:=toyWire) false false i = (Ret v, i') → position (in_reader i') = S (position (in_reader i)).
Proof.
  intros Hv E. pose proof (Consumer_disciplined (H2:=toyWire) _ _ _ _ _ E) as Hd. rewrite Hv in Hd.
  destruct Hd as (o & Ho & Hgap & -> & _). destruct (decide (o = position (in_reader i))) as [->|]; [done|].
  destruct (Hgap (position (in_reader i))); [lia|exact I].
Qed.
Lemma demo_positions : pred (position (in_reader demo_after1)) = 0 ∧ pred (position (in_reader demo_after2)) = 1.
Proof.
  pose proof (mem_next _ _ Refused eq_refl demo_turn1) as E1. pose proof (mem_next _ _ Accepted eq_refl demo_turn2) as E2.
  rewrite E2, E1. done.
Qed.

Lemma consumer_redelivers_only_tail_witness :
  ∃ h, consumes in_reader (Consumer_turn (H1:=toyWire)) h demo_intake demo_after2 ∧
    h = [Fetched 0 Refused; Fetched 1 Accepted] ∧ ¬ committed (in_reader demo_after2) ≤ 0.
Proof.
  assert (consumes in_reader (Consumer_turn (H1:=toyWire)) [Fetched 0 Refused; Fetched 1 Accepted]
    demo_intake demo_after2) as Hc.
  { pose proof (consumes_turn in_reader (Consumer_turn (H1:=toyWire)) _ _ _ _ _ _ _ (consumes_start _ _ _) demo_turn1) as H1.
    pose proof (consumes_turn in_reader (Consumer_turn (H1:=toyWire)) _ _ _ _ _ _ _ H1 demo_turn2) as H2.
    cbn [fetched app] in H2. destruct demo_positions as [E1 E2]. rewrite E1, E2 in H2. exact H2. }
  exists [Fetched 0 Refused; Fetched 1 Accepted]. split_and!; [exact Hc|done|].
  destruct (consumer_redelivers_only_tail (H:=mem_Reader) (H2:=toyWire) [Fetched 0 Refused; Fetched 1 Accepted] demo_intake demo_after2
    (le_n 0) Hc) as [_ J].
  destruct (J 0 Refused ltac:(apply elem_of_cons; by left)) as [Hno _]. intros Hle. destruct (Hno Hle) as [Hall _].
  destruct (Hall 1 Accepted ltac:(apply elem_of_cons; right; by apply list_elem_of_singleton) ltac:(lia)); discriminate.
Defined.

Lemma downstream_consumer_commits_lost_witness :
  ∃ w', consumeTopic_turn (H1:=toyWire) false demo_intake =
      (Ret Accepted, mkIntake (mkMemReader (mr_log demo_topic) 1 1) w') ∧
    pools w' = pools demo_world ∧ committed (mkMemReader (mr_log demo_topic) 1 1) = 1.
Proof.
  refine (downstream_consumer_commits_lost (H2:=toyWire) demo_topic (mkMemReader (mr_log demo_topic) 1 0)
    (mkMemReader (mr_log demo_topic) 1 1) demo_world
    (mkKRecord (record_of stray_msg) 0) stray_msg (fetch_demo 0 _ 0 eq_refl) eq_refl (decode_record _) _).
  intros p. vm_compute. discriminate.
Defined.
