(* ===== verification/Topics.v ===== *)
(** * Topics, readers and writers
    ([gateway/internal/utils/kafka], [worker/upstream])

    Which Kafka topics a business type uses, the caches that open one reader or
    writer per topic, and the upstream senders built on them. *)

From stdpp Require Import base list gmap strings numbers.
From S2P Require Import Prelude Timer Shard Message Codec Router World Connection.
From S2P Require Import Pool Session Demo SessionSpec Uplink UplinkSpec Worker Handler Kafka.

(** [config.TopicPair] *)
Record TopicPair := mkTopicPair { UpstreamTopic : string; DownstreamTopic : string }.
#[export] Instance TopicPair_inhabited : Inhabited TopicPair := populate (mkTopicPair "" "").
(** [config.KafkaConfig] *)
Record KafkaConfig := mkKafkaConfig { Brokers : list string; BusinessTopics : gmap string TopicPair }.

(** ** [TopicManager] *)
Record TopicManager := mkTopicManager { tm_topics : gmap string TopicPair }.

Section topics.
Context `{MapRange}.

(** The loop copies the configured pairs one by one. *)
Definition NewTopicManager (cfg : KafkaConfig) : TopicManager :=
  mkTopicManager (foldl (λ m kv, <[kv.1 := kv.2]> m) ∅ (map_range (BusinessTopics cfg))).

Definition GetUpstreamTopic (key : string) (tm : TopicManager) : string :=
  match tm_topics tm !! key with Some tp => UpstreamTopic tp | None => "" end.
Definition GetTopicConfig (key : string) (tm : TopicManager) : option TopicPair := tm_topics tm !! key.
Definition GetDownstreamTopic (key : string) (tm : TopicManager) : string :=
  match tm_topics tm !! key with Some tp => DownstreamTopic tp | None => "" end.

Definition GetAllUpstreamTopics (tm : TopicManager) : list string :=
  foldl (λ ts kv, if decide (UpstreamTopic kv.2 = "") then ts else ts ++ [UpstreamTopic kv.2]) []
    (map_range (tm_topics tm)).
Definition GetAllDownstreamTopics (tm : TopicManager) : list string :=
  foldl (λ ts kv, if decide (DownstreamTopic kv.2 = "") then ts else ts ++ [DownstreamTopic kv.2]) []
    (map_range (tm_topics tm)).
Definition BusinessTypes (tm : TopicManager) : list string :=
  foldl (λ ks kv, ks ++ [kv.1]) [] (map_range (tm_topics tm)).

(** Appending in a loop is filtering and mapping. *)
Lemma foldl_collect {A} (P : A → Prop) `{∀ a, Decision (P a)} (f : A → string) l acc :
  foldl (λ ts a, if decide (P a) then ts else ts ++ [f a]) acc l = acc ++ (f <$> filter (λ a, ¬ P a) l).
Proof.
  revert acc. induction l as [|a l IH]; intros acc; simpl; [by rewrite app_nil_r|].
  rewrite IH, filter_cons. repeat case_decide; try done. by rewrite <-app_assoc.
Qed.

Lemma foldl_keys {A} (l : list (string * A)) acc : foldl (λ ks kv, ks ++ [kv.1]) acc l = acc ++ l.*1.
Proof.
  revert acc. induction l as [|a l IH]; intros acc; simpl; [by rewrite app_nil_r|]. by rewrite IH, <-app_assoc.
Qed.

Lemma foldl_insert {A} (l : list (string * A)) (m : gmap string A) : NoDup l.*1 →
  foldl (λ m kv, <[kv.1 := kv.2]> m) m l = list_to_map l ∪ m.
Proof.
  revert m. induction l as [|[k v] l IH]; intros m Hl; simpl; [by rewrite map_empty_union|].
  inversion_clear Hl as [|? ? Hk Hl']. rewrite (IH _ Hl').
  rewrite <-insert_union_l, <-insert_union_r; [done|]. by apply not_elem_of_list_to_map_1.
Qed.

Lemma NewTopicManager_topics cfg : tm_topics (NewTopicManager cfg) = BusinessTopics cfg.
Proof.
  unfold NewTopicManager. cbn. pose proof (map_range_perm (BusinessTopics cfg)) as Hp.
  assert (NoDup (map_range (BusinessTopics cfg)).*1) as Hn.
  { rewrite Hp. apply NoDup_fst_map_to_list. }
  rewrite foldl_insert by done. rewrite map_union_empty.
  rewrite (list_to_map_proper _ _ Hn Hp). apply list_to_map_to_list.
Qed.
End topics.

(** ** Caches of clients

    [newReader], [getReader] and [getWriter] all look a topic up under a mutex
    and open a client on the first request.  Clients are numbered in the order
    they are opened. *)
Record Cache := mkCache { cached : gmap string nat; opened : list string }.
Definition empty_cache : Cache := mkCache ∅ [].

Definition get_or_open (topic : string) (c : Cache) : nat * Cache :=
  match cached c !! topic with
  | Some r => (r, c)
  | None => let r := length (opened c) in (r, mkCache (<[topic := r]> (cached c)) (opened c ++ [topic]))
  end.

Definition open_all (topics : list string) (c : Cache) : Cache :=
  foldl (λ c topic, (get_or_open topic c).2) c topics.

(** The cache knows the clients that were opened, one per topic. *)
Definition cache_ok (c : Cache) : Prop :=
  NoDup (opened c) ∧ ∀ t r, cached c !! t = Some r ↔ opened c !! r = Some t.

Lemma get_or_open_ok t c : cache_ok c →
  cache_ok (get_or_open t c).2 ∧ cached (get_or_open t c).2 !! t = Some (get_or_open t c).1 ∧
  (∀ t', t' ∈ opened (get_or_open t c).2 ↔ t' = t ∨ t' ∈ opened c).
Proof.
  intros [Hn Hc]. unfold get_or_open. destruct (cached c !! t) as [r|] eqn:E; simpl.
  - split_and!; [done|done|]. intros t'. split; [auto|]. intros [->|?]; [|done].
    apply Hc in E. by eapply list_elem_of_lookup_2.
  - assert (t ∉ opened c) as Ht.
    { intros [r Hr]%list_elem_of_lookup_1. apply Hc in Hr. congruence. }
    split_and!; [split|by rewrite lookup_insert_eq|].
    + apply list.NoDup_app. split_and!; [done| |apply NoDup_singleton].
      intros x Hx ->%list_elem_of_singleton. done.
    + intros t' r. simpl. rewrite lookup_insert_Some, lookup_app_Some, Hc, list_lookup_singleton_Some. split.
      * intros [[<- <-]|[? ?]]; [right; split_and!; [lia|lia|done]|by left].
      * intros [Hr|(? & ? & ->)]; [right; split; [|done]|left; split; [done|lia]].
        intros <-. apply Ht. by eapply list_elem_of_lookup_2.
    + intros t'. rewrite elem_of_app, list_elem_of_singleton. tauto.
Qed.

Lemma open_all_ok ts c : cache_ok c →
  cache_ok (open_all ts c) ∧ ∀ t, t ∈ opened (open_all ts c) ↔ t ∈ ts ∨ t ∈ opened c.
Proof.
  revert c. induction ts as [|t ts IH]; intros c Hc; simpl.
  - split; [done|]. intros t. rewrite elem_of_nil. tauto.
  - destruct (get_or_open_ok t c Hc) as (Hc' & _ & Hm). destruct (IH _ Hc') as [H1 H2].
    split; [done|]. intros t'. fold (open_all ts (get_or_open t c).2). rewrite H2, Hm, elem_of_cons. tauto.
Qed.

Lemma empty_cache_ok : cache_ok empty_cache.
Proof. split; [apply NoDup_nil_2|]. intros t r. simpl. by rewrite lookup_empty. Qed.

(** ** The life of a consumer ([utils/kafka/consumer.go])

    [kc_running] lists the topics of the goroutines that have not returned,
    [kc_cancel] says whether the field [cancel] is set: nothing sets it. *)
Record Consumer := mkConsumer {
  kc_topics : list string; ReaderMap : Cache; kc_cancel : bool; kc_running : list string;
  kc_closed : list nat;
}.

Definition NewConsumer (topics : list string) : Consumer := mkConsumer topics empty_cache false [] [].

(** [wg.Add(1)] and [go] for every topic. *)
Definition consumer_Start (c : Consumer) : Consumer :=
  mkConsumer (kc_topics c) (ReaderMap c) (kc_cancel c) (kc_running c ++ kc_topics c) (kc_closed c).

(** The first thing a goroutine does. *)
Definition newReader (topic : string) (c : Consumer) : nat * Consumer :=
  let '(r, m) := get_or_open topic (ReaderMap c) in
  (r, mkConsumer (kc_topics c) m (kc_cancel c) (kc_running c) (kc_closed c)).

(** The last: [wg.Done()]. *)
Definition consumer_exit (topic : string) (c : Consumer) : Consumer :=
  mkConsumer (kc_topics c) (ReaderMap c) (kc_cancel c)
    (match list_find (λ t, t = topic) (kc_running c) with
     | Some (n, _) => delete n (kc_running c)
     | None => kc_running c
     end) (kc_closed c).

(** [None]: [wg.Wait()] waits.  The call of [cancel] cannot happen. *)
Definition consumer_Stop (c : Consumer) : option Consumer :=
  match kc_running c with
  | [] => Some (mkConsumer (kc_topics c) (ReaderMap c) (kc_cancel c) [] (seq 0 (length (opened (ReaderMap c)))))
  | _ => None
  end.

(** A goroutine returns only when the context given to [Start] is done, and
    [Stop] does not end it. *)
Lemma Consumer_turn_stopped {K TS : Type} `{KafkaReader K} `{MapRange} `{WireLib} d d' (i i' : Intake K (World TS)) :
  Consumer_turn d d' i = (Ret Stopped, i') → d = true ∨ d' = true.
Proof.
  unfold Consumer_turn. destruct d; [auto|]. destruct d'; [auto|].
  rewrite bind_run. unfold onK at 1. destruct (FetchMessage (in_reader i)) as [[e|r] k1]; [done|].
  destruct (proto_Unmarshal (kr_Value r)) as [e|msg].
  { unfold commit_as. rewrite bind_run. unfold onK. by destruct (CommitMessages _ _) as [[]]. }
  rewrite bind_run. destruct (onW _ _) as [[m|why] i1]; [|done].
  rewrite bind_run. destruct (onW _ i1) as [[[e|p]|why] i2]; [done| |done].
  rewrite bind_run. destruct (onW _ i2) as [[[]|why] i3]; [|done|done].
  unfold commit_as. rewrite bind_run. unfold onK. by destruct (CommitMessages _ _) as [[]].
Qed.

(** ** The senders ([worker/upstream]) *)

(** An asynchronous [*kafka.Writer] of a topic takes records over; what it
    reports is whether it took them, not whether a broker has them. *)
Class KafkaWriter (B : Type) : Type := {
  WriteMessages : string → list (list Z * list Z) → B → error * B;
  handed : B → string → list (list Z * list Z);
}.
Class KafkaWriterLaws (B : Type) `{KafkaWriter B} : Prop := {
  write_ok t ms b b' : WriteMessages t ms b = (None, b') →
    handed b' t = handed b t ++ ms ∧ ∀ t', t' ≠ t → handed b' t' = handed b t';
  write_error t ms b e b' : WriteMessages t ms b = (Some e, b') → handed b' = handed b;
}.

Record KafkaSender := mkKafkaSender { ks_brokers : list string; ks_writerMap : Cache; ks_topic : string }.
Definition NewKafkaSender (brokers : list string) (topic : string) : KafkaSender :=
  mkKafkaSender brokers empty_cache topic.

Section sender.
Context {B : Type} `{KafkaWriter B}.
(** [proto.Marshal] of an [UpstreamEvent] whose body carries the given data. *)
Context (marshal_UpstreamEvent : list Z → string + list Z).

Definition Publish (s : KafkaSender) (msg : Message) : error := None.

Definition getWriter (topic : string) (s : KafkaSender) : nat * KafkaSender :=
  let '(w, m) := get_or_open topic (ks_writerMap s) in (w, mkKafkaSender (ks_brokers s) m (ks_topic s)).

Definition kafka_Send (s : KafkaSender) (msg : Message) (b : B) : error * (KafkaSender * B) :=
  let payload : list Z := [] in
  match marshal_UpstreamEvent payload with
  | inl err => (Some err, (s, b))
  | inr data =>
      let '(_, s') := getWriter (ks_topic s) s in
      let '(err, b') := WriteMessages (ks_topic s) [(bytes_of (m_MsgId msg), data)] b in
      (err, (s', b'))
  end.
End sender.

(** The clients [Close] closes. *)
Definition kafka_Close (s : KafkaSender) : list nat := seq 0 (length (opened (ks_writerMap s))).

(** [grpc_sender.go]; [grpc.Dial] is a parameter and its connections are of
    type [C]. *)
Section grpc.
Context {C : Type} (Dial : string → string + C).
Record GrpcSender := mkGrpcSender { gr_addr : string; gr_method : string; gr_conn : option C }.
Definition NewGRPCSender (addr : string) : GrpcSender := mkGrpcSender addr "" None.

Definition getConn (s : GrpcSender) : (string + C) * GrpcSender :=
  match gr_conn s with
  | Some c => (inr c, s)
  | None => match Dial (gr_addr s) with
            | inl err => (inl err, s)
            | inr c => (inr c, mkGrpcSender (gr_addr s) (gr_method s) (Some c))
            end
  end.

(** It takes no message and sends none. *)
Definition grpc_Send (s : GrpcSender) : error * GrpcSender :=
  match getConn s with
  | (inl err, s') => (Some err, s')
  | (inr _, s') => (None, s')
  end.

(** The connection [Close] closes. *)
Definition grpc_Close (s : GrpcSender) : option C := gr_conn s.

(** Once connected, it stays connected and reports success. *)
Lemma grpc_Send_connected s s' : grpc_Send s = (None, s') → grpc_Send s' = (None, s') ∧ is_Some (gr_conn s').
Proof.
  unfold grpc_Send, getConn. destruct (gr_conn s) as [c|] eqn:E.
  - intros [= <-]. rewrite E. eauto.
  - destruct (Dial (gr_addr s)) as [e|c]; [done|]. intros [= <-]. simpl. eauto.
Qed.
End grpc.

(** The goroutines begin, in some order. *)
Definition begin_all (order : list string) (c : Consumer) : Consumer :=
  foldl (λ c t, (newReader t c).2) c order.

Lemma begin_all_readers order c :
  ReaderMap (begin_all order c) = open_all order (ReaderMap c) ∧
  kc_running (begin_all order c) = kc_running c ∧ kc_cancel (begin_all order c) = kc_cancel c.
Proof.
  revert c. induction order as [|t order IH]; intros c; [done|]. simpl.
  fold (begin_all order (newReader t c).2) (open_all order (get_or_open t (ReaderMap c)).2).
  destruct (IH (newReader t c).2) as (-> & -> & ->). unfold newReader.
  by destruct (get_or_open t (ReaderMap c)).
Qed.

Lemma elem_of_GetAllDownstreamTopics `{MapRange} cfg t :
  t ∈ GetAllDownstreamTopics (NewTopicManager cfg) ↔
  t ≠ "" ∧ ∃ key tp, BusinessTopics cfg !! key = Some tp ∧ DownstreamTopic tp = t.
Proof.
  unfold GetAllDownstreamTopics. rewrite foldl_collect, app_nil_l, NewTopicManager_topics, list_elem_of_fmap.
  split.
  - intros ([key tp] & -> & [Hne Hin]%list_elem_of_filter). simpl in *. split; [done|].
    rewrite map_range_perm in Hin. apply elem_of_map_to_list in Hin. eauto.
  - intros (Hne & key & tp & Hk & <-). exists (key, tp). split; [done|]. apply list_elem_of_filter.
    split; [done|]. rewrite map_range_perm. by apply elem_of_map_to_list.
Qed.

(** ** Claims *)

(** A consumer of all downstream topics covers the configuration.  Whatever
    order the goroutines begin in, a reader is open for a topic if and only if
    the topic is configured for some business type and not empty, and there is
    one reader per topic even where business types share it; [Stop] then waits
    as long as a goroutine runs, and a goroutine runs until the context given
    to [Start] is done, because nothing sets the consumer's own [cancel]. *)
Theorem consumer_covers_topics `{MapRange} (cfg : KafkaConfig) (order : list string) :
  let ts := GetAllDownstreamTopics (NewTopicManager cfg) in
  order ≡ₚ ts →
  let c := begin_all order (consumer_Start (NewConsumer ts)) in
  (∀ t, is_Some (cached (ReaderMap c) !! t) ↔
     t ≠ "" ∧ ∃ key tp, BusinessTopics cfg !! key = Some tp ∧ DownstreamTopic tp = t) ∧
  NoDup (opened (ReaderMap c)) ∧
  (∀ t r, cached (ReaderMap c) !! t = Some r ↔ opened (ReaderMap c) !! r = Some t) ∧
  kc_cancel c = false ∧ (ts ≠ [] → consumer_Stop c = None).
Proof.
  intros ts Ho c. destruct (begin_all_readers order (consumer_Start (NewConsumer ts))) as (HR & Hrun & Hcan).
  fold c in HR, Hrun, Hcan. destruct (open_all_ok order empty_cache empty_cache_ok) as [[Hn Hc] Hm].
  cbn [consumer_Start NewConsumer ReaderMap] in HR. rewrite HR. split_and!; [|done|done|by rewrite Hcan|].
  - intros t. rewrite <-elem_of_GetAllDownstreamTopics. fold ts. rewrite <-Ho.
    transitivity (t ∈ opened (open_all order empty_cache)).
    + split; [intros [r Hr]; apply Hc in Hr; by eapply list_elem_of_lookup_2|].
      intros [r Hr]%list_elem_of_lookup_1. exists r. by apply Hc.
    + rewrite Hm. simpl. rewrite elem_of_nil. tauto.
  - intros Hts. unfold consumer_Stop. rewrite Hrun. cbn [consumer_Start NewConsumer kc_running kc_topics app].
    by destruct ts.
Qed.

(** A message the sender took leaves the queue and nothing else changes. *)
Lemma upstream_turn_sent {TS : Type} `{Scheduler TS timeoutPayload unit} `{MapRange} `{PayloadLib}
    (sender : Message → error) (w : World TS) biz pool job q msg :
  pools w !! biz = Some pool → upstreamCh pool = job :: q → msgs w !! uj_Msg job = Some msg →
  sender msg = None →
  upstreamWorker_turn sender false biz w = (Ret Continue, upd_pools <[biz := upd_upstreamCh q pool]> w).
Proof.
  intros Ep Eq Em Hs. unfold upstreamWorker_turn. erewrite bind_ret_run by reflexivity. rewrite Ep.
  erewrite bind_ret_run by reflexivity. rewrite andb_false_r, Eq.
  rewrite (bind_ret_run _ _ _ _ _ (on_pool_run biz _ w pool Ep)).
  rewrite (bind_ret_run _ _ _ _ _ (upstream_job_sent sender job
    (upd_pools <[biz := upd_upstreamCh q pool]> w) msg Em (or_intror Hs))). done.
Qed.

Definition demo_kafka : KafkaConfig :=
  mkKafkaConfig ["b:9092"] {[ "im" := mkTopicPair "im.up" "im.down"; "live" := mkTopicPair "live.up" "" ]}.

Lemma consumer_covers_topics_witness :
  let ts := GetAllDownstreamTopics (NewTopicManager demo_kafka) in
  let c := begin_all ts (consumer_Start (NewConsumer ts)) in
  is_Some (cached (ReaderMap c) !! "im.down") ∧ consumer_Stop c = None.
Proof.
  destruct (consumer_covers_topics demo_kafka (GetAllDownstreamTopics (NewTopicManager demo_kafka))
    (Permutation_refl _)) as (H1 & _ & _ & _ & H2). split.
  - apply H1. split; [done|]. exists "im", (mkTopicPair "im.up" "im.down"). split; vm_compute; reflexivity.
  - apply H2. vm_compute. discriminate.
Defined.

(** What the business side gets of a client's message is its ID.  The worker
    counts the message as sent and answers nothing; the record handed to Kafka has
    the message's ID as key and the same value for every message: an event with an
    empty body.  Two messages with one ID cannot be told apart. *)
Theorem kafka_sender_drops_payload {TS B : Type} `{Scheduler TS timeoutPayload unit} `{MapRange} `{PayloadLib}
    `{KafkaWriterLaws B} (marshal_UpstreamEvent : list Z → string + list Z)
    (s s' : KafkaSender) (b b' : B) (w : World TS) biz pool job q msg :
  pools w !! biz = Some pool → upstreamCh pool = job :: q → msgs w !! uj_Msg job = Some msg →
  kafka_Send marshal_UpstreamEvent s msg b = (None, (s', b')) →
  upstreamWorker_turn (λ m, (kafka_Send marshal_UpstreamEvent s m b).1) false biz w =
    (Ret Continue, upd_pools <[biz := upd_upstreamCh q pool]> w) ∧
  (∃ data, marshal_UpstreamEvent [] = inr data ∧
     handed b' (ks_topic s) = handed b (ks_topic s) ++ [(bytes_of (m_MsgId msg), data)]) ∧
  (∀ msg', m_MsgId msg' = m_MsgId msg →
     kafka_Send marshal_UpstreamEvent s msg' b = kafka_Send marshal_UpstreamEvent s msg b).
Proof.
  intros Ep Eq Em Hs. split; [|split].
  - refine (upstream_turn_sent _ w biz pool job q msg Ep Eq Em _). by rewrite Hs.
  - unfold kafka_Send in Hs. destruct (marshal_UpstreamEvent []) as [e|data]; [done|]. exists data.
    destruct (getWriter (ks_topic s) s) as [i s1]. destruct (WriteMessages _ _ b) as [e b1] eqn:E.
    injection Hs as -> -> ->. split; [done|]. by apply write_ok in E as [-> _].
  - intros msg' Hid. unfold kafka_Send. by rewrite Hid.
Qed.

(** A broker that keeps what it is handed. *)
#[export] Instance mem_Writer : KafkaWriter (gmap string (list (list Z * list Z))) := {|
  WriteMessages t ms b := (None, <[t := default [] (b !! t) ++ ms]> b);
  handed b t := default [] (b !! t);
|}.
#[export] Instance mem_WriterLaws : KafkaWriterLaws (gmap string (list (list Z * list Z))).
Proof.
  split; cbn; [|done]. intros t ms b b' [= <-]. split; [by rewrite lookup_insert_eq|].
  intros t' Hne. by rewrite lookup_insert_ne.
Qed.

Lemma kafka_sender_drops_payload_witness :
  let s := NewKafkaSender ["b:9092"] "im.up" in
  let empty : gmap string (list (list Z * list Z)) := ∅ in
  ∃ s' b', kafka_Send inr s demo_msg empty = (None, (s', b')) ∧
    handed b' "im.up" = [(bytes_of "message-1", [])] ∧
    upstreamWorker_turn (H1:=demo_payload) (λ m, (kafka_Send inr s m empty).1) false "im" busy_world =
      (Ret Continue, upd_pools <["im" := upd_upstreamCh [] busy_pool]> busy_world).
Proof.
  intros s empty.
  assert (∃ s' b', kafka_Send inr s demo_msg empty = (None, (s', b'))) as (s' & b' & Hs)
    by (eexists _, _; reflexivity).
  exists s', b'. split; [exact Hs|].
  destruct (kafka_sender_drops_payload (H1:=demo_payload) inr s s' empty b' busy_world "im" busy_pool
    (mkUpJob demo_ref 1) [] demo_msg eq_refl eq_refl eq_refl Hs) as (Hw & (data & Hd & Hh) & _).
  injection Hd as <-. split; [exact Hh|exact Hw].
Defined.
