(* ===== verification/Business.v ===== *)
(** * The business service ([business/internal])

    The other side of Kafka: it consumes what clients sent, answers every
    message on the downstream topic of its business type, and pushes messages on
    request over HTTP.  The package [common-protocol/v1] of its message types is
    not in the repository: of it, the class [BusinessProto] has what the service
    uses. *)

From stdpp Require Import base list gmap strings numbers pretty.
From S2P Require Import Prelude Timer Shard Message Codec Router World Connection.
From S2P Require Import Pool Session Demo Handler Kafka Topics.

(** Protobuf enumerations are numbers with names. *)
Record UpstreamKafkaMessage := mkUpMsg {
  um_CorrelationId : string; um_ConnId : string; um_UserId : string; um_DeviceId : string;
  um_BusinessType : Z; um_OriginalType : Z; um_Timestamp : Z; um_Payload : list Z;
}.
Record DownstreamKafkaMessage := mkDownMsg {
  dm_CorrelationId : string; dm_ConnId : string; dm_UserId : string; dm_DeviceId : string;
  dm_TargetType : Z; dm_Payload : list Z; dm_Timestamp : Z; dm_BusinessType : Z;
}.

Class BusinessProto : Type := {
  unmarshal_Upstream : list Z → string + UpstreamKafkaMessage;
  marshal_Downstream : DownstreamKafkaMessage → string + list Z;
  BusinessType_String : Z → string;
  SignalType_MESSAGE_ACK : Z;
}.

(** The state of the service: its topics, its writers, Kafka, the clock. *)
Record Backend (B : Type) := mkBackend {
  be_topics : gmap string TopicPair; be_writers : Cache; be_broker : B; be_now : Z;
}.
Arguments mkBackend {B}. Arguments be_topics {B}. Arguments be_writers {B}.
Arguments be_broker {B}. Arguments be_now {B}.

(** [PushRequest]; a nil payload is [None]. *)
Record PushRequest := mkPush {
  pr_ConnID : string; pr_UserID : string; pr_DeviceID : string;
  pr_BusinessType : Z; pr_TargetType : Z; pr_Payload : option (list Z);
}.

(** The entries of a batch's answer: index, status, error. *)
Record push_result := mkPushResult { res_Index : nat; res_Status : string; res_Error : string }.

Inductive http_body : Set :=
  | BodyError (e : string)
  | BodyOk (correlation_id : string)
  | BodyBatch (total : nat) (results : list push_result)
  | BodyHealth (unix : Z).
Definition http_answer : Type := Z * http_body.

(** [fmt.Sprintf("%d", v)] and the reply's payload. *)
Definition fmt_d (v : Z) : string := pretty v.
Definition quote : string := String (Ascii.ascii_of_nat 34) "".
Definition quoted (s : string) : string := quote +:+ s +:+ quote.
Definition replyPayload (correlation_id : string) (now : Z) : string :=
  "{" +:+ quoted "ack" +:+ ":" +:+ quoted "ok" +:+ "," +:+ quoted "original_correlation_id" +:+ ":" +:+
  quoted correlation_id +:+ "," +:+ quoted "reply_time" +:+ ":" +:+ fmt_d (UnixMilli now) +:+ "}".

Section business.
Context {B : Type} `{KafkaWriter B} `{BusinessProto} `{MapRange}.
Implicit Types (s : Backend B).

(** ** [sender.go] *)
Definition be_getWriter (topic : string) s : nat * Backend B :=
  let '(w, c) := get_or_open topic (be_writers s) in
  (w, mkBackend (be_topics s) c (be_broker s) (be_now s)).

Definition be_Send (topic : string) (msg : DownstreamKafkaMessage) s : error * Backend B :=
  match marshal_Downstream msg with
  | inl err => (Some err, s)
  | inr data =>
      let '(_, s1) := be_getWriter topic s in
      let '(err, b) := WriteMessages topic [(bytes_of (dm_ConnId msg), data)] (be_broker s1) in
      (err, mkBackend (be_topics s1) (be_writers s1) b (be_now s1))
  end.

(** ** [server.go] *)
Definition getUpstreamTopics s : list string := UpstreamTopic ∘ snd <$> map_range (be_topics s).

Definition be_getDownstreamTopic (bizType : Z) s : string :=
  match be_topics s !! BusinessType_String bizType with
  | Some tp => DownstreamTopic tp
  | None => ""
  end.

Definition reply_to (msg : UpstreamKafkaMessage) (now : Z) : DownstreamKafkaMessage :=
  mkDownMsg (fmt_d now) (um_ConnId msg) (um_UserId msg) (um_DeviceId msg) SignalType_MESSAGE_ACK
    (bytes_of (replyPayload (um_CorrelationId msg) now)) (UnixMilli now) (um_BusinessType msg).

Definition handleUpstreamMessage (msg : UpstreamKafkaMessage) s : error * Backend B :=
  let downstreamMsg := reply_to msg (be_now s) in
  let topic := be_getDownstreamTopic (um_BusinessType msg) s in
  if decide (topic = "") then (None, s) else be_Send topic downstreamMsg s.

Definition handleHealth s : http_answer := (200, BodyHealth (be_now s `div` 10 ^ 9))%Z.

Definition push_message (req : PushRequest) (now : Z) : DownstreamKafkaMessage :=
  mkDownMsg (fmt_d now) (pr_ConnID req) (pr_UserID req) (pr_DeviceID req) (pr_TargetType req)
    (default [] (pr_Payload req)) (UnixMilli now) (pr_BusinessType req).

(** The tags [binding:"required"] of [PushRequest]: zero values are refused.
    [parsed] is the result of JSON decoding. *)
Definition push_required (req : PushRequest) : bool :=
  bool_decide (pr_ConnID req ≠ "" ∧ pr_UserID req ≠ "" ∧ pr_DeviceID req ≠ "" ∧
    pr_BusinessType req ≠ 0%Z ∧ pr_TargetType req ≠ 0%Z ∧ is_Some (pr_Payload req)).
Definition bind_push (parsed : string + PushRequest) : string + PushRequest :=
  match parsed with
  | inl e => inl e
  | inr req => if push_required req then inr req else inl "Field validation failed on the 'required' tag"
  end.

Definition handlePushMessage (parsed : string + PushRequest) s : http_answer * Backend B :=
  match bind_push parsed with
  | inl err => ((400%Z, BodyError err), s)
  | inr req =>
      let topic := be_getDownstreamTopic (pr_BusinessType req) s in
      if decide (topic = "") then ((400%Z, BodyError "unsupported business type"), s)
      else
        let msg := push_message req (be_now s) in
        let '(err, s') := be_Send topic msg s in
        match err with
        | Some _ => ((500%Z, BodyError "failed to push message"), s')
        | None => ((200%Z, BodyOk (dm_CorrelationId msg)), s')
        end
  end.

(** The tag of [Messages] is [required,min=1,max=100]; without [dive] the
    validator does not look at the tags of the elements. *)
Definition bind_batch (parsed : string + list PushRequest) : string + list PushRequest :=
  match parsed with
  | inl e => inl e
  | inr reqs => if decide (1 ≤ length reqs ≤ 100) then inr reqs
                else inl "Field validation for 'Messages' failed"
  end.

(** The loop's body for the message at index [i]. *)
Definition push_one (i : nat) (pushReq : PushRequest) s : push_result * Backend B :=
  let topic := be_getDownstreamTopic (pr_BusinessType pushReq) s in
  if decide (topic = "") then (mkPushResult i "error" "unsupported business type", s)
  else
    let '(err, s') := be_Send topic (push_message pushReq (be_now s)) s in
    match err with
    | Some e => (mkPushResult i "error" e, s')
    | None => (mkPushResult i "ok" "", s')
    end.

Fixpoint push_all (i : nat) (reqs : list PushRequest) s : list push_result * Backend B :=
  match reqs with
  | [] => ([], s)
  | r :: reqs' =>
      let '(res, s1) := push_one i r s in
      let '(ress, s2) := push_all (S i) reqs' s1 in
      (res :: ress, s2)
  end.

Definition handleBatchPush (parsed : string + list PushRequest) s : http_answer * Backend B :=
  match bind_batch parsed with
  | inl err => ((400%Z, BodyError err), s)
  | inr reqs =>
      let '(results, s') := push_all 0 reqs s in
      ((200%Z, BodyBatch (length reqs) results), s')
  end.
End business.

(** ** [consumer.go] *)
Section consumer.
Context {K B : Type} `{KafkaReader K} `{BusinessProto}.
Abbreviation MB := (M (Intake K (Backend B))).

(** One turn of the loop of [Consumer.Start]. *)
Definition business_turn (handler : UpstreamKafkaMessage → Backend B → error * Backend B)
    (ctx_done ctx_err : bool) : MB verdict :=
  if ctx_done then mret Stopped
  else
    r ← onK FetchMessage;
    match r with
    | inl _ => mret (if ctx_err then Stopped else FetchFailed)
    | inr msg =>
        match unmarshal_Upstream (kr_Value msg) with
        | inl _ => commit_as Poison (kr_Offset msg)
        | inr upstreamMsg =>
            err ← onW (λ b, let (e, b') := handler upstreamMsg b in (Ret e, b'));
            match (err : error) with
            | Some _ => mret Refused
            | None => commit_as Accepted (kr_Offset msg)
            end
        end
    end.
End consumer.

Section spec.
Context {B : Type} `{KafkaWriterLaws B} `{BusinessProto} `{MapRange}.
Implicit Types (s : Backend B).

Definition kafka_has s (t : string) : list (list Z * list Z) := handed (be_broker s) t.
Definition record_for (msg : DownstreamKafkaMessage) (data : list Z) : list Z * list Z :=
  (bytes_of (dm_ConnId msg), data).

Lemma be_Send_run t msg s : ∃ s', (be_Send t msg s).2 = s' ∧ be_topics s' = be_topics s ∧ be_now s' = be_now s ∧
  match (be_Send t msg s).1 with
  | None => ∃ data, marshal_Downstream msg = inr data ∧
      kafka_has s' t = kafka_has s t ++ [record_for msg data] ∧ ∀ t', t' ≠ t → kafka_has s' t' = kafka_has s t'
  | Some _ => ∀ t', kafka_has s' t' = kafka_has s t'
  end.
Proof.
  eexists. split; [reflexivity|]. unfold be_Send. destruct (marshal_Downstream msg) as [e|data] eqn:Em; [done|].
  unfold be_getWriter. destruct (get_or_open t (be_writers s)) as [i c]. cbn [be_broker be_topics be_writers be_now].
  destruct (WriteMessages t _ (be_broker s)) as [[e|] b] eqn:Ew; cbn [fst snd]; split_and!; try done.
  - intros t'. unfold kafka_has. simpl. by rewrite (write_error _ _ _ _ _ Ew).
  - apply write_ok in Ew as [Ew Ewt]. eauto.
Qed.

(** The records a batch puts on a topic: those of the entries that answered ok. *)
Definition batch_records (t : string) (reqs : list PushRequest) (results : list push_result) s :
    list (list Z * list Z) :=
  omap (λ '(req, res),
    if decide (res_Status res = "ok" ∧ be_getDownstreamTopic (pr_BusinessType req) s = t)
    then match marshal_Downstream (push_message req (be_now s)) with
         | inr data => Some (record_for (push_message req (be_now s)) data)
         | inl _ => None
         end
    else None) (zip reqs results).

Lemma push_one_run i req s : ∃ res s', push_one i req s = (res, s') ∧
  res_Index res = i ∧ be_topics s' = be_topics s ∧ be_now s' = be_now s ∧
  (res_Status res = "ok" → be_getDownstreamTopic (pr_BusinessType req) s ≠ "") ∧
  (res_Status res ≠ "ok" → res_Status res = "error") ∧
  ∀ t, kafka_has s' t = kafka_has s t ++ batch_records t [req] [res] s.
Proof.
  unfold push_one. set (t0 := be_getDownstreamTopic (pr_BusinessType req) s). case_decide as Et.
  { eexists _, _. split; [reflexivity|]. split_and!; try done. intros t. unfold batch_records. cbn.
    rewrite decide_False by (intros [? _]; done). by rewrite app_nil_r. }
  destruct (be_Send_run t0 (push_message req (be_now s)) s) as (s' & <- & Ht & Hn & Hs).
  destruct (be_Send t0 (push_message req (be_now s)) s) as [[e|] s']; cbn [fst snd] in *.
  - eexists _, _. split; [reflexivity|]. split_and!; try done. intros t. unfold batch_records. cbn.
    rewrite decide_False by (intros [? _]; done). by rewrite app_nil_r.
  - eexists _, _. split; [reflexivity|]. split_and!; try done. intros t. unfold batch_records. cbn.
    destruct Hs as (data & Em & H1' & H2'). fold t0. rewrite Em. case_decide as Hd.
    + destruct Hd as [_ <-]. exact H1'.
    + rewrite app_nil_r. apply H2'. intros ->. by apply Hd.
Qed.

Lemma batch_records_env t reqs results s s' : be_topics s' = be_topics s → be_now s' = be_now s →
  batch_records t reqs results s' = batch_records t reqs results s.
Proof. intros Ht Hn. unfold batch_records, be_getDownstreamTopic. by rewrite Ht, Hn. Qed.

Lemma push_all_run reqs : ∀ i s, ∃ results s', push_all i reqs s = (results, s') ∧
  length results = length reqs ∧ (∀ j res, results !! j = Some res → res_Index res = i + j) ∧
  be_topics s' = be_topics s ∧ be_now s' = be_now s ∧
  ∀ t, kafka_has s' t = kafka_has s t ++ batch_records t reqs results s.
Proof.
  induction reqs as [|req reqs IH]; intros i s; cbn [push_all].
  { eexists _, _. split; [reflexivity|]. split_and!; try done. intros t. by rewrite app_nil_r. }
  destruct (push_one_run i req s) as (res & s1 & E1 & Hi & Ht1 & Hn1 & _ & _ & Hk1). rewrite E1.
  destruct (IH (S i) s1) as (results & s2 & E2 & Hl & Hx & Ht2 & Hn2 & Hk2). rewrite E2.
  eexists _, _. split; [reflexivity|]. split_and!; [simpl; lia| |congruence|congruence|].
  - intros [|j] r; simpl; [intros [= <-]; lia|]. intros Hr. rewrite (Hx _ _ Hr). lia.
  - intros t. rewrite Hk2, Hk1, (batch_records_env t reqs results s s1 Ht1 Hn1).
    unfold batch_records. cbn [zip zip_with omap list_omap]. destruct (decide _); [|by rewrite app_nil_r].
    destruct (marshal_Downstream _); [by rewrite app_nil_r|]. by rewrite <-app_assoc.
Qed.
End spec.

Section consumer_spec.
Context {K B : Type} `{KafkaReaderLaws K} `{BusinessProto}.

Lemma business_disciplined (handler : UpstreamKafkaMessage → Backend B → error * Backend B) :
  disciplined in_reader (business_turn (K:=K) handler).
Proof.
  intros d d' i v i'. unfold business_turn. destruct d; [intros [= <- <-]; done|].
  rewrite bind_run. unfold onK at 1. destruct (FetchMessage (in_reader i)) as [[e|r] k1] eqn:Ef.
  { intros [= <- <-]. destruct d'; cbn; eapply fetch_error; eassumption. }
  destruct (unmarshal_Upstream (kr_Value r)) as [e|msg].
  { rewrite commit_run. intros [= <- <-]. by destruct (committed_turn i r k1 Poison Ef eq_refl) as [-> ?]. }
  rewrite bind_run. unfold onW, zoom. cbn [in_world in_reader].
  destruct (handler msg (in_world i)) as [[e|] b'].
  { intros [= <- <-]. by eapply refused_turn. }
  rewrite commit_run. intros [= <- <-]. by destruct (committed_turn i r k1 Accepted Ef eq_refl) as [-> ?].
Qed.
End consumer_spec.

(** ** Claims *)

(** The backend answers what it consumes.  A turn on a record that decodes to
    a message of a business type with a downstream topic appends one record to
    this topic and to no other: keyed by the message's connection, addressed to
    its connection, user and device, of type MESSAGE_ACK and naming the message's
    correlation ID; the record is then committed, or its commit has failed.  If
    Kafka does not take the answer nothing is appended and nothing committed.  A
    message of another business type is committed without an answer. *)
Theorem business_answers {K B : Type} `{KafkaReader K} `{KafkaWriterLaws B} `{BusinessProto}
    (k k1 : K) (s : Backend B) (r : KRecord) (msg : UpstreamKafkaMessage) (d : bool) :
  FetchMessage k = (inr r, k1) → unmarshal_Upstream (kr_Value r) = inr msg →
  let t := be_getDownstreamTopic (um_BusinessType msg) s in
  let k2 := (CommitMessages (kr_Offset r) k1).2 in
  ∃ v s', business_turn handleUpstreamMessage false d (mkIntake k s) =
      (Ret v, mkIntake (if tries_commit v then k2 else k1) s') ∧
    match v with
    | Accepted | Uncommitted =>
        (t = "" ∧ s' = s) ∨
        (t ≠ "" ∧ ∃ data, marshal_Downstream (reply_to msg (be_now s)) = inr data ∧
           kafka_has s' t = kafka_has s t ++ [(bytes_of (um_ConnId msg), data)] ∧
           ∀ t', t' ≠ t → kafka_has s' t' = kafka_has s t')
    | Refused => t ≠ "" ∧ ∀ t', kafka_has s' t' = kafka_has s t'
    | _ => False
    end.
Proof.
  intros Hf Hu t k2. unfold business_turn. rewrite bind_run. unfold onK at 1. cbn [in_reader in_world]. rewrite Hf, Hu.
  rewrite bind_run. unfold onW, zoom. cbn [in_reader in_world]. unfold handleUpstreamMessage. fold t.
  case_decide as Et.
  { rewrite commit_run. unfold commit_verdict. fold k2.
    destruct (CommitMessages (kr_Offset r) k1).1; [exists Uncommitted, s|exists Accepted, s];
      (split; [reflexivity|]; by left). }
  destruct (be_Send_run t (reply_to msg (be_now s)) s) as (s' & <- & _ & _ & Hs).
  destruct (be_Send t (reply_to msg (be_now s)) s) as [[e|] s']; cbn [fst snd] in *.
  - exists Refused, s'. done.
  - destruct Hs as (data & Em & H1' & H2'). rewrite commit_run. unfold commit_verdict. fold k2.
    destruct (CommitMessages (kr_Offset r) k1).1; [exists Uncommitted, s'|exists Accepted, s'];
      (split; [reflexivity|]; right; split; [done|]; exists data; done).
Qed.

(** The backend's consumer, like the gateway's, loses what it could not
    handle: over any run of its loop, the group reads a record again only if
    neither it nor a later one was answered or undecodable and committed, and
    surely if all of them were refused and no other member committed past it. *)
Theorem business_redelivers_only_tail {K B : Type} `{KafkaReaderLaws K} `{BusinessProto}
    (handler : UpstreamKafkaMessage → Backend B → error * Backend B)
    (h : list fetch_event) (i i' : Intake K (Backend B)) (o : nat) (v : verdict) :
  committed (in_reader i) ≤ position (in_reader i) →
  consumes in_reader (business_turn (K:=K) handler) h i i' → Fetched o v ∈ h →
  (committed (in_reader i') ≤ o →
     (∀ o' v', Fetched o' v' ∈ h → o ≤ o' → v' = Refused ∨ v' = Uncommitted) ∧
     (∀ c, Rebalanced c ∈ h → c ≤ o)) ∧
  ((∀ o' v', Fetched o' v' ∈ h → o ≤ o' → v' = Refused) → (∀ c, Rebalanced c ∈ h → c ≤ o) →
     committed (in_reader i') ≤ o).
Proof. intros Hle Hc Hin. by apply (consumes_redelivery _ _ _ _ _ _ _ (business_disciplined handler) Hc Hle Hin). Qed.

(** C32.  Batch push.  A batch of 1 to 100 messages is answered with 200 and one
    result per message, in order and with its index; each topic receives, in this
    order, the messages of the batch whose result is ok and whose business type
    has this topic, and nothing else.  Any other batch is refused with 400 and
    sends nothing.  The fields that a single push requires are not checked in a
    batch: a message that is refused alone is accepted in a batch of one. *)
Theorem batch_push_aligned {B : Type} `{KafkaWriterLaws B} `{BusinessProto}
    (s : Backend B) (parsed : string + list PushRequest) :
  let '((code, body), s') := handleBatchPush parsed s in
  match parsed with
  | inr reqs =>
      if decide (1 ≤ length reqs ≤ 100) then
        code = 200%Z ∧ ∃ results, body = BodyBatch (length reqs) results ∧ length results = length reqs ∧
          (∀ j res, results !! j = Some res → res_Index res = j) ∧
          (∀ t, kafka_has s' t = kafka_has s t ++ batch_records t reqs results s)
      else code = 400%Z ∧ s' = s
  | inl _ => code = 400%Z ∧ s' = s
  end ∧
  ∀ req, push_required req = false →
    (handlePushMessage (inr req) s).1.1 = 400%Z ∧ (handleBatchPush (inr [req]) s).1.1 = 200%Z.
Proof.
  assert (∀ reqs, 1 ≤ length reqs ≤ 100 → (handleBatchPush (inr reqs) s).1.1 = 200%Z) as Hok.
  { intros reqs Hl. unfold handleBatchPush, bind_batch. rewrite decide_True by done.
    by destruct (push_all 0 reqs s). }
  destruct (handleBatchPush parsed s) as [[code body] s'] eqn:E. split.
  - unfold handleBatchPush, bind_batch in E. destruct parsed as [e|reqs]; [by injection E as <- _ <-|].
    case_decide; [|by injection E as <- _ <-].
    destruct (push_all_run reqs 0 s) as (results & s2 & E2 & Hl & Hx & _ & _ & Hk). rewrite E2 in E.
    injection E as <- <- <-. split; [done|]. by exists results.
  - intros req Hr. split; [|apply Hok; simpl; lia]. unfold handlePushMessage, bind_push. by rewrite Hr.
Qed.

(** A single push answers 200 exactly when its message was handed to Kafka: on
    the topic of its business type, keyed by its connection, with the correlation
    ID the answer names; any other answer leaves every topic as it was. *)
Theorem push_answer_is_truthful {B : Type} `{KafkaWriterLaws B} `{BusinessProto}
    (s : Backend B) (parsed : string + PushRequest) :
  let '((code, body), s') := handlePushMessage parsed s in
  if decide (code = 200%Z) then
    ∃ req data, parsed = inr req ∧ push_required req = true ∧
      let t := be_getDownstreamTopic (pr_BusinessType req) s in
      let msg := push_message req (be_now s) in
      t ≠ "" ∧ marshal_Downstream msg = inr data ∧ body = BodyOk (dm_CorrelationId msg) ∧
      kafka_has s' t = kafka_has s t ++ [(bytes_of (pr_ConnID req), data)] ∧
      ∀ t', t' ≠ t → kafka_has s' t' = kafka_has s t'
  else (code = 400%Z ∨ code = 500%Z) ∧ ∀ t, kafka_has s' t = kafka_has s t.
Proof.
  assert (∀ body, let '((code, _), s') := ((400%Z, body : http_body), s) in
    if decide (code = 200%Z) then False else (code = 400%Z ∨ code = 500%Z) ∧ ∀ t, kafka_has s' t = kafka_has s t)
    as Href by (intros _; rewrite decide_False by done; auto).
  unfold handlePushMessage, bind_push. destruct parsed as [e|req]; [apply (Href (BodyError e))|].
  destruct (push_required req) eqn:Hr; [|apply (Href (BodyError ""))].
  set (t := be_getDownstreamTopic (pr_BusinessType req) s) in *.
  destruct (decide (t = "")) as [Et|Et]; [apply (Href (BodyError ""))|].
  destruct (be_Send_run t (push_message req (be_now s)) s) as (s' & <- & _ & _ & Hs).
  destruct (be_Send t (push_message req (be_now s)) s) as [[e|] s']; cbn [fst snd] in *.
  - rewrite decide_False by done. auto.
  - rewrite decide_True by done. destruct Hs as (data & Em & H1' & H2'). by exists req, data.
Qed.

(** A backend with one business type, and messages that consist of their type. *)
#[export] Instance demo_proto : BusinessProto := {|
  unmarshal_Upstream d := match d with
    | [t] => inr (mkUpMsg "c-1" "conn1" "u1" "d1" t 0 0 [])
    | _ => inl "proto" end;
  marshal_Downstream m := inr [dm_BusinessType m];
  BusinessType_String t := if (t =? 1)%Z then "im" else "unknown";
  SignalType_MESSAGE_ACK := 9;
|}.
Definition mem_Broker : Type := gmap string (list (list Z * list Z)).
Definition demo_backend : Backend mem_Broker :=
  mkBackend {[ "im" := mkTopicPair "im.up" "im.down" ]} empty_cache ∅ (10 ^ 9).

Lemma business_answers_witness :
  ∃ v s', business_turn handleUpstreamMessage false false (mkIntake (mkMemReader [[1%Z]] 0 0) demo_backend) =
      (Ret v, mkIntake (mkMemReader [[1%Z]] 1 1) s') ∧
    v = Accepted ∧ kafka_has s' "im.down" = [(bytes_of "conn1", [1%Z])].
Proof.
  destruct (business_answers (H:=mem_Reader) (H2:=demo_proto) (mkMemReader [[1%Z]] 0 0) (mkMemReader [[1%Z]] 1 0) demo_backend (mkKRecord [1%Z] 0)
    (mkUpMsg "c-1" "conn1" "u1" "d1" 1 0 0 []) false eq_refl eq_refl) as (v & s' & E & Hv).
  exists v, s'. destruct v; try contradiction; [vm_compute in E; discriminate E| |vm_compute in E; discriminate E].
  - split; [exact E|]. split; [reflexivity|]. destruct Hv as [[Ht _]|(_ & data & Hd & Hk & _)].
    + vm_compute in Ht. discriminate Ht.
    + vm_compute in Hd. injection Hd as <-. exact Hk.
Defined.

Lemma business_redelivers_only_tail_witness :
  ∃ h i', consumes in_reader (business_turn (λ _ s, (Some "down", s)))
      h (mkIntake (mkMemReader [[1%Z]] 0 0) demo_backend) i' ∧ h = [Fetched 0 Refused] ∧ committed (in_reader i') ≤ 0.
Proof.
  set (i := mkIntake (mkMemReader [[1%Z]] 0 0) demo_backend).
  pose proof (consumes_turn in_reader (business_turn (λ _ s, (Some "down", s))) _ _ _ false false _ _
    (consumes_start _ _ i) eq_refl) as Hc. cbn [fetched app] in Hc.
  eexists _, _. split; [exact Hc|]. split; [reflexivity|].
  apply (business_redelivers_only_tail (H:=mem_Reader) (λ _ s, (Some "down", s)) [Fetched 0 Refused] i _ 0 Refused
    (le_n 0) Hc (proj2 (elem_of_cons _ _ _) (or_introl eq_refl))).
  - intros o' v' Hin _. apply list_elem_of_singleton in Hin as [= -> ->]. reflexivity.
  - intros c Hin. apply list_elem_of_singleton in Hin. discriminate Hin.
Defined.

Definition demo_push : PushRequest := mkPush "conn1" "u1" "d1" 1 2 (Some [7%Z]).
Definition anonymous_push : PushRequest := mkPush "" "u1" "d1" 1 2 (Some [7%Z]).

Lemma batch_push_aligned_witness :
  let '((code, body), s') := handleBatchPush (inr [demo_push; anonymous_push]) demo_backend in
  (code = 200%Z ∧ ∃ results, body = BodyBatch 2 results ∧
    kafka_has s' "im.down" = batch_records "im.down" [demo_push; anonymous_push] results demo_backend) ∧
  (handlePushMessage (inr anonymous_push) demo_backend).1.1 = 400%Z.
Proof.
  pose proof (batch_push_aligned demo_backend (inr [demo_push; anonymous_push])) as J.
  destruct (handleBatchPush (inr [demo_push; anonymous_push]) demo_backend) as [[code body] s'].
  destruct J as [J1 J2]. split; [|exact (proj1 (J2 anonymous_push eq_refl))].
  rewrite decide_True in J1 by (simpl; lia). destruct J1 as (Hc & results & Hb & _ & _ & Hk).
  split; [exact Hc|]. exists results. split; [exact Hb|]. exact (Hk "im.down").
Defined.

Lemma push_answer_is_truthful_witness :
  let '((code, _), s') := handlePushMessage (inr demo_push) demo_backend in
  code = 200%Z ∧ kafka_has s' "im.down" = [(bytes_of "conn1", [1%Z])].
Proof.
  pose proof (push_answer_is_truthful demo_backend (inr demo_push)) as J.
  assert ((handlePushMessage (inr demo_push) demo_backend).1.1 = 200%Z) as Hc by (vm_compute; reflexivity).
  destruct (handlePushMessage (inr demo_push) demo_backend) as [[code body] s']. simpl in Hc. subst code.
  rewrite decide_True in J by done. destruct J as (req & data & E & _ & _ & Hm & _ & Hk & _).
  injection E as <-. split; [done|]. vm_compute in Hm. injection Hm as <-. exact Hk.
Defined.
