(* ===== verification/BusinessLife.v ===== *)
(** * Life of the business service ([business/internal])

    [Server.Start], [Run] and [Stop] with the goroutines they start: one consumer
    per upstream topic, the handlers of HTTP requests, the main goroutine.  What
    a consumer does with a record and a handler with a request is in
    [Business.v]; here are the order in which things are shut down and who waits
    for whom. *)

From stdpp Require Import base list list_numbers gmap strings numbers.
From S2P Require Import Prelude Threads Timer Shard Message Codec Router World Connection Pool Session Demo Handler Kafka Topics Business.

(** Where the goroutine of a topic is: it has not called [getReader] yet, it is at
    the [select], it is in the rest of a turn, it has returned. *)
Inductive consumer_pc : Set := NoReader | AtSelect | InTurn | Exited.
#[export] Instance consumer_pc_eq_dec : EqDecision consumer_pc.
Proof. solve_decision. Defined.

(** Where [Run] is: waiting for a signal, then at the statements of [Stop]. *)
Inductive main_pc : Set :=
  | SvRunning                      (* <-quit *)
  | SvCancel                       (* s.cancel() *)
  | SvShutdown                     (* Shutdown closes the listener ... *)
  | SvWaitHttp                     (* ... and waits for the requests in flight *)
  | SvClose (todo : list string)   (* for _, r := range c.readerMap { r.Close() } *)
  | SvWait                         (* c.wg.Wait() *)
  | SvSender                       (* s.sender.Close() *)
  | SvStopped.

#[export] Instance main_pc_eq_dec : EqDecision main_pc.
Proof. solve_decision. Defined.

Record Service (K B : Type) := mkService {
  sv_main : main_pc;
  sv_cancelled : bool;                  (* s.ctx is done *)
  sv_accepting : bool;                  (* the HTTP server takes new connections *)
  sv_inflight : nat;                    (* requests being handled *)
  sv_timed_out : bool;                  (* Shutdown gave up *)
  sv_consumers : list consumer_pc;
  sv_readers : gmap string (K * bool);  (* readerMap; closed? *)
  sv_wg : nat;
  sv_senders_closed : bool;
  sv_backend : Backend B;
}.
Arguments mkService {K B}. Arguments sv_main {K B}. Arguments sv_cancelled {K B}. Arguments sv_accepting {K B}.
Arguments sv_inflight {K B}. Arguments sv_timed_out {K B}. Arguments sv_consumers {K B}.
Arguments sv_readers {K B}. Arguments sv_wg {K B}. Arguments sv_senders_closed {K B}. Arguments sv_backend {K B}.

(** What can happen next. *)
Inductive event : Type :=
  | EvConsumer (i : nat) (seen : bool)  (* a step of consumer [i] *)
  | EvRequest                           (* a request arrives *)
  | EvAnswer (parsed : string + PushRequest)
  | EvAnswerBatch (parsed : string + list PushRequest)
  | EvSignal                            (* SIGINT or SIGTERM *)
  | EvMain                              (* the main goroutine goes on *)
  | EvTimeout.                          (* the five seconds of Shutdown are over *)

Section life.
Context {K B : Type} `{KafkaReader K} `{KafkaWriter B} `{BusinessProto} `{MapRange}.
(** [kafka.NewReader] *)
Context (NewReader : string → K).
Context (topics : list string).
Implicit Types (s : Service K B).

(** [Start]: the goroutines are counted and launched, the server listens. *)
Definition Start (b : Backend B) : Service K B :=
  mkService SvRunning false true 0 false (replicate (length topics) NoReader) ∅ (length topics) false b.

(** [getReader], under [c.mux]. *)
Definition getReader (topic : string) (rs : gmap string (K * bool)) : gmap string (K * bool) :=
  match rs !! topic with Some _ => rs | None => <[topic := (NewReader topic, false)]> rs end.

Definition goes_to (i : nat) (pc : consumer_pc) s : Service K B :=
  mkService (sv_main s) (sv_cancelled s) (sv_accepting s) (sv_inflight s) (sv_timed_out s)
    (<[i := pc]> (sv_consumers s)) (sv_readers s)
    (match pc with Exited => pred (sv_wg s) | _ => sv_wg s end) (sv_senders_closed s) (sv_backend s).
Definition main_at (pc : main_pc) s : Service K B :=
  mkService pc (sv_cancelled s) (sv_accepting s) (sv_inflight s) (sv_timed_out s) (sv_consumers s)
    (sv_readers s) (sv_wg s) (sv_senders_closed s) (sv_backend s).
Definition upd_readers f s : Service K B :=
  mkService (sv_main s) (sv_cancelled s) (sv_accepting s) (sv_inflight s) (sv_timed_out s) (sv_consumers s)
    (f (sv_readers s)) (sv_wg s) (sv_senders_closed s) (sv_backend s).
Definition answered (b : Backend B) s : Service K B :=
  mkService (sv_main s) (sv_cancelled s) (sv_accepting s) (pred (sv_inflight s)) (sv_timed_out s) (sv_consumers s)
    (sv_readers s) (sv_wg s) (sv_senders_closed s) b.

(** The rest of a turn: a closed reader only fails. *)
Definition turn_of (topic : string) (k : K) (closed : bool) s : consumer_pc * Service K B :=
  if closed then (if sv_cancelled s then Exited else AtSelect, s)
  else
    match business_turn handleUpstreamMessage false (sv_cancelled s) (mkIntake k (sv_backend s)) with
    | (Ret v, i) =>
        (if decide (v = Stopped) then Exited else AtSelect,
         mkService (sv_main s) (sv_cancelled s) (sv_accepting s) (sv_inflight s) (sv_timed_out s)
           (sv_consumers s) (<[topic := (in_reader i, false)]> (sv_readers s)) (sv_wg s) (sv_senders_closed s) (in_world i))
    | (Panic _, _) => (AtSelect, s)
    end.

(** A step of the goroutine of [topic].  A reader that is put into the map while
    [Stop] ranges over it may be [seen] by the loop or not. *)
Definition consumer_step (i : nat) (seen : bool) (topic : string) (pc : consumer_pc) s : option (Service K B) :=
  match pc with
  | NoReader =>
      let s' := goes_to i AtSelect (upd_readers (getReader topic) s) in
      Some (match sv_main s, sv_readers s !! topic with
            | SvClose todo, None => if seen then main_at (SvClose (todo ++ [topic])) s' else s'
            | _, _ => s'
            end)
  | AtSelect => Some (goes_to i (if sv_cancelled s then Exited else InTurn) s)
  | InTurn =>
      '(k, closed) ← sv_readers s !! topic;
      let '(pc', s') := turn_of topic k closed s in
      Some (goes_to i pc' s')
  | Exited => None
  end.

(** A statement of [Run] and [Stop]. *)
Definition main_step s : option (Service K B) :=
  match sv_main s with
  | SvRunning | SvStopped => None
  | SvCancel =>
      Some (mkService SvShutdown true (sv_accepting s) (sv_inflight s) (sv_timed_out s) (sv_consumers s)
              (sv_readers s) (sv_wg s) (sv_senders_closed s) (sv_backend s))
  | SvShutdown =>
      Some (mkService SvWaitHttp (sv_cancelled s) false (sv_inflight s) (sv_timed_out s) (sv_consumers s)
              (sv_readers s) (sv_wg s) (sv_senders_closed s) (sv_backend s))
  | SvWaitHttp =>
      if decide (sv_inflight s = 0) then Some (main_at (SvClose (map_range (sv_readers s)).*1) s) else None
  | SvClose [] => Some (main_at SvWait s)
  | SvClose (t :: todo) => Some (main_at (SvClose todo) (upd_readers (alter (λ r, (r.1, true)) t) s))
  | SvWait => if decide (sv_wg s = 0) then Some (main_at SvSender s) else None
  | SvSender =>
      Some (mkService SvStopped (sv_cancelled s) (sv_accepting s) (sv_inflight s) (sv_timed_out s) (sv_consumers s)
              (sv_readers s) (sv_wg s) true (sv_backend s))
  end.

(** When [Run] has returned the process ends. *)
Definition exec (e : event) s : option (Service K B) :=
  if decide (sv_main s = SvStopped) then None else
  match e with
  | EvConsumer i seen =>
      topic ← topics !! i; pc ← sv_consumers s !! i; consumer_step i seen topic pc s
  | EvRequest =>
      if sv_accepting s
      then Some (mkService (sv_main s) (sv_cancelled s) true (S (sv_inflight s)) (sv_timed_out s) (sv_consumers s)
                   (sv_readers s) (sv_wg s) (sv_senders_closed s) (sv_backend s))
      else None
  | EvAnswer parsed =>
      if decide (sv_inflight s = 0) then None
      else Some (answered (handlePushMessage parsed (sv_backend s)).2 s)
  | EvAnswerBatch parsed =>
      if decide (sv_inflight s = 0) then None
      else Some (answered (handleBatchPush parsed (sv_backend s)).2 s)
  | EvSignal => match sv_main s with SvRunning => Some (main_at SvCancel s) | _ => None end
  | EvMain => main_step s
  | EvTimeout =>
      match sv_main s with
      | SvWaitHttp =>
          Some (mkService (SvClose (map_range (sv_readers s)).*1) (sv_cancelled s) (sv_accepting s) (sv_inflight s) true
                  (sv_consumers s) (sv_readers s) (sv_wg s) (sv_senders_closed s) (sv_backend s))
      | _ => None
      end
  end.

Fixpoint run (es : list event) s : option (Service K B) :=
  match es with [] => Some s | e :: es' => exec e s ≫= run es' end.

(** ** What holds throughout *)
Definition running (pc : consumer_pc) : nat := match pc with Exited => 0 | _ => 1 end.
(** [Stop] is past a statement. *)
Definition past_cancel (pc : main_pc) : bool := match pc with SvRunning | SvCancel => false | _ => true end.
Definition past_shutdown (pc : main_pc) : bool :=
  match pc with SvRunning | SvCancel | SvShutdown => false | _ => true end.
Definition past_http (pc : main_pc) : bool :=
  match pc with SvClose _ | SvWait | SvSender | SvStopped => true | _ => false end.
Definition past_wait (pc : main_pc) : bool := match pc with SvSender | SvStopped => true | _ => false end.

Record service_ok s : Prop := {
  so_length : length (sv_consumers s) = length topics;
  so_wg : sv_wg s = total running (sv_consumers s);
  so_reader i t pc : topics !! i = Some t → sv_consumers s !! i = Some pc → pc = AtSelect ∨ pc = InTurn →
    is_Some (sv_readers s !! t);
  so_cancelled : sv_cancelled s = past_cancel (sv_main s);
  so_accepting : sv_accepting s = negb (past_shutdown (sv_main s));
  so_http : past_http (sv_main s) = true → sv_inflight s = 0 ∨ sv_timed_out s = true;
  so_waited : past_wait (sv_main s) = true → sv_wg s = 0;
  so_senders : sv_senders_closed s = true → sv_main s = SvStopped;
}.

Lemma Start_ok b : service_ok (Start b).
Proof.
  split; cbn; try done.
  - by rewrite length_replicate.
  - rewrite total_replicate. cbn. lia.
  - by intros i t pc _ [-> _]%lookup_replicate [|].
Qed.

(** A consumer moves and keeps the readers. *)
Lemma consumer_ok s s' i t pc pc' rs todo b :
  service_ok s → sv_main s ≠ SvStopped → topics !! i = Some t → sv_consumers s !! i = Some pc → pc ≠ Exited →
  (∀ t', is_Some (sv_readers s !! t') → is_Some (rs !! t')) → (pc' ≠ Exited → is_Some (rs !! t)) →
  (todo = sv_main s ∨ ∃ l l', sv_main s = SvClose l ∧ todo = SvClose l') →
  s' = mkService todo (sv_cancelled s) (sv_accepting s) (sv_inflight s) (sv_timed_out s) (<[i := pc']> (sv_consumers s))
         rs (match pc' with Exited => pred (sv_wg s) | _ => sv_wg s end) (sv_senders_closed s) b →
  pc' ≠ NoReader → service_ok s'.
Proof.
  intros [Hl Hw Hr Hc Ha Hh Hwt Hs] Hm Et Epc Hpc Hrs Ht Htodo -> Hpc'.
  pose proof (total_insert running _ i pc pc' Epc) as Htot.
  pose proof (total_one running _ i pc Epc) as Hone.
  assert (running pc = 1) as Hrun by (by destruct pc).
  split; cbn -[total].
  - by rewrite length_insert.
  - destruct pc'; cbn [running] in *; lia.
  - intros j u pc2 Ej [[-> ->]|[_ E2]]%lookup_insert_cases Hor; [|by eauto].
    simplify_eq. apply Ht. by destruct Hor as [->| ->].
  - destruct Htodo as [->|(l & l' & E & ->)]; [done|by rewrite Hc, E].
  - destruct Htodo as [->|(l & l' & E & ->)]; [done|by rewrite Ha, E].
  - destruct Htodo as [->|(l & l' & E & ->)]; [done|]. intros _. apply Hh. by rewrite E.
  - destruct Htodo as [->|(l & l' & E & ->)]; [|done]. intros Hpw. specialize (Hwt Hpw). lia.
  - intros Hsc. by apply Hs in Hsc.
Qed.

Lemma getReader_keeps t rs t' : is_Some (rs !! t') → is_Some (getReader t rs !! t').
Proof.
  unfold getReader. destruct (rs !! t) eqn:E; [done|]. intros Hs.
  rewrite lookup_insert_is_Some'. by right.
Qed.
Lemma getReader_has t rs : is_Some (getReader t rs !! t).
Proof. unfold getReader. destruct (rs !! t) eqn:E; [by rewrite E|]. by rewrite lookup_insert_eq. Qed.

Lemma consumer_step_ok s s' i seen t pc :
  service_ok s → sv_main s ≠ SvStopped → topics !! i = Some t → sv_consumers s !! i = Some pc →
  consumer_step i seen t pc s = Some s' → service_ok s'.
Proof.
  intros Hok Hm Et Epc E. destruct pc; cbn in E; [| | |done].
  - injection E as <-. 
    eapply (consumer_ok s _ i t NoReader AtSelect (getReader t (sv_readers s))
      (match sv_main s, sv_readers s !! t with
       | SvClose todo, None => if seen then SvClose (todo ++ [t]) else sv_main s | _, _ => sv_main s end)
      (sv_backend s) Hok Hm Et Epc); try done.
    + intros t'. apply getReader_keeps.
    + intros _. apply getReader_has.
    + destruct (sv_main s) eqn:Em, (sv_readers s !! t), seen; try (by left); by right; eauto.
    + unfold goes_to, upd_readers, main_at. cbn. destruct (sv_main s), (sv_readers s !! t), seen; done.
  - injection E as <-.
    apply (consumer_ok s _ i t AtSelect (if sv_cancelled s then Exited else InTurn) (sv_readers s) (sv_main s)
      (sv_backend s) Hok Hm Et Epc); try done; [|by left|by case_match..].
    intros _. by eapply (so_reader _ Hok); [..|left].
  - destruct (so_reader _ Hok _ _ _ Et Epc (or_intror eq_refl)) as [[k closed] Ek].
    rewrite Ek in E. cbn [mbind option_bind] in E. unfold turn_of in E.
    destruct closed; [|destruct (business_turn _ _ _ _) as [[v|why] j]]; cbn in E; injection E as <-.
    + apply (consumer_ok s _ i t InTurn (if sv_cancelled s then Exited else AtSelect) (sv_readers s) (sv_main s)
        (sv_backend s) Hok Hm Et Epc); try done; [by left|by case_match..].
    + apply (consumer_ok s _ i t InTurn (if decide (v = Stopped) then Exited else AtSelect)
        (<[t := (in_reader j, false)]> (sv_readers s)) (sv_main s) (in_world j) Hok Hm Et Epc);
        try done; [|by rewrite lookup_insert_eq|by left|by case_match].
      intros t'. rewrite lookup_insert_is_Some'. by right.
    + apply (consumer_ok s _ i t InTurn AtSelect (sv_readers s) (sv_main s) (sv_backend s) Hok Hm Et Epc); try done. by left.
Qed.

Lemma main_step_ok s s' : service_ok s → main_step s = Some s' → service_ok s'.
Proof.
  intros [Hl Hw Hr Hc Ha Hh Hwt Hs] E. unfold main_step in E.
  destruct s as [pc cx ac inf tmo cs rs wg sc b]; cbn in *.
  destruct pc as [| | | |[|t todo]| | |]; simplify_eq; try case_decide; simplify_eq.
  all: split; cbn in *; auto; try done.
  all: try (intros Hsc; specialize (Hs Hsc); done).
  intros j u pc2 Ej E2 Hor. rewrite lookup_alter_is_Some. by eauto.
Qed.

Lemma exec_ok e s s' : service_ok s → exec e s = Some s' → service_ok s'.
Proof.
  intros Hok E. unfold exec in E. case_decide as Hm; [done|].
  destruct e as [i seen| |parsed|parsed| | |].
  - destruct (topics !! i) as [t|] eqn:Et; [|done]. cbn in E.
    destruct (sv_consumers s !! i) as [pc|] eqn:Epc; [|done]. cbn in E. by eapply consumer_step_ok.
  - destruct Hok as [Hl Hw Hr Hc Ha Hh Hwt Hs]. destruct (sv_accepting s) eqn:Eac; simplify_eq. split; cbn; auto.
    intros Hp. destruct (sv_main s); try done.
  - case_decide; simplify_eq. destruct Hok as [Hl Hw Hr Hc Ha Hh Hwt Hs]. split; cbn; auto.
    intros Hp. destruct (Hh Hp); auto; lia.
  - case_decide; simplify_eq. destruct Hok as [Hl Hw Hr Hc Ha Hh Hwt Hs]. split; cbn; auto.
    intros Hp. destruct (Hh Hp); auto; lia.
  - destruct (sv_main s) eqn:Em; simplify_eq. destruct Hok as [Hl Hw Hr Hc Ha Hh Hwt Hs]. rewrite Em in *.
    split; cbn; auto; try done. intros Hsc. by apply Hs in Hsc.
  - by eapply main_step_ok.
  - destruct (sv_main s) eqn:Em; simplify_eq. destruct Hok as [Hl Hw Hr Hc Ha Hh Hwt Hs]. rewrite Em in *.
    split; cbn; auto; try done. intros Hsc. by apply Hs in Hsc.
Qed.

Lemma run_ok es s s' : service_ok s → run es s = Some s' → service_ok s'.
Proof.
  revert s. induction es as [|e es IH]; intros s Hok E; cbn in E; [by simplify_eq|].
  destruct (exec e s) as [s1|] eqn:E1; [|done]. cbn in E. eauto using exec_ok.
Qed.

Lemma run_app es1 es2 s : run (es1 ++ es2) s = run es1 s ≫= run es2.
Proof.
  revert s. induction es1 as [|e es1 IH]; intros s; [done|]. cbn. by destruct (exec e s); cbn.
Qed.

(** ** Once [Shutdown] has begun, every event lowers a rank *)
Definition consumer_rank (pc : consumer_pc) : nat :=
  match pc with NoReader => 4 | InTurn => 2 | AtSelect => 1 | Exited => 0 end.
Definition main_rank (pc : main_pc) (readers : nat) : nat :=
  match pc with
  | SvRunning | SvCancel | SvShutdown | SvWaitHttp => 4 + readers
  | SvClose todo => 3 + length todo | SvWait => 2 | SvSender => 1 | SvStopped => 0
  end.
(** The readers that the loop of [Consumer.Stop] still has to close. *)
Definition closing (pc : main_pc) : list string := match pc with SvClose todo => todo | _ => [] end.
Definition rank s : nat :=
  main_rank (sv_main s) (size (sv_readers s)) + sv_inflight s + total consumer_rank (sv_consumers s).

Lemma range_keys_length (rs : gmap string (K * bool)) : length (map_range rs).*1 = size rs.
Proof. by rewrite length_fmap, map_range_perm, length_map_to_list. Qed.

Lemma getReader_size t (rs : gmap string (K * bool)) :
  size (getReader t rs) = match rs !! t with Some _ => size rs | None => S (size rs) end.
Proof. unfold getReader. destruct (rs !! t) eqn:E; [done|]. by rewrite map_size_insert_None. Qed.

(** A consumer's step. *)
Lemma consumer_rank_step s s' i seen t pc :
  service_ok s → past_shutdown (sv_main s) = true → topics !! i = Some t → sv_consumers s !! i = Some pc →
  consumer_step i seen t pc s = Some s' → rank s' < rank s ∧ past_shutdown (sv_main s') = true.
Proof.
  intros Hok Hp Et Epc E.
  assert (sv_cancelled s = true) as Hcx by (rewrite (so_cancelled _ Hok); by destruct (sv_main s)).
  pose proof (λ pc', total_insert consumer_rank _ i pc pc' Epc) as Htot.
  assert (∀ pc' rs b, consumer_rank pc' < consumer_rank pc → size rs = size (sv_readers s) →
    rank (mkService (sv_main s) (sv_cancelled s) (sv_accepting s) (sv_inflight s) (sv_timed_out s)
      (<[i := pc']> (sv_consumers s)) rs (match pc' with Exited => pred (sv_wg s) | _ => sv_wg s end)
      (sv_senders_closed s) b) < rank s) as Hmove.
  { intros pc' rs b Hlt Hsz. unfold rank. cbn -[total]. rewrite Hsz. specialize (Htot pc'). lia. }
  destruct pc; cbn in E; [| | |done].
  - injection E as <-. specialize (Htot AtSelect). cbn [consumer_rank] in Htot.
    pose proof (getReader_size t (sv_readers s)) as Hsz. unfold rank.
    destruct (sv_main s) eqn:Em, (sv_readers s !! t); try done;
      try destruct seen; cbn -[total]; rewrite ?Em, ?Hsz; cbn -[total]; rewrite ?length_app; cbn -[total]; split; try done; lia.
  - injection E as <-. rewrite Hcx. split; [|done]. apply Hmove; [cbn; lia|done].
  - destruct (so_reader _ Hok _ _ _ Et Epc (or_intror eq_refl)) as [[k closed] Ek].
    rewrite Ek in E. cbn [mbind option_bind] in E. unfold turn_of in E. rewrite Hcx in E.
    destruct closed; [|destruct (business_turn _ _ _ _) as [[v|why] j]]; cbn in E; injection E as <-.
    + split; [|done]. apply Hmove; [cbn; lia|done].
    + split; [|done]. rewrite Hcx in Hmove. apply (Hmove _ (<[t := (in_reader j, false)]> (sv_readers s)));
        [case_decide; cbn; lia|by rewrite map_size_insert_Some by (by rewrite Ek)].
    + split; [|done]. apply Hmove; [cbn; lia|done].
Qed.

Lemma exec_rank e s s' : service_ok s → past_shutdown (sv_main s) = true → exec e s = Some s' →
  rank s' < rank s ∧ past_shutdown (sv_main s') = true.
Proof.
  intros Hok Hp E. unfold exec in E. case_decide as Hm; [done|].
  destruct e as [i seen| |parsed|parsed| | |].
  - destruct (topics !! i) as [t|] eqn:Et; [|done]. cbn in E.
    destruct (sv_consumers s !! i) as [pc|] eqn:Epc; [|done]. cbn in E. by eapply consumer_rank_step.
  - rewrite (so_accepting _ Hok), Hp in E. done.
  - case_decide; simplify_eq. split; [|done]. unfold rank. cbn -[total]. lia.
  - case_decide; simplify_eq. split; [|done]. unfold rank. cbn -[total]. lia.
  - by destruct (sv_main s).
  - unfold main_step in E. unfold rank. destruct (sv_main s) as [| | | |[|t todo]| | |] eqn:Em; try done;
      try case_decide; simplify_eq; cbn -[total]; rewrite ?range_keys_length; split; try done; lia.
  - unfold rank. destruct (sv_main s) eqn:Em; simplify_eq; cbn -[total]; rewrite ?range_keys_length; split; try done; lia.
Qed.

Lemma run_rank es s s' : service_ok s → past_shutdown (sv_main s) = true → run es s = Some s' →
  length es + rank s' ≤ rank s ∧ past_shutdown (sv_main s') = true.
Proof.
  revert s. induction es as [|e es IH]; intros s Hok Hp E; cbn in E; [by simplify_eq|].
  destruct (exec e s) as [s1|] eqn:E1; [|done]. cbn in E.
  destruct (exec_rank _ _ _ Hok Hp E1) as [Hlt Hp1]. destruct (IH _ (exec_ok _ _ _ Hok E1) Hp1 E). cbn. split; [lia|done].
Qed.

(** Nothing can happen only when [Run] has returned. *)
Lemma stuck_stopped s : service_ok s → (∀ e, exec e s = None) → sv_main s = SvStopped.
Proof.
  intros Hok Hn. destruct (decide (sv_main s = SvStopped)) as [|Hm]; [done|].
  pose proof (Hn EvMain) as Hmain. pose proof (Hn EvSignal) as Hsig. pose proof (Hn EvTimeout) as Hto.
  unfold exec in Hmain, Hsig, Hto. rewrite !decide_False in Hmain, Hsig, Hto by done. unfold main_step in Hmain.
  destruct (sv_main s) as [| | | |[|t todo]| | |] eqn:Em; try done.
  (* the consumers that [Wait] waits for can go on *)
  destruct (decide (sv_wg s = 0)) as [Hz|Hz]; [done|]. rewrite (so_wg _ Hok) in Hz.
  destruct (some_positive running (sv_consumers s)) as (i & pc & Epc & Hr); [lia|].
  destruct (lookup_lt_is_Some_2 topics i) as [t Et].
  { rewrite <-(so_length _ Hok). by eapply lookup_lt_Some. }
  pose proof (Hn (EvConsumer i false)) as Hi. unfold exec in Hi. rewrite decide_False, Et, Epc in Hi by (by rewrite Em).
  cbn in Hi. destruct pc; cbn in Hi, Hr; try done; [|lia].
  destruct (so_reader _ Hok _ _ _ Et Epc (or_intror eq_refl)) as [[k closed] Ek]. rewrite Ek in Hi. cbn in Hi.
  by destruct (turn_of t k closed s).
Qed.
End life.

(** C28.  [Stop] ends the backend.  Whatever the consumers, the requests and the
    signal do: once [Shutdown] has refused new requests, at most four events per
    consumer, one per reader, one per request in flight and four more happen,
    and nothing can happen any more exactly when [Run] has returned - no
    consumer and no request can hold it up.  By the time the writers are closed
    every consumer has returned, and every request was answered, unless
    [Shutdown] gave up waiting after its five seconds. *)
Theorem backend_stops {K B : Type} `{KafkaReader K} `{KafkaWriter B} `{BusinessProto} `{MapRange}
    (NewReader : string → K) (topics : list string) (b : Backend B) (es : list event) (s : Service K B) :
  run NewReader topics es (Start topics b) = Some s →
  ((∀ e, exec NewReader topics e s = None) ↔ sv_main s = SvStopped) ∧
  (past_shutdown (sv_main s) = true → ∀ es' s', run NewReader topics es' s = Some s' →
     length es' ≤ 4 * length topics + size (sv_readers s) + sv_inflight s + 4 + length (closing (sv_main s))) ∧
  (past_wait (sv_main s) = true → sv_wg s = 0 ∧ (∀ i pc, sv_consumers s !! i = Some pc → pc = Exited)) ∧
  (past_http (sv_main s) = true → sv_inflight s = 0 ∨ sv_timed_out s = true) ∧
  (sv_senders_closed s = true → sv_main s = SvStopped).
Proof.
  intros E. pose proof (run_ok _ _ _ _ _ (Start_ok topics b) E) as Hok. split_and!.
  - split; [by apply stuck_stopped|]. intros Hm e. unfold exec. by rewrite decide_True.
  - intros Hp es' s' E'. destruct (run_rank _ _ _ _ _ Hok Hp E') as [Hle _].
    pose proof (total_le consumer_rank 4 (sv_consumers s) ltac:(by intros []; cbn; lia)) as Ht.
    rewrite (so_length _ _ Hok) in Ht. unfold rank in Hle.
    assert (main_rank (sv_main s) (size (sv_readers s)) ≤ 4 + size (sv_readers s) + length (closing (sv_main s))).
    { destruct (sv_main s); cbn; lia. }
    lia.
  - intros Hp. pose proof (so_waited _ _ Hok Hp) as Hz. split; [done|]. intros i pc Epc.
    rewrite (so_wg _ _ Hok) in Hz. pose proof (total_one running _ _ _ Epc). destruct pc; cbn in *; try done; lia.
  - apply (so_http _ _ Hok).
  - apply (so_senders _ _ Hok).
Qed.

(** The backend of the demo handles a record and a request, and is stopped with
    another request in flight. *)
Definition demo_NewReader (t : string) : MemReader := mkMemReader [[1%Z]] 0 0.
Definition demo_day : list event :=
  [EvConsumer 0 false; EvConsumer 0 false; EvConsumer 0 false; EvRequest; EvAnswer (inr demo_push); EvRequest; EvSignal; EvMain; EvMain].
Definition demo_evening : list event :=
  [EvConsumer 0 false; EvTimeout; EvMain; EvMain; EvMain; EvMain].
Definition demo_start : Service MemReader mem_Broker := Start ["im.up"] demo_backend.

Lemma backend_stops_witness : ∃ s s',
  run demo_NewReader ["im.up"] demo_day demo_start = Some s ∧ run demo_NewReader ["im.up"] demo_evening s = Some s' ∧
  length demo_evening ≤ 4 * length ["im.up"] + size (sv_readers s) + sv_inflight s + 4 ∧ sv_main s' = SvStopped ∧
  (∀ e, exec demo_NewReader ["im.up"] e s' = None) ∧ (∀ i pc, sv_consumers s' !! i = Some pc → pc = Exited).
Proof.
  assert ((λ s, (sv_main s, sv_inflight s)) <$> run demo_NewReader ["im.up"] demo_day demo_start =
    Some (SvWaitHttp, 1)) as E1 by (vm_compute; reflexivity).
  assert ((λ s, (sv_main s, sv_timed_out s)) <$> run demo_NewReader ["im.up"] (demo_day ++ demo_evening) demo_start =
    Some (SvStopped, true)) as E2 by (vm_compute; reflexivity).
  apply fmap_Some in E1 as (s & R1 & E1). apply fmap_Some in E2 as (s' & R2 & E2).
  injection E1 as Em1 Ei1. injection E2 as Em2 _. symmetry in Em1, Em2.
  assert (run demo_NewReader ["im.up"] demo_evening s = Some s') as R3.
  { rewrite run_app, R1 in R2. exact R2. }
  destruct (backend_stops demo_NewReader ["im.up"] demo_backend demo_day s R1) as (_ & Hb & _).
  destruct (backend_stops demo_NewReader ["im.up"] demo_backend _ s' R2) as (Hst & _ & Hw & _).
  exists s, s'. split; [done|]. split; [done|]. split; [|split; [done|split]].
  - specialize (Hb ltac:(by rewrite Em1) _ _ R3). rewrite Em1 in Hb. change (length (closing SvWaitHttp)) with 0 in Hb. by rewrite Nat.add_0_r in Hb.
  - by apply Hst.
  - apply Hw. by rewrite Em2.
Defined.

(** A reader that a consumer opens while [Stop] is past its loop over the map is
    never closed: the loop does not take the lock that [getReader] takes, and
    nothing makes a consumer look at the context before it opens its reader. *)
Definition late_reader : list event :=
  [EvSignal; EvMain; EvMain; EvMain; EvMain; EvConsumer 0 false; EvConsumer 0 false; EvMain; EvMain].
Lemma reader_leaks :
  (λ s, (sv_main s, snd <$> sv_readers s !! "im.up")) <$> run demo_NewReader ["im.up"] late_reader demo_start =
  Some (SvStopped, Some false).
Proof. vm_compute. reflexivity. Qed.
