(* ===== verification/Storage.v ===== *)
(** * The offline store ([gateway/internal/worker/storage])

    GORM and MySQL are outside the repository: the class [Gorm] has the
    statements the store issues, over the rows of the one table it uses, with
    their documented behaviour. *)

From stdpp Require Import base list gmap strings numbers sorting.
From S2P Require Import Prelude Message.

(** [model.OfflineMessageModel]; a nil payload and a NULL time are [None]. *)
Record OfflineMessageModel := mkOfflineRow {
  om_ID : Z; om_MsgID : string; om_UserID : string; om_DeviceID : string; om_FromUserID : string;
  om_MsgType : Z; om_RoomType : Z; om_Payload : option (list Z); om_SeqID : Z;
  om_CreatedAt : Z; om_DeliveredAt : option Z;
}.
(** [&model.OfflineMessageModel{}] *)
Definition zeroRow : OfflineMessageModel := mkOfflineRow 0 "" "" "" "" 0 0 None 0 0 None.

(** The database fills the key and the creation time of a new row. *)
Definition same_content (r r' : OfflineMessageModel) : Prop :=
  om_MsgID r' = om_MsgID r ∧ om_UserID r' = om_UserID r ∧ om_SeqID r' = om_SeqID r ∧
  om_DeliveredAt r' = om_DeliveredAt r.

(** Conditions of statements are predicates on rows. *)
Class Gorm (D : Type) : Type := {
  db_rows : D → list OfflineMessageModel;
  db_Create : OfflineMessageModel → D → error * D;
  (** [Where(p).Order("seq_id ASC").Find]. *)
  db_Find : (OfflineMessageModel → bool) → D → string + list OfflineMessageModel;
  (** [Delete(&model)] conditions on the primary key of the model. *)
  db_Delete : Z → D → error * D;
  (** [Where(p).Update("delivered_at", t)]. *)
  db_Update : (OfflineMessageModel → bool) → Z → D → error * D;
  db_Count : (OfflineMessageModel → bool) → D → string + Z;
}.

Definition set_DeliveredAt (t : Z) (r : OfflineMessageModel) : OfflineMessageModel :=
  mkOfflineRow (om_ID r) (om_MsgID r) (om_UserID r) (om_DeviceID r) (om_FromUserID r)
    (om_MsgType r) (om_RoomType r) (om_Payload r) (om_SeqID r) (om_CreatedAt r) (Some t).

Class GormLaws (D : Type) `{Gorm D} : Prop := {
  create_ok r d d' : db_Create r d = (None, d') →
    ∃ r', same_content r r' ∧ db_rows d' = db_rows d ++ [r'];
  create_error r d e d' : db_Create r d = (Some e, d') → db_rows d' = db_rows d;
  find_ok p d rs : db_Find p d = inr rs → rs ≡ₚ filter (λ r, p r = true) (db_rows d);
  (** Without a condition GORM reports [ErrMissingWhereClause]. *)
  delete_no_key d : db_Delete 0 d = (Some "WHERE conditions required", d);
  update_ok p t d d' : db_Update p t d = (None, d') →
    db_rows d' = (λ r, if p r then set_DeliveredAt t r else r) <$> db_rows d;
  update_error p t d e d' : db_Update p t d = (Some e, d') → db_rows d' = db_rows d;
  count_ok p d n : db_Count p d = inr n →
    n = Z.of_nat (length (filter (λ r, p r = true) (db_rows d)));
}.

Section store.
Context {D : Type} `{Gorm D}.
Implicit Types (d : D).

(** [MySQLStore.Store]: the message is used for the log only. *)
Definition Store (msg : Message) d : error * D :=
  let m := zeroRow in
  db_Create m d.

(** [MySQLStore.Fetch]: an empty message per row. *)
Definition Fetch (userID : string) (afterSeq : Z) d : string + list Message :=
  match db_Find (λ r, bool_decide (om_UserID r = userID) && (afterSeq <? om_SeqID r)%Z) d with
  | inl e => inl e
  | inr models => inr ((λ _, zeroMessage) <$> models)
  end.

(** [MySQLStore.Delete]: the model has the message's ID and no primary key. *)
Definition store_Delete (msgID : string) d : error * D :=
  let m := mkOfflineRow 0 msgID "" "" "" 0 0 None 0 0 None in
  db_Delete (om_ID m) d.

Definition MarkDelivered (msgID : string) (now : Z) d : error * D :=
  db_Update (λ r, bool_decide (om_MsgID r = msgID)) now d.

Definition store_Count (userID : string) d : string + Z :=
  db_Count (λ r, bool_decide (om_UserID r = userID) && bool_decide (om_DeliveredAt r = None)) d.

(** What the node does with the store: one call after the other. *)
Definition store_all (ms : list Message) d : D := foldl (λ d m, (Store m d).2) d ms.
End store.

Section store_spec.
Context {D : Type} `{GormLaws D}.
Implicit Types (d : D).

(** A row as [Store] writes it. *)
Definition blank_row (r : OfflineMessageModel) : Prop :=
  om_MsgID r = "" ∧ om_UserID r = "" ∧ om_SeqID r = 0%Z ∧ om_DeliveredAt r = None.

Lemma Store_rows msg d : ∃ rs, db_rows (Store msg d).2 = db_rows d ++ rs ∧ Forall blank_row rs.
Proof.
  unfold Store. destruct (db_Create zeroRow d) as [[e|] d'] eqn:E; cbn.
  - exists []. rewrite app_nil_r. split; [by eapply create_error|done].
  - apply create_ok in E as (r' & (? & ? & ? & ?) & ->). exists [r']. split; [done|]. by repeat constructor.
Qed.

Lemma store_all_rows ms d : ∃ rs, db_rows (store_all ms d) = db_rows d ++ rs ∧ Forall blank_row rs.
Proof.
  revert d. induction ms as [|m ms IH]; intros d; simpl.
  - exists []. by rewrite app_nil_r.
  - destruct (Store_rows m d) as (r1 & E1 & H1'). destruct (IH (Store m d).2) as (r2 & E2 & H2').
    exists (r1 ++ r2). rewrite E2, E1, app_assoc. split; [done|]. by apply Forall_app.
Qed.

Lemma filter_blank (p : OfflineMessageModel → bool) rs rs' :
  (∀ r, blank_row r → p r = false) → Forall blank_row rs' →
  filter (λ r, p r = true) (rs ++ rs') = filter (λ r, p r = true) rs.
Proof.
  intros Hp Hb. rewrite filter_app. rewrite <-(app_nil_r (filter _ rs)) at 2. f_equal.
  induction Hb as [|r rs' Hr _ IH]; [done|]. rewrite filter_cons, (Hp r Hr). by rewrite decide_False.
Qed.
End store_spec.

(** ** A table in memory *)
#[export] Instance mem_Gorm : Gorm (list OfflineMessageModel) := {|
  db_rows d := d;
  db_Create r d := (None, d ++ [mkOfflineRow (Z.of_nat (S (length d))) (om_MsgID r) (om_UserID r) (om_DeviceID r)
    (om_FromUserID r) (om_MsgType r) (om_RoomType r) (om_Payload r) (om_SeqID r) 1 (om_DeliveredAt r)]);
  db_Find p d := inr (filter (λ r, p r = true) d);
  db_Delete k d := if (k =? 0)%Z then (Some "WHERE conditions required", d)
                   else (None, filter (λ r, om_ID r ≠ k) d);
  db_Update p t d := (None, (λ r, if p r then set_DeliveredAt t r else r) <$> d);
  db_Count p d := inr (Z.of_nat (length (filter (λ r, p r = true) d)));
|}.
#[export] Instance mem_GormLaws : GormLaws (list OfflineMessageModel).
Proof.
  split; cbn.
  - intros r d d' [= <-]. eexists. split; [|reflexivity]. done.
  - done.
  - by intros p d rs [= <-].
  - done.
  - by intros p t d d' [= <-].
  - done.
  - by intros p d n [= <-].
Qed.

(** ** Claims *)

(** Offline messages do not come back.  Whatever messages the node stores, and
    however many of the calls succeed, no user's query afterwards finds a row that
    was not there before: the stored rows are blank, without user, message ID,
    sequence number or content.  What a query does return is one empty message
    per row, and deleting a message by its ID always fails. *)
Theorem offline_messages_never_come_back {D : Type} `{GormLaws D} (ms : list Message) (d : D)
    (userID msgID : string) (afterSeq : Z) :
  (0 ≤ afterSeq)%Z →
  let d' := store_all ms d in
  (∀ fetched, Fetch userID afterSeq d' = inr fetched →
     fetched = replicate (length (filter (λ r, om_UserID r = userID ∧ (afterSeq < om_SeqID r)%Z) (db_rows d)))
                 zeroMessage) ∧
  (∀ n, userID ≠ "" → store_Count userID d' = inr n →
     n = Z.of_nat (length (filter (λ r, om_UserID r = userID ∧ om_DeliveredAt r = None) (db_rows d)))) ∧
  store_Delete msgID d' = (Some "WHERE conditions required", d').
Proof.
  intros Hseq d'. destruct (store_all_rows ms d) as (rs & E & Hb). fold d' in E. split_and!.
  - intros fs. unfold Fetch. destruct (db_Find _ d') as [e|models] eqn:Ef; [done|]. intros [= <-].
    apply find_ok in Ef. rewrite E, filter_blank in Ef; [| |done].
    2:{ intros r (_ & _ & Hs & _). rewrite Hs. apply andb_false_iff. right. apply Z.ltb_ge. lia. }
    assert (length models = length (filter (λ r, om_UserID r = userID ∧ (afterSeq < om_SeqID r)%Z) (db_rows d))) as <-.
    { rewrite Ef. f_equal. apply list_filter_iff. intros r.
      rewrite andb_true_iff, bool_decide_eq_true, Z.ltb_lt. done. }
    clear. induction models as [|m models IH]; simpl; [done|]. by f_equal.
  - intros n Hu Hc. apply count_ok in Hc as ->. f_equal. rewrite E, filter_blank; [| |done].
    + f_equal. apply list_filter_iff. intros r. rewrite andb_true_iff, !bool_decide_eq_true. done.
    + intros r (_ & Hr & _). rewrite Hr. apply andb_false_iff. left. apply bool_decide_eq_false. congruence.
  - apply delete_no_key.
Qed.

Definition demo_offline : Message :=
  mkMessage FrameType_BUSINESS "m-1" "im" None (Some (mkRouteTarget (RouteTargetType_other 1) "u1")) 7 0 None
    None None None.

Lemma offline_messages_never_come_back_witness :
  Fetch "u1" 0 (store_all [demo_offline; demo_offline] []) = inr [] ∧
  store_Count "u1" (store_all [demo_offline] []) = inr 0%Z ∧
  db_rows (store_all [demo_offline] []) ≠ [].
Proof.
  split; [|split; [|vm_compute; discriminate]].
  - destruct (Fetch "u1" 0 (store_all [demo_offline; demo_offline] [])) as [e|fs] eqn:E.
    + vm_compute in E. discriminate E.
    + destruct (offline_messages_never_come_back [demo_offline; demo_offline] [] "u1" "m-1" 0 (Z.le_refl 0))
        as (J & _ & _). rewrite (J fs E). reflexivity.
  - destruct (store_Count "u1" (store_all [demo_offline] [])) as [e|n] eqn:E.
    + vm_compute in E. discriminate E.
    + destruct (offline_messages_never_come_back [demo_offline] [] "u1" "m-1" 0 (Z.le_refl 0)) as (_ & J & _).
      rewrite (J n ltac:(discriminate) E). reflexivity.
Defined.
