(* ===== verification/Bootstrap.v ===== *)
(** * Starting a node ([gateway/internal/app], [svc])

    From the configuration to the node of [Node.v]: the service context, the
    wiring of the components and the order in which it can fail.  Reading the
    configuration, Redis and MySQL are outside the repository: their answers are
    parameters. *)

From stdpp Require Import base list gmap strings numbers infinite relations.
From S2P Require Import Prelude Timer Shard Message Codec Router World Connection Pool Session Demo.
From S2P Require Import Typing Pipeline Uplink UplinkSpec Downlink Worker Handler Factory FactorySpec.
From S2P Require Import Sync Node NodeSync NodeSpec DistRouter Kafka Topics.

(** ** [config.Config]: what the bootstrap reads *)
Record WorkerConfig := mkWorkerConfig {
  wc_UpstreamSender : string; wc_UpstreamWorkers : Z; wc_UpstreamChanCap : Z;
  wc_DownstreamWorkers : Z; wc_DownstreamChanCap : Z;
}.
Record AppConfig := mkAppConfig {
  cfg_GatewayAddr : string; cfg_RedisAddr : string; cfg_DSN : string; cfg_SuspendTTL : Z;
  cfg_Workers : gmap string WorkerConfig; cfg_Kafka : KafkaConfig; cfg_AuthAddr : string;
}.

Section boot.
Context `{MapRange}.
(** [RedisClient.Ping] of an address, and opening and migrating a database. *)
Context (Ping : string → error) (OpenDB : string → error).

(** ** [svc.go] *)
Definition newRedis (c : AppConfig) : error :=
  if decide (cfg_RedisAddr c ≠ "") then Some "redis addr not configured"
  else match Ping (cfg_RedisAddr c) with
       | Some e => Some ("redis connection failed: " +:+ e)
       | None => None
       end.

Definition newDB (c : AppConfig) : error :=
  if decide (cfg_DSN c = "") then Some "mysql dsn not configured"
  else match OpenDB (cfg_DSN c) with
       | Some e => Some ("mysql connection failed: " +:+ e)
       | None => None
       end.

(** The context holds a client for each; an error of either is a panic. *)
Definition NewServiceContext (c : AppConfig) : outcome unit :=
  match newRedis c with
  | Some e => Panic e
  | None => match newDB c with
            | Some e => Panic e
            | None => Ret tt
            end
  end.

(** [Close], which nothing calls, over what has been closed: the database's
    handle is used without a look at the error that may have come instead. *)
Inductive resource : Set := RedisClient | SqlDB.
Definition ServiceContext_Close (redis : bool) (db : option error) : M (list resource) unit :=
  when redis (modify (.++ [RedisClient])) ≫= λ _,
  match db with
  | None => mret tt
  | Some None => modify (.++ [SqlDB])
  | Some (Some _) => panic "invalid memory address or nil pointer dereference"
  end.

(** ** [session/registry.go]: options of [NewRegistry]

    [SetSuspendTTL] sets a field nothing reads; no option sets a worker. *)
Definition WithOfflineStore (r : SessRegistry) : SessRegistry :=
  let d := sr_deps r in
  mkSessRegistry (sr_sessions r) (userIndex r)
    (mkDeps (d_Worker d) true (d_Acker d) (d_MaxRetries d)) (sr_ackScanner r).
Definition WithAckScanner (r : SessRegistry) : SessRegistry :=
  mkSessRegistry (sr_sessions r) (userIndex r) (sr_deps r) true.
Definition NewRegistry_options (opts : list (SessRegistry → SessRegistry)) : SessRegistry :=
  foldl (λ r o, o r) (NewRegistry (mkDeps false false false 0) false) opts.

(** ** [bootstrap.go], [lifecycle.go] *)
Abbreviation TS := (shardedScheduler timeoutPayload unit).

Definition pool_config (biz : string) (wcfg : WorkerConfig) : PoolConfig :=
  mkPoolConfig biz (wc_UpstreamWorkers wcfg) (wc_UpstreamChanCap wcfg)
    (wc_DownstreamWorkers wcfg) (wc_DownstreamChanCap wcfg) true.
(** A missing business topic is the zero pair. *)
Definition pool_sender (cfg : AppConfig) (biz : string) : KafkaSender :=
  NewKafkaSender (Brokers (cfg_Kafka cfg))
    (UpstreamTopic (default (mkTopicPair "" "") (BusinessTopics (cfg_Kafka cfg) !! biz))).

Definition known_sender (wcfg : WorkerConfig) : Prop :=
  wc_UpstreamSender wcfg = "kafka" ∨ wc_UpstreamSender wcfg = "".
#[export] Instance known_sender_dec wcfg : Decision (known_sender wcfg).
Proof. unfold known_sender. apply _. Defined.

Fixpoint registerWorkerPools (cfg : AppConfig) (ws : list (string * WorkerConfig))
    (senders : gmap string KafkaSender) : M (World TS) (error * gmap string KafkaSender) :=
  match ws with
  | [] => mret (None, senders)
  | (biz, wcfg) :: ws' =>
      if decide (known_sender wcfg) then
        AddPool (pool_config biz wcfg) ≫= λ _,
        registerWorkerPools cfg ws' (<[biz := pool_sender cfg biz]> senders)
      else mret (Some ("unknown upstream_sender " +:+ wc_UpstreamSender wcfg +:+ " for biz " +:+ biz), senders)
  end.

Record GatewayServer := mkGatewayServer {
  gs_node : Node (TS:=TS); gs_senders : gmap string KafkaSender;
  gs_distRouter : DistributedRouter; gs_codec : FrameCodec; gs_authAddr : string;
  gs_HeartbeatTimeout : Z; gs_HandshakeTimeout : Z; gs_MaxBodySize : Z;
}.

Definition NewGatewayServer (cfg : AppConfig) (t0 : Z) : outcome (string + GatewayServer) :=
  match NewServiceContext cfg with
  | Panic why => Panic why
  | Ret _ =>
      let sched : TS := NewScheduler 64 in
      let ackScanner := NewScanner (5 * 10 ^ 9) in
      let sessRegistry := NewRegistry_options [WithOfflineStore; WithAckScanner] in
      let w := mkWorld t0 ∅ ∅ ∅ NewLocalRouter sessRegistry ackScanner sched ∅ ∅ [] in
      match (when (sr_ackScanner sessRegistry) SetTimeoutHandler ≫= λ _,
             registerWorkerPools cfg (map_range (cfg_Workers cfg)) ∅) w with
      | (Panic why, _) => Panic why
      | (Ret (Some e, _), _) => Ret (inl ("gateway: worker pools: " +:+ e))
      | (Ret (None, senders), w') =>
          Ret (inr (mkGatewayServer (mkNode w' ∅ ∅) senders (NewDistributedRouter (cfg_GatewayAddr cfg))
            (NewCodec DefaultConfig) (cfg_AuthAddr cfg) (30 * 10 ^ 9) (30 * 10 ^ 9) (Z.shiftl 2 20)))
      end
  end.

(** [Run] up to [gw.Start()]: errors are logged and then dereferenced. *)
Definition app_Run (load : string + AppConfig) (t0 : Z) : outcome GatewayServer :=
  match load with
  | inl _ => Panic "invalid memory address or nil pointer dereference"
  | inr cfg =>
      match NewGatewayServer cfg t0 with
      | Panic why => Panic why
      | Ret (inl _) => Panic "invalid memory address or nil pointer dereference"
      | Ret (inr gs) => Ret gs
      end
  end.

(** ** What the loop over the pools does *)
Definition wired_pools (cfg : AppConfig) : gmap string PoolConfig :=
  map_imap (λ biz wcfg, Some (pool_config biz wcfg)) (cfg_Workers cfg).
Definition wired_senders (cfg : AppConfig) : gmap string KafkaSender :=
  map_imap (λ biz _, Some (pool_sender cfg biz)) (cfg_Workers cfg).

Lemma registerWorkerPools_run cfg ws : ∀ senders (w : World TS),
  (Forall (λ kv, known_sender kv.2) ws ∧
   registerWorkerPools cfg ws senders w =
     (Ret (None, foldl (λ m kv, <[kv.1 := pool_sender cfg kv.1]> m) senders ws),
      upd_pools (λ ps, foldl (λ m kv, <[kv.1 := newWorkerPool (pool_config kv.1 kv.2)]> m) ps ws) w)) ∨
  (¬ Forall (λ kv, known_sender kv.2) ws ∧
   ∃ e senders' w', registerWorkerPools cfg ws senders w = (Ret (Some e, senders'), w')).
Proof.
  induction ws as [|[biz wcfg] ws IH]; intros senders w; cbn [registerWorkerPools].
  - left. split; [constructor|]. by destruct w.
  - case_decide as Hk; [|right; split; [by inversion_clear 1|eexists _, _, _; reflexivity]].
    rewrite bind_run. unfold AddPool, modify. cbn [fst snd].
    destruct (IH (<[biz := pool_sender cfg biz]> senders)
      (upd_pools <[cfg_BizCode (pool_config biz wcfg) := newWorkerPool (pool_config biz wcfg)]> w))
      as [[Hf E]|[Hf E]].
    + left. split; [by constructor|]. exact E.
    + right. split; [by inversion_clear 1|]. exact E.
Qed.

(** Filling a map key by key. *)
Lemma foldl_range {A B} (f : string → A → B) (m : gmap string A) :
  foldl (λ acc kv, <[kv.1 := f kv.1 kv.2]> acc) ∅ (map_range m) = map_imap (λ k a, Some (f k a)) m.
Proof.
  assert (∀ l (acc : gmap string B), foldl (λ acc kv, <[kv.1 := f kv.1 kv.2]> acc) acc l =
    foldl (λ acc kv, <[kv.1 := kv.2]> acc) acc ((λ kv, (kv.1, f kv.1 kv.2)) <$> l)) as E.
  { induction l as [|[k a] l IH]; intros acc; [done|]. simpl. by rewrite IH. }
  assert (((λ kv, (kv.1, f kv.1 kv.2)) <$> map_range m).*1 = (map_range m).*1) as Ek.
  { rewrite <-list_fmap_compose. by apply list_fmap_ext. }
  pose proof (map_range_perm m) as Hp.
  assert (NoDup (map_range m).*1) as Hn by (rewrite Hp; apply NoDup_fst_map_to_list).
  rewrite E, foldl_insert by (by rewrite Ek). rewrite map_union_empty. apply map_eq. intros k.
  apply option_eq. intros b. rewrite map_lookup_imap.
  rewrite <-elem_of_list_to_map by (by rewrite Ek). rewrite list_elem_of_fmap. split.
  - intros ([k' a] & [= -> ->] & Hin). rewrite Hp in Hin. apply elem_of_map_to_list in Hin. by rewrite Hin.
  - destruct (m !! k) as [a|] eqn:Em; simpl; [|done]. intros [= <-]. exists (k, a). split; [done|].
    rewrite Hp. by apply elem_of_map_to_list.
Qed.

Lemma Forall_range {A} (P : A → Prop) (m : gmap string A) :
  Forall (λ kv, P kv.2) (map_range m) ↔ ∀ k a, m !! k = Some a → P a.
Proof.
  rewrite Forall_forall. split.
  - intros Hall k a E. apply (Hall (k, a)). rewrite map_range_perm. by apply elem_of_map_to_list.
  - intros Hall [k a]. rewrite map_range_perm, elem_of_map_to_list. apply Hall.
Qed.

(** [Close] of a context that [NewServiceContext] made closes both clients. *)
Lemma close_closes_both : ServiceContext_Close true (Some None) [] = (Ret tt, [RedisClient; SqlDB]).
Proof. done. Qed.

(** The server of a configuration that can be started. *)
Definition the_server (cfg : AppConfig) (t0 : Z) : GatewayServer :=
  mkGatewayServer
    (start_node (mkDeps false true false 0) true (5 * 10 ^ 9) t0 (NewScheduler 64) (wired_pools cfg))
    (wired_senders cfg) (NewDistributedRouter (cfg_GatewayAddr cfg)) (NewCodec DefaultConfig)
    (cfg_AuthAddr cfg) (30 * 10 ^ 9) (30 * 10 ^ 9) 2097152.

Definition bootable (cfg : AppConfig) : Prop :=
  cfg_RedisAddr cfg = "" ∧ Ping "" = None ∧ cfg_DSN cfg ≠ "" ∧ OpenDB (cfg_DSN cfg) = None ∧
  ∀ biz wcfg, cfg_Workers cfg !! biz = Some wcfg → known_sender wcfg.

Lemma NewServiceContext_ok cfg : NewServiceContext cfg = Ret tt ↔
  cfg_RedisAddr cfg = "" ∧ Ping "" = None ∧ cfg_DSN cfg ≠ "" ∧ OpenDB (cfg_DSN cfg) = None.
Proof.
  unfold NewServiceContext, newRedis, newDB.
  destruct (decide (cfg_RedisAddr cfg ≠ "")) as [Hr|Hr%dec_stable]; [split; [done|]; by intros (? & _)|].
  rewrite Hr. destruct (Ping "") eqn:Ep; [split; [done|]; by intros (_ & ? & _)|].
  destruct (decide (cfg_DSN cfg = "")) as [Hd|Hd]; [split; [done|]; by intros (_ & _ & ? & _)|].
  destruct (OpenDB (cfg_DSN cfg)) eqn:Eo; [split; [done|]; by intros (_ & _ & _ & ?)|]. by split.
Qed.

Lemma foldl_pools cfg (w : World TS) : pools w = ∅ →
  foldl (λ m kv, <[kv.1 := newWorkerPool (pool_config kv.1 kv.2)]> m) (pools w) (map_range (cfg_Workers cfg)) =
    newWorkerPool <$> wired_pools cfg.
Proof.
  intros ->. rewrite (foldl_range (λ b wc, newWorkerPool (pool_config b wc))). apply map_eq. intros b.
  unfold wired_pools. rewrite lookup_fmap, !map_lookup_imap. by destruct (cfg_Workers cfg !! b).
Qed.

Lemma NewGatewayServer_run cfg t0 :
  (bootable cfg ∧ NewGatewayServer cfg t0 = Ret (inr (the_server cfg t0))) ∨
  (¬ bootable cfg ∧ ∀ gs, NewGatewayServer cfg t0 ≠ Ret (inr gs)).
Proof.
  unfold NewGatewayServer. pose proof (NewServiceContext_ok cfg) as Hsvc.
  destruct (NewServiceContext cfg) as [[]|why].
  2:{ right. split; [|done]. intros (H1 & H2 & H3 & H4 & _). destruct Hsvc as [_ Hs].
      discriminate Hs. done. }
  destruct Hsvc as [Hs _]. destruct (Hs eq_refl) as (H1 & H2 & H3 & H4).
  set (w0 := mkWorld t0 _ _ _ _ _ _ _ _ _ _). erewrite bind_ret_run by reflexivity.
  set (w1 := upd_scanner _ w0).
  destruct (registerWorkerPools_run cfg (map_range (cfg_Workers cfg)) ∅ w1) as [[Hf E]|[Hf E]].
  - left. rewrite Forall_range in Hf. split; [by split_and!|]. rewrite E. unfold upd_pools.
    rewrite (foldl_pools cfg w1) by done. rewrite (foldl_range (λ b _, pool_sender cfg b)). reflexivity.
  - right. rewrite Forall_range in Hf. split; [by intros (_ & _ & _ & _ & ?)|].
    destruct E as (e & senders' & w' & ->). done.
Qed.
End boot.

(** ** Sessions without a worker *)
Section unwired.
Context {TS : Type} `{Scheduler TS timeoutPayload unit} `{MapRange} `{PayloadLib}
  `{WireLib} `{HandshakeLib}.
Implicit Types (w : World TS) (n : Node (TS:=TS)).

(** No session has a worker, and the registry gives none to new ones. *)
Definition unwired w : Prop :=
  d_Worker (sr_deps (registry w)) = false ∧ ∀ p s, sessions w !! p = Some s → d_Worker (deps s) = false.

Lemma unwired_on_sess p f : (∀ s, deps (f s) = deps s) → keeps unwired (on_sess (TS:=TS) p f).
Proof.
  intros Hf w [Hr Hs]. split; [exact Hr|]. intros q s. simpl. rewrite lookup_alter_Some.
  intros [(<- & s0 & E & ->)|[_ E]]; [rewrite Hf|]; by eapply Hs.
Qed.
Lemma unwired_router f : keeps unwired (on_router (TS:=TS) f).
Proof. by intros w [??]. Qed.
Lemma unwired_frames {A} (m : M (World TS) A) : frames m → keeps unwired m.
Proof.
  intros Hf w [Hr Hs]. destruct (Hf w) as [(_ & _ & Eg) Ev]. split; [by rewrite Eg|].
  intros p s' E. specialize (Ev p). rewrite E in Ev. destruct (sessions w !! p) as [s|] eqn:E0; [|done].
  apply (inj Some) in Ev. injection Ev as _ _ _ _ _ _ ->. by eapply Hs.
Qed.
Lemma unwired_when b (m : M (World TS) unit) : keeps unwired m → keeps unwired (when b m).
Proof. destruct b; [done|]. intros _. apply keeps_ret. Qed.
Lemma unwired_for_each {A} (f : A → M (World TS) unit) l :
  (∀ a, keeps unwired (f a)) → keeps unwired (for_each f l).
Proof. intros Hf. induction l as [|a l IH]; simpl; [apply keeps_ret|]. by apply keeps_bind. Qed.

(** Decompose an operation into the steps above. *)
Ltac unwired_tac :=
  repeat first
    [ apply keeps_ret
    | apply unwired_on_sess; done
    | apply unwired_router
    | solve [apply unwired_frames; auto with gw nocore]
    | apply unwired_when
    | apply unwired_for_each; intros ?
    | apply keeps_bind; [|intros ?]
    | case_match ].

#[local] Hint Resolve frames_get_sess frames_get_conn frames_CancelAll frames_flush_entry frames_on_conn : gw.

Lemma unwired_Attach p c : keeps unwired (AttachConn (TS:=TS) p c).
Proof. unfold AttachConn. unwired_tac. Qed.
Lemma unwired_Detach p : keeps unwired (DetachConn (TS:=TS) p).
Proof. unfold DetachConn. unwired_tac. Qed.

Lemma unwired_stable : session_stable unwired.
Proof.
  split; intros; try exact unwired_frames.
  all: try by apply unwired_frames.
  all: try unfold sess_JoinRoom, sess_LeaveRoom, sess_Subscribe, sess_Unsubscribe, withConn, sess_Close, conn_Close.
  all: try by apply unwired_Attach.
  all: try by apply unwired_Detach.
  all: unwired_tac.
Qed.

Lemma unwired_GetOrCreate sha uid did a d b : keeps unwired (GetOrCreate (TS:=TS) sha uid did a d b).
Proof.
  intros w [Hr Hs]. unfold GetOrCreate. erewrite bind_ret_run by reflexivity.
  destruct (member _ uid did); [done|]. do 4 (erewrite bind_ret_run by reflexivity).
  split; [exact Hr|]. intros p s. cbn [fst snd sessions upd_sessions upd_registry mret M_ret].
  rewrite lookup_insert_Some. intros [[_ <-]|[_ E]]; [|by eapply Hs]. cbn [deps NewSession].
  by destruct (sr_ackScanner (registry w)).
Qed.

Lemma unwired_cleanup ref c : keeps unwired (run_cleanup (onClose (TS:=TS) ref) c).
Proof.
  unfold run_cleanup, onClose. apply keeps_bind; [apply unwired_frames, frames_on_conn|intros _].
  apply keeps_bind; [apply unwired_frames, frames_get_conn|intros k].
  apply keeps_bind; [apply unwired_Detach|intros _].
  apply keeps_bind; [apply unwired_frames; unfold UnregisterConn; frames_tac|intros _]. apply unwired_router.
Qed.

Context (fc : FrameCodec) (sha : string → string) (tp_Write : bool → list Z → error) (hb mb : Z).
Context (limiter : option (string → string → bool)) (sender : string → Message → error).

Lemma reachable_unwired n n' : rtc (node_moves fc sha tp_Write hb mb limiter sender) n n' →
  unwired (n_world n) → unwired (n_world n').
Proof.
  induction 1 as [|n1 n2 n3 [e n0 _] _ IH]; intros Hu; [done|]. apply IH.
  apply exec_keeps; [apply unwired_stable| |done]. destruct e; cbn [login_keeps]; try done.
  - intros ai req _. by apply unwired_GetOrCreate.
  - intros ref r _. by apply unwired_cleanup.
Qed.
End unwired.

(** ** Claims *)

(** C33.  When the gateway starts, and what it starts as.  [Run] gets to a server if
    and only if the configuration can be read, names no Redis address while Redis
    answers at the default one, names a database that can be opened, and gives
    every worker pool the Kafka sender; in every other case it panics.  The server
    then holds the node of the model at its start: nothing connected, one open
    pool per configured domain with a sender for the domain's upstream topic
    (none, if the domain has no topics), ACK time-outs of five seconds, protobuf
    frames, and sessions that will have an offline store but no worker. *)
Theorem gateway_starts_exactly `{MapRange} (Ping OpenDB : string → error) (load : string + AppConfig) (t0 : Z) :
  (∀ gs, app_Run Ping OpenDB load t0 = Ret gs ↔
     ∃ cfg, load = inr cfg ∧ bootable Ping OpenDB cfg ∧ gs = the_server cfg t0) ∧
  ((∃ gs, app_Run Ping OpenDB load t0 = Ret gs) ∨ ∃ why, app_Run Ping OpenDB load t0 = Panic why) ∧
  (∀ cfg biz, gs_senders (the_server cfg t0) !! biz =
     (λ _, NewKafkaSender (Brokers (cfg_Kafka cfg))
        match BusinessTopics (cfg_Kafka cfg) !! biz with Some tp => UpstreamTopic tp | None => "" end) <$>
     cfg_Workers cfg !! biz).
Proof.
  split_and!.
  - intros gs. unfold app_Run. destruct load as [e|cfg]; [split; [done|by intros (? & ? & _)]|].
    destruct (NewGatewayServer_run Ping OpenDB cfg t0) as [[Hb ->]|[Hb Hn]].
    + split; [intros [= <-]; eauto|]. by intros (? & [= <-] & _ & ->).
    + split; [|by intros (? & [= <-] & ? & _)].
      destruct (NewGatewayServer Ping OpenDB cfg t0) as [[e|gs']|why] eqn:E; try done.
      by destruct (Hn gs').
  - unfold app_Run. destruct load as [e|cfg]; [eauto|].
    destruct (NewGatewayServer Ping OpenDB cfg t0) as [[e|gs]|why]; eauto.
  - intros cfg biz. cbn. unfold wired_senders, pool_sender. rewrite map_lookup_imap.
    destruct (cfg_Workers cfg !! biz); simpl; [|done]. by destruct (BusinessTopics _ !! biz).
Qed.

(** The node the gateway starts never forwards a client's message.  No option
    of the session registry sets the worker, so in every state this node reaches
    a valid business message is answered with error 5000 on its connection, and
    no worker queue changes. *)
Theorem started_node_forwards_nothing `{MapRange} `{PayloadLib} `{WireLib} `{HandshakeLib}
    (cfg : AppConfig) (t0 : Z) (sha : string → string) (tp_Write : bool → list Z → error)
    (sender : string → Message → error) (n : Node) p c m msg k s :
  let gs := the_server cfg t0 in
  rtc (node_moves (gs_codec gs) sha tp_Write (gs_HeartbeatTimeout gs) (gs_MaxBodySize gs) None sender)
    (gs_node gs) n →
  valid_uplink (n_world n) m c msg k → sessions (n_world n) !! p = Some s →
  traceable msg = true → biz_of s msg ≠ "" →
  ∃ w' ctx' e f, ChainAdapter_Run None p c (Some m) (n_world n) = (Ret tt, (w', ctx')) ∧
    pools w' = pools (n_world n) ∧
    msgs w' !! e = Some f ∧ m_Type f = FrameType_ERROR ∧
    m_Body f = Some (mkBody Codec_PROTOBUF CompressAlgo_NONE (marshal_ErrorPayload 5000 "internal error")) ∧
    (length (writeCh k) < WriteChannelSize → (writeCh <$> conns w' !! c) = Some (writeCh k ++ [e])).
Proof.
  intros gs R Hv Es Htr Hbiz.
  assert (unwired (n_world n)) as [_ Hu].
  { eapply reachable_unwired; [exact R|]. split; [done|]. intros q s' E. cbn in E. by rewrite lookup_empty in E. }
  rewrite (uplink_unwired_worker None (n_world n) p c m msg k s Hv Es eq_refl Htr (Hu _ _ Es) Hbiz).
  set (ctx := traced_ctx (n_world n) p c m msg). set (w1 := upd_msgs _ (n_world n)).
  set (e := fresh (dom (msgs w1))).
  set (f := error_frame (u_TraceID ctx) (Some (m_MsgId msg)) 5000 "internal error").
  pose proof Hv as (_ & Ek & _ & _ & Hact).
  eexists _, _, e, (stamped k f). split; [reflexivity|]. unfold replied. fold e f.
  unfold after_submit, stamped. rewrite Hact. cbn. split_and!; try done.
  - by rewrite lookup_alter_eq, lookup_insert_eq.
  - intros Hl. rewrite lookup_insert_eq. unfold submitted. rewrite Hact. by rewrite decide_True.
Qed.

Definition boot_config : AppConfig :=
  mkAppConfig ":8089" "" "dsn" 300 {[ "im" := mkWorkerConfig "kafka" 1 100 1 100 ]} demo_kafka "auth:8081".

Lemma gateway_starts_exactly_witness :
  app_Run (λ _, None) (λ _, None) (inr boot_config) 0 = Ret (the_server boot_config 0) ∧
  ks_topic <$> gs_senders (the_server boot_config 0) !! "im" = Some "im.up".
Proof.
  destruct (gateway_starts_exactly (λ _, None) (λ _, None) (inr boot_config) 0) as (J & _ & Hs). split.
  - apply J. exists boot_config. split; [reflexivity|]. split; [|reflexivity].
    split_and!; [reflexivity|reflexivity|discriminate|reflexivity|].
    intros biz wcfg. cbn. rewrite lookup_singleton_Some. intros [_ <-]. by left.
  - rewrite Hs. vm_compute. reflexivity.
Defined.

(** A user connects to the started node, and a message is at hand. *)
Abbreviation boot_exec := (node_exec (H1:=demo_payload) (H2:=toyWire) (H3:=demo_handshake) (NewCodec DefaultConfig)
  (λ x, x) (λ _ _, None) (30 * 10 ^ 9) 2097152 None (λ _ _, None)).
Abbreviation boot_moves := (node_moves (H1:=demo_payload) (H2:=toyWire) (H3:=demo_handshake) (NewCodec DefaultConfig)
  (λ x, x) (λ _ _, None) (30 * 10 ^ 9) 2097152 None (λ _ _, None)).
Definition boot_start : Node := gs_node (the_server boot_config (10 ^ 9)).
Definition boot_connected : Node := (boot_exec demo_hello boot_start).2.
Definition boot_node : Node := (boot_exec (EvConsume "im" demo_msg) boot_connected).2.

Lemma boot_node_reachable : rtc boot_moves boot_start boot_node.
Proof.
  apply (rtc_l _ _ boot_connected); [|apply rtc_once]; apply node_move; [|done].
  intros ai req _ _ p s Hs. cbn in Hs. by rewrite lookup_empty in Hs.
Qed.

Lemma started_node_forwards_nothing_witness :
  ∃ w' ctx' e f, ChainAdapter_Run (H1:=demo_payload) None 1 1 (Some 2%positive) (n_world boot_node) =
      (Ret tt, (w', ctx')) ∧
    pools w' = pools (n_world boot_node) ∧ msgs w' !! e = Some f ∧
    m_Body f = Some (mkBody Codec_PROTOBUF CompressAlgo_NONE [5000%Z]).
Proof.
  assert (∃ k, conns (n_world boot_node) !! 1%positive = Some k ∧ conn_IsActive k = true) as (k & Ek & Hk)
    by (eexists; split; vm_compute; reflexivity).
  assert (∃ s, sessions (n_world boot_node) !! 1%positive = Some s) as (s & Es)
    by (eexists; vm_compute; reflexivity).
  assert (msgs (n_world boot_node) !! 2%positive = Some demo_msg) as Em by (vm_compute; reflexivity).
  assert (now (n_world boot_node) = 10 ^ 9)%Z as En by (vm_compute; reflexivity).
  destruct (started_node_forwards_nothing (H0:=demo_payload) (H1:=toyWire) (H2:=demo_handshake) boot_config (10 ^ 9)
    (λ x, x) (λ _ _, None) (λ _ _, None) boot_node 1 1 2 demo_msg k s boot_node_reachable)
    as (w' & ctx' & e & f & E & Hp & Hf & _ & Hb & _).
  - split_and!; [exact Em|exact Ek|discriminate|by rewrite En|exact Hk].
  - exact Es.
  - reflexivity.
  - discriminate.
  - exists w', ctx', e, f. split_and!; assumption.
Defined.
