(* ===== verification/Admin.v ===== *)
(** * Administration ([gateway/internal/handler])

    The HTTP handlers reach sessions through the interface [SessionAccessor],
    which nothing in the repository implements; the bootstrap passes nil. *)

From stdpp Require Import base list gmap strings numbers relations.
From S2P Require Import Prelude Timer Shard Message Codec Router RouterSpec World Connection Pool Session Demo.
From S2P Require Import Typing TypedOps Pipeline Uplink UplinkSpec Factory FactorySpec Sync SessionLife Node NodeSync NodeSpec.

(** [SessionAccessor] with [LocalRouterAccessor]: what they answer on a node. *)
Class SessionAccessor (TS : Type) : Type := {
  GetConnCount : World TS → nat;
  accessor_Count : World TS → nat * nat;
  GetByUserID : string → World TS → option (list SessionRef);
}.

Inductive admin_body : Set :=
  | AdminHealth (unix : Z)
  | AdminStats (conn_count user_count device_count : nat)
  | AdminSuccess
  | AdminInvalid (msg : string)
  | AdminEmpty.
Definition admin_answer : Type := Z * admin_body.

(** The body of a kick request. *)
Record KickParams := mkKickParams { kp_UserID : string; kp_Reason : string }.

Section admin.
Context {TS : Type} `{Scheduler TS timeoutPayload unit} `{MapRange}.
Abbreviation MW := (M (World TS)).
Implicit Types w : World TS.

Definition HealthHandler : MW admin_answer :=
  t ← gets now; mret (200, AdminHealth (t `div` 10 ^ 9))%Z.

(** [gin.Recovery]: a panic is answered with 500. *)
Definition gin_Recovery (m : MW admin_answer) : MW admin_answer := λ w,
  match m w with
  | (Panic _, w') => (Ret (500%Z, AdminEmpty), w')
  | r => r
  end.

(** [c.ShouldBindJSON] with [binding:"required"] on the user. *)
Definition bind_kick (parsed : string + KickParams) : string + KickParams :=
  match parsed with
  | inl e => inl e
  | inr req => if decide (kp_UserID req = "") then inl "Field validation for 'UserID' failed on the 'required' tag"
               else inr req
  end.

Section handlers.
Context `{SessionAccessor TS}.
(** [AdminHandler.session]: set or nil. *)
Implicit Types (session : bool).

Definition StatsHandler session : MW admin_answer :=
  if session then
    '(userCount, deviceCount) ← gets accessor_Count;
    n ← gets GetConnCount;
    mret (200%Z, AdminStats n userCount deviceCount)
  else panic "invalid memory address or nil pointer dereference".

Definition KickHandler session (parsed : string + KickParams) : MW admin_answer :=
  match bind_kick parsed with
  | inl err => mret (400%Z, AdminInvalid ("invalid params: " +:+ err))
  | inr req =>
      if session then
        o ← gets (GetByUserID (kp_UserID req));
        match o with
        | Some conns => for_each (λ conn, sess_Close (ref_ptr conn)) conns
        | None => mret tt
        end ≫= λ _,
        mret (200%Z, AdminSuccess)
      else panic "invalid memory address or nil pointer dereference"
  end.
End handlers.

(** ** What closing does to everything else

    No connection changes, what is closed stays closed, and the router's
    users and devices only become fewer. *)
Definition shrinks (r r' : LocalRouter SessionRef) : Prop :=
  (∀ u d, member (userConns r) u d = None → member (userConns r') u d = None) ∧
  (∀ d, deviceConn r !! d = None → deviceConn r' !! d = None).

Definition calm w w' : Prop :=
  conns w' = conns w ∧ shrinks (router w) (router w') ∧
  ∀ p s, sessions w !! p = Some s → s_once s = true → s_state s = StateClosed →
    ∃ s', sessions w' !! p = Some s' ∧ s_once s' = true ∧ s_state s' = StateClosed ∧ sess_fixed s' = sess_fixed s.

#[export] Instance calm_preorder : PreOrder calm.
Proof.
  split; [intros w; split_and!; [done|done|eauto]|].
  intros w1 w2 w3 (E1 & (U1 & D1) & S1) (E2 & (U2 & D2) & S2). split_and!; [congruence|split; auto|].
  intros p s E Ho Hc. destruct (S1 p s E Ho Hc) as (s' & E' & Ho' & Hc' & F').
  destruct (S2 p s' E' Ho' Hc') as (s'' & ? & ? & ? & F''). exists s''. split_and!; try done. congruence.
Qed.

Lemma calm_modify f : (∀ w, conns (f w) = conns w) → (∀ w, shrinks (router w) (router (f w))) →
  (∀ w, sessions (f w) = sessions w) → preserves calm (modify f).
Proof. intros Hc Hr Hs w. split_and!; simpl; [apply Hc|apply Hr|]. rewrite Hs. eauto. Qed.
Lemma calm_on_sess p f :
  (∀ s, s_once s = true → s_state s = StateClosed → s_once (f s) = true ∧ s_state (f s) = StateClosed) →
  (∀ s, sess_fixed (f s) = sess_fixed s) → preserves calm (on_sess (TS:=TS) p f).
Proof.
  intros Hf Hx w. split_and!; [done|done|]. intros q s E Ho Hc. simpl. rewrite lookup_alter.
  destruct (Hf s Ho Hc). case_decide as Hpq; [subst q|]; rewrite ?E; simpl; eauto 6.
Qed.
Lemma shrinks_refl r : shrinks r r.
Proof. by split. Qed.
Lemma shrinks_UnregisterAll ref r : shrinks r (UnregisterAll ref r).
Proof. done. Qed.
Lemma shrinks_UnregisterSession u d r : shrinks r (UnregisterSession u d r).
Proof.
  split; simpl.
  - intros u' d' E. rewrite member_remove. by case_decide.
  - intros d' E. rewrite lookup_delete. by case_decide.
Qed.
Lemma calm_router f : (∀ r, shrinks r (f r)) → preserves calm (on_router (TS:=TS) f).
Proof. intros Hf. apply calm_modify; [done|intros w; apply Hf|done]. Qed.
Lemma calm_CancelAll sid : preserves calm (CancelAll (TS:=TS) sid).
Proof.
  unfold CancelAll. preserves_tac; apply calm_modify; intros w; done || apply shrinks_refl.
Qed.

(** A session that is out: closed, and neither its user nor its device leads
    anywhere. *)
Definition kicked_out w (ref : SessionRef) : Prop :=
  (∃ s, sessions w !! ref_ptr ref = Some s ∧ s_once s = true ∧ s_state s = StateClosed) ∧
  member (userConns (router w)) (ref_uid ref) (ref_did ref) = None ∧
  deviceConn (router w) !! ref_did ref = None.

Lemma kicked_out_calm w w' ref : calm w w' → kicked_out w ref → kicked_out w' ref.
Proof.
  intros (_ & [Hu Hd] & Hs) [(s & E & Ho & Hc) [Mu Md]].
  destruct (Hs _ _ E Ho Hc) as (s' & E' & Ho' & Hc' & _). split; [by exists s'|]. auto.
Qed.

Lemma Close_calm_rest (s : Session) p : preserves calm
  (when (d_Acker (deps s)) (CancelAll (TS:=TS) (sessionID s)) ≫= λ _, on_sess p (upd_pendingAcks ∅)).
Proof.
  apply preserves_bind; [apply _| |intros _].
  - apply preserves_when; [apply _|apply calm_CancelAll].
  - by apply calm_on_sess.
Qed.

Lemma Close_kicks w ref : typed w → ref_ok w ref →
  (∃ s, sessions w !! ref_ptr ref = Some s ∧ s_once s = false) ∨ kicked_out w ref →
  ∃ w', sess_Close (ref_ptr ref) w = (Ret tt, w') ∧ typed w' ∧ calm w w' ∧ kicked_out w' ref.
Proof.
  intros Ht (s & Es & Er) Hcase. pose proof (good_sess_Close False (ref_ptr ref) w Ht ltac:(by exists s)) as (Ht' & _ & Hq).
  destruct Hcase as [(s0 & E0 & Ho)|Hout].
  2:{ destruct Hout as [(s0 & E0 & Ho & Hc) ?]. exists w. rewrite (Close_again _ w s0 E0 Ho).
      split_and!; [done|done|reflexivity|split; [by exists s0|done]]. }
  rewrite Es in E0. injection E0 as <-. destruct (sess_Close (ref_ptr ref) w) as [[[]|why] w'] eqn:E; [|done].
  exists w'. split; [done|]. split; [exact Ht'|]. revert E. unfold sess_Close.
  rewrite (bind_ret_run _ _ _ _ _ (get_sess_run _ w s Es)), Ho. do 2 (erewrite bind_ret_run by reflexivity).
  assert (∀ w4 : World TS, conns w4 = conns w →
    sessions w4 = alter (λ s, upd_s_state StateClosed (suspendedAt s) s) (ref_ptr ref) (alter upd_s_once (ref_ptr ref) (sessions w)) →
    (∃ r, shrinks (router w) r ∧ router w4 = UnregisterSession (userID s) (deviceID s) r) →
    calm w w4 ∧ kicked_out w4 ref) as Hmid.
  { intros w4 Hc4 Hs4 (r & Hsh & Hr4).
    assert (sessions w4 !! ref_ptr ref = Some (upd_s_state StateClosed (suspendedAt s) (upd_s_once s))) as E4.
    { by rewrite Hs4, !lookup_alter_eq, Es. }
    split.
    - split_and!; [done| |].
      + destruct Hsh as [Hu Hd], (shrinks_UnregisterSession (userID s) (deviceID s) r) as [Hu' Hd'].
        rewrite Hr4. split; auto.
      + intros q s1 E1 Ho1 Hc1. destruct (decide (q = ref_ptr ref)) as [->|Hne]; [congruence|].
        exists s1. by rewrite Hs4, !lookup_alter_ne by done.
    - unfold kicked_out. assert (ref_uid ref = userID s ∧ ref_did ref = deviceID s) as [-> ->] by (by rewrite Er).
      split; [by eexists|]. rewrite Hr4. simpl. split; [rewrite member_remove; by rewrite decide_True|].
      apply lookup_delete_eq. }
  assert (∀ w4 : World TS, calm w w4 ∧ kicked_out w4 ref →
    (when (d_Acker (deps s)) (CancelAll (sessionID s)) ≫= λ _, on_sess (ref_ptr ref) (upd_pendingAcks ∅)) w4 =
      (Ret tt, w') → calm w w' ∧ kicked_out w' ref) as Hend.
  { intros w4 [Hc4 Hk4] E. pose proof (Close_calm_rest s (ref_ptr ref) w4) as Hrest. rewrite E in Hrest.
    split; [by etrans|by eapply kicked_out_calm]. }
  destruct (s_conn s) as [c|]; do 2 (erewrite bind_ret_run by reflexivity); intros E; revert E;
    apply Hend, Hmid; try done.
  - eexists. split; [apply (shrinks_UnregisterAll (ref_of (ref_ptr ref) s))|reflexivity].
  - eexists. split; [apply shrinks_refl|reflexivity].
Qed.

(** Closing a session leaves the other sessions alone. *)
Lemma Close_others p q w : q ≠ p → sessions (sess_Close p w).2 !! q = sessions w !! q.
Proof.
  intros Hne. enough (preserves (λ w w' : World TS, sessions w' !! q = sessions w !! q) (sess_Close p)) as J by apply J.
  assert (PreOrder (λ w w' : World TS, sessions w' !! q = sessions w !! q)) by (split; [done|]; intros ???; congruence).
  assert (∀ f, preserves (λ w w' : World TS, sessions w' !! q = sessions w !! q) (on_sess p f)) as Hs.
  { intros f w0. simpl. by rewrite lookup_alter_ne by congruence. }
  assert (∀ f : World TS → World TS, (∀ w, sessions (f w) = sessions w) →
    preserves (λ w w' : World TS, sessions w' !! q = sessions w !! q) (modify f)) as Hm.
  { intros f Hf w0. simpl. by rewrite Hf. }
  unfold sess_Close, get_sess, conn_Close, CancelAll, on_router.
  preserves_tac; try apply Hs; apply Hm; done.
Qed.

(** The sessions of a list that are not yet closed, or are out already. *)
Definition kickable w (ref : SessionRef) : Prop :=
  ref_ok w ref ∧ ((∃ s, sessions w !! ref_ptr ref = Some s ∧ s_once s = false) ∨ kicked_out w ref).

Lemma kick_all refs : ∀ w, typed w → Forall (kickable w) refs →
  ∃ w', for_each (λ conn, sess_Close (ref_ptr conn)) refs w = (Ret tt, w') ∧ typed w' ∧ calm w w' ∧
    Forall (kicked_out w') refs.
Proof.
  induction refs as [|ref refs IH]; intros w Ht Hk; cbn [for_each]; [by exists w|].
  inversion_clear Hk as [|? ? [Hr Hc] Hrest].
  destruct (Close_kicks w ref Ht Hr Hc) as (w1 & E1 & Ht1 & Hcalm & Hout).
  rewrite (bind_ret_run _ _ _ _ _ E1).
  pose proof (good_sess_Close False (ref_ptr ref) w Ht) as Hg.
  destruct Hg as (_ & Hext & _); [destruct Hr as (s & ? & _); by exists s|]. rewrite E1 in Hext. cbn in Hext.
  destruct (IH w1 Ht1) as (w' & E' & Ht' & Hcalm' & Hout').
  { eapply Forall_impl; [exact Hrest|]. intros ref' [Hr' Hc']. split; [by eauto with typing|].
    destruct Hc' as [(s & Es & Ho)|Hc']; [|right; by eapply kicked_out_calm].
    destruct (decide (ref_ptr ref' = ref_ptr ref)) as [Ep|Hne].
    - right. destruct Hr as (s0 & E0 & Er0), Hr' as (s1 & E1' & Er1). rewrite Ep in E1', Er1. 
      assert (s0 = s1) as <- by congruence. assert (ref' = ref) as -> by congruence. exact Hout.
    - left. assert (sessions w1 !! ref_ptr ref' = sessions w !! ref_ptr ref') as ->; [|eauto].
      pose proof (Close_others (ref_ptr ref) (ref_ptr ref') w Hne) as Hoth. by rewrite E1 in Hoth. }
  exists w'. split; [done|]. split; [done|]. split; [by etrans|]. constructor; [|done]. by eapply kicked_out_calm.
Qed.
End admin.

(** ** Claims *)

(** Kicking a user.  With an accessor that returns sessions of the node, the
    request is answered with success, every session returned is closed and
    neither its user nor its device leads to it any more; but no connection
    changes: closing a connection has an empty body, so the client stays
    connected.  As the bootstrap wires the handler, with no accessor, the request
    is answered with error 500 and nothing happens at all. *)
Theorem kick_forgets_session_keeps_connection {TS : Type} `{Scheduler TS timeoutPayload unit} `{MapRange}
    `{SessionAccessor TS} (w : World TS) (uid reason : string) (refs : list SessionRef) :
  typed w → uid ≠ "" → GetByUserID uid w = Some refs →
  Forall (λ ref, ref_ok w ref ∧ ∃ s, sessions w !! ref_ptr ref = Some s ∧ s_once s = false) refs →
  let kick session := gin_Recovery (KickHandler session (inr (mkKickParams uid reason))) in
  (∃ w', kick true w = (Ret (200%Z, AdminSuccess), w') ∧ typed w' ∧ conns w' = conns w ∧
     ∀ ref, ref ∈ refs →
       (∃ s, sessions w' !! ref_ptr ref = Some s ∧ s_state s = StateClosed) ∧
       member (userConns (router w')) (ref_uid ref) (ref_did ref) = None ∧
       deviceConn (router w') !! ref_did ref = None) ∧
  kick false w = (Ret (500%Z, AdminEmpty), w).
Proof.
  intros Ht Hu Hget Hrefs kick. subst kick. cbv beta. unfold gin_Recovery, KickHandler, bind_kick. cbn [kp_UserID].
  rewrite decide_False by done. split; [|done]. erewrite bind_ret_run by reflexivity. cbn [kp_UserID]. rewrite Hget.
  destruct (kick_all refs w Ht) as (w' & E & Ht' & (Hc & _) & Hout).
  { eapply Forall_impl; [exact Hrefs|]. intros ref [Hr Ho]. split; [done|by left]. }
  rewrite (bind_ret_run _ _ _ _ _ E). exists w'. split_and!; [done|done|done|]. intros ref Hin.
  rewrite Forall_forall in Hout. destruct (Hout ref Hin) as [(s & Es & _ & Hcl) [Hm Hd]]. eauto.
Qed.

(** Users are found through the session registry. *)
#[export] Instance registry_accessor {TS} `{MapRange} : SessionAccessor TS := {|
  GetConnCount w := size (conn_registry w);
  accessor_Count w := (size (userConns (router w)), size (deviceConn (router w)));
  GetByUserID uid w := match userIndex (registry w) !! uid with
                       | Some ds => Some (map_range ds).*2 | None => None end;
|}.

Lemma kick_forgets_session_keeps_connection_witness :
  ∃ w', gin_Recovery (KickHandler true (inr (mkKickParams "u1" "spam"))) (n_world demo_node) =
      (Ret (200%Z, AdminSuccess), w') ∧
    conns w' = conns (n_world demo_node) ∧
    member (userConns (router (n_world demo_node))) "u1" "d1" ≠ None ∧
    member (userConns (router w')) "u1" "d1" = None.
Proof.
  destruct (reachable_ok (H1:=demo_payload) (H2:=toyWire) (H3:=demo_handshake) JSONConfig (λ x, x)
    (λ _ _, None) (30 * 10 ^ 9) 2097152 None (λ _ _, None) _ _ demo_node_reachable (start_ok _ _ _ _ _ _)) as [[Ht _] _].
  assert (∃ s, sessions (n_world demo_node) !! 1%positive = Some s ∧ s_once s = false ∧
    ref_of 1 s = mkRef 1 "u1:d1" "u1" "d1") as (s & Es & Ho & Er) by (eexists; vm_compute; done).
  destruct (kick_forgets_session_keeps_connection (n_world demo_node) "u1" "spam" [mkRef 1 "u1:d1" "u1" "d1"] Ht)
    as ((w' & E & _ & Hc & Hout) & _).
  - discriminate.
  - vm_compute. reflexivity.
  - repeat constructor; exists s; [split; [exact Es|exact (eq_sym Er)]|split; [exact Es|exact Ho]].
  - exists w'. split; [exact E|]. split; [exact Hc|]. split; [vm_compute; discriminate|].
    exact (proj1 (proj2 (Hout _ (proj2 (list_elem_of_singleton _ _) eq_refl)))).
Defined.
