(* ===== verification/Auth.v ===== *)
(** * The auth service ([auth/internal/server/server.go])

    Tokens are handed out for a user and a device, looked up by the gateway
    during the handshake, and removed when they have expired, on lookup and by a
    periodic cleaner.  What [ShouldBindJSON] makes of a request body and what
    [rand.Read] returns are inputs. *)

From Stdlib Require Import Sorted.
From stdpp Require Import base list gmap strings numbers pretty.
From S2P Require Import Prelude Tcp Router.

Record TokenInfo := mkTokenInfo {
  ti_Token : string; ti_UserID : string; ti_DeviceID : string; ti_AppID : string;
  ti_Gateway : string; ti_Protocol : string; ti_ExpireAt : Z; ti_CreatedAt : Z;
}.

(** [tokens sync.Map] *)
Record AuthServer := mkAuthServer { as_tokens : gmap string TokenInfo }.

Definition NewAuthServer : AuthServer := mkAuthServer ∅.

(** The bodies of the two requests. *)
Record tokenReq := mkTokenReq { tr_DeviceID : string; tr_UserID : string; tr_AppID : string }.
Record validateReq := mkValidateReq { vq_Token : string }.

(** The replies: HTTP status and the JSON object. *)
Record tokenData := mkTokenData {
  td_token : string; td_gateway : string; td_protocol : string; td_heartbeat : Z; td_expire_at : Z;
}.
Record tokenReply := mkTokenReply { tk_status : Z; tk_code : Z; tk_msg : string; tk_data : option tokenData }.
(** [vr_ids] are the fields [user_id] and [device_id]. *)
Record validateReply := mkValidateReply {
  vr_status : Z; vr_code : Z; vr_msg : string; vr_valid : option bool; vr_ids : option (string * string);
}.

(** [hex.EncodeToString] *)
Definition hex_byte (b : Z) : string := hex_digit (b `div` 16) +:+ hex_digit (b `mod` 16).
Definition hex_string (bs : list Z) : string := foldr (λ b s, hex_byte b +:+ s) "" bs.

(** [rand] is what [rand.Read] filled in, or its error. *)
Definition generateToken (rand : string + list Z) : string + string :=
  match rand with inl e => inl e | inr bytes => inr (hex_string bytes) end.

(** [24 * time.Hour] *)
Definition tokenTTL : Z := 86400 * 10 ^ 9.

(** [t0] is the clock when the expiry is computed, [t1] when the record is
    made. *)
Definition handleToken (t0 t1 : Z) (rand : string + list Z) (body : string + tokenReq)
    (s : AuthServer) : tokenReply * AuthServer :=
  match body with
  | inl e => (mkTokenReply 400 (-1) e None, s)
  | inr req =>
      match generateToken rand with
      | inl _ => (mkTokenReply 500 (-1) "generate token failed" None, s)
      | inr token =>
          let expireAt := (t0 + tokenTTL)%Z in
          let tokenInfo := mkTokenInfo token (tr_UserID req) (tr_DeviceID req) (tr_AppID req)
                             "127.0.0.1:8089" "tcp" expireAt t1 in
          (mkTokenReply 200 0 "ok" (Some (mkTokenData token (ti_Gateway tokenInfo)
             (ti_Protocol tokenInfo) 30 (expireAt `div` 10 ^ 9))),
           mkAuthServer (<[token := tokenInfo]> (as_tokens s)))
      end
  end.

Definition handleValidate (now : Z) (body : string + validateReq) (s : AuthServer) :
    validateReply * AuthServer :=
  match body with
  | inl e => (mkValidateReply 400 (-1) e None None, s)
  | inr req =>
      match as_tokens s !! vq_Token req with
      | None => (mkValidateReply 200 401 "token not found" (Some false) None, s)
      | Some tokenInfo =>
          if (ti_ExpireAt tokenInfo <? now)%Z then
            (mkValidateReply 200 401 "token expired" (Some false) None,
             mkAuthServer (delete (vq_Token req) (as_tokens s)))
          else (mkValidateReply 200 0 "ok" (Some true)
                  (Some (ti_UserID tokenInfo, ti_DeviceID tokenInfo)), s)
      end
  end.

(** One tick of [cleanExpiredTokens]. *)
Definition cleanExpiredTokens `{MapRange} (now : Z) (s : AuthServer) : AuthServer :=
  mkAuthServer (foldl (λ m kv, if (ti_ExpireAt kv.2 <? now)%Z then delete kv.1 m else m)
                  (as_tokens s) (map_range (as_tokens s))).

(** ** Histories *)
Inductive auth_op : Type :=
  | AToken (t0 t1 : Z) (rand : string + list Z) (body : string + tokenReq)
  | AValidate (now : Z) (body : string + validateReq)
  | AClean (now : Z).

Definition op_time (o : auth_op) : Z :=
  match o with AToken t0 _ _ _ => t0 | AValidate t _ => t | AClean t => t end.

Definition do_auth `{MapRange} (o : auth_op) (s : AuthServer) : AuthServer :=
  match o with
  | AToken t0 t1 rand body => (handleToken t0 t1 rand body s).2
  | AValidate t body => (handleValidate t body s).2
  | AClean t => cleanExpiredTokens t s
  end.
Definition do_auths `{MapRange} (ops : list auth_op) (s : AuthServer) : AuthServer :=
  foldl (flip do_auth) s ops.

(** The specification: who a token was last issued to, and when; nothing is
    ever removed. *)
Abbreviation grants := (gmap string (string * string * Z)).
Definition abs_auth (o : auth_op) (g : grants) : grants :=
  match o with
  | AToken t0 _ rand (inr req) =>
      match generateToken rand with
      | inr token => <[token := (tr_UserID req, tr_DeviceID req, t0)]> g
      | inl _ => g
      end
  | _ => g
  end.
Definition abs_auths (ops : list auth_op) (g : grants) : grants := foldl (flip abs_auth) g ops.

(** What a token is worth at time [t]. *)
Definition granted (t : Z) (tok : string) (g : grants) : option (string * string) :=
  match g !! tok with
  | Some (u, d, t0) => if (t0 + tokenTTL <? t)%Z then None else Some (u, d)
  | None => None
  end.
Definition held (t : Z) (tok : string) (s : AuthServer) : option (string * string) :=
  match as_tokens s !! tok with
  | Some i => if (ti_ExpireAt i <? t)%Z then None else Some (ti_UserID i, ti_DeviceID i)
  | None => None
  end.

Definition expired (now : Z) (i : TokenInfo) : Prop := (ti_ExpireAt i < now)%Z.
#[export] Instance expired_dec now i : Decision (expired now i).
Proof. unfold expired. apply _. Defined.

Lemma foldl_clean now (l : list (string * TokenInfo)) : ∀ (m : gmap string TokenInfo) k,
  (∀ k i, (k, i) ∈ l → m !! k = Some i) → NoDup l.*1 →
  foldl (λ m kv, if (ti_ExpireAt kv.2 <? now)%Z then delete kv.1 m else m) m l !! k =
    m !! k ≫= λ i, if decide (k ∈ l.*1 ∧ expired now i) then None else Some i.
Proof.
  induction l as [|[k0 i0] l IH]; intros m k Hin Hnd; cbn [foldl fst snd].
  { destruct (m !! k) as [i|]; [|done]. cbn [mbind option_bind]. rewrite decide_False; [done|]. set_solver. }
  rewrite fmap_cons in Hnd. inversion_clear Hnd as [|? ? Hk0 Hnd']. simpl in Hk0.
  pose proof (Hin k0 i0 (list_elem_of_here _ _)) as Hm0.
  assert (∀ k1 i1, (k1, i1) ∈ l → k1 ≠ k0) as Hno.
  { intros k1 i1 Hi ->. apply Hk0. by apply (list_elem_of_fmap_2 fst) in Hi. }
  destruct (ti_ExpireAt i0 <? now)%Z eqn:Hx; rewrite ?Z.ltb_lt, ?Z.ltb_ge in Hx; rewrite IH; try done.
  - rewrite lookup_delete. case_decide as D; cbn [mbind option_bind].
    + subst k. rewrite Hm0. cbn [mbind option_bind]. rewrite decide_True; [done|]. split; [by left|done].
    + destruct (m !! k) as [i|]; [|done]. cbn [mbind option_bind]. repeat case_decide; set_solver.
  - intros k1 i1 Hi. rewrite lookup_delete_ne; [apply Hin; by right|]. by apply not_eq_sym, (Hno k1 i1).
  - destruct (m !! k) as [i|] eqn:Ei; [|done]. cbn [mbind option_bind].
    destruct (decide (k = k0)) as [->|Hne].
    + simplify_eq. rewrite !decide_False; unfold expired; [done|lia..].
    + repeat case_decide; set_solver.
  - intros k1 i1 Hi. apply Hin. by right.
Qed.

(** Cleaning removes exactly the expired tokens. *)
Lemma clean_lookup `{MapRange} now s tok :
  as_tokens (cleanExpiredTokens now s) !! tok =
    match as_tokens s !! tok with
    | Some i => if (ti_ExpireAt i <? now)%Z then None else Some i
    | None => None
    end.
Proof.
  unfold cleanExpiredTokens. cbn [as_tokens]. rewrite foldl_clean.
  - destruct (as_tokens s !! tok) as [i|] eqn:E; [|done]. simpl.
    assert (tok ∈ (map_range (as_tokens s)).*1) as Hin.
    { rewrite (map_range_perm (as_tokens s)). apply list_elem_of_fmap. exists (tok, i).
      split; [done|]. by apply elem_of_map_to_list. }
    destruct (ti_ExpireAt i <? now)%Z eqn:Hx; rewrite ?Z.ltb_lt, ?Z.ltb_ge in Hx.
    + by rewrite decide_True.
    + rewrite decide_False; [done|]. unfold expired. lia.
  - intros k i. rewrite (map_range_perm (as_tokens s)). apply elem_of_map_to_list.
  - rewrite (map_range_perm (as_tokens s)). apply NoDup_fst_map_to_list.
Qed.

(** Server and specification agree on every token from time [t] on. *)
Definition auth_rel (t : Z) (s : AuthServer) (g : grants) : Prop :=
  ∀ t' tok, (t ≤ t')%Z → held t' tok s = granted t' tok g.

Lemma do_auth_rel `{MapRange} o t s g :
  (t ≤ op_time o)%Z → auth_rel t s g → auth_rel (op_time o) (do_auth o s) (abs_auth o g).
Proof.
  intros Ht Hr t' tok Ht'. assert (held t' tok s = granted t' tok g) as Hold by (apply Hr; lia).
  destruct o as [t0 t1 rand body|now body|now]; simpl in *.
  - destruct body as [e|req]; [done|]. unfold handleToken.
    destruct (generateToken rand) as [e|token]; [done|]. unfold held, granted in *.
    cbn [snd as_tokens].
    destruct (decide (token = tok)) as [->|]; [by rewrite !lookup_insert_eq|by rewrite !lookup_insert_ne].
  - destruct body as [e|req]; [done|]. unfold handleValidate.
    destruct (as_tokens s !! vq_Token req) as [i|] eqn:E; [|done].
    destruct (ti_ExpireAt i <? now)%Z eqn:Hx; [|done]. apply Z.ltb_lt in Hx.
    rewrite <-Hold. unfold held. simpl. rewrite lookup_delete. case_decide; [subst|done].
    rewrite E. by rewrite (proj2 (Z.ltb_lt _ _)) by lia.
  - rewrite <-Hold. unfold held. rewrite clean_lookup.
    destruct (as_tokens s !! tok) as [i|]; [|done].
    destruct (ti_ExpireAt i <? now)%Z eqn:Hx; [|done]. apply Z.ltb_lt in Hx.
    by rewrite (proj2 (Z.ltb_lt _ _)) by lia.
Qed.

Lemma last_default {A} (x : A) l d d' : List.last (x :: l) d = List.last (x :: l) d'.
Proof. revert x. induction l as [|y l IHl]; intros x; [done|]. apply (IHl y). Qed.

Lemma sorted_snoc (l : list Z) t : ∀ a, LocallySorted Z.le ((a :: l) ++ [t]) →
  LocallySorted Z.le (a :: l) ∧ (List.last l a ≤ t)%Z.
Proof.
  induction l as [|b l IHl]; intros a Hs; simpl in Hs; inversion Hs as [| |? ? ? Hs' Hle]; subst.
  - split; [constructor|done].
  - destruct (IHl b Hs') as [H1 H2]. split; [by constructor|].
    destruct l as [|c l]; [done|]. change (List.last (c :: l) a ≤ t)%Z. rewrite (last_default c l a b). exact H2.
Qed.

Lemma do_auths_rel `{MapRange} ops : ∀ t s g,
  LocallySorted Z.le (t :: (op_time <$> ops)) → auth_rel t s g →
  auth_rel (List.last (op_time <$> ops) t) (do_auths ops s) (abs_auths ops g).
Proof.
  induction ops as [|o ops IH]; intros t s g Hs Hr; [done|].
  rewrite fmap_cons in *. inversion Hs as [| |? ? ? Hs' Hle]; subst.
  specialize (IH (op_time o) (do_auth o s) (abs_auth o g) Hs' (do_auth_rel o t s g Hle Hr)).
  cbn [List.last]. destruct (op_time <$> ops) as [|t1 l] eqn:El; [exact IH|].
  rewrite (last_default t1 l t (op_time o)). exact IH.
Qed.

(** What the server holds for a token is what was granted. *)
Lemma held_granted `{MapRange} (ops : list auth_op) (t : Z) (tok : string) :
  LocallySorted Z.le ((op_time <$> ops) ++ [t]) →
  held t tok (do_auths ops NewAuthServer) = granted t tok (abs_auths ops ∅).
Proof.
  intros Hs. destruct ops as [|o ops].
  { unfold held, granted. simpl. by rewrite !lookup_empty. }
  assert (auth_rel (op_time o) (do_auth o NewAuthServer) (abs_auth o ∅)) as Hr.
  { apply (do_auth_rel o (op_time o)); [lia|]. intros t' tok' _. unfold held, granted. simpl.
    by rewrite !lookup_empty. }
  rewrite fmap_cons in Hs. destruct (sorted_snoc _ _ _ Hs) as [Hs1 Hle].
  exact (do_auths_rel ops _ _ _ Hs1 Hr t tok Hle).
Qed.

(** * Claims *)

(** C39.  A token is worth exactly what was granted: after any history of requests
    and cleaner runs with a clock that does not go back, validation accepts a
    token if and only if it was issued and at most 24 hours have passed since
    it was last issued, and then names the user and device it was issued for.
    When expired tokens are removed cannot be observed. *)
Theorem token_valid_while_granted `{MapRange} (ops : list auth_op) (t : Z) (tok : string) :
  LocallySorted Z.le ((op_time <$> ops) ++ [t]) →
  let r := (handleValidate t (inr (mkValidateReq tok)) (do_auths ops NewAuthServer)).1 in
  vr_valid r = Some (bool_decide (is_Some (granted t tok (abs_auths ops ∅)))) ∧
  vr_ids r = granted t tok (abs_auths ops ∅).
Proof.
  intros Hs. pose proof (held_granted ops t tok Hs) as Hh.
  rewrite <-Hh. unfold handleValidate, held. simpl.
  destruct (as_tokens _ !! tok) as [i|]; [|done]. by destruct (ti_ExpireAt i <? t)%Z.
Qed.

(** Issued at 5 and read half a day later, the cleaner having run between. *)
Lemma token_valid_while_granted_witness :
  let ops := [AToken 5 6 (inr [171%Z; 1%Z]) (inr (mkTokenReq "d1" "u1" "app"));
              AClean (43200 * 10 ^ 9)] in
  let r := (handleValidate (43201 * 10 ^ 9) (inr (mkValidateReq "ab01"))
             (do_auths (H:=canonical_range) ops NewAuthServer)).1 in
  vr_valid r = Some true ∧ vr_ids r = Some ("u1", "d1").
Proof.
  destruct (token_valid_while_granted (H:=canonical_range)
    [AToken 5 6 (inr [171%Z; 1%Z]) (inr (mkTokenReq "d1" "u1" "app")); AClean (43200 * 10 ^ 9)]
    (43201 * 10 ^ 9) "ab01") as [H1 H2].
  - repeat constructor; simpl; lia.
  - split; [rewrite H1|rewrite H2]; vm_compute; reflexivity.
Defined.
