(* ===== verification/Login.v ===== *)
(** * Logging in, across three programs
    ([sdk/auth.go], [auth/internal/server/server.go],
     [gateway/internal/access/handler/handshake.go])

    A client asks the auth service for a token over HTTP; later the gateway asks
    the same service whether the token it was shown is valid.  The bodies travel
    as JSON objects whose keys are given by struct tags on one side and by
    [gin.H] keys or other tags on the other.  The text of JSON is library code:
    [JsonText] prints and parses values, and keeps those whose strings are valid
    UTF-8 ([JsonTextLaws]). *)

From Stdlib Require Import Sorted.
From stdpp Require Import base list gmap strings numbers pretty.
From S2P Require Import Prelude Timer Shard Message Codec Router World Connection Pool Session Demo.
From S2P Require Import Utf8 Tcp Factory FactorySpec Auth.

Inductive json : Set :=
  | JNum (z : Z) | JStr (s : string) | JBool (b : bool) | JObj (fields : list (string * json)).

Class JsonText : Type := {
  json_print : json → list Z;
  json_parse : list Z → string + json;
}.
(** What the text keeps: strings of valid UTF-8 ([encoding/json] replaces other
    bytes by U+FFFD) and objects without repeated keys. *)
Fixpoint json_ok (v : json) : bool :=
  match v with
  | JStr s => valid_utf8 s
  | JObj fs => bool_decide (NoDup fs.*1) && forallb (λ kv, valid_utf8 kv.1 && json_ok kv.2) fs
  | _ => true
  end.
Class JsonTextLaws `{JsonText} : Prop := { json_text v : json_ok v = true → json_parse (json_print v) = inr v }.

(** Decoding into a struct field: a missing key leaves the zero value. *)
Definition json_field (k : string) (v : json) : option json :=
  match v with JObj fs => snd ∘ snd <$> list_find (λ kv, kv.1 = k) fs | _ => None end.
Definition mismatch (k : string) : string := "json: cannot unmarshal into field " +:+ k.
Definition get_string (k : string) (v : json) : string + string :=
  match json_field k v with None => inr "" | Some (JStr s) => inr s | _ => inl (mismatch k) end.
Definition get_int (k : string) (v : json) : string + Z :=
  match json_field k v with None => inr 0%Z | Some (JNum z) => inr z | _ => inl (mismatch k) end.
Definition get_bool (k : string) (v : json) : string + bool :=
  match json_field k v with None => inr false | Some (JBool b) => inr b | _ => inl (mismatch k) end.

(** Errors of decoding, in order. *)
Definition sum_bind {A B} (m : string + A) (f : A → string + B) : string + B :=
  match m with inl e => inl e | inr a => f a end.

(** ** The client ([sdk/auth.go]) *)
Record GenerateTokenRequest := mkGenTokenReq { gt_DeviceID : string; gt_UserID : string; gt_AppID : string }.
Record TokenResponse := mkTokenResponse {
  tok_Token : string; tok_Gateway : string; tok_Protocol : string; tok_Heartbeat : Z; tok_ExpireAt : Z;
}.
Record GenerateTokenResponse := mkGenTokenResp { gr_Code : Z; gr_Msg : string; gr_Data : option TokenResponse }.

(** The tags of the request; [app_id] has [omitempty]. *)
Definition json_of_GenerateTokenRequest (req : GenerateTokenRequest) : json :=
  JObj ([("device_id", JStr (gt_DeviceID req)); ("user_id", JStr (gt_UserID req))] ++
        if decide (gt_AppID req = "") then [] else [("app_id", JStr (gt_AppID req))]).

Definition TokenResponse_of_json (v : json) : string + TokenResponse :=
  sum_bind (get_string "token" v) (λ token,
  sum_bind (get_string "gateway" v) (λ gateway,
  sum_bind (get_string "protocol" v) (λ protocol,
  sum_bind (get_int "heartbeat" v) (λ heartbeat,
  sum_bind (get_int "expire_at" v) (λ expire_at,
  inr (mkTokenResponse token gateway protocol heartbeat expire_at)))))).
Definition GenerateTokenResponse_of_json (v : json) : string + GenerateTokenResponse :=
  sum_bind (get_int "code" v) (λ code,
  sum_bind (get_string "msg" v) (λ msg,
  match json_field "data" v with
  | None => inr (mkGenTokenResp code msg None)
  | Some d => sum_bind (TokenResponse_of_json d) (λ t, inr (mkGenTokenResp code msg (Some t)))
  end)).

(** ** The service: request bodies in, replies out *)
Definition tokenReq_of_json (v : json) : string + tokenReq :=
  sum_bind (get_string "device_id" v) (λ did,
  sum_bind (get_string "user_id" v) (λ uid,
  sum_bind (get_string "app_id" v) (λ app,
  if decide (did = "" ∨ uid = "") then inl "Field validation failed on the 'required' tag"
  else inr (mkTokenReq did uid app)))).
Definition validateReq_of_json (v : json) : string + validateReq :=
  sum_bind (get_string "token" v) (λ tok,
  if decide (tok = "") then inl "Field validation failed on the 'required' tag" else inr (mkValidateReq tok)).

Definition json_of_tokenReply (r : tokenReply) : json :=
  JObj ([("code", JNum (tk_code r)); ("msg", JStr (tk_msg r))] ++
    match tk_data r with
    | None => []
    | Some d => [("data", JObj [("token", JStr (td_token d)); ("gateway", JStr (td_gateway d));
                  ("protocol", JStr (td_protocol d)); ("heartbeat", JNum (td_heartbeat d));
                  ("expire_at", JNum (td_expire_at d))])]
    end).
Definition json_of_validateReply (r : validateReply) : json :=
  JObj ([("code", JNum (vr_code r)); ("msg", JStr (vr_msg r))] ++
    match vr_valid r with None => [] | Some b => [("valid", JBool b)] end ++
    match vr_ids r with None => [] | Some (u, d) => [("user_id", JStr u); ("device_id", JStr d)] end).

Section http.
Context `{JsonText}.

Definition POST_token (t0 t1 : Z) (rand : string + list Z) (body : list Z) (s : AuthServer) : list Z * AuthServer :=
  let '(r, s') := handleToken t0 t1 rand (sum_bind (json_parse body) tokenReq_of_json) s in
  (json_print (json_of_tokenReply r), s').
Definition POST_validate (now : Z) (body : list Z) (s : AuthServer) : list Z * AuthServer :=
  let '(r, s') := handleValidate now (sum_bind (json_parse body) validateReq_of_json) s in
  (json_print (json_of_validateReply r), s').

(** [AuthClient.GenerateToken]; [net] is the error of the HTTP call, if any.
    The status code is not looked at. *)
Definition GenerateToken (net : error) (t0 t1 : Z) (rand : string + list Z) (req : GenerateTokenRequest)
    (s : AuthServer) : (string + option TokenResponse) * AuthServer :=
  match net with
  | Some e => (inl (wrap_error "call auth service failed" e), s)
  | None =>
      let '(body, s') := POST_token t0 t1 rand (json_print (json_of_GenerateTokenRequest req)) s in
      (match sum_bind (json_parse body) GenerateTokenResponse_of_json with
       | inl e => inl (wrap_error "decode response failed" e)
       | inr r => if decide (gr_Code r ≠ 0%Z) then inl (wrap_error "auth service error" (gr_Msg r))
                  else inr (gr_Data r)
       end, s')
  end.

(** ** The gateway ([AuthVerifier.validateToken]) *)
Definition AuthResponse_of_json (v : json) : string + AuthResponse :=
  sum_bind (get_int "code" v) (λ code,
  sum_bind (get_string "msg" v) (λ msg,
  sum_bind (get_bool "valid" v) (λ valid,
  sum_bind (get_string "user_id" v) (λ uid,
  sum_bind (get_string "device_id" v) (λ did,
  inr (mkAuthResponse code msg valid uid did)))))).

Definition http_validateToken (net : error) (now : Z) (token : string) (s : AuthServer) :
    (string + AuthResponse) * AuthServer :=
  match net with
  | Some e => (inl (wrap_error "call auth service failed" e), s)
  | None =>
      let '(body, s') := POST_validate now (json_print (JObj [("token", JStr token)])) s in
      (match sum_bind (json_parse body) AuthResponse_of_json with
       | inl e => inl (wrap_error "decode response failed" e)
       | inr r => inr r
       end, s')
  end.

(** A gateway that asks this service. *)
Definition asking (lib : HandshakeLib) (net : error) (now : Z) (s : AuthServer) : HandshakeLib := {|
  unmarshal_HandshakeRequest := unmarshal_HandshakeRequest;
  marshal_HandshakeResponse := marshal_HandshakeResponse;
  marshal_KickRequest := marshal_KickRequest;
  validateToken token := (http_validateToken net now token s).1;
|}.

(** ** What each side makes of the other's objects *)
Context `{!JsonTextLaws}.

(** The names of a request are text. *)
Definition named_in_text (req : GenerateTokenRequest) : bool :=
  valid_utf8 (gt_DeviceID req) && valid_utf8 (gt_UserID req) && valid_utf8 (gt_AppID req).

Lemma hex_digit_ascii d : ascii_only (hex_digit d) = true.
Proof. unfold hex_digit. generalize (Z.to_nat d). intros n. do 16 (destruct n as [|n]; [reflexivity|]). reflexivity. Qed.
(** A token is text. *)
Lemma hex_string_text bs : valid_utf8 (hex_string bs) = true.
Proof.
  apply valid_utf8_ascii. induction bs as [|b bs IH]; [done|]. cbn [hex_string foldr]. fold (hex_string bs).
  unfold hex_byte. by rewrite !ascii_only_app, !hex_digit_ascii, IH.
Qed.

Lemma request_text req : named_in_text req = true → json_ok (json_of_GenerateTokenRequest req) = true.
Proof.
  unfold named_in_text. rewrite !andb_true_iff. intros [[Hd Hu] Ha]. unfold json_of_GenerateTokenRequest.
  case_decide; cbn; by rewrite Hd, Hu, ?Ha.
Qed.

Lemma GenerateToken_run t0 t1 rand req s : named_in_text req = true →
  GenerateToken None t0 t1 rand req s =
    if decide (gt_DeviceID req = "" ∨ gt_UserID req = "")
    then (inl "auth service error: Field validation failed on the 'required' tag", s)
    else match generateToken rand with
         | inl _ => (inl "auth service error: generate token failed", s)
         | inr token =>
             (inr (Some (mkTokenResponse token "127.0.0.1:8089" "tcp" 30 ((t0 + tokenTTL) `div` 10 ^ 9))),
              (handleToken t0 t1 rand (inr (mkTokenReq (gt_DeviceID req) (gt_UserID req) (gt_AppID req))) s).2)
         end.
Proof.
  intros Hreq. unfold GenerateToken, POST_token. rewrite (json_text _ (request_text req Hreq)). cbn [sum_bind].
  assert (tokenReq_of_json (json_of_GenerateTokenRequest req) =
    if decide (gt_DeviceID req = "" ∨ gt_UserID req = "") then inl "Field validation failed on the 'required' tag"
    else inr (mkTokenReq (gt_DeviceID req) (gt_UserID req) (gt_AppID req))) as ->.
  { destruct req as [did uid app]. unfold tokenReq_of_json, json_of_GenerateTokenRequest. cbn.
    destruct (decide (app = "")) as [->|]; cbn; done. }
  case_decide; [cbn; rewrite json_text by reflexivity; reflexivity|]. cbn [handleToken].
  destruct rand as [e|bytes]; cbn [generateToken].
  - cbn. rewrite json_text by reflexivity. reflexivity.
  - cbn. rewrite json_text by (cbn; by rewrite hex_string_text). reflexivity.
Qed.

(** The reply names nobody, or in text. *)
Definition reply_in_text (r : validateReply) : Prop :=
  valid_utf8 (vr_msg r) = true ∧ ∀ u d, vr_ids r = Some (u, d) → valid_utf8 u = true ∧ valid_utf8 d = true.
Lemma reply_text r : reply_in_text r → json_ok (json_of_validateReply r) = true.
Proof.
  destruct r as [st code msg v [[u d]|]]; intros [Hm Hi]; cbn in Hm, Hi.
  - destruct (Hi _ _ eq_refl) as [Hu Hd]. destruct v; cbn; by rewrite Hm, Hu, Hd.
  - destruct v; cbn; by rewrite Hm.
Qed.

Lemma http_validateToken_run now token s : token ≠ "" → valid_utf8 token = true →
  let r := (handleValidate now (inr (mkValidateReq token)) s).1 in
  reply_in_text r →
  (http_validateToken None now token s).1 =
    inr (mkAuthResponse (vr_code r) (vr_msg r) (default false (vr_valid r)) (default ("", "") (vr_ids r)).1
           (default ("", "") (vr_ids r)).2).
Proof.
  intros Ht Htok r Hr. unfold http_validateToken, POST_validate.
  rewrite (json_text (JObj [("token", JStr token)])) by (cbn; by rewrite Htok). cbn [sum_bind].
  assert (validateReq_of_json (JObj [("token", JStr token)]) = inr (mkValidateReq token)) as ->.
  { unfold validateReq_of_json. change (get_string "token" _) with (inr token : string + string).
    cbn [sum_bind]. by rewrite decide_False. }
  subst r. destruct (handleValidate now (inr (mkValidateReq token)) s) as [r s'] eqn:E. cbn [fst] in *.
  rewrite (json_text _ (reply_text r Hr)). destruct r as [st code msg [b|] [[u d]|]]; reflexivity.
Qed.
End http.

Lemma hex_digit_nonempty d : (0 ≤ d < 16)%Z → hex_digit d ≠ "".
Proof.
  intros Hd. assert (forallb (λ d, bool_decide (hex_digit d ≠ "")) (seqZ 0 16) = true) as Hall by (vm_compute; done).
  rewrite forallb_forall in Hall. specialize (Hall d). rewrite bool_decide_eq_true in Hall. apply Hall.
  apply list_elem_of_In, elem_of_seqZ. lia.
Qed.
Lemma append_nonempty (a b : string) : b ≠ "" → a +:+ b ≠ "".
Proof. by destruct a. Qed.
Lemma hex_string_nonempty b bs : hex_string (b :: bs) ≠ "".
Proof.
  intros E. unfold hex_string in E. cbn [foldr] in E.
  assert (hex_byte b ≠ "") as Hb.
  { unfold hex_byte. apply append_nonempty, hex_digit_nonempty. apply Z.mod_pos_bound. lia. }
  by destruct (hex_byte b).
Qed.

(** The token an operation issues. *)
Definition issues (o : auth_op) : option string :=
  match o with AToken _ _ (inr bytes) (inr _) => Some (hex_string bytes) | _ => None end.

Lemma abs_auths_other ops g tok : Forall (λ o, issues o ≠ Some tok) ops → abs_auths ops g !! tok = g !! tok.
Proof.
  intros Hf. revert g. induction Hf as [|o ops Ho _ IH]; intros g; [done|]. unfold abs_auths in *. cbn [foldl flip].
  rewrite IH. destruct o as [t0 t1 [e|bytes] [e'|req]|now body|now]; try done. cbn.
  apply lookup_insert_ne. intros E. apply Ho. cbn. by rewrite E.
Qed.

(** ** Claims *)

(** C19.  Login, from the client's request to the gateway's decision.  A client that
    names a user and a device, in valid UTF-8, gets a token from the service,
    whatever the service did before.  From then on, whatever else the service does as long as it does
    not issue the same token again, and however its tokens are cleaned up: for 24
    hours a handshake with this token is accepted by every gateway and yields the
    user and the device the client named; after that it is refused.  (The HTTP
    calls succeed, and their JSON texts keep valid UTF-8: [JsonTextLaws].) *)
Theorem login_names_the_requester `{MapRange} `{JsonTextLaws} `{WireLib} (lib : HandshakeLib)
    (before after : list auth_op) (t0 t1 t : Z) (bytes : list Z) (req : GenerateTokenRequest) :
  gt_DeviceID req ≠ "" → gt_UserID req ≠ "" → named_in_text req = true → bytes ≠ [] →
  let issue := AToken t0 t1 (inr bytes) (inr (mkTokenReq (gt_DeviceID req) (gt_UserID req) (gt_AppID req))) in
  LocallySorted Z.le ((op_time <$> before ++ issue :: after) ++ [t]) →
  Forall (λ o, issues o ≠ Some (hex_string bytes)) after →
  ∃ tr s, GenerateToken None t0 t1 (inr bytes) req (do_auths before NewAuthServer) = (inr (Some tr), s) ∧
    tok_ExpireAt tr = ((t0 + tokenTTL) `div` 10 ^ 9)%Z ∧
    ∀ (fc : FrameCodec) raw msg hreq uuid,
      Decode fc raw = inr msg → m_Type msg = FrameType_HANDSHAKE →
      unmarshal_HandshakeRequest (from_option b_Data [] (m_Body msg)) = inr hreq → Token hreq = tok_Token tr →
      let r := doHandshake (H3:=asking lib None t (do_auths after s)) fc None (inr raw) uuid in
      if (t0 + tokenTTL <? t)%Z then ∃ e, r = inl e
      else r = inr (mkAuthInfo (gt_UserID req) (gt_DeviceID req) (AppId hreq) (hs_DeviceType hreq)
                      (m_BizCode msg) uuid, msg).
Proof.
  intros Hd Hu Htext Hb issue Hsort Hfresh.
  set (s := (handleToken t0 t1 (inr bytes) (inr (mkTokenReq (gt_DeviceID req) (gt_UserID req) (gt_AppID req)))
               (do_auths before NewAuthServer)).2).
  eexists _, s. split; [|split].
  - rewrite GenerateToken_run by done. rewrite decide_False by tauto. reflexivity.
  - done.
  - intros fc raw msg hreq uuid Hdec Hty Hun Htok r. cbn [tok_Token] in Htok.
    assert (hex_string bytes ≠ "") as Hne by (destruct bytes; [done|]; apply hex_string_nonempty).
    assert (held t (hex_string bytes) (do_auths after s) =
      if (t0 + tokenTTL <? t)%Z then None else Some (gt_UserID req, gt_DeviceID req)) as Hheld.
    { assert (do_auths after s = do_auths (before ++ issue :: after) NewAuthServer) as ->.
      { unfold do_auths. by rewrite foldl_app. }
      rewrite (held_granted _ t _ Hsort). unfold granted, abs_auths. rewrite foldl_app. cbn [foldl flip].
      fold (abs_auths after (abs_auth issue (foldl (flip abs_auth) ∅ before))).
      rewrite abs_auths_other by done. cbn. by rewrite lookup_insert_eq. }
    set (v := (handleValidate t (inr (mkValidateReq (hex_string bytes))) (do_auths after s)).1).
    assert (v = if (t0 + tokenTTL <? t)%Z then mkValidateReply 200 401 (vr_msg v) (Some false) None
                else mkValidateReply 200 0 "ok" (Some true) (Some (gt_UserID req, gt_DeviceID req))) as Ev.
    { unfold v, handleValidate. cbn [vq_Token]. unfold held in Hheld.
      destruct (as_tokens (do_auths after s) !! hex_string bytes) as [i|].
      - destruct (ti_ExpireAt i <? t)%Z; destruct (t0 + tokenTTL <? t)%Z; try discriminate Hheld; cbn; [done|].
        by injection Hheld as -> ->.
      - destruct (t0 + tokenTTL <? t)%Z; [done|discriminate Hheld]. }
    assert (reply_in_text v) as Hv.
    { assert (valid_utf8 (vr_msg v) = true) as Hm.
      { unfold v, handleValidate. cbn [vq_Token]. by repeat case_match. }
      split; [done|]. intros u d. rewrite Ev. unfold named_in_text in Htext. rewrite !andb_true_iff in Htext.
      destruct (t0 + tokenTTL <? t)%Z; [done|]. intros [= <- <-]. tauto. }
    assert (validateToken (HandshakeLib:=asking lib None t (do_auths after s)) (Token hreq) =
      inr (mkAuthResponse (vr_code v) (vr_msg v) (default false (vr_valid v)) (default ("", "") (vr_ids v)).1
           (default ("", "") (vr_ids v)).2)) as Hval.
    { rewrite Htok. cbn [validateToken asking]. by apply http_validateToken_run, Hv; [|apply hex_string_text]. }
    subst r. unfold doHandshake. rewrite Hdec, decide_False by (by intros Hn).
    change (unmarshal_HandshakeRequest (HandshakeLib:=asking lib None t (do_auths after s))) with
      (unmarshal_HandshakeRequest (HandshakeLib:=lib)). rewrite Hun, decide_False by congruence.
    unfold Verify. rewrite Hval, Ev. destruct (t0 + tokenTTL <? t)%Z; cbn; [eauto|done].
Qed.

(** A text for JSON values: a value travels as its number. *)
Fixpoint json_tree (v : json) : gen_tree (Z + string + bool) :=
  match v with
  | JNum z => GenLeaf (inl (inl z))
  | JStr s => GenLeaf (inl (inr s))
  | JBool b => GenLeaf (inr b)
  | JObj fs => GenNode 0 (map (λ kv, GenNode 1 [GenLeaf (inl (inr kv.1)); json_tree kv.2]) fs)
  end.
Fixpoint tree_json (t : gen_tree (Z + string + bool)) : json :=
  match t with
  | GenLeaf (inl (inl z)) => JNum z
  | GenLeaf (inl (inr s)) => JStr s
  | GenLeaf (inr b) => JBool b
  | GenNode _ ts => JObj (map (λ t, match t with
      | GenNode _ [GenLeaf (inl (inr k)); t'] => (k, tree_json t')
      | _ => ("", JNum 0)
      end) ts)
  end.
Lemma tree_json_tree : ∀ v, tree_json (json_tree v) = v.
Proof.
  fix IH 1. intros [z|s|b|fs]; simpl; [done..|]. f_equal.
  induction fs as [|[k v] fs IHfs]; simpl; [done|]. by rewrite IH, IHfs.
Qed.
Definition toyJson : JsonText := {|
  json_print v := [Z.pos (encode (json_tree v))];
  json_parse d := match d with
    | [Z.pos p] => match decode p with Some t => inr (tree_json t) | None => inl "json" end
    | _ => inl "json" end;
|}.
Lemma toyJson_laws : JsonTextLaws (H:=toyJson).
Proof. split. intros v _. simpl. by rewrite decode_encode, tree_json_tree. Qed.

(** Every handshake frame shows the token ab01. *)
Definition token_lib : HandshakeLib := {|
  unmarshal_HandshakeRequest := λ _, inr (mkHandshakeRequest (hex_string [171%Z; 1%Z]) "app" "ios");
  marshal_HandshakeResponse := λ _ _ _ _, [];
  marshal_KickRequest := λ _ _, [];
  validateToken := λ _, inl "no service";
|}.

Lemma login_names_the_requester_witness :
  let req := mkGenTokenReq "d1" "u1" "app" in
  ∃ tr s, GenerateToken (H:=toyJson) None 5 6 (inr [171%Z; 1%Z]) req NewAuthServer = (inr (Some tr), s) ∧
    doHandshake (H2:=toyWire) (H3:=asking (H:=toyJson) token_lib None (43201 * 10 ^ 9)
        (cleanExpiredTokens (H:=canonical_range) (43200 * 10 ^ 9) s)) JSONConfig None (hello_frame [1%Z]) "c1" =
      inr (mkAuthInfo "u1" "d1" "app" "ios" "im" "c1", hello [1%Z]).
Proof.
  intros req.
  destruct (login_names_the_requester (H:=canonical_range) (H0:=toyJson) (H1:=toyJson_laws) (H2:=toyWire)
    token_lib [] [AClean (43200 * 10 ^ 9)] 5 6 (43201 * 10 ^ 9) [171%Z; 1%Z] req) as (tr & s & E & _ & J).
  - discriminate.
  - discriminate.
  - reflexivity.
  - discriminate.
  - repeat constructor; simpl; lia.
  - repeat constructor. discriminate.
  - exists tr, s. split; [exact E|]. specialize (J JSONConfig).
    assert (hello_frame [1%Z] = inr match hello_frame [1%Z] with inr raw => raw | inl _ => [] end) as Hf by (vm_compute; reflexivity).
    rewrite Hf. 
    apply (J _ (hello [1%Z]) (mkHandshakeRequest (hex_string [171%Z; 1%Z]) "app" "ios") "c1").
    + vm_compute. reflexivity.
    + reflexivity.
    + reflexivity.
    + cbn [Token]. revert E. rewrite (GenerateToken_run (H:=toyJson) (H0:=toyJson_laws)) by reflexivity.
      rewrite decide_False by (intros [?|?]; discriminate). intros [= <- _]. reflexivity.
Defined.
