(* ===== verification/WebSocket.v ===== *)
(** * The WebSocket transport
      ([gateway/internal/access/websocket/transport.go],
       [gateway/internal/access/transport])

    A WebSocket connection keeps message boundaries, so a frame is one binary
    message.  The connection of gorilla/websocket is the list of what the
    successive calls of [ReadMessage] return.  Errors are kept with what they
    wrap, because [IsEOF] looks at the error itself and not at what it
    wraps. *)

From stdpp Require Import base list strings numbers pretty.
From S2P Require Import Prelude Tcp.

Inductive go_error : Set :=
  | io_EOF
  | CloseError (code : Z)
  | errors_New (s : string)
  (** [fmt.Errorf("p: %w", err)] *)
  | Errorf_w (p : string) (err : go_error).
#[export] Instance go_error_eq_dec : EqDecision go_error.
Proof. solve_decision. Defined.

(** [websocket.TextMessage], [websocket.BinaryMessage] and the close codes
    (RFC 6455). *)
Definition TextMessage : Z := 1.
Definition BinaryMessage : Z := 2.
Definition CloseNormalClosure : Z := 1000.
Definition CloseGoingAway : Z := 1001.
Definition CloseNoStatusReceived : Z := 1005.

(** [websocket.IsCloseError]: a type assertion on the error, no unwrapping. *)
Definition IsCloseError (err : go_error) (codes : list Z) : bool :=
  match err with
  | CloseError code => bool_decide (code ∈ codes)
  | _ => false
  end.

(** [transport/errors.go]; [None] is [nil]. *)
Definition IsEOF (err : option go_error) : bool :=
  match err with
  | None => false
  | Some err => bool_decide (err = io_EOF) ||
                IsCloseError err [CloseNormalClosure; CloseGoingAway; CloseNoStatusReceived]
  end.

(** What one call of [ReadMessage] returns: an error, or type and data. *)
Definition ws_conn : Type := list (go_error + Z * list Z).

(** One call of [Read]; [None] means that it waits for the peer. *)
Definition ws_Read (conn : ws_conn) : option (go_error + list Z) * ws_conn :=
  match conn with
  | [] => (None, [])
  | inl err :: conn' => (Some (inl (Errorf_w "read websocket failed" err)), conn')
  | inr (msgType, data) :: conn' =>
      if decide (msgType ≠ BinaryMessage) then
        (Some (inl (errors_New "only binary message supported")), conn')
      else if decide (MaxFrame < Z.of_nat (length data))%Z then
        (Some (inl (errors_New ("protobuf body too large: " +:+ pretty (Z.of_nat (length data))))), conn')
      else (Some (inr data), conn')
  end.

(** [Write]: what [WriteMessage] reports, and the messages sent. *)
Definition ws_Write (conn_err : option go_error) (data : list Z) (sent : list (Z * list Z)) :
    option go_error * list (Z * list Z) :=
  match conn_err with
  | Some e => (Some e, sent)
  | None => (None, sent ++ [(BinaryMessage, data)])
  end.

(** As many calls of [Read] as give a frame: what a reader gets before the
    first error, that error, and the rest. *)
Fixpoint ws_frames (conn : ws_conn) : list (list Z) * option go_error * ws_conn :=
  match conn with
  | [] => ([], None, [])
  | _ :: conn' =>
      match (ws_Read conn).1 with
      | Some (inr data) => let '(fs, e, rest) := ws_frames conn' in (data :: fs, e, rest)
      | Some (inl err) => ([], Some err, conn')
      | None => ([], None, conn)
      end
  end.

(** Several writes in a row. *)
Definition ws_write_all (datas : list (list Z)) (sent : list (Z * list Z)) : list (Z * list Z) :=
  foldl (λ sent data, (ws_Write None data sent).2) sent datas.

Lemma ws_write_all_app datas sent :
  ws_write_all datas sent = sent ++ ((λ d, (BinaryMessage, d)) <$> datas).
Proof.
  revert sent. induction datas as [|d ds IH]; intros sent; simpl; [by rewrite app_nil_r|].
  unfold ws_write_all in *. rewrite IH. cbn. by rewrite <-app_assoc.
Qed.

Lemma ws_Read_frame data conn : (Z.of_nat (length data) ≤ MaxFrame)%Z →
  ws_Read (inr (BinaryMessage, data) :: conn) = (Some (inr data), conn).
Proof.
  intros Hd. unfold ws_Read. rewrite decide_False by (intros Hn; by apply Hn).
  rewrite decide_False by lia. done.
Qed.

Lemma ws_Read_error conn err rest : ws_Read conn = (Some (inl err), rest) → IsEOF (Some err) = false.
Proof.
  unfold ws_Read. destruct conn as [|[e|[t d]] conn']; [done|by intros [= <- <-]|].
  repeat case_decide; intros [=]; by subst.
Qed.

(** What the peer's transport writes arrives: whatever sequence of frames
    within the size limit is written, the reader gets exactly these frames, in
    order, and then the error the connection ends with, wrapped.  No reading
    splits, joins or drops a frame. *)
Theorem ws_frames_roundtrip (datas : list (list Z)) (err : go_error) (later : ws_conn) :
  Forall (λ d, Z.of_nat (length d) ≤ MaxFrame)%Z datas →
  ws_frames ((inr <$> ws_write_all datas []) ++ inl err :: later) =
    (datas, Some (Errorf_w "read websocket failed" err), later).
Proof.
  rewrite ws_write_all_app. induction 1 as [|d ds Hd _ IH]; [done|].
  cbn [fmap list_fmap app ws_frames]. rewrite ws_Read_frame by done. cbn [fst].
  cbn [app] in IH. by rewrite IH.
Qed.

Lemma ws_frames_roundtrip_witness :
  ws_frames ((inr <$> ws_write_all [[1%Z; 2%Z]; []; [3%Z]] []) ++ [inl (CloseError 1000)]) =
    ([[1%Z; 2%Z]; []; [3%Z]], Some (Errorf_w "read websocket failed" (CloseError 1000)), []).
Proof.
  apply (ws_frames_roundtrip [[1%Z; 2%Z]; []; [3%Z]] (CloseError 1000) []).
  repeat constructor; by vm_compute.
Defined.

(** No error of [Read] is recognised as the end of the connection: the
    contract of [Transport] says that a connection that is closed normally is
    reported as [io.EOF], but the error is wrapped and [IsEOF] does not
    unwrap, so even a normal closure (code 1000) looks like a failure.
    Everything else [IsEOF] is meant to tell apart it does. *)
Theorem ws_close_is_never_eof (conn : ws_conn) :
  (∀ err rest, ws_Read conn = (Some (inl err), rest) → IsEOF (Some err) = false ∧ err ≠ io_EOF) ∧
  IsEOF (Some io_EOF) = true ∧
  (∀ code, IsEOF (Some (CloseError code)) = true ↔ code ∈ [1000; 1001; 1005]%Z).
Proof.
  split_and!; [|done|].
  - intros err rest E. pose proof (ws_Read_error _ _ _ E) as Hf. split; [done|]. by intros ->.
  - intros code. simpl. by rewrite bool_decide_eq_true.
Qed.

Lemma ws_close_is_never_eof_witness :
  ws_Read [inl (CloseError 1000)] = (Some (inl (Errorf_w "read websocket failed" (CloseError 1000))), []) ∧
  IsEOF (Some (Errorf_w "read websocket failed" (CloseError 1000))) = false ∧
  IsEOF (Some (CloseError 1000)) = true.
Proof.
  destruct (ws_close_is_never_eof [inl (CloseError 1000)]) as (Hr & _ & Hc).
  split; [done|]. split; [by eapply Hr|]. apply Hc. by left.
Defined.
