(* ===== verification/Listeners.v ===== *)
(** * The life of the gateway's process and its listeners
      ([gateway/internal/app/lifecycle.go], [listeners.go], [modules.go])

    [Start] launches one goroutine per module, the multiplexer, the timer and,
    if configured, pprof and the metrics collector; it then waits for a signal,
    stops and waits for the goroutines.  Every goroutine is a state; the turns
    of the main goroutine and of the others interleave freely ([gw_exec]).
    Which module serves a connection is decided by the multiplexer, in the
    order in which the modules registered their matchers. *)

From stdpp Require Import base list gmap strings numbers.
From S2P Require Import Prelude Timer Shard Message Codec Tcp Router World Connection.
From S2P Require Import Pool Session Demo Pipeline Uplink UplinkSpec Downlink Worker Handler Factory FactorySpec Node NodeSpec WebSocket.

(** ** Modules and matchers *)
Inductive module : Set := GrpcModule | HttpModule | TcpModule.
#[export] Instance module_eq_dec : EqDecision module.
Proof. solve_decision. Defined.

(** [cmux]: tests on the first bytes of a connection. *)
Class CMux : Type := {
  Any : list Z → bool;
  HTTP1Fast : list Z → bool;
  HTTP2HeaderField : string → string → list Z → bool;
}.
(** The methods [HTTP1Fast] looks for. *)
Definition http_methods : list string :=
  ["OPTIONS"; "GET"; "HEAD"; "POST"; "PATCH"; "PUT"; "DELETE"; "TRACE"; "CONNECT"].
Class CMuxLaws `{CMux} : Prop := {
  Any_all b : Any b = true;
  HTTP1Fast_method b : HTTP1Fast b = true →
    ∃ m rest, m ∈ http_methods ∧ b = bytes_of m ++ rest;
  (** HTTP/2 starts with a fixed preface. *)
  HTTP2_preface n v b : HTTP2HeaderField n v b = true →
    ∃ rest, b = bytes_of "PRI * HTTP/2.0" ++ rest;
}.

(** What each module's [Start] passes to [cmux.Match]. *)
Definition tcp_matcher `{CMux} : list Z → bool := Any.
Definition http_matcher `{CMux} : list Z → bool := HTTP1Fast.
Definition grpc_matcher `{CMux} : list Z → bool := HTTP2HeaderField "content-type" "application/grpc".
Definition module_matcher `{CMux} (m : module) : list Z → bool :=
  match m with GrpcModule => grpc_matcher | HttpModule => http_matcher | TcpModule => tcp_matcher end.

(** ** The process

    A goroutine is not there, launched, at work, in [Accept] (the loop of the TCP
    module), or has returned. *)
Inductive gophase : Set := Idle | Launched | Serving | Accepting | Ended.
#[export] Instance gophase_eq_dec : EqDecision gophase.
Proof. solve_decision. Defined.

(** Where the main goroutine is: in [Start], then in [Stop], then back. *)
Inductive main_pc : Type :=
  | PcListen | PcLaunch (rest : list module) | PcServe | PcTimer | PcProfile | PcMetrics | PcSignal
  | PcCancel | PcCollector | PcListener | PcCMux | PcWait | PcReturned (err : error).

(** [cmux.Serve]: not called, called, over. *)
Inductive mux_state : Set := MuxIdle | MuxServing | MuxDone.

(** [gw_matchers] are the listeners that [cmux.Match] has made, in order;
    [gw_closed] those of them whose [Accept] reports an error by now. *)
Record GwState := mkGw {
  gw_pc : main_pc; gw_phase : module → gophase; gw_pprof : gophase; gw_mux : mux_state;
  gw_matchers : list module; gw_closed : list module; gw_wg : nat; gw_timer : bool;
  gw_collector : gophase; gw_ctx_done : bool;
}.
Definition gw_start : GwState :=
  mkGw PcListen (λ _, Idle) Idle MuxIdle [] [] 0 false Idle false.

Inductive gw_event : Type :=
  | GwListenFails (e : string)
  (** One turn of the main goroutine; [SIGINT] or [SIGTERM]. *)
  | GwMain | GwSignal
  | GwModule (m : module)
  (** A connection reaches the TCP module when the context is done. *)
  | GwTcpConn
  (** pprof's [ListenAndServe] starts to listen, or fails. *)
  | GwPprof (fails : bool)
  (** [cmux.Serve] returns because [Accept] of its listener failed: on its own,
      or since the listener was closed. *)
  | GwMuxFails.

Definition set_phase (m : module) (p : gophase) (f : module → gophase) : module → gophase :=
  λ m', if decide (m' = m) then p else f m'.

(** What lets the [Start] of a module return: [Serve] returns when its listener
    reports an error; the TCP loop goes on after an error of [Accept] and looks
    at the context. *)
Definition listener_closed (m : module) (s : GwState) : bool := bool_decide (m ∈ gw_closed s).
Definition tcp_ends (s : GwState) : bool := listener_closed TcpModule s && gw_ctx_done s.
Definition http_ends (s : GwState) : bool := listener_closed HttpModule s.
Definition grpc_ends (s : GwState) : bool := listener_closed GrpcModule s.

(** The next turn of a module that has its listener.  The TCP loop looks at the
    context before it calls [Accept]; its turns that take a connection, or an
    error with the context not done, bring it back to where it was. *)
Definition module_next (m : module) (s : GwState) : option gophase :=
  match m, gw_phase s m with
  | TcpModule, Serving => Some (if gw_ctx_done s then Ended else Accepting)
  | TcpModule, Accepting => if tcp_ends s then Some Ended else None
  | HttpModule, Serving => if http_ends s then Some Ended else None
  | GrpcModule, Serving => if grpc_ends s then Some Ended else None
  | _, _ => None
  end.

Section process.
(** [Gateway.Profile.Enabled], [Gateway.Metrics.Enabled] *)
Context (profile_enabled metrics_enabled : bool).

Definition main_turn (s : GwState) : option GwState :=
  let '(mkGw pc ph pp mux ms cl wg tm col cx) := s in
  match pc with
  | PcListen => Some (mkGw (PcLaunch [GrpcModule; HttpModule; TcpModule]) ph pp mux ms cl wg tm col cx)
  (** [wg.Add(1)]; [wg.Go] adds one more. *)
  | PcLaunch (m :: rest) => Some (mkGw (PcLaunch rest) (set_phase m Launched ph) pp mux ms cl (wg + 2) tm col cx)
  | PcLaunch [] => Some (mkGw PcServe ph pp mux ms cl wg tm col cx)
  | PcServe => Some (mkGw PcTimer ph pp MuxServing ms cl wg tm col cx)
  | PcTimer => Some (mkGw PcProfile ph pp mux ms cl wg true col cx)
  | PcProfile =>
      Some (if profile_enabled then mkGw PcMetrics ph Launched mux ms cl (wg + 2) tm col cx
            else mkGw PcMetrics ph pp mux ms cl wg tm col cx)
  | PcMetrics =>
      Some (mkGw PcSignal ph pp mux ms cl wg tm (if metrics_enabled then Serving else col) cx)
  | PcSignal => None
  (** [Stop]: the modules' [Stop] is empty. *)
  | PcCancel => Some (mkGw PcCollector ph pp mux ms cl wg tm col true)
  | PcCollector =>
      Some (mkGw PcListener ph pp mux ms cl wg tm (if decide (col = Idle) then Idle else Ended) cx)
  (** Nothing is accepted any more: [GwMuxFails] follows. *)
  | PcListener => Some (mkGw PcCMux ph pp mux ms cl wg tm col cx)
  (** [cmux.Close] closes the listeners made so far. *)
  | PcCMux => Some (mkGw PcWait ph pp mux ms ms wg tm col cx)
  | PcWait => if decide (wg = 0) then Some (mkGw (PcReturned None) ph pp mux ms cl wg tm col cx) else None
  | PcReturned _ => None
  end.

Definition gw_exec (e : gw_event) (s : GwState) : option GwState :=
  let '(mkGw pc ph pp mux ms cl wg tm col cx) := s in
  match e with
  | GwListenFails err =>
      match pc with
      | PcListen => Some (mkGw (PcReturned (Some err)) ph pp mux ms cl wg tm col cx)
      | _ => None
      end
  | GwMain => main_turn s
  | GwSignal =>
      match pc with PcSignal => Some (mkGw PcCancel ph pp mux ms cl wg tm col cx) | _ => None end
  | GwModule m =>
      if decide (ph m = Launched) then Some (mkGw pc (set_phase m Serving ph) pp mux (ms ++ [m]) cl wg tm col cx)
      else match module_next m s with
           | Some Ended => Some (mkGw pc (set_phase m Ended ph) pp mux ms cl (wg - 2) tm col cx)
           | Some p => Some (mkGw pc (set_phase m p ph) pp mux ms cl wg tm col cx)
           | None => None
           end
  | GwTcpConn =>
      match ph TcpModule, mux, cx with
      | Accepting, MuxServing, true => Some (mkGw pc (set_phase TcpModule Ended ph) pp mux ms cl (wg - 2) tm col cx)
      | _, _, _ => None
      end
  | GwPprof fails =>
      match pp with
      | Launched => Some (if fails then mkGw pc ph Ended mux ms cl (wg - 2) tm col cx
                          else mkGw pc ph Serving mux ms cl wg tm col cx)
      | _ => None
      end
  (** [Serve] ends by closing the listeners made so far. *)
  | GwMuxFails =>
      match mux with MuxServing => Some (mkGw pc ph pp MuxDone ms ms wg tm col cx) | _ => None end
  end.

Fixpoint gw_run (es : list gw_event) (s : GwState) : option GwState :=
  match es with
  | [] => Some s
  | e :: es' => gw_exec e s ≫= gw_run es'
  end.
Definition gw_reach (s : GwState) : Prop := ∃ es, gw_run es gw_start = Some s.

(** ** What holds in every reachable state *)
Definition busy (p : gophase) : nat := match p with Launched | Serving | Accepting => 2 | _ => 0 end.
Definition all_modules : list module := [GrpcModule; HttpModule; TcpModule].
Definition sum_phase (f : gophase → nat) (s : GwState) : nat :=
  f (gw_phase s GrpcModule) + f (gw_phase s HttpModule) + f (gw_phase s TcpModule) + f (gw_pprof s).

(** The modules that [Start] has not launched, whether [Serve] was called, the
    context cancelled, the multiplexer closed, pprof passed, by where the main
    goroutine is. *)
Definition pending (pc : main_pc) : list module :=
  match pc with PcListen | PcReturned (Some _) => all_modules | PcLaunch rest => rest | _ => [] end.
Definition served (pc : main_pc) : bool :=
  match pc with PcListen | PcLaunch _ | PcServe | PcReturned (Some _) => false | _ => true end.
Definition cancelled (pc : main_pc) : bool :=
  match pc with PcCollector | PcListener | PcCMux | PcWait | PcReturned None => true | _ => false end.
Definition closed (pc : main_pc) : bool :=
  match pc with PcWait | PcReturned None => true | _ => false end.
Definition profiled (pc : main_pc) : bool :=
  match pc with
  | PcListen | PcLaunch _ | PcServe | PcTimer | PcProfile | PcReturned (Some _) => false
  | _ => true
  end.
Definition returned (pc : main_pc) : bool := match pc with PcReturned None => true | _ => false end.
(** A module has called [Match]. *)
Definition has_listener (p : gophase) : bool := match p with Serving | Accepting | Ended => true | _ => false end.

Record gw_ok (s : GwState) : Prop := {
  ok_wg : gw_wg s = sum_phase busy s;
  ok_idle m : gw_phase s m = Idle ↔ m ∈ pending (gw_pc s);
  ok_pending : NoDup (pending (gw_pc s));
  ok_matchers : NoDup (gw_matchers s);
  ok_registered m : m ∈ gw_matchers s ↔ has_listener (gw_phase s m) = true;
  ok_closed m : m ∈ gw_closed s → m ∈ gw_matchers s;
  ok_accepting m : gw_phase s m = Accepting → m = TcpModule ∧ (closed (gw_pc s) = true → m ∈ gw_closed s);
  ok_ctx : cancelled (gw_pc s) = true → gw_ctx_done s = true;
  ok_mux : served (gw_pc s) = true → gw_mux s ≠ MuxIdle;
  ok_pprof : gw_pprof s ≠ Idle → profile_enabled = true;
  ok_pprof_phase : gw_pprof s ≠ Accepting;
  ok_profile : profiled (gw_pc s) = false → gw_pprof s = Idle;
  ok_returned : returned (gw_pc s) = true → gw_wg s = 0;
}.

Lemma busy_ended p : p ≠ Idle → busy p = 0 → p = Ended.
Proof. by destruct p. Qed.
Lemma closed_cancelled pc : closed pc = true → cancelled pc = true.
Proof. by destruct pc as [| | | | | | | | | | | |[]]. Qed.

Lemma gw_ok_start : gw_ok gw_start.
Proof.
  split; cbn; try done.
  - intros m. split; [intros _; destruct m; set_solver|done].
  - repeat (constructor; [set_solver|]). constructor.
  - constructor.
  - intros m. split; [by intros ?%not_elem_of_nil|done].
Qed.

Lemma set_phase_same m p f : set_phase m p f m = p.
Proof. unfold set_phase. by rewrite decide_True. Qed.
Lemma set_phase_other m m' p f : m' ≠ m → set_phase m p f m' = f m'.
Proof. intros E. unfold set_phase. by rewrite decide_False. Qed.

(** A module's turn changes a sum by its own share. *)
Lemma sum_set_phase (f : gophase → nat) pc pc' ph pp mux mux' ms ms' cl cl' wg wg' tm tm' col col' cx cx' m p :
  sum_phase f (mkGw pc (set_phase m p ph) pp mux ms cl wg tm col cx) + f (ph m) =
  sum_phase f (mkGw pc' ph pp mux' ms' cl' wg' tm' col' cx') + f p.
Proof.
  unfold sum_phase; cbn. destruct m; rewrite set_phase_same, !set_phase_other by done; lia.
Qed.

(** A property of every module's phase after one was set: the module's, then
    the others'. *)
Ltac by_module m' :=
  intros m';
  match goal with |- context [set_phase ?m _ _ m'] =>
    destruct (decide (m' = m)) as [->|?]; [rewrite set_phase_same|rewrite set_phase_other by done]
  end.

Lemma main_turn_ok s s' : gw_ok s → main_turn s = Some s' → gw_ok s'.
Proof.
  destruct s as [pc ph pp mux ms cl wg tm col cx]. intros [W I N M R L A C X P Y Q T]; cbn in *. intros E.
  destruct pc as [|[|m rest]| | | | | | | | | | |err]; cbn in *; simplify_eq.
  all: try (case_decide; simplify_eq).
  all: try (split; cbn; auto; done).
  all: try (split; cbn; auto; intros m0 Hm0; destruct (A m0 Hm0); split; done).
  - (* a module is launched *)
    apply list.NoDup_cons in N as [Nm Nr].
    assert (ph m = Idle) as Hm by (apply I; by left).
    split; cbn; auto.
    + pose proof (sum_set_phase busy PcSignal PcSignal ph pp mux mux ms ms cl cl wg wg tm tm col col cx cx m Launched) as B.
      rewrite Hm in B. unfold sum_phase in *; cbn in *. lia.
    + by_module m'; [by split|]. rewrite I, elem_of_cons. intuition.
    + by_module m'; [by rewrite R, Hm|]. apply R.
    + by_module m'; [done|]. intros Ha. by destruct (A m' Ha).
    + done.
  - specialize (Q eq_refl) as ->. destruct profile_enabled eqn:Ep; split; cbn; auto; try done.
    all: try (unfold sum_phase in *; cbn in *; subst; cbn in *; lia).
  - (* [cmux.Close] *)
    split; cbn; auto; try done. intros m Hm. destruct (A m Hm) as [-> _]. split; [done|]. intros _.
    apply R. by rewrite Hm.
Qed.

(** A goroutine that holds two of the group's count leaves. *)
Lemma module_leaves pc ph pp mux ms cl wg tm col cx m :
  gw_ok (mkGw pc ph pp mux ms cl wg tm col cx) → ph m = Serving ∨ ph m = Accepting →
  gw_ok (mkGw pc (set_phase m Ended ph) pp mux ms cl (wg - 2) tm col cx).
Proof.
  intros [W I N M R L A C X P Y Q T] Hm; cbn in *.
  pose proof (sum_set_phase busy pc pc ph pp mux mux ms ms cl cl wg wg tm tm col col cx cx m Ended) as B.
  assert (busy (ph m) = 2) as Hb by (by destruct Hm as [-> | ->]).
  assert (ph m ≠ Idle) as Hi by (by destruct Hm as [-> | ->]).
  assert (has_listener (ph m) = true) as Hr by (by destruct Hm as [-> | ->]).
  rewrite Hb in B. unfold sum_phase in B, W; cbn in B, W.
  split; cbn; auto.
  - unfold sum_phase; cbn. lia.
  - by_module m'; [|auto]. rewrite <-I. intuition congruence.
  - by_module m'; [|auto]. rewrite R. by rewrite Hr.
  - by_module m'; [done|]. apply A.
  - intros Hret. apply T in Hret. lia.
Qed.

Lemma module_next_phase m s p : module_next m s = Some p →
  gw_phase s m = Serving ∧ m = TcpModule ∧ gw_ctx_done s = false ∧ p = Accepting ∨
  (gw_phase s m = Serving ∨ gw_phase s m = Accepting) ∧ p = Ended.
Proof.
  unfold module_next. destruct m, (gw_phase s _) eqn:E; try done;
    repeat case_match; intros [= <-]; auto.
Qed.

Lemma gw_exec_ok e s s' : gw_ok s → gw_exec e s = Some s' → gw_ok s'.
Proof.
  intros Hs E. destruct e as [err| | |m| |fails|].
  2: by destruct s; eapply main_turn_ok.
  all: pose proof Hs as Hs0; destruct s as [pc ph pp mux ms cl wg tm col cx], Hs as [W I N M R L A C X P Y Q T]; cbn in *.
  - destruct pc; simplify_eq. by split; cbn; auto; try done; intros m Hm; destruct (A m Hm).
  - destruct pc; simplify_eq. by split; cbn; auto; try done; intros m Hm; destruct (A m Hm).
  - case_decide as Hl.
    + simplify_eq. pose proof (sum_set_phase busy pc pc ph pp mux mux ms ms cl cl wg wg tm tm col col cx cx m Serving) as B.
      rewrite Hl in B. unfold sum_phase in B, W; cbn in B, W.
      split; cbn; auto.
      * unfold sum_phase; cbn. lia.
      * by_module m'; [|auto]. rewrite <-I, Hl. done.
      * apply list.NoDup_app. split_and!; [done| |apply list.NoDup_singleton].
        intros m' Hm' ->%list_elem_of_singleton. apply R in Hm'. by rewrite Hl in Hm'.
      * by_module m'; rewrite elem_of_app, list_elem_of_singleton, R; intuition congruence.
      * intros m' Hm'. apply elem_of_app. left. by apply L.
      * by_module m'; [done|]. apply A.
    + destruct (module_next m _) as [p|] eqn:En; [|done].
      destruct (module_next_phase _ _ _ En) as [(Hp & -> & Hcx & ->)|[Hp ->]]; cbn in *; simplify_eq.
      * pose proof (sum_set_phase busy pc pc ph pp mux mux ms ms cl cl wg wg tm tm col col false false TcpModule Accepting) as B.
        rewrite Hp in B. unfold sum_phase in B, W; cbn in B, W. split; cbn; auto.
        -- unfold sum_phase; cbn. lia.
        -- by_module m'; [|auto]. rewrite <-I, Hp. done.
        -- by_module m'; [|auto]. by rewrite R, Hp.
        -- by_module m'; [|apply A]. intros _. split; [done|].
           intros Hcl%closed_cancelled%C. done.
      * by apply module_leaves.
  - destruct (ph TcpModule) eqn:Ep; try done. destruct mux, cx; simplify_eq. apply module_leaves; auto.
  - destruct pp; simplify_eq. assert (profiled pc = true) as Hpc.
    { destruct (profiled pc) eqn:Epc; [done|]. by specialize (Q eq_refl). }
    destruct fails; split; cbn; auto; unfold sum_phase in *; cbn in *.
    all: try (intros; lia). all: try (by rewrite Hpc). all: try done.
    all: try (intros _; apply P; done). intros Hr. apply T in Hr. lia.
  - destruct mux; simplify_eq. split; cbn; auto; try done.
    intros m Hm. destruct (A m Hm) as [-> _]. split; [done|]. intros _. apply R. by rewrite Hm.
Qed.

Lemma gw_run_ok es s s' : gw_ok s → gw_run es s = Some s' → gw_ok s'.
Proof.
  revert s. induction es as [|e es IH]; intros s Hs E; cbn in E; [by simplify_eq|].
  destruct (gw_exec e s) as [s1|] eqn:E1; [|done]. cbn in E. eauto using gw_exec_ok.
Qed.
Lemma gw_reach_ok s : gw_reach s → gw_ok s.
Proof. intros [es E]. by eapply gw_run_ok; [apply gw_ok_start|]. Qed.

(** ** Every run ends: each turn lowers a rank *)
Definition pc_rank (pc : main_pc) : nat :=
  match pc with
  | PcListen => 28 | PcLaunch rest => 15 + 4 * length rest | PcServe => 14 | PcTimer => 12
  | PcProfile => 11 | PcMetrics => 7 | PcSignal => 6 | PcCancel => 5 | PcCollector => 4
  | PcListener => 3 | PcCMux => 2 | PcWait => 1 | PcReturned _ => 0
  end.
Definition phase_rank (p : gophase) : nat :=
  match p with Launched => 3 | Serving => 2 | Accepting => 1 | _ => 0 end.
Definition mux_rank (m : mux_state) : nat := match m with MuxServing => 1 | _ => 0 end.
Definition gw_rank (s : GwState) : nat :=
  pc_rank (gw_pc s) + sum_phase phase_rank s + mux_rank (gw_mux s).

(** The rank of a module's turn. *)
Lemma set_phase_rank pc ph pp mux mux' ms ms' cl cl' wg wg' tm tm' col col' cx cx' m p :
  phase_rank p < phase_rank (ph m) → mux_rank mux' = mux_rank mux →
  gw_rank (mkGw pc (set_phase m p ph) pp mux' ms' cl' wg' tm' col' cx') < gw_rank (mkGw pc ph pp mux ms cl wg tm col cx).
Proof.
  intros Hp Hm. unfold gw_rank. cbn [gw_pc gw_mux]. rewrite Hm.
  pose proof (sum_set_phase phase_rank pc pc ph pp mux' mux ms' ms cl' cl wg' wg tm' tm col' col cx' cx m p). lia.
Qed.

Lemma gw_exec_rank e s s' : gw_exec e s = Some s' → gw_rank s' < gw_rank s.
Proof.
  destruct s as [pc ph pp mux ms cl wg tm col cx]. intros E.
  destruct e as [err| | |m| |fails|]; cbn in E.
  - destruct pc; simplify_eq. unfold gw_rank, sum_phase. cbn. lia.
  - destruct pc as [|[|m rest]| | | | | | | | | | |err]; simplify_eq; cbn;
      try (unfold gw_rank, sum_phase; cbn; lia).
    + pose proof (sum_set_phase phase_rank PcSignal (PcLaunch (m :: rest)) ph pp mux mux ms ms cl cl (wg + 2) wg
        tm tm col col cx cx m Launched) as B. unfold gw_rank, sum_phase in *. cbn in *. lia.
    + unfold gw_rank, sum_phase. destruct profile_enabled; cbn; destruct pp; cbn; lia.
    + case_decide; simplify_eq. unfold gw_rank, sum_phase. cbn. lia.
  - destruct pc; simplify_eq. unfold gw_rank, sum_phase. cbn. lia.
  - case_decide as Hl; simplify_eq; [apply set_phase_rank; [by rewrite Hl; cbn; lia|done]|].
    destruct (module_next m _) as [p|] eqn:En; [|done].
    destruct (module_next_phase _ _ _ En) as [(Hp & _ & _ & ->)|[Hp ->]]; cbn in Hp; simplify_eq;
      (apply set_phase_rank; [|done]); [rewrite Hp|destruct Hp as [-> | ->]]; cbn; lia.
  - destruct (ph TcpModule) eqn:Ep; try done. destruct mux, cx; simplify_eq.
    apply set_phase_rank; [rewrite Ep; cbn; lia|done].
  - destruct pp; simplify_eq. unfold gw_rank, sum_phase. destruct fails; cbn; lia.
  - destruct mux; simplify_eq. unfold gw_rank, sum_phase. cbn. lia.
Qed.

Lemma gw_run_rank es s s' : gw_run es s = Some s' → length es + gw_rank s' ≤ gw_rank s.
Proof.
  revert s. induction es as [|e es IH]; intros s E; cbn in E; [simplify_eq; cbn; lia|].
  destruct (gw_exec e s) as [s1|] eqn:E1; [|done]. cbn in E.
  apply IH in E. apply gw_exec_rank in E1. cbn. lia.
Qed.

(** A module that called [Match] when the multiplexer was over and closed: no
    [Accept] of its listener will ever return. *)
Definition late (m : module) (s : GwState) : Prop :=
  m ≠ TcpModule ∧ gw_phase s m = Serving ∧ m ∉ gw_closed s ∧ gw_mux s = MuxDone ∧ closed (gw_pc s) = true.
(** What [Start] cannot wait out. *)
Definition held_up (s : GwState) : Prop := gw_pprof s = Serving ∨ ∃ m, late m s.

(** A state no event leaves: [Start] has returned, or waits for pprof or a late
    module. *)
Lemma gw_stuck s : gw_ok s → (∀ e, gw_exec e s = None) →
  (∃ err, gw_pc s = PcReturned err) ∨ gw_pc s = PcWait ∧ held_up s.
Proof.
  destruct s as [pc ph pp mux ms cl wg tm col cx]. intros [W I N M R L A C X P Y Q T] Hs; cbn in *.
  pose proof (Hs GwMain) as Hm. pose proof (Hs GwSignal) as Hg. pose proof (Hs (GwPprof true)) as Hp.
  pose proof (λ m, Hs (GwModule m)) as Hmod. pose proof (Hs GwMuxFails) as Hx. cbn in *.
  destruct pc as [|[|m rest]| | | | | | | | | | |err]; try done; [|by eauto].
  right. split; [done|]. case_decide as Hwg; [done|]. clear Hm Hg.
  specialize (C eq_refl) as ->. specialize (X eq_refl). destruct mux; [done|done|]. clear X Hx.
  destruct (decide (pp = Serving)) as [->|Hpp]; [by left|]. right.
  assert (busy pp = 0) as Hbp by (by destruct pp).
  assert (∀ m, busy (ph m) ≠ 0 → late m (mkGw PcWait ph pp MuxDone ms cl wg tm col true)) as Hlate.
  { intros m Hb. specialize (Hmod m). destruct (decide (ph m = Launched)) as [|Hl]; [done|].
    destruct (ph m) eqn:Em; try done.
    - unfold late. cbn. rewrite Em. unfold module_next, tcp_ends, http_ends, grpc_ends, listener_closed in Hmod.
      cbn in Hmod. destruct m; rewrite Em in Hmod; cbn in Hmod; [..|done];
        (case_bool_decide; [done|]; by split_and!).
    - destruct (A m Em) as [-> Hcl]. specialize (Hcl eq_refl).
      unfold module_next, tcp_ends, listener_closed in Hmod. cbn in Hmod. rewrite Em in Hmod.
      by rewrite bool_decide_true in Hmod. }
  unfold sum_phase in W; cbn in W.
  destruct (decide (busy (ph GrpcModule) = 0)) as [?|Hb]; [|by eauto].
  destruct (decide (busy (ph HttpModule) = 0)) as [?|Hb]; [|by eauto].
  destruct (decide (busy (ph TcpModule) = 0)) as [?|Hb]; [|by eauto]. lia.
Qed.

Lemma held_up_busy s : gw_ok s → held_up s → gw_wg s ≠ 0.
Proof.
  intros Hs Hh. rewrite (ok_wg _ Hs). unfold sum_phase. destruct Hh as [->|(m & _ & Em & _)]; [cbn; lia|].
  destruct m; rewrite Em; cbn; lia.
Qed.

(** It stays so. *)
Lemma held_up_step e s s' : gw_ok s → held_up s → gw_exec e s = Some s' → held_up s'.
Proof.
  intros Hs Hh E. pose proof (held_up_busy s Hs Hh) as Hwg. pose proof (ok_profile _ Hs) as Q.
  destruct s as [pc ph pp mux ms cl wg tm col cx]. cbn in *.
  destruct Hh as [Hp|(m & Hm & Em & Hcl & Hmux & Hpc)]; cbn in *; simplify_eq.
  - left. assert (profiled pc = true) as Hpc by (destruct (profiled pc); [done|by specialize (Q eq_refl)]).
    destruct e; cbn in E; repeat (case_match; simplify_eq; cbn in * ); done.
  - right. exists m. destruct e as [err| | |m'| |fails|]; cbn in E.
    + destruct pc; simplify_eq.
    + destruct pc as [| | | | | | | | | | | |[]]; simplify_eq. by case_decide.
    + destruct pc; simplify_eq.
    + assert (m' ≠ m → ∀ p, set_phase m' p ph m = Serving) as Hkeep by (intros; by rewrite set_phase_other).
      case_decide as Hl; simplify_eq.
      { unfold late. cbn. rewrite Hkeep by congruence. done. }
      destruct (decide (m' = m)) as [->|Hne].
      { unfold module_next, http_ends, grpc_ends, listener_closed in E.
        destruct m; [..|done]; cbn in E; rewrite Em in E; by rewrite bool_decide_false in E. }
      destruct (module_next m' _) as [p|] eqn:En; [|done].
      destruct (module_next_phase _ _ _ En) as [(_ & _ & _ & ->)|[_ ->]]; simplify_eq;
        unfold late; cbn; by rewrite Hkeep.
    + destruct (ph TcpModule); done.
    + destruct pp; simplify_eq. by destruct fails.
    + done.
Qed.

Lemma held_up_for_ever es s s' : gw_ok s → held_up s → gw_run es s = Some s' → held_up s'.
Proof.
  revert s. induction es as [|e es IH]; intros s Hs Hh E; cbn in E; [by simplify_eq|].
  destruct (gw_exec e s) as [s1|] eqn:E1; [|done]. cbn in E.
  eapply (IH s1); [by eapply gw_exec_ok|by eapply held_up_step|done].
Qed.
End process.

(** ** Which module serves a connection *)
Section mux.
Context `{CMux}.

(** [cmux] asks the matchers in the order of the calls of [Match]; a
    connection nobody wants is closed. *)
Definition mux_match (b : list Z) (s : GwState) : option module :=
  match gw_mux s with
  | MuxServing => head (filter (λ m, module_matcher m b = true) (gw_matchers s))
  | _ => None
  end.

(** One turn of the loop of [TcpModule.Start]: [None] when it returns, the
    connection to run, if any, otherwise. *)
Definition tcp_accept_turn (ctx_done : bool) (accept : string + network) : option (option network) :=
  if ctx_done then None
  else match accept with
       | inl _ => Some None
       | inr rawConn => Some (Some rawConn)
       end.

(** [wsUpgradeHandler]: what the upgrade gave. *)
Definition wsUpgradeHandler (upgrade : string + ws_conn) : option ws_conn :=
  match upgrade with inl _ => None | inr rawConn => Some rawConn end.

(** The first [tp.Read] of [CreateAndRun], by transport; [None] while it has
    not returned. *)
Definition tcp_first_read (fuel : nat) (net : network) : option (string + list Z) :=
  match (Tcp.Gateway.Read fuel None net []).1.1 with
  | Frame data => Some (inr data)
  | ReadErr e => Some (inl e)
  | _ => None
  end.

(** The first matching module in the order of registration. *)
Lemma mux_match_first b s m : mux_match b s = Some m → ∃ l1 l2,
  gw_matchers s = l1 ++ m :: l2 ∧ module_matcher m b = true ∧
  Forall (λ m', module_matcher m' b = false) l1.
Proof.
  unfold mux_match. destruct (gw_mux s); [done| |done].
  induction (gw_matchers s) as [|m' ms IH]; [done|]. rewrite list.filter_cons. case_decide as Hm.
  - intros [= ->]. exists [], ms. auto using Forall_nil_2.
  - intros E. destruct (IH E) as (l1 & l2 & -> & Hm' & Hl).
    exists (m' :: l1), l2. split; [done|]. split; [done|]. constructor; [|done].
    by destruct (module_matcher m' b).
Qed.

Context `{!CMuxLaws}.

Lemma not_http2_and_http1 n v b : HTTP1Fast b = true → HTTP2HeaderField n v b = false.
Proof.
  intros (m & rest & Hm & ->)%HTTP1Fast_method. apply not_true_is_false. intros (r & E)%HTTP2_preface.
  cbn in Hm. repeat (apply elem_of_cons in Hm as [->|Hm]; [by vm_compute in E|]).
  by apply not_elem_of_nil in Hm.
Qed.
End mux.

(** ** A multiplexer *)
Definition has_prefix (p : string) (b : list Z) : bool :=
  bool_decide (take (length (bytes_of p)) b = bytes_of p).
#[export] Instance demo_CMux : CMux := {|
  Any _ := true;
  HTTP1Fast b := existsb (λ m, has_prefix m b) http_methods;
  HTTP2HeaderField _ _ b := has_prefix "PRI * HTTP/2.0" b;
|}.
Lemma has_prefix_spec p b : has_prefix p b = true → ∃ rest, b = bytes_of p ++ rest.
Proof.
  unfold has_prefix. rewrite bool_decide_eq_true. intros E.
  exists (drop (length (bytes_of p)) b). rewrite <-E at 1. by rewrite take_drop.
Qed.
#[export] Instance demo_CMuxLaws : CMuxLaws.
Proof.
  split; [done| |intros ? ? b; apply has_prefix_spec].
  intros b (m & Hm & Hp)%existsb_exists. apply has_prefix_spec in Hp as [rest ->].
  exists m, rest. split; [by apply list_elem_of_In|done].
Qed.

(** C30.  When the process stops, exactly.  Whatever the interleaving of main,
    modules, pprof and multiplexer, a run takes at most 28 turns (turns that
    only take a connection, or meet an error of [Accept] with the context not
    done, are not counted).  A run that nothing continues has returned from
    [Start] - after a failure to listen, or with the context cancelled and every
    goroutine it waits for ended - or it waits in [wg.Wait] for pprof's
    [ListenAndServe], which nothing stops, or for the HTTP or gRPC module that
    called [cmux.Match] when the multiplexer was over and closed, whose listener
    nothing closes.  And once pprof listens, or a module is late in that way,
    [Start] never returns, whatever happens. *)
Theorem gateway_stops_exactly (profile metrics : bool) (es : list gw_event) (s : GwState) :
  gw_run profile metrics es gw_start = Some s →
  length es ≤ 28 ∧
  ((∀ e, gw_exec profile metrics e s = None) →
     (∃ err, gw_pc s = PcReturned err) ∨
     gw_pc s = PcWait ∧ (profile = true ∧ gw_pprof s = Serving ∨ ∃ m, late m s)) ∧
  (gw_pc s = PcReturned None →
     gw_ctx_done s = true ∧ (∀ m, gw_phase s m = Ended) ∧ (gw_pprof s = Idle ∨ gw_pprof s = Ended)) ∧
  (held_up s → ∀ es' s' err, gw_run profile metrics es' s = Some s' → gw_pc s' ≠ PcReturned err).
Proof.
  intros E. pose proof (gw_run_ok _ _ _ _ _ (gw_ok_start profile) E) as Hs. split_and!.
  - apply gw_run_rank in E. change (gw_rank gw_start) with 28 in E. lia.
  - intros Hn. destruct (gw_stuck _ _ _ Hs Hn) as [?|[Hpc [Hp|Hl]]]; [by left| |right; auto].
    right. split; [done|]. left. split; [|done]. apply (ok_pprof _ _ Hs). congruence.
  - intros Hp. destruct Hs as [W I N M R L A C X P Y Q T]. rewrite Hp in *.
    split; [by apply C|]. specialize (T eq_refl). rewrite T in W. unfold sum_phase in W.
    assert (∀ m, gw_phase s m ≠ Idle) as Hi by (intros m Hm; by apply I, not_elem_of_nil in Hm). split.
    + intros m. apply busy_ended; [apply Hi|]. destruct m; lia.
    + destruct (gw_pprof s); cbn in W; [by left|lia|lia|done|by right].
  - intros Hh es' s' err E' Hr. pose proof (held_up_for_ever _ _ _ _ _ Hs Hh E') as Hh'.
    pose proof (gw_run_ok _ _ _ _ _ Hs E') as Hs'. pose proof (held_up_busy _ _ Hs' Hh') as Hwg.
    destruct err as [e|]; [|by apply Hwg, (ok_returned _ _ Hs'); rewrite Hr].
    destruct Hh' as [Hp|(m & _ & _ & _ & _ & Hc)]; [|by rewrite Hr in Hc].
    pose proof (ok_profile _ _ Hs') as Q. rewrite Hr, Hp in Q. by specialize (Q eq_refl).
Qed.

(** Every goroutine starts, a signal comes, everything ends. *)
Definition demo_shutdown : list gw_event :=
  replicate 8 GwMain ++ [GwModule TcpModule; GwModule GrpcModule; GwModule HttpModule; GwModule TcpModule;
    GwMain; GwSignal] ++ replicate 4 GwMain ++
  [GwMuxFails; GwModule TcpModule; GwModule GrpcModule; GwModule HttpModule; GwMain].

Lemma gateway_stops_exactly_witness :
  (∃ s, gw_run false true demo_shutdown gw_start = Some s ∧ gw_pc s = PcReturned None ∧
        ∀ m, gw_phase s m = Ended) ∧
  (∃ s, gw_run true true (replicate 9 GwMain ++ [GwPprof false]) gw_start = Some s ∧
        ∀ es' s' err, gw_run true true es' s = Some s' → gw_pc s' ≠ PcReturned err).
Proof.
  split; eexists; (split; [vm_compute; reflexivity|]).
  - split; [done|]. eapply (gateway_stops_exactly false true demo_shutdown); [vm_compute|]; reflexivity.
  - eapply (gateway_stops_exactly true true (replicate 9 GwMain ++ [GwPprof false])); [vm_compute; reflexivity|].
    left. reflexivity.
Defined.

(** A signal comes before the goroutine of the HTTP module has run: it registers
    when the multiplexer is over, and the process never ends. *)
Definition demo_late : list gw_event :=
  replicate 8 GwMain ++ [GwModule TcpModule; GwModule GrpcModule; GwMain; GwSignal] ++ replicate 4 GwMain ++
  [GwMuxFails; GwModule TcpModule; GwModule GrpcModule; GwModule HttpModule].

Theorem late_module_hangs (metrics : bool) : ∃ s,
  gw_run false metrics demo_late gw_start = Some s ∧ gw_pc s = PcWait ∧ late HttpModule s ∧
  ∀ es' s', gw_run false metrics es' s = Some s' → gw_pc s' = PcWait.
Proof.
  destruct (gw_run false metrics demo_late gw_start) as [s0|] eqn:E0; [|by destruct metrics].
  exists s0. split; [done|].
  pose proof (gw_run_ok false metrics demo_late gw_start s0 (gw_ok_start false) E0) as Hs.
  assert (gw_pc s0 = PcWait ∧ late HttpModule s0) as [Hpc Hl].
  { destruct metrics; vm_compute in E0; injection E0 as <-; (split; [done|]);
      (split_and!; [done..| |done|done]); vm_compute; set_solver. }
  split; [done|]. split; [done|]. intros es' s' E.
  pose proof (held_up_for_ever false metrics es' s0 s' Hs (or_intror (ex_intro _ HttpModule Hl)) E) as Hh.
  pose proof (gw_run_ok false metrics es' s0 s' Hs E) as Hs'.
  pose proof (held_up_busy false s' Hs' Hh) as Hwg. destruct Hh as [Hp|(m & _ & _ & _ & _ & Hc)].
  - by pose proof (ok_pprof _ _ Hs' ltac:(congruence)).
  - destruct (gw_pc s') as [| | | | | | | | | | | |[]] eqn:Epc; try done.
    by destruct Hwg; apply (ok_returned _ _ Hs'); rewrite Epc.
Qed.

(** ** An HTTP request on the gateway's port *)
Section http.
Context {TS : Type} `{Scheduler TS timeoutPayload unit} `{MapRange} `{PayloadLib}
  `{WireLib} `{HandshakeLib} `{CMux} `{!CMuxLaws}.
Implicit Types (n : Node (TS:=TS)).

Lemma http_not_magic b rest net : HTTP1Fast b = true → 6 ≤ length b →
  tcp_first_read 2 (inr (b ++ rest) :: net) = Some (inl "invalid magic byte").
Proof.
  intros Hb Hl. unfold tcp_first_read, Tcp.Gateway.Read. cbn [Tcp.Gateway.Read_loop].
  rewrite decide_True by (cbn; unfold Tcp.Gateway.HeaderLen; lia). cbn [conn_Read Tcp.Gateway.Read_loop app].
  rewrite decide_False by (rewrite length_take, length_app; unfold readBuf_len, Tcp.Gateway.HeaderLen; lia).
  rewrite decide_True; [done|]. unfold slice. rewrite drop_0, take_take.
  apply HTTP1Fast_method in Hb as (m & r & Hm & ->). cbn in Hm.
  repeat (apply elem_of_cons in Hm as [->|Hm]; [by vm_compute|]).
  by apply not_elem_of_nil in Hm.
Qed.

(** Any order of registration comes about. *)
Lemma registered_in_order profile metrics order : order ≡ₚ all_modules →
  ∃ s, gw_reach profile metrics s ∧ gw_matchers s = order ∧ gw_mux s = MuxServing.
Proof.
  intros Ho. symmetry in Ho. apply permutations_Permutation in Ho.
  assert (Forall (λ o, ∃ s, gw_run profile metrics (replicate 5 GwMain ++ (GwModule <$> o) ++ [GwMain]) gw_start
      = Some s ∧ gw_matchers s = o ∧ gw_mux s = MuxServing) (permutations all_modules)) as Hall.
  { vm_compute. repeat constructor; eexists; by repeat split. }
  rewrite list.Forall_forall in Hall. destruct (Hall _ Ho) as (s & E & Hm). exists s. split; [by eexists|done].
Qed.

Lemma mux_match_http b s : HTTP1Fast b = true → gw_mux s = MuxServing →
  mux_match b s = head (filter (λ m, m ≠ GrpcModule) (gw_matchers s)).
Proof.
  intros Hb Hx. unfold mux_match. rewrite Hx. f_equal. apply list_filter_iff.
  unfold module_matcher, grpc_matcher, http_matcher, tcp_matcher. intros [| |].
  - by rewrite (not_http2_and_http1 _ _ b Hb).
  - by rewrite Hb.
  - by rewrite Any_all.
Qed.

Lemma first_not_grpc order : order ≡ₚ all_modules →
  head (filter (λ m, m ≠ GrpcModule) order) ≠ Some HttpModule →
  head (filter (λ m, m ≠ GrpcModule) order) = Some TcpModule.
Proof.
  intros Ho. assert (TcpModule ∈ filter (λ m, m ≠ GrpcModule) order) as Ht.
  { apply list_elem_of_filter. split; [done|]. rewrite Ho. unfold all_modules. set_solver. }
  assert (GrpcModule ∉ filter (λ m, m ≠ GrpcModule) order) as Hg.
  { intros [??]%list_elem_of_filter. done. }
  destruct (filter _ order) as [|[| |] l]; cbn; [by apply not_elem_of_nil in Ht| |done|done].
  by destruct Hg; left.
Qed.

(** C31.  The order in which the goroutines of the modules happen to call
    [cmux.Match] decides who serves a connection.  Every order can come about.
    An HTTP/1 request reaches the HTTP module exactly if that module registered
    before the TCP module, whose matcher takes everything; otherwise the TCP
    module reads the request as a frame, fails on the magic number, and the
    node is left as it was: no admin request and no WebSocket is ever served in
    that life of the process. *)
Theorem http_served_only_if_registered_first (profile metrics : bool) (fc : FrameCodec)
    (sha : string → string) (tpw : bool → list Z → error) (hb mb : Z) limiter sender
    (order : list module) (b rest : list Z) (net : network) (uuid : string) n :
  order ≡ₚ all_modules → HTTP1Fast b = true → 6 ≤ length b →
  ∃ s, gw_reach profile metrics s ∧ gw_matchers s = order ∧ gw_mux s = MuxServing ∧
    mux_match b s = head (filter (λ m, m ≠ GrpcModule) order) ∧
    (mux_match b s ≠ Some HttpModule →
       mux_match b s = Some TcpModule ∧
       ∃ input, tcp_first_read 2 (inr (b ++ rest) :: net) = Some input ∧
         ∀ deadline, node_exec fc sha tpw hb mb limiter sender (EvConnect deadline input uuid) n =
           (Ret tt, n)).
Proof.
  intros Ho Hb Hl. destruct (registered_in_order profile metrics order Ho) as (s & Hs & Hm & Hx).
  pose proof (mux_match_http b s Hb Hx) as Em. rewrite Hm in Em.
  exists s. split_and!; [done|done|done|done|]. rewrite Em. intros Hne.
  split; [by apply first_not_grpc|]. eexists. split; [by apply http_not_magic|].
  intros deadline. cbn [node_exec]. unfold CreateAndRun, doHandshake.
  destruct n as [w rs ws], deadline; reflexivity.
Qed.
End http.

Definition demo_request : list Z := bytes_of "GET /v1/ws/connect HTTP/1.1".
Lemma http_served_only_if_registered_first_witness :
  ∃ s, gw_reach false false s ∧ gw_matchers s = [TcpModule; GrpcModule; HttpModule] ∧
    gw_mux s = MuxServing ∧ mux_match demo_request s = Some TcpModule ∧
    ∃ input, tcp_first_read 2 [inr demo_request] = Some input ∧
      demo_exec (EvConnect None input "c9") demo_node = (Ret tt, demo_node).
Proof.
  destruct (http_served_only_if_registered_first (H1:=demo_payload) (H2:=toyWire) (H3:=demo_handshake)
    (H4:=demo_CMux) false false JSONConfig (λ x, x)
    (λ _ _, None) (30 * 10 ^ 9) 2097152 None (λ _ _, None) [TcpModule; GrpcModule; HttpModule]
    demo_request [] [] "c9" demo_node) as (s & Hs & Hm & Hx & Em & Hrest).
  - apply permutations_Permutation. vm_compute. repeat (first [by left | right]).
  - by vm_compute.
  - vm_compute. lia.
  - exists s. destruct Hrest as [Et (input & Ei & Hn)]; [by rewrite Em|].
    split_and!; [done|done|done|done|]. exists input. split; [|apply Hn].
    rewrite <-Ei. by rewrite app_nil_r.
Defined.
