(* ===== verification/SdkTypes.v ===== *)
(** * Types and codec of the client SDK ([sdk/types.go], [sdk/codec.go])

    The SDK's enumerations are 32-bit numbers; the enumerations of the generated
    package it talks to ([common-protocol/v1], not in the repository) are
    modelled by the constants the SDK names, every other value being
    [..._other]. *)

From stdpp Require Import base list strings numbers.
From S2P Require Import Prelude.

(** ** Business types *)
Definition BusinessTypeUnknown : Z := 0.
Definition BusinessTypeIM : Z := 1.
Definition BusinessTypeLIVE : Z := 2.
Definition BusinessTypeMESSAGE : Z := 3.

Inductive PBusinessType : Set :=
  | PBusinessType_UNSPECIFIED | PBusinessType_IM | PBusinessType_LIVE | PBusinessType_MESSAGE
  | PBusinessType_other (n : Z).

Definition BusinessType_String (t : Z) : string :=
  if (t =? BusinessTypeIM)%Z then "im"
  else if (t =? BusinessTypeLIVE)%Z then "live"
  else if (t =? BusinessTypeMESSAGE)%Z then "message"
  else "unknown".

Definition BusinessType_ToProto (t : Z) : PBusinessType :=
  if (t =? BusinessTypeIM)%Z then PBusinessType_IM
  else if (t =? BusinessTypeLIVE)%Z then PBusinessType_LIVE
  else if (t =? BusinessTypeMESSAGE)%Z then PBusinessType_MESSAGE
  else PBusinessType_UNSPECIFIED.

Definition BusinessTypeFromProto (p : PBusinessType) : Z :=
  match p with
  | PBusinessType_IM => BusinessTypeIM
  | PBusinessType_LIVE => BusinessTypeLIVE
  | PBusinessType_MESSAGE => BusinessTypeMESSAGE
  | _ => BusinessTypeUnknown
  end.

(** ** Signal types *)
Definition SignalTypeUnknown : Z := 0.
Definition SignalTypeHeartbeatPing : Z := 1.
Definition SignalTypeHeartbeatPong : Z := 2.
Definition SignalTypeAuthRequest : Z := 3.
Definition SignalTypeAuthResponse : Z := 4.
Definition SignalTypeMessageAck : Z := 5.
Definition SignalTypeLogoutRequest : Z := 7.
Definition SignalTypeLogoutResponse : Z := 8.
Definition SignalTypeSubscribeRequest : Z := 9.
Definition SignalTypeSubscribeResponse : Z := 10.
Definition SignalTypeUnsubscribeRequest : Z := 11.
Definition SignalTypeUnsubscribeResponse : Z := 12.
Definition SignalTypeBusinessUp : Z := 100.
Definition SignalTypeBusinessDown : Z := 101.

Inductive PSignalType : Set :=
  | PST_UNSPECIFIED | PST_HEARTBEAT_PING | PST_HEARTBEAT_PONG | PST_AUTH_REQUEST | PST_AUTH_RESPONSE
  | PST_MESSAGE_ACK | PST_LOGOUT_REQUEST | PST_LOGOUT_RESPONSE | PST_SUBSCRIBE_REQUEST
  | PST_SUBSCRIBE_RESPONSE | PST_UNSUBSCRIBE_REQUEST | PST_UNSUBSCRIBE_RESPONSE
  | PST_BUSINESS_UP | PST_BUSINESS_DOWN | PST_other (n : Z).

#[export] Instance PSignalType_eq_dec : EqDecision PSignalType.
Proof. solve_decision. Defined.

Definition SignalType_String (t : Z) : string :=
  if (t =? SignalTypeHeartbeatPing)%Z then "HeartbeatPing"
  else if (t =? SignalTypeHeartbeatPong)%Z then "HeartbeatPong"
  else if (t =? SignalTypeAuthRequest)%Z then "AuthRequest"
  else if (t =? SignalTypeAuthResponse)%Z then "AuthResponse"
  else if (t =? SignalTypeMessageAck)%Z then "MessageAck"
  else if (t =? SignalTypeLogoutRequest)%Z then "LogoutRequest"
  else if (t =? SignalTypeLogoutResponse)%Z then "LogoutResponse"
  else if (t =? SignalTypeSubscribeRequest)%Z then "SubscribeRequest"
  else if (t =? SignalTypeSubscribeResponse)%Z then "SubscribeResponse"
  else if (t =? SignalTypeUnsubscribeRequest)%Z then "UnsubscribeRequest"
  else if (t =? SignalTypeUnsubscribeResponse)%Z then "UnsubscribeResponse"
  else if (t =? SignalTypeBusinessUp)%Z then "BusinessUp"
  else if (t =? SignalTypeBusinessDown)%Z then "BusinessDown"
  else "Unknown".

Definition SignalType_ToProto (t : Z) : PSignalType :=
  if (t =? SignalTypeHeartbeatPing)%Z then PST_HEARTBEAT_PING
  else if (t =? SignalTypeHeartbeatPong)%Z then PST_HEARTBEAT_PONG
  else if (t =? SignalTypeAuthRequest)%Z then PST_AUTH_REQUEST
  else if (t =? SignalTypeAuthResponse)%Z then PST_AUTH_RESPONSE
  else if (t =? SignalTypeMessageAck)%Z then PST_MESSAGE_ACK
  else if (t =? SignalTypeLogoutRequest)%Z then PST_LOGOUT_REQUEST
  else if (t =? SignalTypeLogoutResponse)%Z then PST_LOGOUT_RESPONSE
  else if (t =? SignalTypeSubscribeRequest)%Z then PST_SUBSCRIBE_REQUEST
  else if (t =? SignalTypeSubscribeResponse)%Z then PST_SUBSCRIBE_RESPONSE
  else if (t =? SignalTypeUnsubscribeRequest)%Z then PST_UNSUBSCRIBE_REQUEST
  else if (t =? SignalTypeUnsubscribeResponse)%Z then PST_UNSUBSCRIBE_RESPONSE
  else if (t =? SignalTypeBusinessUp)%Z then PST_BUSINESS_UP
  else if (t =? SignalTypeBusinessDown)%Z then PST_BUSINESS_DOWN
  else PST_UNSPECIFIED.

Definition SignalTypeFromProto (p : PSignalType) : Z :=
  match p with
  | PST_HEARTBEAT_PING => SignalTypeHeartbeatPing
  | PST_HEARTBEAT_PONG => SignalTypeHeartbeatPong
  | PST_AUTH_REQUEST => SignalTypeAuthRequest
  | PST_AUTH_RESPONSE => SignalTypeAuthResponse
  | PST_MESSAGE_ACK => SignalTypeMessageAck
  | PST_LOGOUT_REQUEST => SignalTypeLogoutRequest
  | PST_LOGOUT_RESPONSE => SignalTypeLogoutResponse
  | PST_SUBSCRIBE_REQUEST => SignalTypeSubscribeRequest
  | PST_SUBSCRIBE_RESPONSE => SignalTypeSubscribeResponse
  | PST_UNSUBSCRIBE_REQUEST => SignalTypeUnsubscribeRequest
  | PST_UNSUBSCRIBE_RESPONSE => SignalTypeUnsubscribeResponse
  | PST_BUSINESS_UP => SignalTypeBusinessUp
  | PST_BUSINESS_DOWN => SignalTypeBusinessDown
  | _ => SignalTypeUnknown
  end.

(** ** Connection states *)
Definition ConnStateUnspecified : Z := 0.
Definition ConnStateConnecting : Z := 1.
Definition ConnStateConnected : Z := 2.
Definition ConnStateAuthenticated : Z := 3.
Definition ConnStateDisconnected : Z := 4.
Definition ConnStateAuthenticationFailed : Z := 5.

Definition ConnState_String (s : Z) : string :=
  if (s =? ConnStateConnecting)%Z then "Connecting"
  else if (s =? ConnStateConnected)%Z then "Connected"
  else if (s =? ConnStateAuthenticated)%Z then "Authenticated"
  else if (s =? ConnStateDisconnected)%Z then "Disconnected"
  else if (s =? ConnStateAuthenticationFailed)%Z then "AuthenticationFailed"
  else "Unspecified".

(** ** Messages of the SDK *)
Record SdkMessage := mkSdkMessage {
  sm_RequestID : string; sm_SequenceID : Z; sm_Type : Z; sm_Body : list Z; sm_MsgID : string;
  sm_BizType : Z; sm_UserID : string; sm_DeviceID : string; sm_Platform : string;
}.
Record AuthRequest := mkAuthRequest {
  aq_Token : string; aq_UserID : string; aq_DeviceID : string; aq_Platform : string;
  aq_HeartbeatInterval : Z;
}.
Record SdkAuthResponse := mkSdkAuthResponse {
  sr_Code : Z; sr_Msg : string; sr_Result : bool; sr_HeartbeatInterval : Z;
}.
Record SubscribeRequest := mkSubscribeRequest { sq_Topic : string; sq_Qos : Z }.
Record BusinessMessage := mkBusinessMessage { bm_MsgID : string; bm_BizType : Z; bm_Body : list Z }.

(** [gateway.ClientSignal] with the payloads the SDK builds or reads. *)
Inductive SignalPayload : Type :=
  | HeartbeatPing (clientTimestamp : Z)
  | PAuthRequest (token userId deviceId platform : string) (heartbeatInterval : option Z)
  | PAuthResponse (code : Z) (msg : string) (result : bool) (heartbeatInternal : Z)
  | PSubscribeRequest (topic : string) (qos : Z)
  | PUnsubscribeRequest (topic : string)
  | PBusinessUp (msgId : string) (type : PBusinessType) (body : list Z)
  | PBusinessDown (msgId : string) (type : PBusinessType) (body : list Z)
  | PLogoutRequest (reason : Z)
  | PMessageAck (ackMsgId : list string)
  | Payload_other.

Record ClientSignal := mkClientSignal {
  cs_RequestId : string; cs_SequenceId : Z; cs_SignalType : PSignalType; cs_Payload : option SignalPayload;
}.

(** ** [codec.go] *)
Definition EncodeHeartbeatPing (requestID : string) (clientTimestamp : Z) : ClientSignal :=
  mkClientSignal requestID 0 PST_HEARTBEAT_PING (Some (HeartbeatPing clientTimestamp)).

Definition EncodeAuthRequest (requestID : string) (auth : AuthRequest) : ClientSignal :=
  mkClientSignal requestID 0 PST_AUTH_REQUEST
    (Some (PAuthRequest (aq_Token auth) (aq_UserID auth) (aq_DeviceID auth) (aq_Platform auth)
       (if (0 <? aq_HeartbeatInterval auth)%Z then Some (aq_HeartbeatInterval auth) else None))).

Definition EncodeSubscribeRequest (requestID : string) (sub : SubscribeRequest) : ClientSignal :=
  mkClientSignal requestID 0 PST_SUBSCRIBE_REQUEST (Some (PSubscribeRequest (sq_Topic sub) (sq_Qos sub))).

Definition EncodeUnsubscribeRequest (requestID topic : string) : ClientSignal :=
  mkClientSignal requestID 0 PST_UNSUBSCRIBE_REQUEST (Some (PUnsubscribeRequest topic)).

Definition EncodeBusinessUp (requestID : string) (seq : Z) (biz : BusinessMessage) : ClientSignal :=
  mkClientSignal requestID seq PST_BUSINESS_UP
    (Some (PBusinessUp (bm_MsgID biz) (BusinessType_ToProto (bm_BizType biz)) (bm_Body biz))).

Definition EncodeLogoutRequest (requestID : string) (reason : Z) : ClientSignal :=
  mkClientSignal requestID 0 PST_LOGOUT_REQUEST (Some (PLogoutRequest reason)).

Definition EncodeMessageAck (requestID : string) (msgIDs : list string) : ClientSignal :=
  mkClientSignal requestID 0 PST_MESSAGE_ACK (Some (PMessageAck msgIDs)).

Definition DecodeClientSignal (cs : ClientSignal) : SdkMessage :=
  mkSdkMessage (cs_RequestId cs) (cs_SequenceId cs) (SignalTypeFromProto (cs_SignalType cs)) [] "" 0 "" "" "".

Definition DecodeAuthResponse (cs : ClientSignal) : option SdkAuthResponse :=
  match cs_Payload cs with
  | Some (PAuthResponse code msg result hb) => Some (mkSdkAuthResponse code msg result hb)
  | _ => None
  end.

Definition DecodeBusinessDown (cs : ClientSignal) : option SdkMessage :=
  match cs_Payload cs with
  | Some (PBusinessDown id ty body) =>
      Some (mkSdkMessage (cs_RequestId cs) (cs_SequenceId cs) SignalTypeBusinessDown body id
              (BusinessTypeFromProto ty) "" "" "")
  | _ => None
  end.

(** ** Options *)
Record ClientOptions := mkClientOptions {
  Addr : string; AuthServerAddr : string;
  ConnectTimeout : Z; ReadTimeout : Z; WriteTimeout : Z; HeartbeatInterval : Z; AuthTimeout : Z;
  (** Whether a callback is set. *)
  hasMessageHandler : bool; hasConnectHandler : bool;
  Debug : bool;
}.
Definition defaultOptions : ClientOptions :=
  mkClientOptions "" "" (10 * 10 ^ 9) (50 * 10 ^ 9) (5 * 10 ^ 9) (20 * 10 ^ 9) (10 * 10 ^ 9) false false false.

Definition Option : Type := ClientOptions → ClientOptions.
Definition WithAddr (addr : string) : Option := λ o,
  mkClientOptions addr (AuthServerAddr o) (ConnectTimeout o) (ReadTimeout o) (WriteTimeout o)
    (HeartbeatInterval o) (AuthTimeout o) (hasMessageHandler o) (hasConnectHandler o) (Debug o).
Definition WithConnectTimeout (t : Z) : Option := λ o,
  mkClientOptions (Addr o) (AuthServerAddr o) t (ReadTimeout o) (WriteTimeout o)
    (HeartbeatInterval o) (AuthTimeout o) (hasMessageHandler o) (hasConnectHandler o) (Debug o).
Definition WithReadTimeout (t : Z) : Option := λ o,
  mkClientOptions (Addr o) (AuthServerAddr o) (ConnectTimeout o) t (WriteTimeout o)
    (HeartbeatInterval o) (AuthTimeout o) (hasMessageHandler o) (hasConnectHandler o) (Debug o).
Definition WithWriteTimeout (t : Z) : Option := λ o,
  mkClientOptions (Addr o) (AuthServerAddr o) (ConnectTimeout o) (ReadTimeout o) t
    (HeartbeatInterval o) (AuthTimeout o) (hasMessageHandler o) (hasConnectHandler o) (Debug o).
Definition WithHeartbeatInterval (t : Z) : Option := λ o,
  mkClientOptions (Addr o) (AuthServerAddr o) (ConnectTimeout o) (ReadTimeout o) (WriteTimeout o)
    t (AuthTimeout o) (hasMessageHandler o) (hasConnectHandler o) (Debug o).
Definition WithAuthTimeout (t : Z) : Option := λ o,
  mkClientOptions (Addr o) (AuthServerAddr o) (ConnectTimeout o) (ReadTimeout o) (WriteTimeout o)
    (HeartbeatInterval o) t (hasMessageHandler o) (hasConnectHandler o) (Debug o).
(** The callbacks: [nil] or set. *)
Definition WithMessageHandler (set : bool) : Option := λ o,
  mkClientOptions (Addr o) (AuthServerAddr o) (ConnectTimeout o) (ReadTimeout o) (WriteTimeout o)
    (HeartbeatInterval o) (AuthTimeout o) set (hasConnectHandler o) (Debug o).
Definition WithConnectHandler (set : bool) : Option := λ o,
  mkClientOptions (Addr o) (AuthServerAddr o) (ConnectTimeout o) (ReadTimeout o) (WriteTimeout o)
    (HeartbeatInterval o) (AuthTimeout o) (hasMessageHandler o) set (Debug o).
Definition WithDebug (debug : bool) : Option := λ o,
  mkClientOptions (Addr o) (AuthServerAddr o) (ConnectTimeout o) (ReadTimeout o) (WriteTimeout o)
    (HeartbeatInterval o) (AuthTimeout o) (hasMessageHandler o) (hasConnectHandler o) debug.
Definition WithAuthServerAddr (addr : string) : Option := λ o,
  mkClientOptions (Addr o) addr (ConnectTimeout o) (ReadTimeout o) (WriteTimeout o)
    (HeartbeatInterval o) (AuthTimeout o) (hasMessageHandler o) (hasConnectHandler o) (Debug o).

(** The signal types the SDK knows. *)
Definition known_signal (t : Z) : bool :=
  bool_decide (t ∈ [1; 2; 3; 4; 5; 7; 8; 9; 10; 11; 12; 100; 101]%Z).

Lemma SignalType_roundtrip_all :
  forallb (λ t, (SignalTypeFromProto (SignalType_ToProto t) =? t)%Z)
    [1; 2; 3; 4; 5; 7; 8; 9; 10; 11; 12; 100; 101]%Z = true.
Proof. reflexivity. Qed.

(** The SDK's enumerations survive the wire: a signal type or business type
    the SDK knows is decoded to itself, every other number becomes Unknown, and
    the generated constants are in bijection with the known numbers. *)
Theorem sdk_enums_roundtrip (t : Z) (p : PSignalType) (b : Z) :
  SignalTypeFromProto (SignalType_ToProto t) = (if known_signal t then t else SignalTypeUnknown) ∧
  (SignalTypeFromProto p = SignalTypeUnknown ∨ SignalType_ToProto (SignalTypeFromProto p) = p) ∧
  BusinessTypeFromProto (BusinessType_ToProto b) =
    (if bool_decide (1 ≤ b ≤ 3)%Z then b else BusinessTypeUnknown).
Proof.
  split_and!.
  - unfold known_signal. destruct (bool_decide _) eqn:Hk.
    + apply bool_decide_eq_true in Hk. pose proof SignalType_roundtrip_all as Hall.
      rewrite forallb_forall in Hall. apply Z.eqb_eq, Hall. by apply list_elem_of_In.
    + apply bool_decide_eq_false in Hk. rewrite !not_elem_of_cons in Hk.
      unfold SignalType_ToProto. repeat (case_match eqn:E; [apply Z.eqb_eq in E; exfalso; clear -Hk E;
        revert E; unfold SignalTypeHeartbeatPing, SignalTypeHeartbeatPong, SignalTypeAuthRequest,
        SignalTypeAuthResponse, SignalTypeMessageAck, SignalTypeLogoutRequest, SignalTypeLogoutResponse,
        SignalTypeSubscribeRequest, SignalTypeSubscribeResponse, SignalTypeUnsubscribeRequest,
        SignalTypeUnsubscribeResponse, SignalTypeBusinessUp, SignalTypeBusinessDown; tauto|clear E]).
      reflexivity.
  - destruct p; (by left) || (by right).
  - unfold BusinessType_ToProto, BusinessTypeIM, BusinessTypeLIVE, BusinessTypeMESSAGE.
    case_bool_decide as Hb.
    + assert (b = 1 ∨ b = 2 ∨ b = 3)%Z as [-> |[-> | ->]] by lia; reflexivity.
    + repeat (case_match eqn:E; [apply Z.eqb_eq in E; lia|clear E]). reflexivity.
Qed.
