(* ===== verification/SdkClient.v ===== *)
(** * The client SDK's connection ([sdk/client.go], [sdk/tcp/client.go], [sdk/ws/client.go])

    [BaseClient] and the two clients built on it.  The clients differ in their
    transport, an interface here ([SdkTransport]), and in [Connect].  A
    synchronous request is two operations, up to the [select] it waits in and
    from there on, so that the reader and other goroutines can run in between. *)

From stdpp Require Import base list gmap strings numbers infinite relations.
From S2P Require Import Prelude Tcp SdkTypes.

(** ** Go routines that may wait for ever

    A call returns, panics, or waits for a mutex that its own goroutine
    holds. *)
Inductive result (A : Type) : Type :=
  | Returns (a : A)
  | Crashes (why : string)
  | Blocked.
Arguments Returns {A} a. Arguments Crashes {A} why. Arguments Blocked {A}.

(** A callback that was called. *)
Inductive Event : Type :=
  | ConnectEvent (state : Z) (err : error)
  | MessageEvent (m : SdkMessage).

(** [BaseClient] and the fields [Client] adds.  Response channels have a buffer
    of one message and live in [chans]; [closeMu] says whether the mutex is
    held; [transport] is nil or open or closed; [wire] holds what the network
    accepted and [hb_loops] counts the heartbeat goroutines started. *)
Record Client := mkClient {
  Opts : ClientOptions;
  cl_state : Z;
  authResp : option SdkAuthResponse;
  sequenceID : Z;
  heartbeatTicker : option Z;
  hb_loops : nat;
  heartbeatStop_closed : bool;
  msgCh : list SdkMessage;
  msgCh_closed : bool;
  pendingResp : gmap string positive;
  chans : gmap positive (list SdkMessage);
  closeMu : bool;
  closed : bool;
  cancelled : bool;
  transport : option bool;
  wire : list (list Z);
  events : list Event;
}.

Definition set_cl_state (v : Z) (c : Client) : Client :=
  mkClient (Opts c) v (authResp c) (sequenceID c) (heartbeatTicker c) (hb_loops c)
    (heartbeatStop_closed c) (msgCh c) (msgCh_closed c) (pendingResp c) (chans c) (closeMu c)
    (closed c) (cancelled c) (transport c) (wire c) (events c).
Definition set_authResp (v : option SdkAuthResponse) (c : Client) : Client :=
  mkClient (Opts c) (cl_state c) v (sequenceID c) (heartbeatTicker c) (hb_loops c)
    (heartbeatStop_closed c) (msgCh c) (msgCh_closed c) (pendingResp c) (chans c) (closeMu c)
    (closed c) (cancelled c) (transport c) (wire c) (events c).
Definition set_sequenceID (v : Z) (c : Client) : Client :=
  mkClient (Opts c) (cl_state c) (authResp c) v (heartbeatTicker c) (hb_loops c)
    (heartbeatStop_closed c) (msgCh c) (msgCh_closed c) (pendingResp c) (chans c) (closeMu c)
    (closed c) (cancelled c) (transport c) (wire c) (events c).
Definition set_heartbeatTicker (v : option Z) (c : Client) : Client :=
  mkClient (Opts c) (cl_state c) (authResp c) (sequenceID c) v (hb_loops c)
    (heartbeatStop_closed c) (msgCh c) (msgCh_closed c) (pendingResp c) (chans c) (closeMu c)
    (closed c) (cancelled c) (transport c) (wire c) (events c).
Definition set_hb_loops (v : nat) (c : Client) : Client :=
  mkClient (Opts c) (cl_state c) (authResp c) (sequenceID c) (heartbeatTicker c) v
    (heartbeatStop_closed c) (msgCh c) (msgCh_closed c) (pendingResp c) (chans c) (closeMu c)
    (closed c) (cancelled c) (transport c) (wire c) (events c).
Definition set_heartbeatStop_closed (v : bool) (c : Client) : Client :=
  mkClient (Opts c) (cl_state c) (authResp c) (sequenceID c) (heartbeatTicker c) (hb_loops c) v
    (msgCh c) (msgCh_closed c) (pendingResp c) (chans c) (closeMu c) (closed c) (cancelled c)
    (transport c) (wire c) (events c).
Definition set_msgCh (v : list SdkMessage) (c : Client) : Client :=
  mkClient (Opts c) (cl_state c) (authResp c) (sequenceID c) (heartbeatTicker c) (hb_loops c)
    (heartbeatStop_closed c) v (msgCh_closed c) (pendingResp c) (chans c) (closeMu c) (closed c)
    (cancelled c) (transport c) (wire c) (events c).
Definition set_msgCh_closed (v : bool) (c : Client) : Client :=
  mkClient (Opts c) (cl_state c) (authResp c) (sequenceID c) (heartbeatTicker c) (hb_loops c)
    (heartbeatStop_closed c) (msgCh c) v (pendingResp c) (chans c) (closeMu c) (closed c)
    (cancelled c) (transport c) (wire c) (events c).
Definition set_pendingResp (v : gmap string positive) (c : Client) : Client :=
  mkClient (Opts c) (cl_state c) (authResp c) (sequenceID c) (heartbeatTicker c) (hb_loops c)
    (heartbeatStop_closed c) (msgCh c) (msgCh_closed c) v (chans c) (closeMu c) (closed c)
    (cancelled c) (transport c) (wire c) (events c).
Definition set_chans (v : gmap positive (list SdkMessage)) (c : Client) : Client :=
  mkClient (Opts c) (cl_state c) (authResp c) (sequenceID c) (heartbeatTicker c) (hb_loops c)
    (heartbeatStop_closed c) (msgCh c) (msgCh_closed c) (pendingResp c) v (closeMu c) (closed c)
    (cancelled c) (transport c) (wire c) (events c).
Definition set_closeMu (v : bool) (c : Client) : Client :=
  mkClient (Opts c) (cl_state c) (authResp c) (sequenceID c) (heartbeatTicker c) (hb_loops c)
    (heartbeatStop_closed c) (msgCh c) (msgCh_closed c) (pendingResp c) (chans c) v (closed c)
    (cancelled c) (transport c) (wire c) (events c).
Definition set_closed (v : bool) (c : Client) : Client :=
  mkClient (Opts c) (cl_state c) (authResp c) (sequenceID c) (heartbeatTicker c) (hb_loops c)
    (heartbeatStop_closed c) (msgCh c) (msgCh_closed c) (pendingResp c) (chans c) (closeMu c) v
    (cancelled c) (transport c) (wire c) (events c).
Definition set_cancelled (v : bool) (c : Client) : Client :=
  mkClient (Opts c) (cl_state c) (authResp c) (sequenceID c) (heartbeatTicker c) (hb_loops c)
    (heartbeatStop_closed c) (msgCh c) (msgCh_closed c) (pendingResp c) (chans c) (closeMu c)
    (closed c) v (transport c) (wire c) (events c).
Definition set_transport (v : option bool) (c : Client) : Client :=
  mkClient (Opts c) (cl_state c) (authResp c) (sequenceID c) (heartbeatTicker c) (hb_loops c)
    (heartbeatStop_closed c) (msgCh c) (msgCh_closed c) (pendingResp c) (chans c) (closeMu c)
    (closed c) (cancelled c) v (wire c) (events c).
Definition set_wire (v : list (list Z)) (c : Client) : Client :=
  mkClient (Opts c) (cl_state c) (authResp c) (sequenceID c) (heartbeatTicker c) (hb_loops c)
    (heartbeatStop_closed c) (msgCh c) (msgCh_closed c) (pendingResp c) (chans c) (closeMu c)
    (closed c) (cancelled c) (transport c) v (events c).
Definition set_events (v : list Event) (c : Client) : Client :=
  mkClient (Opts c) (cl_state c) (authResp c) (sequenceID c) (heartbeatTicker c) (hb_loops c)
    (heartbeatStop_closed c) (msgCh c) (msgCh_closed c) (pendingResp c) (chans c) (closeMu c)
    (closed c) (cancelled c) (transport c) (wire c) v.

(** ** Computations on a client *)
Definition MC (A : Type) : Type := Client → result A * Client.
#[export] Instance MC_ret : MRet MC := λ A a c, (Returns a, c).
#[export] Instance MC_bind : MBind MC := λ A B f m c,
  match m c with
  | (Returns a, c') => f a c'
  | (Crashes why, c') => (Crashes why, c')
  | (Blocked, c') => (Blocked, c')
  end.
Definition get {A} (f : Client → A) : MC A := λ c, (Returns (f c), c).
Definition put (f : Client → Client) : MC unit := λ c, (Returns tt, f c).
Definition crash {A} (why : string) : MC A := λ c, (Crashes why, c).

(** [sync.Mutex] is not reentrant. *)
Definition Lock : MC unit := λ c, if closeMu c then (Blocked, c) else (Returns tt, set_closeMu true c).
Definition Unlock : MC unit := put (set_closeMu false).
(** [mu.Lock(); defer mu.Unlock()] *)
Definition locked {A} (m : MC A) : MC A := λ c,
  match Lock c with
  | (Returns _, c1) =>
      match m c1 with
      | (Blocked, c2) => (Blocked, c2)
      | (r, c2) => (r, set_closeMu false c2)
      end
  | (Crashes why, c1) => (Crashes why, c1)
  | (Blocked, c1) => (Blocked, c1)
  end.

(** ** [BaseClient] *)
Definition NewBaseClient (opts : list Option) : Client :=
  mkClient (foldl (λ o f, f o) defaultOptions opts) ConnStateUnspecified None 0 None 0 false [] false ∅ ∅
    false false false None [] [].

Definition cl_IsClosed : MC bool := locked (get closed).
Definition SetClosed (b : bool) : MC unit := locked (put (set_closed b)).
Definition SetState (s : Z) : MC unit := put (set_cl_state s).
Definition IsConnected (c : Client) : bool :=
  (cl_state c =? ConnStateConnected)%Z || (cl_state c =? ConnStateAuthenticated)%Z.
Definition IsAuthenticated (c : Client) : bool := (cl_state c =? ConnStateAuthenticated)%Z.
Definition SetAuthResponse (r : option SdkAuthResponse) : MC unit := put (set_authResp r).
Definition NextSequenceID : MC Z :=
  put (λ c, set_sequenceID (u64 (sequenceID c + 1)) c) ≫= λ _, get sequenceID.

Definition WaitResponse (requestID : string) : MC positive :=
  ch ← get (λ c, fresh (dom (chans c)));
  put (λ c, set_chans (<[ch := []]> (chans c)) c) ≫= λ _,
  put (λ c, set_pendingResp (<[requestID := ch]> (pendingResp c)) c) ≫= λ _, mret ch.
Definition GetPendingResponse (requestID : string) : MC (option positive) :=
  get (λ c, pendingResp c !! requestID).
Definition RemovePendingResponse (requestID : string) : MC unit :=
  put (λ c, set_pendingResp (delete requestID (pendingResp c)) c).
(** [select { case ch <- msg: default: }] *)
Definition NotifyPendingResponse (requestID : string) (msg : SdkMessage) : MC unit :=
  o ← GetPendingResponse requestID;
  match o with
  | None => mret tt
  | Some ch => put (λ c, set_chans (alter (λ buf, match buf with [] => [msg] | _ => buf end) ch (chans c)) c)
  end.

(** [time.NewTicker] panics on an interval that is not positive; otherwise
    the goroutine is started. *)
Definition StartHeartbeat (interval : Z) : MC unit :=
  if (interval <=? 0)%Z then crash "non-positive interval for NewTicker"
  else put (set_heartbeatTicker (Some interval)) ≫= λ _, put (λ c, set_hb_loops (S (hb_loops c)) c).
Definition StopHeartbeat : MC unit := put (set_heartbeatTicker None).

Definition close_msgCh : MC unit :=
  b ← get msgCh_closed; if (b : bool) then crash "close of closed channel" else put (set_msgCh_closed true).
Definition close_heartbeatStop : MC unit :=
  b ← get heartbeatStop_closed;
  if (b : bool) then crash "close of closed channel" else put (set_heartbeatStop_closed true).

Definition base_Close : MC unit := locked (
  b ← get closed;
  if (b : bool) then mret tt else
  put (set_closed true) ≫= λ _,
  put (set_cancelled true) ≫= λ _,
  StopHeartbeat ≫= λ _,
  close_msgCh ≫= λ _, close_heartbeatStop).

(** [if c.Opts.ConnectHandler != nil { ... }] *)
Definition on_connect (state : Z) (err : error) : MC unit :=
  put (λ c, if hasConnectHandler (Opts c) then set_events (events c ++ [ConnectEvent state err]) c else c).
Definition on_message (m : SdkMessage) : MC unit :=
  put (λ c, if hasMessageHandler (Opts c) then set_events (events c ++ [MessageEvent m]) c else c).

(** ** The clients *)

(** [Transport.Write]: the error of the context, what the connection does
    with the write (an error after some bytes), the signal; the error and what
    the network accepted. *)
Class SdkTransport : Type := {
  transport_Write : error → option (string * nat) → ClientSignal → error * list Z;
}.

Section client.
Context `{SdkTransport}.

(** [c.Close()] *)
Definition cl_Close : MC unit :=
  base_Close ≫= λ _,
  put (λ c, match transport c with Some _ => set_transport (Some false) c | None => c end).

(** [c.transport.Write(ctx, signal)] under a context derived from the
    client's, whose own timeout has not passed yet; a nil transport panics. *)
Definition cl_Write (conn_err : option (string * nat)) (signal : ClientSignal) : MC error :=
  o ← get transport;
  match o with
  | None => crash "invalid memory address or nil pointer dereference"
  | Some _ =>
      done ← get cancelled;
      let '(e, out) := transport_Write (if (done : bool) then Some "context canceled" else None)
                         conn_err signal in
      put (λ c, set_wire (wire c ++ [out]) c) ≫= λ _, mret e
  end.

Definition handleSignal (signal : ClientSignal) : MC unit :=
  let msg := DecodeClientSignal signal in
  match cs_SignalType signal with
  | PST_AUTH_RESPONSE =>
      let resp := DecodeAuthResponse signal in
      SetAuthResponse resp ≫= λ _,
      (if from_option sr_Result false resp then
         SetState ConnStateAuthenticated ≫= λ _,
         StartHeartbeat (from_option sr_HeartbeatInterval 0%Z resp) ≫= λ _,
         on_connect ConnStateAuthenticated None
       else
         SetState ConnStateAuthenticationFailed ≫= λ _,
         on_connect ConnStateAuthenticationFailed (Some (from_option sr_Msg "" resp)) ≫= λ _,
         cl_Close) ≫= λ _,
      NotifyPendingResponse (sm_RequestID msg) msg
  | PST_HEARTBEAT_PONG => mret tt
  | PST_BUSINESS_DOWN =>
      match DecodeBusinessDown signal with
      | None => mret tt
      | Some biz =>
          b ← get msgCh_closed;
          (if (b : bool) then crash "send on closed channel"
           else put (λ c, if decide (length (msgCh c) < 100) then set_msgCh (msgCh c ++ [biz]) c else c)) ≫= λ _,
          on_message biz
      end
  | _ => NotifyPendingResponse (sm_RequestID msg) msg
  end.

(** One turn of [readLoop]: [input] is what [transport.Read] returns.  The
    answer says whether the loop goes on; when it does not, the deferred
    function (which recovers a panic) has closed the client. *)
Definition readLoop_turn (input : string + ClientSignal) : MC bool := λ c,
  let leave (m : MC unit) : MC bool := m ≫= λ _, cl_Close ≫= λ _, mret false in
  if cancelled c then leave (mret tt) c else
  match input with
  | inl err =>
      leave (SetState ConnStateDisconnected ≫= λ _, on_connect ConnStateDisconnected (Some err)) c
  | inr signal =>
      match handleSignal signal c with
      | (Returns _, c') => (Returns true, c')
      | (Crashes _, c') => leave (mret tt) c'
      | (Blocked, c') => (Blocked, c')
      end
  end.

(** [requestID] is what [GenRequestID] returned. *)
Definition SendHeartbeat (requestID : string) (timestamp : Z) (conn_err : option (string * nat)) : MC unit :=
  o ← get transport;
  match o with
  | None => mret tt
  | Some _ =>
      e ← cl_Write conn_err (EncodeHeartbeatPing requestID timestamp);
      match e with
      | Some err => SetState ConnStateDisconnected ≫= λ _, on_connect ConnStateDisconnected (Some err)
      | None => mret tt
      end
  end.

(** A synchronous request up to its [select]: the channel it waits on, or the
    error it returns (the deferred removal included). *)
Definition request (what requestID : string) (signal : ClientSignal) (conn_err : option (string * nat)) :
    MC (string + positive) :=
  ch ← WaitResponse requestID;
  e ← cl_Write conn_err signal;
  match e with
  | Some err =>
      RemovePendingResponse requestID ≫= λ _, mret (inl ("send " +:+ what +:+ " request failed: " +:+ err))
  | None => mret (inr ch)
  end.

(** The [select] of a synchronous request: [None] while neither case is ready.
    [timed_out]: the request's own timeout has passed; [pick_done] resolves
    the choice when both cases are ready. *)
Definition await (timed_out pick_done : bool) (ch : positive) : MC (option (option SdkMessage)) :=
  done ← get (λ c, timed_out || cancelled c);
  buf ← get (λ c, default [] (chans c !! ch));
  match buf with
  | resp :: rest =>
      if (done : bool) && pick_done then mret (Some None)
      else put (λ c, set_chans (<[ch := rest]> (chans c)) c) ≫= λ _, mret (Some (Some resp))
  | [] => mret (if (done : bool) then Some None else None)
  end.

(** From the [select] to the return. *)
Definition finish {A} (requestID : string) (ch : positive) (timed_out pick_done : bool)
    (k : option SdkMessage → MC A) : MC (option A) :=
  o ← await timed_out pick_done ch;
  match o with
  | None => mret None
  | Some r => a ← k r; RemovePendingResponse requestID ≫= λ _, mret (Some a)
  end.

Definition unexpected (t : Z) : string := "unexpected response type: " +:+ SignalType_String t.

Definition cl_Auth (requestID : string) (auth : AuthRequest) (conn_err : option (string * nat)) :
    MC (string + positive) :=
  ok ← get IsConnected;
  if (ok : bool) then request "auth" requestID (EncodeAuthRequest requestID auth) conn_err
  else mret (inl "not connected").
Definition cl_Auth_return (requestID : string) (ch : positive) (timed_out pick_done : bool) :
    MC (option (string + option SdkAuthResponse)) :=
  finish requestID ch timed_out pick_done (λ r,
    match r with
    | None => mret (inl "auth timeout")
    | Some resp => if decide (sm_Type resp ≠ SignalTypeAuthResponse) then mret (inl (unexpected (sm_Type resp)))
                   else a ← get authResp; mret (inr a)
    end).
Definition AuthAsync (requestID : string) (auth : AuthRequest) (conn_err : option (string * nat)) : MC error :=
  ok ← get IsConnected;
  if (ok : bool) then cl_Write conn_err (EncodeAuthRequest requestID auth) else mret (Some "not connected").

Definition cl_Subscribe (requestID topic : string) (qos : Z) (conn_err : option (string * nat)) :
    MC (string + positive) :=
  ok ← get IsAuthenticated;
  if (ok : bool) then
    request "subscribe" requestID (EncodeSubscribeRequest requestID (mkSubscribeRequest topic qos)) conn_err
  else mret (inl "not authenticated").
Definition cl_Subscribe_return (requestID : string) (ch : positive) (timed_out pick_done : bool) :
    MC (option error) :=
  finish requestID ch timed_out pick_done (λ r, mret
    match r with
    | None => Some "subscribe timeout"
    | Some resp => if decide (sm_Type resp ≠ SignalTypeSubscribeResponse)
                   then Some (unexpected (sm_Type resp)) else None
    end).

Definition cl_Unsubscribe (requestID topic : string) (conn_err : option (string * nat)) :
    MC (string + positive) :=
  ok ← get IsAuthenticated;
  if (ok : bool) then
    request "unsubscribe" requestID (EncodeUnsubscribeRequest requestID topic) conn_err
  else mret (inl "not authenticated").
Definition cl_Unsubscribe_return (requestID : string) (ch : positive) (timed_out pick_done : bool) :
    MC (option error) :=
  finish requestID ch timed_out pick_done (λ r, mret
    match r with
    | None => Some "unsubscribe timeout"
    | Some resp => if decide (sm_Type resp ≠ SignalTypeUnsubscribeResponse)
                   then Some (unexpected (sm_Type resp)) else None
    end).

(** The asynchronous variants: the call and the goroutine it starts. *)
Definition async (ok : Client → bool) (goroutine : MC unit) : MC (error * option (MC unit)) :=
  b ← get ok;
  mret (if (b : bool) then (None, Some goroutine) else (Some "not authenticated", None)).
Definition SubscribeAsync (requestID topic : string) (qos : Z) (conn_err : option (string * nat)) :
    MC (error * option (MC unit)) :=
  async IsAuthenticated
    (cl_Write conn_err (EncodeSubscribeRequest requestID (mkSubscribeRequest topic qos)) ≫= λ _, mret tt).
Definition UnsubscribeAsync (requestID topic : string) (conn_err : option (string * nat)) :
    MC (error * option (MC unit)) :=
  async IsAuthenticated (cl_Write conn_err (EncodeUnsubscribeRequest requestID topic) ≫= λ _, mret tt).

Definition SendBusiness (requestID : string) (bizType : Z) (msgID : string) (body : list Z)
    (conn_err : option (string * nat)) : MC error :=
  ok ← get IsAuthenticated;
  if (ok : bool) then
    seq ← NextSequenceID;
    cl_Write conn_err (EncodeBusinessUp requestID seq (mkBusinessMessage msgID bizType body))
  else mret (Some "not authenticated").
(** The goroutine of [SendBusinessAsync], when one is started. *)
Definition SendBusinessAsync (requestID : string) (bizType : Z) (msgID : string) (body : list Z)
    (conn_err : option (string * nat)) : MC (option (MC unit)) :=
  b ← get IsAuthenticated;
  mret (if (b : bool) then Some (
    seq ← NextSequenceID;
    cl_Write conn_err (EncodeBusinessUp requestID seq (mkBusinessMessage msgID bizType body)) ≫= λ _, mret tt)
  else None).

Definition cl_Logout (requestID : string) (reason : Z) (conn_err : option (string * nat)) : MC error :=
  ok ← get IsAuthenticated;
  if (ok : bool) then
    StopHeartbeat ≫= λ _, cl_Write conn_err (EncodeLogoutRequest requestID reason)
  else mret (Some "not authenticated").

(** One turn of the heartbeat goroutine: entering [select] reads
    [c.heartbeatTicker.C]; [tick] says that the ticker fired and [pick_tick]
    resolves the choice. *)
Definition heartbeat_turn (tick pick_tick : bool) (requestID : string) (timestamp : Z)
    (conn_err : option (string * nat)) : MC (option bool) :=
  o ← get heartbeatTicker;
  match o with
  | None => crash "invalid memory address or nil pointer dereference"
  | Some _ =>
      stop ← get (λ c, heartbeatStop_closed c || cancelled c);
      if tick && (negb stop || pick_tick) then
        SendHeartbeat requestID timestamp conn_err ≫= λ _, mret (Some true)
      else mret (if (stop : bool) then Some false else None)
  end.

(** [Connect] after the test for a closed client; [dial] is the error of the
    dialler. *)
Definition connect_dialled (prefix : string) (dial : error) : MC error :=
  SetState ConnStateConnecting ≫= λ _,
  match dial with
  | Some err =>
      SetState ConnStateDisconnected ≫= λ _, on_connect ConnStateDisconnected (Some err) ≫= λ _,
      mret (Some (prefix +:+ err))
  | None =>
      put (set_transport (Some true)) ≫= λ _,
      SetState ConnStateConnected ≫= λ _, on_connect ConnStateConnected None ≫= λ _, mret None
  end.
End client.

(** ** The TCP client ([sdk/tcp/client.go]) *)
Module TcpClient.
Section tcp.
Context (Marshal : ClientSignal → string + list Z).
Definition tcp_transport : SdkTransport :=
  {| transport_Write ctx_err conn_err signal := Sdk.Write Marshal ctx_err conn_err signal [] |}.

(** The mutex is taken before [IsClosed], which takes it too. *)
Definition Connect (dial : error) : MC error :=
  Lock ≫= λ _,
  b ← cl_IsClosed;
  if (b : bool) then Unlock ≫= λ _, mret (Some "client already closed")
  else Unlock ≫= λ _, connect_dialled "dial tcp failed: " dial.
End tcp.
End TcpClient.

(** ** The WebSocket client ([sdk/ws/client.go]) *)
Module WsClient.
Section ws.
Context (Marshal : ClientSignal → string + list Z) (Unmarshal : list Z → string + ClientSignal).

(** [Transport.Read]: the network is the sequence of what [NextReader] yields,
    an error or the bytes read until the message (or an error) ends. *)
Fixpoint Read (ctx_err : error) (net : network) : read_result ClientSignal * network :=
  match ctx_err with
  | Some e => (ReadErr e, net)
  | None =>
      match net with
      | [] => (Waiting, [])
      | inl e :: net' => (ReadErr ("get next reader failed: " +:+ e), net')
      | inr data :: net' =>
          if decide (length data = 0) then Read ctx_err net'
          else match Unmarshal data with
               | inl e => (ReadErr ("unmarshal protobuf failed: " +:+ e), net')
               | inr signal => (Frame signal, net')
               end
      end
  end.

(** [Transport.Write]: a message is accepted as a whole or not at all. *)
Definition Write (ctx_err : error) (conn_err : option (string * nat)) (signal : ClientSignal) :
    error * list Z :=
  match ctx_err with
  | Some e => (Some e, [])
  | None =>
      match Marshal signal with
      | inl e => (Some ("marshal protobuf failed: " +:+ e), [])
      | inr protobufBody =>
          match conn_err with
          | Some (e, _) => (Some ("write websocket message failed: " +:+ e), [])
          | None => (None, protobufBody)
          end
      end
  end.
Definition ws_transport : SdkTransport := {| transport_Write := Write |}.

Definition Connect (dial : error) : MC error :=
  b ← cl_IsClosed;
  if (b : bool) then mret (Some "client already closed")
  else connect_dialled "dial websocket failed: " dial.
End ws.
End WsClient.
