(* ===== verification/SdkClientSpec.v ===== *)
(** * The client SDK's requests and responses

    The operations of [SdkClient.v] in any order, with the synchronous requests
    that are in flight, and what a request can rely on. *)

From stdpp Require Import base list gmap strings numbers infinite fin_maps.
From S2P Require Import Prelude Tcp SdkTypes SdkClient.

(** ** What operations leave alone *)

(** The response channels are untouched, and a cancelled client stays so. *)
Definition untouched (c c' : Client) : Prop :=
  pendingResp c' = pendingResp c ∧ chans c' = chans c ∧ (cancelled c = true → cancelled c' = true).

#[export] Instance untouched_preorder : PreOrder untouched.
Proof.
  split; [done|]. intros a b c (P1 & C1 & K1) (P2 & C2 & K2). split_and!; [congruence|congruence|auto].
Qed.

Definition leaves_alone {A} (m : MC A) : Prop := ∀ c, untouched c (m c).2.

Lemma leaves_bind {A B} (m : MC A) (f : A → MC B) :
  leaves_alone m → (∀ a, leaves_alone (f a)) → leaves_alone (m ≫= f).
Proof.
  intros Hm Hf c. specialize (Hm c). unfold mbind, MC_bind.
  destruct (m c) as [[a|why|] c1]; [|done..]. etrans; [exact Hm|apply Hf].
Qed.
Lemma leaves_ret {A} (a : A) : leaves_alone (mret a).
Proof. intros c. done. Qed.
Lemma leaves_get {A} (f : Client → A) : leaves_alone (get f).
Proof. intros c. done. Qed.
Lemma leaves_crash {A} why : leaves_alone (crash (A:=A) why).
Proof. intros c. done. Qed.
Lemma leaves_put f : (∀ c, untouched c (f c)) → leaves_alone (put f).
Proof. intros Hf c. apply Hf. Qed.
Lemma leaves_if {A} (b : bool) (m1 m2 : MC A) :
  leaves_alone m1 → leaves_alone m2 → leaves_alone (if b then m1 else m2).
Proof. by destruct b. Qed.
Lemma leaves_locked {A} (m : MC A) : leaves_alone m → leaves_alone (locked m).
Proof.
  intros Hm c. unfold locked, Lock. destruct (closeMu c); [done|].
  specialize (Hm (set_closeMu true c)). destruct (m _) as [[a|why|] c1]; exact Hm.
Qed.

Create HintDb sdk.
#[export] Hint Resolve leaves_ret leaves_get leaves_crash : sdk.

Ltac leaves := repeat first
  [ solve [auto with sdk nocore]
  | match goal with |- forall _, leaves_alone _ => intro end
  | apply leaves_put; intros; repeat case_match; split_and!; done
  | match goal with
    | |- leaves_alone (locked _) => apply leaves_locked
    | |- leaves_alone (_ ≫= _) => apply leaves_bind
    end
  | case_match ].

Ltac leaves_here := cbv zeta;
  match goal with |- untouched ?c (?m ?c).2 => refine ((_ : leaves_alone m) c) end; leaves.

Section quiet.
Context `{SdkTransport}.

Lemma leaves_Close : leaves_alone cl_Close.
Proof. unfold cl_Close, base_Close, StopHeartbeat, close_msgCh, close_heartbeatStop. leaves. Qed.
Lemma leaves_Write ce s : leaves_alone (cl_Write ce s).
Proof. unfold cl_Write. leaves. Qed.
Lemma leaves_on_connect s e : leaves_alone (on_connect s e).
Proof. unfold on_connect. leaves. Qed.
Lemma leaves_on_message m : leaves_alone (on_message m).
Proof. unfold on_message. leaves. Qed.
Lemma leaves_SetState s : leaves_alone (SetState s).
Proof. unfold SetState. leaves. Qed.
Lemma leaves_StartHeartbeat i : leaves_alone (StartHeartbeat i).
Proof. unfold StartHeartbeat. leaves. Qed.
#[local] Hint Resolve leaves_Close leaves_Write leaves_on_connect leaves_on_message leaves_SetState
  leaves_StartHeartbeat : sdk.

Lemma leaves_SendHeartbeat id t ce : leaves_alone (SendHeartbeat id t ce).
Proof. unfold SendHeartbeat. leaves. Qed.
#[local] Hint Resolve leaves_SendHeartbeat : sdk.
Lemma leaves_heartbeat_turn tick pick id t ce : leaves_alone (heartbeat_turn tick pick id t ce).
Proof. unfold heartbeat_turn. leaves. Qed.
Lemma leaves_SendBusiness id b m body ce : leaves_alone (SendBusiness id b m body ce).
Proof. unfold SendBusiness, NextSequenceID. leaves. Qed.
Lemma leaves_Logout id r ce : leaves_alone (cl_Logout id r ce).
Proof. unfold cl_Logout, StopHeartbeat. leaves. Qed.
Lemma leaves_Connect dial : leaves_alone (WsClient.Connect dial).
Proof. unfold WsClient.Connect, cl_IsClosed, connect_dialled. leaves. Qed.

(** A signal at most answers the request it names. *)
Definition answered (id : string) (msg : SdkMessage) (c c' : Client) : Prop :=
  pendingResp c' = pendingResp c ∧
  chans c' = match pendingResp c !! id with
             | Some ch => alter (λ buf, match buf with [] => [msg] | _ => buf end) ch (chans c)
             | None => chans c
             end ∧
  (cancelled c = true → cancelled c' = true).

Lemma answered_after id msg c c1 c2 :
  untouched c c1 → answered id msg c1 c2 → answered id msg c c2.
Proof.
  intros (P1 & C1 & K1) (P2 & C2 & K2). split_and!; [congruence| |auto]. by rewrite C2, P1, C1.
Qed.

Lemma Notify_answered id msg c : answered id msg c (NotifyPendingResponse id msg c).2.
Proof.
  unfold NotifyPendingResponse, GetPendingResponse, answered, mbind, MC_bind, get. cbn [fst snd].
  destruct (pendingResp c !! id) eqn:E; split_and!; done.
Qed.

Lemma leaves_then_notify {A} (m : MC A) id msg c : leaves_alone m →
  let c' := ((m ≫= λ _, NotifyPendingResponse id msg) c).2 in untouched c c' ∨ answered id msg c c'.
Proof.
  intros Hm. specialize (Hm c). unfold mbind, MC_bind. destruct (m c) as [[a|why|] c1]; [|by left..].
  right. eapply answered_after; [exact Hm|apply Notify_answered].
Qed.

Lemma handleSignal_effect signal c :
  let c' := (handleSignal signal c).2 in
  untouched c c' ∨ answered (cs_RequestId signal) (DecodeClientSignal signal) c c'.
Proof.
  unfold handleSignal. destruct (cs_SignalType signal); try (right; apply Notify_answered).
  - by left.
  - set (body := if from_option sr_Result false (DecodeAuthResponse signal) then _ else _).
    assert (leaves_alone body) as Hb by (subst body; leaves).
    assert (untouched c (set_authResp (DecodeAuthResponse signal) c)) as H1 by done.
    destruct (leaves_then_notify body (cs_RequestId signal) (DecodeClientSignal signal)
        (set_authResp (DecodeAuthResponse signal) c) Hb) as [H2|H2];
      [left; by etrans|right; by eapply answered_after].
  - left. destruct (DecodeBusinessDown signal); [|done].
    leaves_here.
Qed.

Lemma readLoop_effect input c :
  let c' := (readLoop_turn input c).2 in
  untouched c c' ∨
  ∃ signal, input = inr signal ∧ answered (cs_RequestId signal) (DecodeClientSignal signal) c c'.
Proof.
  unfold readLoop_turn. destruct (cancelled c) eqn:Ec; [left; leaves_here|].
  destruct input as [err|signal]; [left; leaves_here|].
  pose proof (handleSignal_effect signal c) as He.
  destruct (handleSignal signal c) as [[a|why|] c1]; simpl in He.
  - destruct He; eauto.
  - assert (leaves_alone (mret tt ≫= λ _, cl_Close ≫= λ _, mret false)) as Hl by leaves.
    specialize (Hl c1). destruct He as [He|He]; [left; by etrans|right; exists signal; split; [done|]].
    destruct He as (P & C & K), Hl as (P' & C' & K'). split_and!; [congruence|congruence|auto].
  - destruct He; eauto.
Qed.
End quiet.

(** ** Requests in flight *)
Inductive CallKind : Set := KAuth | KSubscribe | KUnsubscribe.

(** What the SDK's goroutines and its caller can do next. *)
Inductive client_op : Type :=
  | OpConnect (dial : error)
  | OpRead (input : string + ClientSignal)
  | OpAuth (id : string) (auth : AuthRequest) (conn_err : option (string * nat))
  | OpSubscribe (id topic : string) (qos : Z) (conn_err : option (string * nat))
  | OpUnsubscribe (id topic : string) (conn_err : option (string * nat))
  | OpReturn (id : string) (timed_out pick_done : bool)
  | OpSendBusiness (id : string) (bizType : Z) (msgID : string) (body : list Z)
      (conn_err : option (string * nat))
  | OpHeartbeat (tick pick_tick : bool) (id : string) (timestamp : Z) (conn_err : option (string * nat))
  | OpLogout (id : string) (reason : Z) (conn_err : option (string * nat))
  | OpClose.

(** The request an operation starts, ends or answers. *)
Definition about (op : client_op) : option string :=
  match op with
  | OpRead (inr signal) => Some (cs_RequestId signal)
  | OpAuth id _ _ | OpSubscribe id _ _ _ | OpUnsubscribe id _ _ | OpReturn id _ _ => Some id
  | _ => None
  end.

(** A client with the synchronous requests that wait in their [select], and
    the channel each of them waits on. *)
Abbreviation Calls := (gmap string (CallKind * positive)).
Definition sys : Type := Client * Calls.

Section system.
Context `{SdkTransport}.

Definition only {A} (m : MC A) (s : sys) : option sys :=
  match m s.1 with (Returns _, c) => Some (c, s.2) | _ => None end.

(** A request is started under an ID that is not in use. *)
Definition start_call (k : CallKind) (id : string) (m : MC (string + positive)) (s : sys) : option sys :=
  match s.2 !! id with
  | Some _ => None
  | None =>
      match m s.1 with
      | (Returns (inr ch), c) => Some (c, <[id := (k, ch)]> s.2)
      | (Returns (inl _), c) => Some (c, s.2)
      | _ => None
      end
  end.

(** A request that has an answer or was given up returns to its caller. *)
Definition end_call {A} (id : string) (m : MC (option A)) (s : sys) : option sys :=
  match m s.1 with
  | (Returns (Some _), c) => Some (c, delete id s.2)
  | (Returns None, c) => Some (c, s.2)
  | _ => None
  end.

(** [None] when the operation panics: the process is gone. *)
Definition do_cop (op : client_op) (s : sys) : option sys :=
  match op with
  | OpConnect dial => only (WsClient.Connect dial) s
  | OpRead input => only (readLoop_turn input) s
  | OpAuth id auth ce => start_call KAuth id (cl_Auth id auth ce) s
  | OpSubscribe id topic qos ce => start_call KSubscribe id (cl_Subscribe id topic qos ce) s
  | OpUnsubscribe id topic ce => start_call KUnsubscribe id (cl_Unsubscribe id topic ce) s
  | OpReturn id timed_out pick =>
      match s.2 !! id with
      | Some (KAuth, ch) => end_call id (cl_Auth_return id ch timed_out pick) s
      | Some (KSubscribe, ch) => end_call id (cl_Subscribe_return id ch timed_out pick) s
      | Some (KUnsubscribe, ch) => end_call id (cl_Unsubscribe_return id ch timed_out pick) s
      | None => None
      end
  | OpSendBusiness id b m body ce => only (SendBusiness id b m body ce) s
  | OpHeartbeat tick pick id t ce => only (heartbeat_turn tick pick id t ce) s
  | OpLogout id r ce => only (cl_Logout id r ce) s
  | OpClose => only cl_Close s
  end.

Fixpoint run_cops (l : list client_op) (s : sys) : option sys :=
  match l with [] => Some s | op :: l' => do_cop op s ≫= run_cops l' end.

Definition client_start (opts : list Option) : sys := (NewBaseClient opts, ∅).

(** Every request in flight has a response channel of its own. *)
Record calls_wf (s : sys) : Prop := {
  wf_pending : pendingResp s.1 = snd <$> s.2;
  wf_distinct : ∀ i j ki kj ch, s.2 !! i = Some (ki, ch) → s.2 !! j = Some (kj, ch) → i = j;
  wf_alloc : ∀ i k ch, s.2 !! i = Some (k, ch) → is_Some (chans s.1 !! ch);
}.

(** What an operation that concerns [o] does to another request [id] that
    waits on [ch]. *)
Definition bystander (id : string) (k : CallKind) (ch : positive) (s s' : sys) : Prop :=
  s'.2 !! id = Some (k, ch) ∧ chans s'.1 !! ch = chans s.1 !! ch.

(** The effect of an operation, as far as requests are concerned. *)
Inductive effect (s s' : sys) : client_op → Prop :=
  | effect_none op : untouched s.1 s'.1 → s'.2 = s.2 → effect s s' op
  | effect_answer signal :
      answered (cs_RequestId signal) (DecodeClientSignal signal) s.1 s'.1 → s'.2 = s.2 →
      effect s s' (OpRead (inr signal))
  | effect_start op id k ch buf : about op = Some id → s.2 !! id = None → chans s.1 !! ch = None →
      chans s'.1 = <[ch := buf]> (chans s.1) →
      pendingResp s'.1 = <[id := ch]> (pendingResp s.1) → s'.2 = <[id := (k, ch)]> s.2 →
      (cancelled s.1 = true → cancelled s'.1 = true) → effect s s' op
  | effect_refused op id ch buf : about op = Some id → s.2 !! id = None → chans s.1 !! ch = None →
      chans s'.1 = <[ch := buf]> (chans s.1) →
      pendingResp s'.1 = delete id (<[id := ch]> (pendingResp s.1)) → s'.2 = s.2 →
      (cancelled s.1 = true → cancelled s'.1 = true) → effect s s' op
  | effect_end op id k ch f : about op = Some id → s.2 !! id = Some (k, ch) →
      chans s'.1 = alter f ch (chans s.1) →
      pendingResp s'.1 = delete id (pendingResp s.1) → s'.2 = delete id s.2 →
      (cancelled s.1 = true → cancelled s'.1 = true) → effect s s' op.

Lemma request_effect what id signal ce c r c' :
  request what id signal ce c = (Returns r, c') →
  ∃ ch, chans c !! ch = None ∧ chans c' = <[ch := []]> (chans c) ∧
    (cancelled c = true → cancelled c' = true) ∧
    match r with
    | inr ch' => ch' = ch ∧ pendingResp c' = <[id := ch]> (pendingResp c)
    | inl _ => pendingResp c' = delete id (<[id := ch]> (pendingResp c))
    end.
Proof.
  set (ch := fresh (dom (chans c))).
  assert (chans c !! ch = None) as Hf by (apply not_elem_of_dom, is_fresh).
  set (c1 := set_pendingResp (<[id := ch]> (pendingResp c)) (set_chans (<[ch := []]> (chans c)) c)).
  unfold request. change (WaitResponse id c) with (Returns ch, c1).
  intros E. exists ch. split; [done|]. revert E.
  unfold mbind, MC_bind. change (WaitResponse id c) with (Returns ch, c1). cbn beta iota.
  pose proof (leaves_Write ce signal c1) as (P & C & K).
  destruct (cl_Write ce signal c1) as [[[err|]|why|] c2]; simpl in P, C, K; intros E;
    [injection E as <- <-|injection E as <- <-|done|done].
  - split_and!; [exact C|exact K|simpl; by rewrite P].
  - split_and!; [exact C|exact K|done|exact P].
Qed.

Lemma start_call_effect k what id signal ce (ok : Client → bool) err s s' op :
  about op = Some id →
  start_call k id (b ← get ok; if (b : bool) then request what id signal ce else mret (inl err)) s = Some s' →
  effect s s' op.
Proof.
  intros Ha. unfold start_call. destruct s as [c calls]. simpl.
  destruct (calls !! id) eqn:Ei; [done|]. unfold mbind at 1, MC_bind at 1, get. cbn [fst snd].
  destruct (ok c); [|simpl; intros; simplify_eq; by apply effect_none].
  destruct (request what id signal ce c) as [[[e|ch]|why|] c'] eqn:Er; intros; simplify_eq;
    apply request_effect in Er as (ch' & Hf & Hc & Hk & Hr).
  - eapply (effect_refused _ _ _ id ch' []); done.
  - destruct Hr as [-> Hr]. eapply (effect_start _ _ _ id k ch' []); done.
Qed.

Lemma await_run timed_out pick ch c :
  ∃ r f, await timed_out pick ch c = (Returns r, set_chans (alter f ch (chans c)) c) ∧
    (r = None → set_chans (alter f ch (chans c)) c = c).
Proof.
  assert (c = set_chans (alter id ch (chans c)) c) as Hid.
  { rewrite (alter_same id) by done. by destruct c. }
  unfold await, mbind, MC_bind, get. cbn [fst snd].
  destruct (chans c !! ch) as [buf|] eqn:Ec; [destruct buf as [|resp rest]|]; simpl.
  - eexists _, id. rewrite <-Hid. done.
  - destruct ((timed_out || cancelled c) && pick).
    + eexists _, id. rewrite <-Hid. done.
    + eexists _, (λ _, rest). rewrite (alter_Some _ _ _ _ Ec). split; [reflexivity|done].
  - eexists _, id. rewrite <-Hid. done.
Qed.

Lemma end_call_effect {A} id k ch timed_out pick (f : option SdkMessage → MC A) s s' op :
  (∀ r, leaves_alone (f r)) → about op = Some id → s.2 !! id = Some (k, ch) →
  end_call id (finish id ch timed_out pick f) s = Some s' → effect s s' op.
Proof.
  intros Hf Ha Ei. destruct s as [c calls]. unfold end_call, finish, mbind, MC_bind. cbn [fst snd] in *.
  destruct (await_run timed_out pick ch c) as (r & g & -> & Hr). cbn [fst snd].
  destruct r as [r|].
  - destruct (Hf r (set_chans (alter g ch (chans c)) c)) as (P & C & K).
    destruct (f r _) as [[a|why|] c1]; simpl in *; [|done..]. intros; simplify_eq.
    apply (effect_end _ _ _ id k ch g); simpl; try done; congruence.
  - simpl. intros; simplify_eq. apply effect_none; [|done]. simpl. by rewrite Hr.
Qed.

Lemma only_effect {A} (m : MC A) s s' op : leaves_alone m → only m s = Some s' → effect s s' op.
Proof.
  intros Hm. unfold only. specialize (Hm s.1). destruct (m s.1) as [[a|why|] c]; intros; simplify_eq/=.
  by apply effect_none.
Qed.

Lemma do_cop_effect op s s' : do_cop op s = Some s' → effect s s' op.
Proof.
  destruct op; simpl.
  - apply only_effect, leaves_Connect.
  - unfold only. pose proof (readLoop_effect input s.1) as He.
    destruct (readLoop_turn input s.1) as [[a|why|] c]; intros; simplify_eq/=.
    destruct He as [He|(signal & -> & He)]; [by apply effect_none|by apply effect_answer].
  - by apply start_call_effect.
  - by apply start_call_effect.
  - by apply start_call_effect.
  - destruct (s.2 !! id) as [[[] ch]|] eqn:Ei; [..|done]; 
      (eapply end_call_effect; [|reflexivity|exact Ei]; intros [resp|]; leaves).
  - apply only_effect, leaves_SendBusiness.
  - apply only_effect, leaves_heartbeat_turn.
  - apply only_effect, leaves_Logout.
  - apply only_effect, leaves_Close.
Qed.

Lemma effect_cancelled s s' op : effect s s' op → cancelled s.1 = true → cancelled s'.1 = true.
Proof.
  intros []; auto; match goal with
    | H : untouched _ _ |- _ => apply H
    | H : answered _ _ _ _ |- _ => apply H
    end.
Qed.

Lemma fresh_channel s ch i k ch' : calls_wf s →
  chans s.1 !! ch = None → s.2 !! i = Some (k, ch') → ch' ≠ ch.
Proof. intros W Hf Hi ->. destruct (wf_alloc _ W _ _ _ Hi). congruence. Qed.

Lemma effect_bystander s s' op id k ch : calls_wf s → effect s s' op →
  about op ≠ Some id → s.2 !! id = Some (k, ch) → bystander id k ch s s'.
Proof.
  intros W He Ha Hi. unfold bystander. destruct He as [op (P & C & _) E2|signal (P & C & _) E2
    |op i k' ch' buf Hab En Ef Ec Ep E2 _|op i ch' buf Hab En Ef Ec Ep E2 _|op i k' ch' f Hab Es Ec Ep E2 _].
  - by rewrite E2, C.
  - rewrite E2, C. split; [done|]. simpl in Ha. rewrite (wf_pending _ W), lookup_fmap.
    destruct (s.2 !! cs_RequestId signal) as [[k' ch']|] eqn:Er; simpl; [|done].
    apply lookup_alter_ne. intros ->. apply Ha. f_equal. by eapply (wf_distinct _ W).
  - rewrite E2, Ec, lookup_insert_ne by congruence. split; [done|].
    apply lookup_insert_ne. apply not_eq_sym. by eapply fresh_channel.
  - rewrite E2, Ec. split; [done|]. apply lookup_insert_ne, not_eq_sym. by eapply fresh_channel.
  - rewrite E2, Ec, lookup_delete_ne by congruence. split; [done|].
    apply lookup_alter_ne. intros ->. apply Ha. rewrite Hab. f_equal. by eapply (wf_distinct _ W).
Qed.

Lemma effect_wf s s' op : calls_wf s → effect s s' op → calls_wf s'.
Proof.
  intros W He. destruct He as [op (P & C & _) E2|signal (P & C & _) E2
    |op i k' ch' buf Hab En Ef Ec Ep E2 _|op i ch' buf Hab En Ef Ec Ep E2 _|op i k' ch' f Hab Es Ec Ep E2 _];
    split; rewrite ?E2, ?P, ?C, ?Ec, ?Ep; try apply W.
  - intros i k ch Hi. destruct (wf_alloc _ W _ _ _ Hi) as [buf Hb]. case_match; [|by eexists].
    rewrite lookup_alter. case_decide; [subst; rewrite Hb|rewrite Hb]; simpl; eauto.
  - by rewrite (wf_pending _ W), fmap_insert.
  - intros x y kx ky c. rewrite !lookup_insert_Some.
    intros [[<- [= <- <-]]|[Hx Ex]] [[<- [= <-]]|[Hy Ey]]; try done.
    + by destruct (fresh_channel _ _ _ _ _ W Ef Ey).
    + subst. by destruct (fresh_channel _ _ _ _ _ W Ef Ex).
    + by eapply (wf_distinct _ W).
  - intros x kx c. rewrite !lookup_insert_Some. intros [[<- [= <- <-]]|[Hx Ex]].
    + rewrite lookup_insert_eq. by eexists.
    + destruct (wf_alloc _ W _ _ _ Ex) as [b Hb]. rewrite lookup_insert_ne; [by eexists|].
      apply not_eq_sym. by eapply fresh_channel.
  - rewrite delete_insert_id; [apply W|]. by rewrite (wf_pending _ W), lookup_fmap, En.
  - intros x kx c Ex. destruct (wf_alloc _ W _ _ _ Ex) as [b Hb]. rewrite lookup_insert_ne; [by eexists|].
    apply not_eq_sym. by eapply fresh_channel.
  - by rewrite (wf_pending _ W), fmap_delete.
  - intros x y kx ky c. rewrite !lookup_delete_Some. intros [_ Ex] [_ Ey]. by eapply (wf_distinct _ W).
  - intros x kx c. rewrite lookup_delete_Some. intros [_ Ex]. destruct (wf_alloc _ W _ _ _ Ex) as [b Hb].
    rewrite lookup_alter. case_decide; [subst; rewrite Hb|rewrite Hb]; simpl; eauto.
Qed.

Lemma run_cops_app l1 l2 s : run_cops (l1 ++ l2) s = run_cops l1 s ≫= run_cops l2.
Proof.
  revert s. induction l1 as [|op l1 IH]; intros s; simpl; [done|].
  destruct (do_cop op s); simpl; [apply IH|done].
Qed.

Lemma run_cops_wf l s s' : calls_wf s → run_cops l s = Some s' → calls_wf s'.
Proof.
  revert s. induction l as [|op l IH]; simpl; intros s W E; [by simplify_eq|].
  destruct (do_cop op s) as [s1|] eqn:E1; [|done]. eapply IH; [|done].
  eapply effect_wf; [done|by apply do_cop_effect].
Qed.

Lemma run_cops_cancelled l s s' :
  run_cops l s = Some s' → cancelled s.1 = true → cancelled s'.1 = true.
Proof.
  revert s. induction l as [|op l IH]; simpl; intros s E K; [by simplify_eq|].
  destruct (do_cop op s) as [s1|] eqn:E1; [|done]. eapply IH; [done|].
  eapply effect_cancelled; [by apply do_cop_effect|done].
Qed.

(** Operations that do not concern a request leave it in flight, its channel
    as it was. *)
Lemma run_cops_bystander l s s' id k ch : calls_wf s →
  Forall (λ op, about op ≠ Some id) l → s.2 !! id = Some (k, ch) →
  run_cops l s = Some s' → bystander id k ch s s'.
Proof.
  revert s. induction l as [|op l IH]; simpl; intros s W Hl Hi E; [by simplify_eq|].
  inversion_clear Hl. destruct (do_cop op s) as [s1|] eqn:E1; [|done].
  apply do_cop_effect in E1. destruct (effect_bystander _ _ _ _ _ _ W E1 H0 Hi) as [Hi1 Hc1].
  destruct (IH s1 (effect_wf _ _ _ W E1) H1 Hi1 E) as [Hi2 Hc2].
  split; [done|by rewrite Hc2].
Qed.

Lemma client_start_wf opts : calls_wf (client_start opts).
Proof. split; simpl; [by rewrite fmap_empty|..]; intros *; rewrite lookup_empty; done. Qed.
End system.

(** ** Claims *)
Section claims.
Context `{SdkTransport}.

(** The answer to a request that waits reaches its channel. *)
Lemma do_cop_answer s s' id k ch signal : calls_wf s → s.2 !! id = Some (k, ch) →
  cs_RequestId signal = id → cs_SignalType signal = PST_SUBSCRIBE_RESPONSE →
  chans s.1 !! ch = Some [] → cancelled s.1 = false →
  do_cop (OpRead (inr signal)) s = Some s' →
  s'.2 = s.2 ∧ chans s'.1 !! ch = Some [DecodeClientSignal signal].
Proof.
  intros W Hi <- Ht Hc Hk. simpl. unfold only, readLoop_turn, handleSignal. rewrite Hk, Ht.
  unfold NotifyPendingResponse, GetPendingResponse, mbind, MC_bind, get.
  cbn [fst snd DecodeClientSignal sm_RequestID].
  rewrite (wf_pending _ W), lookup_fmap, Hi. intros; simplify_eq/=. split; [done|].
  by rewrite lookup_alter_eq, Hc.
Qed.

Lemma start_call_new k id m s s' : start_call k id m s = Some s' → s.2 !! id = None.
Proof. unfold start_call. by destruct (s.2 !! id). Qed.

(** A request that was started waits on an empty channel. *)
Lemma do_cop_subscribe s s' id topic qos ce : is_Some (s'.2 !! id) →
  do_cop (OpSubscribe id topic qos ce) s = Some s' →
  ∃ ch, s'.2 !! id = Some (KSubscribe, ch) ∧ chans s'.1 !! ch = Some [].
Proof.
  intros Hs. simpl. unfold start_call. destruct (s.2 !! id) eqn:Ei; [done|].
  unfold cl_Subscribe. unfold mbind at 1, MC_bind at 1, get. cbn [fst snd].
  destruct (IsAuthenticated s.1); [|simpl; intros; simplify_eq/=; rewrite Ei in Hs; by destruct Hs].
  destruct (request _ _ _ _ _) as [[[e|ch]|why|] c] eqn:Er; intros; simplify_eq/=.
  - rewrite Ei in Hs. by destruct Hs.
  - apply request_effect in Er as (ch' & Hf & Hc & _ & -> & _). exists ch'.
    by rewrite Hc, !lookup_insert_eq.
Qed.

(** C23.  A [Subscribe] call and its answer find each other, whatever happens in
    between.  From any state the client can reach, let [Subscribe] be called
    and wait for its answer.  While other goroutines connect, read other
    signals, run, answer and abandon other requests, send messages and
    heartbeats, the call keeps waiting (unless its context ends); once the
    gateway's answer to it was read, then after any further such activity, and
    as long as the client was not closed, the call returns no error and its
    entry is removed. *)
Theorem subscribe_completes opts ops0 ops1 ops2 id topic qos ce resp pick s1 s2 s4 :
  run_cops (ops0 ++ [OpSubscribe id topic qos ce]) (client_start opts) = Some s1 →
  is_Some (s1.2 !! id) →
  Forall (λ op, about op ≠ Some id) ops1 → run_cops ops1 s1 = Some s2 →
  cs_RequestId resp = id → cs_SignalType resp = PST_SUBSCRIBE_RESPONSE →
  Forall (λ op, about op ≠ Some id) ops2 →
  run_cops (OpRead (inr resp) :: ops2) s2 = Some s4 → cancelled s4.1 = false →
  ∃ ch c', s1.2 !! id = Some (KSubscribe, ch) ∧
    cl_Subscribe_return id ch false pick s2.1 = (Returns None, s2.1) ∧
    cl_Subscribe_return id ch false pick s4.1 = (Returns (Some None), c') ∧
    pendingResp c' !! id = None.
Proof.
  intros R1 Hs Hl1 R2 Hid Ht Hl2 R4 Hk4. rewrite run_cops_app in R1.
  apply bind_Some in R1 as (s0 & R0 & R1). apply bind_Some in R1 as (s1' & R1 & [= ->]).
  apply bind_Some in R4 as (s3 & R3 & R4).  change (run_cops ops2 s3 = Some s4) in R4.
  pose proof (run_cops_wf _ _ _ (client_start_wf opts) R0) as W0.
  destruct (do_cop_subscribe _ _ _ _ _ _ Hs R1) as (ch & Hi1 & Hc1).
  pose proof (effect_wf _ _ _ W0 (do_cop_effect _ _ _ R1)) as W1.
  destruct (run_cops_bystander _ _ _ _ _ _ W1 Hl1 Hi1 R2) as [Hi2 Hc2]. rewrite Hc1 in Hc2.
  pose proof (run_cops_wf _ _ _ W1 R2) as W2.
  assert (∀ s : sys, cancelled s4.1 = false → (cancelled s.1 = true → cancelled s4.1 = true) →
    cancelled s.1 = false) as Hmono.
  { intros s K Hm. destruct (cancelled s.1); [|done]. by rewrite Hm in K. }
  assert (cancelled s3.1 = false) as Hk3 by (apply Hmono; [done|by eapply run_cops_cancelled]).
  assert (cancelled s2.1 = false) as Hk2.
  { apply Hmono; [done|]. intros K. eapply run_cops_cancelled; [done|].
    by eapply effect_cancelled; [eapply do_cop_effect|]. }
  destruct (do_cop_answer _ _ _ _ _ _ W2 Hi2 Hid Ht Hc2 Hk2 R3) as [E3 Hc3].
  pose proof (effect_wf _ _ _ W2 (do_cop_effect _ _ _ R3)) as W3.
  rewrite <-E3 in Hi2. destruct (run_cops_bystander _ _ _ _ _ _ W3 Hl2 Hi2 R4) as [Hi4 Hc4].
  rewrite Hc3 in Hc4. eexists ch, _. split; [done|].
  unfold cl_Subscribe_return, finish, await, mbind, MC_bind, get. cbn [fst snd].
  rewrite Hk2, Hc2, Hk4, Hc4. simpl. split; [done|]. rewrite Ht. simpl. split; [reflexivity|].
  apply lookup_delete_eq.
Qed.

(** The TCP client cannot connect: [Connect] never returns, whatever the
    network answers, because it takes the mutex that [IsClosed] takes again.
    The WebSocket client, which has the same steps without the outer lock,
    returns: connected when the dialler succeeds, with the error otherwise. *)
Theorem tcp_connect_deadlocks (dial : error) (opts : list Option) (c : Client) :
  (TcpClient.Connect dial c).1 = Blocked ∧
  ∃ c', WsClient.Connect dial (NewBaseClient opts) =
    (Returns (match dial with Some e => Some ("dial websocket failed: " +:+ e) | None => None end), c') ∧
    IsConnected c' = bool_decide (dial = None).
Proof.
  split.
  - unfold TcpClient.Connect, cl_IsClosed, locked, Lock, mbind, MC_bind. by destruct (closeMu c) eqn:E; simpl; rewrite ?E.
  - destruct dial; (eexists; split; [reflexivity|]); simpl;
      unfold IsConnected; simpl; by destruct (hasConnectHandler _).
Qed.

(** A successful authentication without a heartbeat interval closes the client:
    starting the ticker panics, the reader recovers the panic, closes the
    client and ends, and the request that waits for the answer is not told. *)
Lemma auth_without_interval_closes (id msg : string) (code seq : Z) c :
  cancelled c = false → closed c = false → msgCh_closed c = false → heartbeatStop_closed c = false →
  closeMu c = false →
  ∃ c', readLoop_turn (inr (mkClientSignal id seq PST_AUTH_RESPONSE
                              (Some (PAuthResponse code msg true 0)))) c = (Returns false, c') ∧
    closed c' = true ∧ cancelled c' = true ∧ chans c' = chans c.
Proof.
  intros Hk Hcl Hm Hh Hmu. unfold readLoop_turn, handleSignal. rewrite Hk. cbn.
  unfold cl_Close, base_Close, locked, Lock, StopHeartbeat, close_msgCh, close_heartbeatStop,
    mbind, MC_bind, get, put. cbn. rewrite Hmu. cbn. rewrite Hcl. cbn. rewrite Hm. cbn. rewrite Hh. cbn.
  destruct (transport c); eexists; split; reflexivity || done.
Qed.
End claims.

(** A WebSocket client whose marshaller only keeps the request ID's length. *)
Definition demo_transport : SdkTransport :=
  WsClient.ws_transport (λ s, inr [Z.of_nat (String.length (cs_RequestId s))]).

Definition demo_login : list client_op :=
  [OpConnect None; OpAuth "a" (mkAuthRequest "tok" "u" "d" "web" 0) None;
   OpRead (inr (mkClientSignal "a" 0 PST_AUTH_RESPONSE (Some (PAuthResponse 0 "" true 20))));
   OpReturn "a" false false].
Definition demo_others : list client_op :=
  [OpSubscribe "r2" "sport" 0 None;
   OpRead (inr (mkClientSignal "r2" 0 PST_SUBSCRIBE_RESPONSE None));
   OpReturn "r2" false false; OpSendBusiness "b" 1 "m1" [1%Z] None].

Definition demo_s1 : sys := default (client_start [])
  (run_cops (H:=demo_transport) (demo_login ++ [OpSubscribe "r1" "news" 1 None]) (client_start [])).
Definition demo_s2 : sys := default (client_start []) (run_cops (H:=demo_transport) demo_others demo_s1).
Definition demo_answer : client_op := OpRead (inr (mkClientSignal "r1" 0 PST_SUBSCRIBE_RESPONSE None)).
Definition demo_s4 : sys := default (client_start [])
  (run_cops (H:=demo_transport) (demo_answer :: demo_others) demo_s2).

Lemma subscribe_completes_witness :
  ∃ ch c', demo_s1.2 !! "r1" = Some (KSubscribe, ch) ∧
    cl_Subscribe_return "r1" ch false true demo_s2.1 = (Returns None, demo_s2.1) ∧
    cl_Subscribe_return "r1" ch false true demo_s4.1 = (Returns (Some None), c') ∧
    pendingResp c' !! "r1" = None.
Proof.
  apply (subscribe_completes (H:=demo_transport) [] demo_login demo_others demo_others "r1" "news" 1 None
    (mkClientSignal "r1" 0 PST_SUBSCRIBE_RESPONSE None) true demo_s1 demo_s2 demo_s4).
  - vm_compute. reflexivity.
  - vm_compute. by eexists.
  - repeat constructor; discriminate.
  - vm_compute. reflexivity.
  - reflexivity.
  - reflexivity.
  - repeat constructor; discriminate.
  - vm_compute. reflexivity.
  - vm_compute. reflexivity.
Defined.
