(* ===== verification/SdkPush.v ===== *)
(** * The push client of the backend SDK ([sdk/grpc/client.go])

    A backend dials a gateway and pushes messages over gRPC.  Dialling, the
    generated stub and the generated enumeration are outside the repository. *)

From stdpp Require Import base list gmap strings numbers.
From S2P Require Import Prelude SdkTypes.

(** [gateway.DownStreamPushType] *)
Inductive DownStreamPushType : Set := Push_UNSPECIFIED | Push_SINGLE | Push_GROUP | Push_other (n : Z).
#[export] Instance DownStreamPushType_eq_dec : EqDecision DownStreamPushType.
Proof. solve_decision. Defined.
Definition PushTypeUnspecified : DownStreamPushType := Push_UNSPECIFIED.
Definition PushTypeSingle : DownStreamPushType := Push_SINGLE.
Definition PushTypeGroup : DownStreamPushType := Push_GROUP.

Definition toProtoPushType (t : DownStreamPushType) : DownStreamPushType :=
  if decide (t = PushTypeSingle) then Push_SINGLE
  else if decide (t = PushTypeGroup) then Push_GROUP
  else Push_UNSPECIFIED.

Record GrpcPushRequest := mkGrpcPush {
  gp_Receiver : string; gp_Payload : list Z; gp_PushType : DownStreamPushType; gp_BusinessType : Z;
}.
Record GrpcPushResponse := mkGrpcPushResp { gp_Success : bool; gp_Message : string }.
(** [gateway.PushMessageReq] of the stub. *)
Record StubRequest := mkStubReq {
  st_Receiver : string; st_Payload : list Z; st_PushType : DownStreamPushType; st_BusinessType : PBusinessType;
}.

Section client.
(** Dial options and connections; [PushMessage] of the stub, given the time
    left of its context in nanoseconds. *)
Context {DialOption Conn : Type} (defaultDialOptions : list DialOption).
Context (Dial : string → list DialOption → string + Conn).
Context (stub_PushMessage : Conn → Z → StubRequest → string + GrpcPushResponse).

Record GrpcOptions := mkGrpcOptions { go_Addr : string; go_Timeout : Z; go_DialOptions : list DialOption }.
Definition grpc_defaultOptions : GrpcOptions := mkGrpcOptions "" (5 * 10 ^ 9) defaultDialOptions.
Definition grpc_WithAddr (addr : string) (o : GrpcOptions) : GrpcOptions :=
  mkGrpcOptions addr (go_Timeout o) (go_DialOptions o).
Definition grpc_WithTimeout (timeout : Z) (o : GrpcOptions) : GrpcOptions :=
  mkGrpcOptions (go_Addr o) timeout (go_DialOptions o).
Definition grpc_WithDialOption (opt : DialOption) (o : GrpcOptions) : GrpcOptions :=
  mkGrpcOptions (go_Addr o) (go_Timeout o) (go_DialOptions o ++ [opt]).

(** [gc_conn_closed] counts the calls of [conn.Close()]. *)
Record GrpcClient := mkGrpcClient {
  gc_opts : GrpcOptions; gc_conn : option Conn; gc_closed : bool; gc_conn_closed : nat;
}.

Definition grpc_NewClient (opts : list (GrpcOptions → GrpcOptions)) : string + GrpcClient :=
  let o := foldl (λ o opt, opt o) grpc_defaultOptions opts in
  if decide (go_Addr o = "") then inl "addr is required"
  else match Dial (go_Addr o) (go_DialOptions o) with
       | inl e => inl ("dial grpc failed: " +:+ e)
       | inr conn => inr (mkGrpcClient o (Some conn) false 0)
       end.

(** [context.WithTimeout]: the shorter of both. *)
Definition with_timeout (left : option Z) (timeout : Z) : Z :=
  match left with Some l => Z.min l timeout | None => timeout end.

(** [left] is what remains of the caller's context. *)
Definition Push (left : option Z) (req : GrpcPushRequest) (c : GrpcClient) : string + GrpcPushResponse :=
  match gc_conn c with
  | None => inl "client not connected"
  | Some conn =>
      let protoReq := mkStubReq (gp_Receiver req) (gp_Payload req) (toProtoPushType (gp_PushType req))
                        (BusinessType_ToProto (gp_BusinessType req)) in
      let timeout := if (go_Timeout (gc_opts c) <=? 0)%Z then (5 * 10 ^ 9)%Z else go_Timeout (gc_opts c) in
      match stub_PushMessage conn (with_timeout left timeout) protoReq with
      | inl e => inl ("push message failed: " +:+ e)
      | inr resp => inr resp
      end
  end.

(** The goroutine of [PushAsync]: its context already has the configured
    timeout, and its result is dropped. *)
Definition PushAsync (req : GrpcPushRequest) (c : GrpcClient) : string + GrpcPushResponse :=
  Push (Some (with_timeout None (go_Timeout (gc_opts c)))) req c.

Definition grpc_client_Close (c : GrpcClient) : GrpcClient :=
  if gc_closed c then c
  else mkGrpcClient (gc_opts c) (gc_conn c) true
         (match gc_conn c with Some _ => S (gc_conn_closed c) | None => gc_conn_closed c end).

(** The connection is closed at most once, however often [Close] is called. *)
Lemma grpc_close_once opts c n : grpc_NewClient opts = inr c →
  gc_conn_closed (Nat.iter (S n) grpc_client_Close c) = 1.
Proof.
  unfold grpc_NewClient. case_decide; [done|]. destruct (Dial _ _) as [e|conn]; [done|]. intros [= <-].
  set (o := foldl _ _ _). rewrite Nat.iter_succ_r. cbn. clear.
  induction n as [|n IH]; [done|]. rewrite Nat.iter_succ_r. exact IH.
Qed.

(** A timeout of zero or less means five seconds to [Push] and none at all to
    [PushAsync]: a stub that keeps to its deadline refuses the latter. *)
Theorem push_async_ignores_default (req : GrpcPushRequest) (c : GrpcClient) (conn : Conn) :
  gc_conn c = Some conn → (go_Timeout (gc_opts c) ≤ 0)%Z →
  (∀ left r, (left ≤ 0)%Z → stub_PushMessage conn left r = inl "context deadline exceeded") →
  PushAsync req c = inl "push message failed: context deadline exceeded" ∧
  Push None req c = match stub_PushMessage conn (5 * 10 ^ 9) (mkStubReq (gp_Receiver req) (gp_Payload req)
                      (toProtoPushType (gp_PushType req)) (BusinessType_ToProto (gp_BusinessType req))) with
                    | inl e => inl ("push message failed: " +:+ e) | inr resp => inr resp end.
Proof.
  intros Ec Ht Hs. unfold PushAsync, Push. rewrite Ec, (proj2 (Z.leb_le _ _) Ht). cbn [with_timeout].
  split; [|done]. rewrite Hs by lia. done.
Qed.
End client.

Lemma push_async_ignores_default_witness :
  let c := mkGrpcClient (DialOption:=unit) (mkGrpcOptions "gw:1" 0 []) (Some tt) false 0 in
  let stub (_ : unit) (left : Z) (_ : StubRequest) :=
    if (left <=? 0)%Z then inl "context deadline exceeded" else inr (mkGrpcPushResp true "ok") in
  let req := mkGrpcPush "u1" [] Push_SINGLE 1 in
  PushAsync stub req c = inl "push message failed: context deadline exceeded" ∧
  Push stub None req c = inr (mkGrpcPushResp true "ok").
Proof.
  intros c stub req. apply (push_async_ignores_default stub req c tt eq_refl); [simpl; lia|].
  intros left r Hl. unfold stub. by rewrite (proj2 (Z.leb_le _ _) Hl).
Defined.
