(* ===== verification/WsUrl.v ===== *)
(** * The address of the WebSocket client ([getWsURL] of [sdk/ws/client.go])

    [getWsURL] rewrites the configured address with [net/url].  What it uses of
    that package is modelled first: [Parse], [Port] and [String] of Go 1.25, on
    strings of bytes; errors are only compared with nil. *)

From Stdlib Require Import Ascii String.
From stdpp Require Import base list strings numbers option.
From S2P Require Import Prelude.
Local Open Scope gw_scope.

(** ** Strings *)
Fixpoint all (p : ascii → bool) (s : string) : bool :=
  match s with EmptyString => true | String c s' => p c && all p s' end.
Definition is_char (c d : ascii) : bool := bool_decide (c = d).
Arguments is_char : simpl never.
Definition one_of (cs : string) (c : ascii) : bool := negb (all (λ d, negb (is_char c d)) cs).

(** [strings.Cut(s, c)] at the first and the two parts at the last [c]. *)
Fixpoint cut (c : ascii) (s : string) : string * option string :=
  match s with
  | EmptyString => (EmptyString, None)
  | String d s' => if is_char d c then (EmptyString, Some s') else let '(a, b) := cut c s' in (String d a, b)
  end.
Fixpoint rcut (c : ascii) (s : string) : option (string * string) :=
  match s with
  | EmptyString => None
  | String d s' =>
      match rcut c s' with
      | Some (a, b) => Some (String d a, b)
      | None => if is_char d c then Some (EmptyString, s') else None
      end
  end.
Definition contains (c : ascii) (s : string) : bool := negb (all (λ d, negb (is_char d c)) s).

Definition in_range (lo hi : nat) (c : ascii) : bool := (lo <=? nat_of_ascii c) && (nat_of_ascii c <=? hi).
Definition digit : ascii → bool := in_range 48 57.
Definition lower : ascii → bool := in_range 97 122.
Definition upper : ascii → bool := in_range 65 90.
Definition alpha (c : ascii) : bool := lower c || upper c.
Definition alnum (c : ascii) : bool := alpha c || digit c.
Definition to_lower (c : ascii) : ascii := if upper c then ascii_of_nat (nat_of_ascii c + 32) else c.
Fixpoint ToLower (s : string) : string :=
  match s with EmptyString => EmptyString | String c s' => String (to_lower c) (ToLower s') end.

(** ** [net/url] *)
Inductive encoding : Set := encodePath | encodeHost | encodeZone | encodeUserPassword | encodeFragment.
#[export] Instance encoding_eq_dec : EqDecision encoding.
Proof. solve_decision. Defined.

Definition shouldEscape (c : ascii) (mode : encoding) : bool :=
  if alnum c then false
  else if match mode with encodeHost | encodeZone => one_of "!$&'()*+,;=:[]<>" c || is_char c (ascii_of_nat 34) | _ => false end
  then false
  else if one_of "-_.~" c then false
  else if one_of "$&+,/:;=?@" c then
    match mode with
    | encodePath => is_char c "?"
    | encodeUserPassword => one_of "@/?:" c
    | encodeFragment => false
    | _ => true
    end
  else if bool_decide (mode = encodeFragment) && one_of "!()*" c then false
  else true.

Definition hex_digit (n : nat) : ascii := ascii_of_nat (if n <? 10 then 48 + n else 55 + n).
Definition unhex (c : ascii) : option nat :=
  let n := nat_of_ascii c in
  if digit c then Some (n - 48)
  else if in_range 97 102 c then Some (n - 87)
  else if in_range 65 70 c then Some (n - 55) else None.

Fixpoint escape (mode : encoding) (s : string) : string :=
  match s with
  | EmptyString => EmptyString
  | String c s' =>
      if shouldEscape c mode
      then String "%" (String (hex_digit (nat_of_ascii c `div` 16)) (String (hex_digit (nat_of_ascii c `mod` 16)) (escape mode s')))
      else String c (escape mode s')
  end.

Fixpoint unescape (mode : encoding) (s : string) : option string :=
  match s with
  | EmptyString => Some EmptyString
  | String c s' =>
      if is_char c "%" then
        match s' with
        | String a (String b s'') =>
            x ← unhex a; y ← unhex b;
            let percent := (x =? 2) && (y =? 5) in
            if bool_decide (mode = encodeHost) && (x <? 8) && negb percent then None
            else if bool_decide (mode = encodeZone) && negb percent && negb (x * 16 + y =? 32) &&
                    shouldEscape (ascii_of_nat (x * 16 + y)) encodeHost then None
            else String (ascii_of_nat (x * 16 + y)) <$> unescape mode s''
        | _ => None
        end
      else if (bool_decide (mode = encodeHost) || bool_decide (mode = encodeZone)) &&
              (nat_of_ascii c <? 128) && shouldEscape c mode then None
      else String c <$> unescape mode s'
  end.

Record URL := mkURL {
  Scheme : string; Opaque : string; User : option (string * option string); Host : string;
  Path : string; RawPath : string; OmitHost : bool; ForceQuery : bool; RawQuery : string;
  Fragment : string; RawFragment : string;
}.

(** The letters, digits and [+-.] before a colon; [None] without such a prefix. *)
Fixpoint scan_scheme (s : string) : option (string * string) :=
  match s with
  | EmptyString => None
  | String c s' =>
      if is_char c ":" then Some (EmptyString, s')
      else if alnum c || one_of "+-." c then '(a, b) ← scan_scheme s'; Some (String c a, b)
      else None
  end.
Definition getScheme (raw : string) : option (string * string) :=
  match raw with
  | String c _ =>
      if is_char c ":" then None
      else if alpha c then Some (default (EmptyString, raw) (scan_scheme raw)) else Some (EmptyString, raw)
  | EmptyString => Some (EmptyString, raw)
  end.

Definition validOptionalPort (port : string) : bool :=
  match port with EmptyString => true | String c ds => is_char c ":" && all digit ds end.
Definition validUserinfo : string → bool := all (λ c, alnum c || one_of "-._:~!$&'()*+,;=%@" c).

(** The text from the first ["%25"] on, and what stands before it. *)
Fixpoint cut_zone (s : string) : option (string * string) :=
  match s with
  | EmptyString => None
  | String c s' => if String.prefix "%25" s then Some (EmptyString, s)
                   else '(a, b) ← cut_zone s'; Some (String c a, b)
  end.

Definition parseHost (host : string) : option string :=
  match (if String.prefix "[" host then Some (rcut "]" host) else None) with
  | Some None => None
  | Some (Some (a, colonPort)) =>
      if validOptionalPort colonPort then
        match cut_zone a with
        | Some (h, zone) =>
            h1 ← unescape encodeHost h; h2 ← unescape encodeZone zone;
            h3 ← unescape encodeHost (String "]" colonPort); Some (h1 +:+ h2 +:+ h3)
        | None => unescape encodeHost host
        end
      else None
  | None =>
      match rcut ":" host with
      | Some (_, port) => if validOptionalPort (String ":" port) then unescape encodeHost host else None
      | None => unescape encodeHost host
      end
  end.

Definition parseAuthority (authority : string) : option (option (string * option string) * string) :=
  match rcut "@" authority with
  | None => host ← parseHost authority; Some (None, host)
  | Some (userinfo, h) =>
      host ← parseHost h;
      if validUserinfo userinfo then
        match cut ":" userinfo with
        | (_, None) => u ← unescape encodeUserPassword userinfo; Some (Some (u, None), host)
        | (name, Some pass) =>
            u ← unescape encodeUserPassword name; pw ← unescape encodeUserPassword pass;
            Some (Some (u, Some pw), host)
        end
      else None
  end.

(** [setPath], [setFragment]: the decoded text, and the text itself where the
    default encoding would not give it back. *)
Definition decoded (mode : encoding) (s : string) : option (string * string) :=
  t ← unescape mode s; Some (t, if bool_decide (escape mode t = s) then EmptyString else s).

Definition no_url : URL := mkURL "" "" None "" "" "" false false "" "" "".
Definition ctl_byte (c : ascii) : bool := (nat_of_ascii c <? 32) || (nat_of_ascii c =? 127).

Definition split_query (rest : string) : string * bool * string :=
  match cut "?" rest with
  | (a, Some EmptyString) => (a, true, EmptyString)
  | (a, Some q) => (a, false, q)
  | (a, None) => (a, false, EmptyString)
  end.

Definition url_parse (raw : string) : option URL :=
  if negb (all (λ c, negb (ctl_byte c)) raw) then None
  else if bool_decide (raw = "*") then Some (mkURL "" "" None "" "*" "" false false "" "" "")
  else
    '(s, rest0) ← getScheme raw;
    let scheme := ToLower s in
    let '(rest, force, query) := split_query rest0 in
    if negb (String.prefix "/" rest) && negb (bool_decide (scheme = ""))
    then Some (mkURL scheme rest None "" "" "" false force query "" "")
    else if negb (String.prefix "/" rest) && contains ":" (cut "/" rest).1 then None
    else if (negb (bool_decide (scheme = "")) || negb (String.prefix "///" rest)) && String.prefix "//" rest then
      let '(authority, path) := cut "/" (substring 2 (String.length rest) rest) in
      '(user, host) ← parseAuthority authority;
      '(p, rp) ← decoded encodePath (match path with Some q => String "/" q | None => "" end);
      Some (mkURL scheme "" user host p rp false force query "" "")
    else
      '(p, rp) ← decoded encodePath rest;
      Some (mkURL scheme "" None "" p rp (negb (bool_decide (scheme = "")) && String.prefix "/" rest) force query "" "").

Definition url_Parse (raw : string) : option URL :=
  let '(u, frag) := cut "#" raw in
  url ← url_parse u;
  match frag with
  | Some (String _ _ as f) =>
      '(t, rf) ← decoded encodeFragment f;
      Some (mkURL (Scheme url) (Opaque url) (User url) (Host url) (Path url) (RawPath url) (OmitHost url)
              (ForceQuery url) (RawQuery url) t rf)
  | _ => Some url
  end.

Definition Port (u : URL) : string :=
  match rcut ":" (Host u) with
  | Some (_, port) => if validOptionalPort (String ":" port) then port else ""
  | None => ""
  end.

Definition validEncoded (mode : encoding) : string → bool :=
  all (λ c, one_of "!$&'()*+,;=:@[]%" c || negb (shouldEscape c mode)).
(** [EscapedPath], [EscapedFragment] *)
Definition encoded (mode : encoding) (raw text : string) : string :=
  if negb (bool_decide (raw = "")) && validEncoded mode raw && bool_decide (unescape mode raw = Some text) then raw
  else if bool_decide (mode = encodePath) && bool_decide (text = "*") then "*" else escape mode text.

Definition Userinfo_String (u : string * option string) : string :=
  escape encodeUserPassword u.1 +:+
  match u.2 with Some pw => ":" +:+ escape encodeUserPassword pw | None => "" end.

Definition url_String (u : URL) : string :=
  let empty s := bool_decide (s = "") in
  let scheme := if empty (Scheme u) then "" else Scheme u +:+ ":" in
  let body :=
    if negb (empty (Opaque u)) then scheme +:+ Opaque u
    else
      let no_user := match User u with None => true | _ => false end in
      let auth :=
        if empty (Scheme u) && empty (Host u) && no_user then ""
        else if OmitHost u && empty (Host u) && no_user then ""
        else (if empty (Host u) && empty (Path u) && no_user then "" else "//") +:+
             match User u with Some ui => Userinfo_String ui +:+ "@" | None => "" end +:+
             escape encodeHost (Host u) in
      let path := encoded encodePath (RawPath u) (Path u) in
      let slash := if negb (empty path) && negb (String.prefix "/" path) && negb (empty (Host u)) then "/" else "" in
      let dot := if empty (scheme +:+ auth +:+ slash) && contains ":" (cut "/" path).1 then "./" else "" in
      scheme +:+ auth +:+ slash +:+ dot +:+ path in
  body +:+ (if ForceQuery u || negb (empty (RawQuery u)) then "?" +:+ RawQuery u else "") +:+
  (if negb (empty (Fragment u)) then "#" +:+ encoded encodeFragment (RawFragment u) (Fragment u) else "").

Definition set_Scheme (s : string) (u : URL) : URL :=
  mkURL s (Opaque u) (User u) (Host u) (Path u) (RawPath u) (OmitHost u) (ForceQuery u) (RawQuery u) (Fragment u) (RawFragment u).
Definition set_Host (h : string) (u : URL) : URL :=
  mkURL (Scheme u) (Opaque u) (User u) h (Path u) (RawPath u) (OmitHost u) (ForceQuery u) (RawQuery u) (Fragment u) (RawFragment u).

(** ** [getWsURL] *)
Definition getWsURL (addr : string) : string :=
  if bool_decide (addr = "") then ""
  else if (2 <? String.length addr) && String.prefix "ws" addr then addr
  else
    match url_Parse addr with
    | None => "ws://" +:+ addr
    | Some u =>
        let u1 := if bool_decide (Scheme u = "http") then set_Scheme "ws" u
                  else if bool_decide (Scheme u = "https") then set_Scheme "wss" u else u in
        let u2 := if bool_decide (Port u1 = "")
                  then set_Host (Host u1 +:+ if bool_decide (Scheme u1 = "ws") then ":80" else ":443") u1 else u1 in
        url_String u2
    end.

(** [Connect] dials this. *)
Definition connect_url (addr : string) : string := getWsURL (addr +:+ "/v1/ws/connect").

(** ** Lemmas on strings *)
Lemma is_char_eq c d : is_char c d = true ↔ c = d.
Proof. apply bool_decide_eq_true. Qed.
(** Appending computes on the constructors. *)
Lemma append_cons c a b : String c a +:+ b = String c (a +:+ b).
Proof. done. Qed.
Lemma append_nil a : EmptyString +:+ a = a.
Proof. done. Qed.
Lemma prefix_cons a b s t : String.prefix (String a s) (String b t) = is_char b a && String.prefix s t.
Proof.
  change (String.prefix (String a s) (String b t)) with (if ascii_dec a b then String.prefix s t else false).
  unfold is_char. destruct (ascii_dec a b) as [->|Hne]; [by rewrite bool_decide_true|].
  rewrite bool_decide_false; [done|congruence].
Qed.
Lemma prefix_nil s : String.prefix EmptyString s = true.
Proof. by destruct s. Qed.
Lemma all_app p a b : all p (a +:+ b) = all p a && all p b.
Proof. induction a as [|c a IH]; [done|]. rewrite append_cons. cbn [all]. by rewrite IH, andb_assoc. Qed.
Lemma all_mono (p q : ascii → bool) s : (∀ c, p c = true → q c = true) → all p s = true → all q s = true.
Proof. intros Hpq. induction s as [|c s IH]; cbn; [done|]. rewrite !andb_true_iff. intros [? ?]. auto. Qed.
Definition avoids (c : ascii) : string → bool := all (λ d, negb (is_char d c)).
Lemma cut_none c s : avoids c s = true → cut c s = (s, None).
Proof.
  unfold avoids. induction s as [|d s IH]; cbn; [done|]. rewrite andb_true_iff, negb_true_iff. intros [-> Hs]. by rewrite IH.
Qed.
Lemma cut_app c a b : avoids c a = true → cut c (a +:+ String c b) = (a, Some b).
Proof.
  unfold avoids. induction a as [|d a IH]; [rewrite append_nil; cbn [cut]; by rewrite (proj2 (is_char_eq c c) eq_refl)|].
  rewrite append_cons. cbn [all cut]. rewrite andb_true_iff, negb_true_iff. intros [-> Ha]. by rewrite IH.
Qed.
Lemma rcut_none c s : avoids c s = true → rcut c s = None.
Proof. unfold avoids. induction s as [|d s IH]; cbn; [done|]. rewrite andb_true_iff, negb_true_iff. intros [-> Hs]. by rewrite IH. Qed.
Lemma rcut_app c a b : avoids c b = true → rcut c (a +:+ String c b) = Some (a, b).
Proof.
  intros Hb. induction a as [|d a IH]; [rewrite append_nil; cbn [rcut]|rewrite append_cons; cbn [rcut]; by rewrite IH].
  by rewrite rcut_none, (proj2 (is_char_eq c c) eq_refl).
Qed.

(** What needs no encoding is its own encoding. *)
Definition plain (mode : encoding) : string → bool := all (λ c, negb (shouldEscape c mode)).
Lemma escape_plain mode s : plain mode s = true → escape mode s = s.
Proof. unfold plain. induction s as [|c s IH]; cbn; [done|]. rewrite andb_true_iff, negb_true_iff. intros [-> Hs]. by rewrite IH. Qed.
Lemma percent_escaped mode : shouldEscape "%" mode = true.
Proof. by destruct mode. Qed.
Lemma unescape_plain mode s : plain mode s = true → unescape mode s = Some s.
Proof.
  unfold plain. induction s as [|c s IH]; cbn; [done|]. rewrite andb_true_iff, negb_true_iff. intros [Hc Hs].
  destruct (is_char c "%") eqn:Ec; [apply is_char_eq in Ec as ->; by rewrite percent_escaped in Hc|].
  by rewrite Hc, andb_false_r, IH.
Qed.
Lemma decoded_plain mode s : plain mode s = true → decoded mode s = Some (s, "").
Proof. intros Hs. unfold decoded. rewrite unescape_plain by done. cbn. by rewrite escape_plain, bool_decide_true. Qed.
Lemma encoded_plain mode s : plain mode s = true → encoded mode "" s = s.
Proof.
  intros Hs. unfold encoded. rewrite (bool_decide_true (_ = _)) by done. cbn [negb andb].
  destruct (bool_decide _ && bool_decide (s = "*")) eqn:E; [|by apply escape_plain].
  by apply andb_true_iff in E as [_ ->%bool_decide_eq_true].
Qed.

(** There are 256 characters: a law of all of them is computed. *)
Definition every (p : ascii → bool) : bool := forallb (λ n, p (ascii_of_nat n)) (seq 0 256).
Lemma every_char (p : ascii → bool) : every p = true → ∀ c, p c = true.
Proof.
  unfold every. rewrite forallb_forall. intros Hp c. rewrite <-(ascii_nat_embedding c). apply Hp.
  apply in_seq. pose proof (nat_ascii_bounded c). lia.
Qed.
Lemma every_impl (p q : ascii → bool) : every (λ c, implb (p c) (q c)) = true → ∀ c, p c = true → q c = true.
Proof. intros He c Hc. pose proof (every_char _ He c) as Hi. cbn in Hi. by rewrite Hc in Hi. Qed.
Ltac by_chars := apply every_impl; vm_compute; reflexivity.

Definition host_char (c : ascii) : bool := alnum c || one_of "-." c.
Definition name_char (c : ascii) : bool := lower c || digit c || one_of "+-." c.
Definition path_char (c : ascii) : bool := negb (shouldEscape c encodePath).
Lemma host_char_plain c : host_char c = true → negb (shouldEscape c encodeHost) = true.
Proof. revert c. by_chars. Qed.
Lemma digit_host c : digit c = true → host_char c = true.
Proof. revert c. by_chars. Qed.
Lemma host_char_other c : host_char c = true → negb (one_of ":/?#@[%*" c || ctl_byte c) = true.
Proof. revert c. by_chars. Qed.
Lemma path_char_other c : path_char c = true → negb (one_of "?#%" c || ctl_byte c) = true.
Proof. revert c. by_chars. Qed.
Lemma name_char_other c : name_char c = true →
  negb (one_of ":/?#%*" c || ctl_byte c) && is_char (to_lower c) c && (alnum c || one_of "+-." c) = true.
Proof. revert c. by_chars. Qed.

(** ** [Parse] of the addresses that clients are configured with *)
Lemma all_avoids c (p : ascii → bool) s : (∀ d, p d = true → negb (is_char d c) = true) → all p s = true → avoids c s = true.
Proof. apply all_mono. Qed.
Lemma avoids_cons c d s : avoids c (String d s) = negb (is_char d c) && avoids c s.
Proof. done. Qed.
Lemma all_cons p c s : all p (String c s) = p c && all p s.
Proof. done. Qed.
Lemma avoids_app c a b : avoids c (a +:+ b) = avoids c a && avoids c b.
Proof. apply all_app. Qed.

Definition port_part (port : option string) : string := match port with Some ds => ":" +:+ ds | None => "" end.
Definition port_ok (port : option string) : Prop := match port with Some ds => ds ≠ "" ∧ all digit ds = true | None => True end.
Definition path_ok (path : string) : Prop := path = "" ∨ ∃ q, path = String "/" q ∧ all path_char q = true.

Section authority.
Context (host : string) (port : option string) (Hhost : all host_char host = true) (Hport : port_ok port).

Lemma host_avoids c : one_of ":/?#@[" c = true → avoids c host = true.
Proof.
  intros Hc. revert Hhost. apply all_avoids. intros d Hd%host_char_other. apply negb_true_iff.
  destruct (is_char d c) eqn:E; [|done]. apply is_char_eq in E as ->. revert Hd Hc. clear. revert c.
  assert (∀ c, one_of ":/?#@[" c = true → one_of ":/?#@[%*" c = true) as Hx by by_chars.
  intros c Hn Hc. by rewrite (Hx c Hc) in Hn.
Qed.
Lemma port_avoids c : one_of "/?#@[" c = true → avoids c (port_part port) = true.
Proof.
  destruct port as [ds|]; [|done]. intros Hc. unfold port_part. change (":" +:+ ds) with (String ":" ds).
  destruct Hport as [_ Hd]. apply (all_avoids c (λ d, digit d || is_char d ":")).
  - intros d Hdd. apply negb_true_iff. destruct (is_char d c) eqn:E; [|done]. apply is_char_eq in E as ->.
    revert c Hc Hdd. assert (∀ c, one_of "/?#@[" c = true → negb (digit c || is_char c ":") = true) as Hx by by_chars.
    intros c Hc Hdd. specialize (Hx c Hc). by rewrite Hdd in Hx.
  - cbn [all]. apply (all_mono digit); [|done]. by intros d ->.
Qed.
Lemma digits_avoid ds : all digit ds = true → avoids ":" ds = true.
Proof. apply all_avoids. by_chars. Qed.

Lemma authority_plain : plain encodeHost (host +:+ port_part port) = true.
Proof.
  unfold plain. rewrite all_app. apply andb_true_iff. split; [by apply (all_mono _ _ _ host_char_plain)|].
  destruct port as [ds|]; [|done]. unfold port_part. change (":" +:+ ds) with (String ":" ds). cbn [all].
  destruct Hport as [_ Hd]. apply andb_true_iff. split; [done|].
  apply (all_mono digit); [|done]. intros c Hc. by apply host_char_plain, digit_host.
Qed.
Lemma parse_authority : parseAuthority (host +:+ port_part port) = Some (None, host +:+ port_part port).
Proof.
  unfold parseAuthority. rewrite rcut_none by (rewrite avoids_app; by rewrite host_avoids, port_avoids).
  assert (parseHost (host +:+ port_part port) = Some (host +:+ port_part port)) as ->; [|done].
  unfold parseHost. assert (String.prefix "[" (host +:+ port_part port) = false) as ->.
  { pose proof (host_avoids "[" eq_refl) as Hh. pose proof (port_avoids "[" eq_refl) as Hp.
    destruct (host +:+ port_part port) as [|c s] eqn:E; [done|].
    assert (avoids "[" (String c s) = true) as Ha by (by rewrite <-E, avoids_app, Hh, Hp).
    rewrite prefix_cons. apply andb_true_iff in Ha as [->%negb_true_iff _]. done. }
  assert (unescape encodeHost (host +:+ port_part port) = Some (host +:+ port_part port)) as Hu
    by apply unescape_plain, authority_plain.
  destruct port as [ds|]; cbn [port_part] in *.
  - destruct Hport as [_ Hd]. change (host +:+ ":" +:+ ds) with (host +:+ String ":" ds) in *.
    rewrite rcut_app by by apply digits_avoid. by rewrite (Hd : validOptionalPort (String ":" ds) = true).
  - rewrite append_nil_r in *. by rewrite rcut_none by by apply host_avoids.
Qed.
Lemma authority_port user path : Port (mkURL "" "" user (host +:+ port_part port) path "" false false "" "" "") = default "" port.
Proof.
  unfold Port. cbn [Host]. destruct port as [ds|]; cbn [port_part].
  - destruct Hport as [_ Hd]. change (host +:+ ":" +:+ ds) with (host +:+ String ":" ds).
    rewrite rcut_app by by apply digits_avoid.
    by rewrite (Hd : validOptionalPort (String ":" ds) = true).
  - rewrite append_nil_r. by rewrite rcut_none by by apply host_avoids.
Qed.
End authority.

(** What stands before a colon and looks like a scheme is one. *)
Lemma scan_name name rest : all name_char name = true → scan_scheme (name +:+ String ":" rest) = Some (name, rest).
Proof.
  induction name as [|c name IH]; [done|]. rewrite append_cons, all_cons, andb_true_iff. intros [Hc Hn].
  pose proof (name_char_other c Hc) as Ho. rewrite !andb_true_iff in Ho. destruct Ho as [[Hne _] Ha].
  cbn [scan_scheme]. rewrite Ha, (IH Hn). destruct (is_char c ":") eqn:E; [|done].
  apply is_char_eq in E as ->. by vm_compute in Hne.
Qed.
Lemma lower_name name : all name_char name = true → ToLower name = name.
Proof.
  induction name as [|c name IH]; [done|]. rewrite all_cons, andb_true_iff. intros [Hc Hn]. cbn [ToLower].
  pose proof (name_char_other c Hc) as Ho. rewrite !andb_true_iff in Ho. destruct Ho as [[_ ->%is_char_eq] _].
  by rewrite (IH Hn).
Qed.
Lemma name_avoids c name : one_of "?#" c = true → all name_char name = true → avoids c name = true.
Proof.
  intros Hc. apply all_avoids. intros d Hd%name_char_other. rewrite !andb_true_iff in Hd. destruct Hd as [[Hd _] _].
  apply negb_true_iff. destruct (is_char d c) eqn:E; [|done]. apply is_char_eq in E as ->. revert c Hc Hd.
  assert (∀ c, one_of "?#" c = true → one_of ":/?#%*" c = true) as Hx by by_chars.
  intros c Hc Hd. by rewrite (Hx c Hc) in Hd.
Qed.
Lemma name_no_ctl name : all name_char name = true → all (λ c, negb (ctl_byte c)) name = true.
Proof.
  apply all_mono. intros c Hd%name_char_other. rewrite !andb_true_iff in Hd. destruct Hd as [[Hd _] _].
  rewrite negb_true_iff, orb_false_iff in Hd. by destruct Hd as [_ ->].
Qed.

(** A word that can be a scheme as it is. *)
Definition scheme_ok (name : string) : Prop := (∃ c n, name = String c n ∧ lower c = true) ∧ all name_char name = true.
Lemma getScheme_name name rest : scheme_ok name → getScheme (name +:+ String ":" rest) = Some (name, rest).
Proof.
  intros [(c & n & Ename & Hc) Hn]. unfold getScheme. pose proof (scan_name name rest Hn) as Hscan. rewrite Ename in Hscan |- *.
  rewrite append_cons in Hscan |- *. rewrite Hscan. unfold alpha. rewrite Hc.
  destruct (is_char c ":") eqn:E; [|done]. apply is_char_eq in E as ->. by vm_compute in Hc.
Qed.
Lemma scheme_not_star name rest : scheme_ok name → name +:+ String ":" rest ≠ "*".
Proof. intros [(c & n & -> & Hc) _]. rewrite append_cons. intros [= -> _]. by vm_compute in Hc. Qed.
Lemma scheme_not_empty name : scheme_ok name → name ≠ "".
Proof. by intros [(c & n & -> & _) _]. Qed.

Definition http_scheme (tls : bool) : string := if tls then "https" else "http".
Definition ws_scheme (tls : bool) : string := if tls then "wss" else "ws".
Definition ws_port (tls : bool) : string := if tls then "443" else "80".

Lemma http_scheme_ok tls : scheme_ok (http_scheme tls).
Proof. destruct tls; (split; [by eexists _, _|done]). Qed.
Lemma ws_scheme_ok tls : scheme_ok (ws_scheme tls).
Proof. destruct tls; (split; [by eexists _, _|done]). Qed.

Lemma path_plain path : path_ok path → plain encodePath path = true.
Proof. by intros [->|(q & -> & Hq)]. Qed.
Lemma path_avoids c path : one_of "?#" c = true → path_ok path → avoids c path = true.
Proof.
  intros Hc Hp. apply path_plain in Hp. revert Hp. apply all_avoids. intros d Hd. apply negb_true_iff.
  destruct (is_char d c) eqn:E; [|done]. apply is_char_eq in E as ->. revert c Hc Hd.
  assert (∀ c, one_of "?#" c = true → shouldEscape c encodePath = true) as Hx by by_chars.
  intros c Hc Hd. by rewrite (Hx c Hc) in Hd.
Qed.
Lemma substring_all n s : String.length s ≤ n → substring 0 n s = s.
Proof.
  revert n. induction s as [|c s IH]; intros [|n] Hl; cbn in *; [done..|lia|]. f_equal. apply IH. lia.
Qed.
Lemma no_ctl_plain mode s : plain mode s = true → all (λ c, negb (ctl_byte c)) s = true.
Proof.
  apply all_mono. intros c Hc. apply negb_true_iff in Hc. apply negb_true_iff.
  assert (∀ c, ctl_byte c = true → forallb (shouldEscape c) [encodePath; encodeHost; encodeZone; encodeUserPassword; encodeFragment] = true)
    as Hx by by_chars.
  destruct (ctl_byte c) eqn:E; [|done]. specialize (Hx c E). rewrite forallb_forall in Hx.
  rewrite <-Hc. symmetry. apply Hx. destruct mode; cbn; auto 10.
Qed.

Section http.
Context (scheme host : string) (port : option string) (path : string)
  (Hscheme : scheme_ok scheme) (Hhost : all host_char host = true) (Hport : port_ok port) (Hpath : path_ok path).
Abbreviation auth := (host +:+ port_part port).
Abbreviation after := (String "/" (String "/" (auth +:+ path))).

Lemma after_avoids c : one_of "?#" c = true → avoids c after = true.
Proof.
  intros Hc. assert (one_of "/?#@[" c = true ∧ one_of ":/?#@[" c = true ∧ is_char "/" c = false) as (H1 & H2 & H3).
  { split_and!; revert c Hc; [by_chars|by_chars|]. intros c Hc. apply not_true_iff_false. intros <-%is_char_eq. by vm_compute in Hc. }
  rewrite !avoids_cons, H3. by rewrite !avoids_app, host_avoids, port_avoids, path_avoids.
Qed.

Lemma parse_http : url_Parse (scheme +:+ ":" +:+ after) = 
  Some (mkURL scheme "" None auth path "" false false "" "" "").
Proof.
  set (raw := scheme +:+ ":" +:+ after).
  assert (avoids "#" raw = true) as Hh.
  { subst raw. rewrite avoids_app. change (":" +:+ after) with (String ":" after).
    by rewrite avoids_cons, name_avoids, after_avoids by (done || apply Hscheme). }
  assert (all (λ c, negb (ctl_byte c)) raw = true) as Hctl.
  { subst raw. rewrite all_app. change (":" +:+ after) with (String ":" after).
    rewrite !all_cons, all_app, (no_ctl_plain encodeHost auth), (no_ctl_plain encodePath path);
      [|by apply path_plain|by apply authority_plain].
    rewrite name_no_ctl by apply Hscheme. done. }
  pose proof (getScheme_name scheme after Hscheme) as Hs.
  pose proof (scheme_not_star scheme after Hscheme) as Hstar.
  assert (split_query after = (after, false, "")) as Hq.
  { unfold split_query. by rewrite cut_none by by apply after_avoids. }
  assert (substring 2 (String.length after) after = auth +:+ path) as Hsub by (apply substring_all; cbn; lia).
  assert (cut "/" (auth +:+ path) = (auth, match path with String _ q => Some q | _ => None end)) as Hcut.
  { assert (avoids "/" auth = true) as Ha by by rewrite avoids_app, host_avoids, port_avoids.
    destruct Hpath as [->|(q & -> & _)]; [by rewrite append_nil_r, cut_none|by rewrite cut_app]. }
  assert (match match path with String _ q => Some q | _ => None end with Some q => String "/" q | None => "" end = path) as Hp
    by by destruct Hpath as [->|(q & -> & _)].
  unfold url_Parse. rewrite cut_none by done. unfold url_parse. rewrite Hctl, bool_decide_false by done. cbn [negb].
  subst raw. change (":" +:+ after) with (String ":" after). rewrite Hs. cbn [mbind option_bind]. rewrite Hq, Hsub, Hcut.
  rewrite lower_name by apply Hscheme. rewrite (bool_decide_false (scheme = "")) by by apply scheme_not_empty.
  assert (String.prefix "/" after = true ∧ String.prefix "//" after = true) as [-> ->]
    by (split; [|cbn; destruct (auth +:+ path)]; reflexivity).
  cbn [negb andb orb]. rewrite Hp, parse_authority, decoded_plain by (done || by apply path_plain).
  done.
Qed.

Lemma string_ws user_port : port_ok (Some user_port) →
  url_String (mkURL scheme "" None (host +:+ ":" +:+ user_port) path "" false false "" "" "") =
  scheme +:+ "://" +:+ host +:+ ":" +:+ user_port +:+ path.
Proof.
  intros Hup. set (h := host +:+ ":" +:+ user_port).
  assert (bool_decide (h = "") = false) as Hne by (apply bool_decide_false; subst h; by destruct host).
  assert (bool_decide (scheme = "") = false) as Hs by by apply bool_decide_false, scheme_not_empty.
  assert (negb (bool_decide (path = "")) && negb (String.prefix "/" path) && true = false) as Hd
    by (destruct Hpath as [->|(q & -> & _)]; [done|by destruct q]).
  pose proof (path_plain path Hpath) as Hpp.
  unfold url_String. cbn [Scheme Opaque User Host Path RawPath OmitHost ForceQuery RawQuery Fragment RawFragment].
  rewrite Hs, Hne, encoded_plain, (escape_plain _ h) by (done || by apply (authority_plain host (Some user_port))).
  cbn [negb andb orb]. rewrite Hd, bool_decide_true, (bool_decide_false (_ = "")) by (done || by destruct scheme).
  cbn [negb andb]. rewrite append_nil, append_nil_r. subst h. by rewrite !append_assoc.
Qed.
End http.

(** ** Claims *)

(** A name with letters in front and a port behind, as in [localhost:8080]. *)
Definition name_ok (name : string) : Prop :=
  scheme_ok name ∧ name ≠ "http" ∧ name ≠ "https" ∧ String.prefix "ws" name = false.

Lemma getWsURL_http tls host port path : all host_char host = true → port_ok port → path_ok path →
  getWsURL (http_scheme tls +:+ "://" +:+ host +:+ port_part port +:+ path) =
  ws_scheme tls +:+ "://" +:+ host +:+ ":" +:+ default (ws_port tls) port +:+ path.
Proof.
  intros Hh Hp Hpa. set (addr := _ +:+ _).
  assert (bool_decide (addr = "") = false ∧ String.prefix "ws" addr = false) as [E1 E2] by by destruct tls.
  assert (url_Parse addr = Some (mkURL (http_scheme tls) "" None (host +:+ port_part port) path "" false false "" "" "")) as E3.
  { rewrite <-(parse_http (http_scheme tls) host port path) by (done || by apply http_scheme_ok). subst addr. by rewrite (append_assoc host). }
  unfold getWsURL. rewrite E1, E2, E3, andb_false_r. cbn [Scheme].
  set (u1 := if bool_decide (http_scheme tls = "http") then _ else _).
  assert (u1 = mkURL (ws_scheme tls) "" None (host +:+ port_part port) path "" false false "" "" "") as -> by by destruct tls.
  clear E1 E2 E3. cbn zeta.
  change (Port (mkURL (ws_scheme tls) "" None (host +:+ port_part port) path "" false false "" "" ""))
    with (Port (mkURL "" "" None (host +:+ port_part port) path "" false false "" "" "")).
  rewrite authority_port by done. destruct port as [ds|]; cbn [default port_part].
  - destruct Hp as [Hne Hd]. rewrite bool_decide_false by done. apply string_ws; [by apply ws_scheme_ok|done..].
  - rewrite bool_decide_true, append_nil_r by done.
    assert ((if bool_decide (ws_scheme tls = "ws") then ":80" else ":443") = ":" +:+ ws_port tls) as Ht by by destruct tls.
    cbn [set_Host Host Scheme Opaque User Path RawPath OmitHost ForceQuery RawQuery Fragment RawFragment].
    rewrite Ht. apply string_ws; [by apply ws_scheme_ok|done..|]. by destruct tls.
Qed.

(** The part behind the colon: not a path, without query, fragment and control
    characters. *)
Definition rest_ok (rest : string) : Prop :=
  rest ≠ "" ∧ String.prefix "/" rest = false ∧ all (λ c, negb (one_of "?#" c || ctl_byte c)) rest = true.

Lemma rest_avoids c rest : one_of "?#" c = true → rest_ok rest → avoids c rest = true.
Proof.
  intros Hc (_ & _ & Hr). revert Hr. apply all_avoids. intros d Hd. apply negb_true_iff.
  destruct (is_char d c) eqn:E; [|done]. apply is_char_eq in E as ->. by rewrite Hc in Hd.
Qed.

Lemma parse_name name rest : scheme_ok name → rest_ok rest →
  url_Parse (name +:+ ":" +:+ rest) = Some (mkURL name rest None "" "" "" false false "" "" "").
Proof.
  intros Hn Hr. change (":" +:+ rest) with (String ":" rest). set (raw := _ +:+ _).
  assert (avoids "#" raw = true) as Hh.
  { subst raw. by rewrite avoids_app, avoids_cons, name_avoids, rest_avoids by (done || apply Hn). }
  assert (all (λ c, negb (ctl_byte c)) raw = true) as Hctl.
  { subst raw. rewrite all_app, all_cons, name_no_ctl by apply Hn. destruct Hr as (_ & _ & Hr). revert Hr.
    apply all_mono. intros d. rewrite !negb_true_iff, orb_false_iff. by intros [_ ?]. }
  unfold url_Parse. rewrite cut_none by done. unfold url_parse. subst raw.
  rewrite Hctl, bool_decide_false by by apply scheme_not_star. cbn [negb].
  rewrite getScheme_name by done. cbn [mbind option_bind]. unfold split_query. rewrite cut_none by by apply rest_avoids.
  destruct Hr as (_ & Hp & _). rewrite Hp, lower_name by apply Hn.
  rewrite (bool_decide_false (name = "")) by by apply scheme_not_empty. done.
Qed.

Lemma getWsURL_name name rest : name_ok name → rest_ok rest → getWsURL (name +:+ ":" +:+ rest) = name +:+ ":" +:+ rest.
Proof.
  intros Hok Hr. pose proof (parse_name name rest (proj1 Hok) Hr) as Hparse.
  destruct Hok as (((c & n & Ename & Hc) & Hn) & Hh & Hhs & Hws). destruct Hr as (Hne & _).
  assert (String.prefix "ws" (name +:+ ":" +:+ rest) = false) as Hpre.
  { subst name. rewrite append_cons. revert Hws. rewrite !prefix_cons. destruct (is_char c "w"); [|done].
    destruct n as [|d n]; [done|]. rewrite append_cons, !prefix_cons. destruct (is_char d "s"); [|done].
    rewrite prefix_nil. done. }
  unfold getWsURL. rewrite (bool_decide_false (_ = "")) by (by rewrite Ename, append_cons).
  rewrite Hpre, andb_false_r, Hparse. cbn [Scheme]. rewrite (bool_decide_false (name = "http")), (bool_decide_false (name = "https")) by done.
  unfold Port. cbn [Host rcut]. rewrite bool_decide_true by done. unfold url_String.
  cbn [set_Host Host Scheme Opaque User Path RawPath OmitHost ForceQuery RawQuery Fragment RawFragment].
  rewrite (bool_decide_false (name = "")), (bool_decide_false (rest = "")) by (done || by rewrite Ename).
  cbn [negb]. rewrite !bool_decide_true by done. cbn [negb orb]. rewrite !append_nil_r. by rewrite append_assoc.
Qed.

(** An address that starts with a digit has no scheme. *)
Lemma getWsURL_digit c s : digit c = true → all (λ d, negb (one_of "?#" d)) s = true →
  contains ":" (cut "/" (String c s)).1 = true → getWsURL (String c s) = "ws://" +:+ String c s.
Proof.
  intros Hc Hs Hcol. assert (∀ d, one_of "?#" d = true → avoids d (String c s) = true) as Hav.
  { intros d Hd. rewrite avoids_cons. apply andb_true_iff. split; [|by revert Hs; apply all_avoids; intros e He;
      apply negb_true_iff; destruct (is_char e d) eqn:E; [apply is_char_eq in E as ->; by rewrite Hd in He|]].
    apply negb_true_iff. destruct (is_char c d) eqn:E; [|done]. apply is_char_eq in E as ->.
    assert (∀ e, one_of "?#" e = true → negb (digit e) = true) as Hx by by_chars.
    specialize (Hx d Hd). by rewrite Hc in Hx. }
  assert (is_char c ":" = false ∧ alpha c = false ∧ is_char c "/" = false ∧ is_char c "w" = false ∧ is_char c "*" = false) as (H1 & H2 & H3 & H4 & H5).
  { assert (∀ d, digit d = true → negb (is_char d ":" || alpha d || is_char d "/" || is_char d "w" || is_char d "*") = true) as Hx by by_chars.
    specialize (Hx c Hc). rewrite negb_true_iff, !orb_false_iff in Hx. tauto. }
  assert (url_Parse (String c s) = None) as Hp.
  { unfold url_Parse. rewrite cut_none by by apply Hav. unfold url_parse.
    destruct (all _ (String c s)); [|done]. cbn [negb].
    rewrite bool_decide_false by (intros [= -> _]; by vm_compute in H5).
    unfold getScheme. rewrite H1, H2. cbn [mbind option_bind ToLower]. unfold split_query. rewrite cut_none by by apply Hav.
    assert (String.prefix "/" (String c s) = false) as ->.
    { by rewrite prefix_cons, H3. }
    rewrite Hcol. done. }
  unfold getWsURL. rewrite Hp, bool_decide_false by done.
  assert (String.prefix "ws" (String c s) = false) as ->; [|by rewrite andb_false_r].
  by rewrite prefix_cons, H4.
Qed.

(** The address the WebSocket client dials.  A [ws] address is taken as it is; an
    [http(s)] address becomes the [ws(s)] address of the same host, port and
    path, with the default port of the scheme written out; an address of digits
    and dots with a port gets [ws://] in front; but a host name with a port, such
    as [localhost:8080], is taken for a scheme and comes back unchanged, and that
    URL has neither of the schemes that a WebSocket can be dialled with. *)
Theorem ws_address :
  (∀ addr, 2 < String.length addr → String.prefix "ws" addr = true → getWsURL addr = addr) ∧
  (∀ tls host port path, all host_char host = true → port_ok port → path_ok path →
     getWsURL (http_scheme tls +:+ "://" +:+ host +:+ port_part port +:+ path) =
     ws_scheme tls +:+ "://" +:+ host +:+ ":" +:+ default (ws_port tls) port +:+ path) ∧
  (∀ c s, digit c = true → all (λ d, negb (one_of "?#" d)) s = true → contains ":" (cut "/" (String c s)).1 = true →
     getWsURL (String c s) = "ws://" +:+ String c s) ∧
  (∀ name rest, name_ok name → rest_ok rest →
     getWsURL (name +:+ ":" +:+ rest) = name +:+ ":" +:+ rest ∧
     ∃ u, url_Parse (getWsURL (name +:+ ":" +:+ rest)) = Some u ∧ Scheme u = name ∧ Scheme u ≠ "ws" ∧ Scheme u ≠ "wss").
Proof.
  split_and!; [|exact getWsURL_http|exact getWsURL_digit|].
  - intros addr Hl Hw. unfold getWsURL. rewrite bool_decide_false by (by intros ->; cbn in Hl; lia).
    rewrite Hw, (proj2 (Nat.ltb_lt _ _) Hl). done.
  - intros name rest Hn Hr. rewrite (getWsURL_name name rest Hn Hr). split; [done|].
    exists (mkURL name rest None "" "" "" false false "" "" ""). split; [apply parse_name; [apply Hn|done]|].
    destruct Hn as (_ & _ & _ & Hws). split_and!; [done|..]; cbn; by intros ->.
Qed.

(** What [Connect] dials, for the addresses of the README and of its example. *)
Lemma connect_addresses :
  connect_url "ws://localhost:8080" = "ws://localhost:8080/v1/ws/connect" ∧
  connect_url "localhost:8080" = "localhost:8080/v1/ws/connect" ∧
  connect_url "127.0.0.1:8080" = "ws://127.0.0.1:8080/v1/ws/connect" ∧
  connect_url "https://gw.example.org" = "wss://gw.example.org:443/v1/ws/connect" ∧
  connect_url "gateway" = "//:443/gateway/v1/ws/connect".
Proof. split_and!; vm_compute; reflexivity. Qed.
