(* ===== verification/Routes.v ===== *)
(** * Who answers an HTTP request ([setupGinRouter], [AuthServer.Start], [registerRoutes])

    The route tables of the three HTTP servers, and the requests that the
    program itself sends to them: the WebSocket client's upgrade, the SDK's
    request for a token and the gateway's question whether a token is valid.
    The engine calls the handler of the route with the method and the path of the
    request; none of the routes has a parameter. *)

From Stdlib Require Import Ascii String.
From stdpp Require Import base list strings numbers option.
From S2P Require Import Prelude WsUrl.
Local Open Scope gw_scope.

Inductive handler : Set :=
  | HealthHandler | StatsHandler | KickHandler | wsUpgradeHandler
  | handleToken | handleValidate
  | handleHealth | handlePushMessage | handleBatchPush.

Record route := mkRoute { rt_method : string; rt_path : string; rt_handler : handler }.
Definition GET (path : string) (h : handler) : route := mkRoute "GET" path h.
Definition POST (path : string) (h : handler) : route := mkRoute "POST" path h.
(** [r.Group(prefix)] *)
Definition Group (prefix : string) (rs : list route) : list route :=
  (λ r, mkRoute (rt_method r) (prefix +:+ rt_path r) (rt_handler r)) <$> rs.

Definition setupGinRouter : list route :=
  Group "/v1/admin" [GET "/health" HealthHandler; GET "/stats" StatsHandler; POST "/kick" KickHandler] ++
  Group "/v1/ws" [GET "/connect" wsUpgradeHandler].
Definition auth_routes : list route :=
  Group "/v1/auth" [POST "/token" handleToken; POST "/validate" handleValidate].
Definition registerRoutes : list route :=
  GET "/health" handleHealth ::
  Group "/api/v1" [POST "/push" handlePushMessage; POST "/push/batch" handleBatchPush].

(** The handler of a request; an engine answers 404 without one. *)
Fixpoint serve (rs : list route) (method path : string) : option handler :=
  match rs with
  | [] => None
  | r :: rs' =>
      if bool_decide (rt_method r = method) && bool_decide (rt_path r = path) then Some (rt_handler r)
      else serve rs' method path
  end.

(** No route hides another, in any of the tables. *)
Lemma routes_distinct rs : rs ∈ [setupGinRouter; auth_routes; registerRoutes] →
  NoDup ((λ r, (rt_method r, rt_path r)) <$> rs).
Proof.
  rewrite !list.elem_of_cons. intros [->|[->|[->|[]%not_elem_of_nil]]]; apply (bool_decide_unpack _); vm_compute; exact I.
Qed.

(** ** The program's own requests *)
Definition token_url (addr : string) : string := "http://" +:+ addr +:+ "/v1/auth/token".
Definition validate_url (authAddr : string) : string := "http://" +:+ authAddr +:+ "/v1/auth/validate".

(** A request to a URL: the host that is called, and the handler there. *)
Definition ask (rs : list route) (method url : string) : option (string * handler) :=
  u ← url_Parse url; h ← serve rs method (Path u); Some (Host u, h).

Section requests.
Context (host : string) (port : option string) (Hhost : all host_char host = true) (Hport : port_ok port).
Abbreviation auth := (host +:+ port_part port).

Lemma request_http scheme path rs method h : scheme_ok scheme → path_ok path → serve rs method path = Some h →
  ask rs method (scheme +:+ "://" +:+ auth +:+ path) = Some (auth, h).
Proof.
  intros Hs Hp Hh. unfold ask. pose proof (parse_http scheme host port path Hs Hhost Hport Hp) as E.
  change (scheme +:+ "://" +:+ auth +:+ path) with (scheme +:+ ":" +:+ String "/" (String "/" (auth +:+ path))).
  rewrite E. cbn [mbind option_bind Path Host]. by rewrite Hh.
Qed.
End requests.

(** No route of the gateway has a path in front of the one the client appends. *)
Lemma no_route q : serve setupGinRouter "GET" (String "/" (q +:+ "/v1/ws/connect")) = None.
Proof.
  set (path := String "/" _).
  assert (rcut "/" path = Some (String "/" (q +:+ "/v1/ws"), "connect")) as Hlast.
  { rewrite <-(rcut_app "/" (String "/" (q +:+ "/v1/ws")) "connect") by done. f_equal. subst path.
    by rewrite append_cons, append_assoc. }
  assert (∀ l, Some l ≠ snd <$> rcut "/" path → ∀ p, snd <$> rcut "/" p = Some l → bool_decide (p = path) = false) as Hne.
  { intros l Hl p Hp. apply bool_decide_false. intros ->. congruence. }
  assert (bool_decide ("/v1/ws" +:+ "/connect" = path) = false) as Hc.
  { apply bool_decide_false. intros E. change ("/v1/ws" +:+ "/connect") with "/v1/ws/connect" in E. apply (f_equal (rcut "/")) in E. rewrite Hlast in E. injection E as E.
    pose proof (rcut_app "/" (q +:+ "/v1") "ws" eq_refl) as Hws. rewrite append_assoc in Hws.
    apply (f_equal (rcut "/")) in E. change ("/v1" +:+ String "/" "ws") with "/v1/ws" in Hws. rewrite Hws in E.
    injection E as E. apply (f_equal (rcut "/")) in E. by rewrite (rcut_app "/" q "v1" eq_refl) in E. }
  unfold setupGinRouter, Group, GET, POST. cbn [fmap list_fmap app serve rt_method rt_path rt_handler].
  rewrite (Hne "health"), (Hne "stats") by (rewrite ?Hlast; done). 
  by rewrite Hc, !andb_false_r.
Qed.

Lemma path_ok_compute q : all path_char q = true → path_ok (String "/" q).
Proof. intros Hq. right. by exists q. Qed.

(** C34.  The clients find their handlers.  Whatever host and port are configured: a
    WebSocket client whose address says [ws], [wss], [http] or [https] asks that
    host, at the port given or at the scheme's, for the upgrade, and the gateway
    routes the request to the upgrade; the SDK's request for a token and the
    gateway's question about one reach the two handlers of the auth service.  A
    WebSocket client whose address has a path of its own finds nothing. *)
Theorem clients_find_handlers host port : all host_char host = true → port_ok port →
  let addr := host +:+ port_part port in
  (∀ tls, ask setupGinRouter "GET" (connect_url (ws_scheme tls +:+ "://" +:+ addr)) = Some (addr, wsUpgradeHandler)) ∧
  (∀ tls, ask setupGinRouter "GET" (connect_url (http_scheme tls +:+ "://" +:+ addr)) =
     Some (host +:+ ":" +:+ default (ws_port tls) port, wsUpgradeHandler)) ∧
  ask auth_routes "POST" (token_url addr) = Some (addr, handleToken) ∧
  ask auth_routes "POST" (validate_url addr) = Some (addr, handleValidate) ∧
  (∀ tls q, all path_char q = true →
     ask setupGinRouter "GET" (connect_url (ws_scheme tls +:+ "://" +:+ addr +:+ String "/" q)) = None).
Proof.
  intros Hh Hp addr.
  assert (∀ p, all path_char p = true → path_ok (String "/" p)) as Hpath by exact path_ok_compute.
  assert (∀ tls s, getWsURL (ws_scheme tls +:+ "://" +:+ s) = ws_scheme tls +:+ "://" +:+ s) as Hws.
  { intros tls s. assert (∀ a b, 2 < String.length (String "w" (String "s" (String a b)))) as Hl by (intros; cbn; lia).
    apply (proj1 ws_address); destruct tls; try exact (Hl _ _); done. }
  split_and!.
  - intros tls. unfold connect_url. rewrite !append_assoc, Hws.
    apply (request_http host port Hh Hp); [by apply ws_scheme_ok|by apply Hpath|done].
  - intros tls. unfold connect_url. subst addr. rewrite !append_assoc.
    rewrite getWsURL_http by (done || by apply Hpath). 
    change (":" +:+ default (ws_port tls) port) with (port_part (Some (default (ws_port tls) port))).
    change (":" +:+ default (ws_port tls) port +:+ "/v1/ws/connect") with ((":" +:+ default (ws_port tls) port) +:+ "/v1/ws/connect").
    rewrite <-(append_assoc host). apply (request_http host (Some (default (ws_port tls) port)) Hh);
      [|by apply ws_scheme_ok|by apply Hpath|done].
    destruct port; [done|]. by destruct tls.
  - unfold token_url. apply (request_http host port Hh Hp "http"); [apply (http_scheme_ok false)|by apply Hpath|done].
  - unfold validate_url. apply (request_http host port Hh Hp "http"); [apply (http_scheme_ok false)|by apply Hpath|done].
  - intros tls q Hqp. unfold connect_url. rewrite !append_assoc, Hws.
    change (String "/" q +:+ "/v1/ws/connect") with (String "/" (q +:+ "/v1/ws/connect")).
    assert (path_ok (String "/" (q +:+ "/v1/ws/connect"))) as Hok by (apply Hpath; by rewrite all_app, Hqp).
    unfold ask. pose proof (parse_http (ws_scheme tls) host port _ (ws_scheme_ok tls) Hh Hp Hok) as E.
    rewrite <-(append_assoc _ addr). subst addr. rewrite !append_assoc. rewrite (append_assoc host) in E.
    change (":" +:+ String "/" (String "/" ?x)) with ("://" +:+ x) in E. rewrite E. cbn [mbind option_bind Path]. by rewrite no_route.
Qed.

(** The addresses of a deployment behind TLS, and of the default configuration. *)
Lemma clients_find_handlers_witness :
  ask setupGinRouter "GET" (connect_url "https://gw.example.org") = Some ("gw.example.org:443", wsUpgradeHandler) ∧
  ask setupGinRouter "GET" (connect_url "ws://gw.example.org/base") = None ∧
  ask auth_routes "POST" (validate_url "localhost:8081") = Some ("localhost:8081", handleValidate).
Proof.
  assert (port_ok (Some "8081")) as Hp by by split.
  destruct (clients_find_handlers "gw.example.org" None eq_refl I) as (_ & Hh & _ & _ & Hn).
  destruct (clients_find_handlers "localhost" (Some "8081") eq_refl Hp) as (_ & _ & _ & Hv & _).
  split; [exact (Hh true)|]. split; [exact (Hn false "base" eq_refl)|exact Hv].
Defined.
