(* ===== verification/Observability.v ===== *)
(** * Logs and metrics ([gateway/internal/logger], [gateway/internal/metrics])

    The handler of the gateway's log is a tree: [CustomHandler] adds the trace
    of the context and the stack of an error, [MultiHandler] hands the record to
    a file and to the console.  The two leaves, the JSON and the text handler
    of [log/slog], are a parameter.  Of the metrics, here are the counters, which
    of them are exposed, and the life of the [Collector]. *)

From stdpp Require Import base list list_numbers gmap strings numbers.
From S2P Require Import Prelude.

(** ** [logger.go], [multiHandler.go] *)
Record LogRecord := mkLog { lr_Level : Z; lr_Message : string; lr_Attrs : list (string * string) }.
Definition AddAttrs (attrs : list (string * string)) (r : LogRecord) : LogRecord :=
  mkLog (lr_Level r) (lr_Message r) (lr_Attrs r ++ attrs).
(** [slog.LevelError] *)
Definition LevelError : Z := 8.

Class LogSink (L W : Type) : Type := {
  sink_Enabled : L → Z → bool;
  sink_Handle : L → LogRecord → W → error * W;
  sink_WithAttrs : list (string * string) → L → L;
  sink_WithGroup : string → L → L;
}.

(** What a handler reads of its call: the trace of the context and the stack. *)
Record LogCtx := mkLogCtx { lc_TraceID : option string; lc_stack : string }.

Inductive Handler (L : Type) : Type :=
  | SinkHandler (l : L)
  | MultiHandler (handlers : list (Handler L))
  | CustomHandler (h : Handler L).
Arguments SinkHandler {L}. Arguments MultiHandler {L}. Arguments CustomHandler {L}.

Section logger.
Context {L W : Type} `{LogSink L W}.

Fixpoint Enabled (lvl : Z) (h : Handler L) : bool :=
  match h with
  | SinkHandler l => sink_Enabled l lvl
  | MultiHandler hs =>
      (fix any (hs : list (Handler L)) : bool :=
         match hs with [] => false | h :: hs' => if Enabled lvl h then true else any hs' end) hs
  | CustomHandler h => Enabled lvl h
  end.

(** What [CustomHandler] adds. *)
Definition enrich (c : LogCtx) (r : LogRecord) : LogRecord :=
  let r1 := match lc_TraceID c with Some t => AddAttrs [("trace_id", t)] r | None => r end in
  if (lr_Level r1 =? LevelError)%Z then AddAttrs [("stack", lc_stack c)] r1 else r1.

Fixpoint Handle (c : LogCtx) (h : Handler L) (r : LogRecord) (w : W) : error * W :=
  match h with
  | SinkHandler l => sink_Handle l r w
  | MultiHandler hs =>
      (fix all (hs : list (Handler L)) (w : W) : error * W :=
         match hs with
         | [] => (None, w)
         | h :: hs' =>
             match Handle c h r w with (Some err, w') => (Some err, w') | (None, w') => all hs' w' end
         end) hs w
  | CustomHandler h => Handle c h (enrich c r) w
  end.

Fixpoint WithAttrs (attrs : list (string * string)) (h : Handler L) : Handler L :=
  match h with
  | SinkHandler l => SinkHandler (sink_WithAttrs attrs l)
  | MultiHandler hs => MultiHandler (WithAttrs attrs <$> hs)
  | CustomHandler h => CustomHandler (WithAttrs attrs h)
  end.
Fixpoint WithGroup (name : string) (h : Handler L) : Handler L :=
  match h with
  | SinkHandler l => SinkHandler (sink_WithGroup name l)
  | MultiHandler hs => MultiHandler (WithGroup name <$> hs)
  | CustomHandler h => CustomHandler (WithGroup name h)
  end.

(** The logger that [Init] makes of the file and the console. *)
Definition Init (fileHandler consoleHandler : L) (service env version : string) : Handler L :=
  WithAttrs [("service", service); ("env", env); ("version", version)]
    (CustomHandler (MultiHandler [SinkHandler fileHandler; SinkHandler consoleHandler])).

(** [slog.Logger] asks [Enabled] first. *)
Definition log (c : LogCtx) (h : Handler L) (r : LogRecord) (w : W) : error * W :=
  if Enabled (lr_Level r) h then Handle c h r w else (None, w).

(** ** What it does *)

(** The leaves of a handler, left to right. *)
Fixpoint sinks (h : Handler L) : list L :=
  match h with
  | SinkHandler l => [l]
  | MultiHandler hs =>
      (fix all (hs : list (Handler L)) : list L := match hs with [] => [] | h :: hs' => sinks h ++ all hs' end) hs
  | CustomHandler h => sinks h
  end.

Lemma handler_ind_nested (P : Handler L → Prop) :
  (∀ l, P (SinkHandler l)) → (∀ hs, Forall P hs → P (MultiHandler hs)) → (∀ h, P h → P (CustomHandler h)) →
  ∀ h, P h.
Proof.
  intros Hs Hm Hc. fix IH 1. intros [l|hs|h]; [apply Hs| |by apply Hc].
  apply Hm. induction hs as [|h hs IHs]; constructor; [apply IH|apply IHs].
Qed.

(** A handler is enabled when one of its leaves is. *)
Lemma Enabled_sinks lvl h : Enabled lvl h = existsb (λ l, sink_Enabled l lvl) (sinks h).
Proof.
  induction h as [l|hs IH|h IH] using handler_ind_nested; cbn; [by rewrite orb_false_r| |done].
  induction IH as [|h hs Eh _ IHs]; cbn; [done|]. rewrite existsb_app, <-Eh, <-IHs. by destruct (Enabled lvl h).
Qed.

Lemma sinks_WithAttrs attrs h : sinks (WithAttrs attrs h) = sink_WithAttrs attrs <$> sinks h.
Proof.
  induction h as [l|hs IH|h IH] using handler_ind_nested; cbn; [done| |done].
  induction IH as [|h hs Eh _ IHs]; cbn; [done|]. by rewrite fmap_app, Eh, IHs.
Qed.
Lemma sinks_WithGroup name h : sinks (WithGroup name h) = sink_WithGroup name <$> sinks h.
Proof.
  induction h as [l|hs IH|h IH] using handler_ind_nested; cbn; [done| |done].
  induction IH as [|h hs Eh _ IHs]; cbn; [done|]. by rewrite fmap_app, Eh, IHs.
Qed.
End logger.

(** Hand a record to one leaf after the other, up to the first error. *)
Fixpoint write_all {L W : Type} `{LogSink L W} (ls : list L) (r : LogRecord) (w : W) : error * W :=
  match ls with
  | [] => (None, w)
  | l :: ls' =>
      match sink_Handle l r w with (Some err, w') => (Some err, w') | (None, w') => write_all ls' r w' end
  end.

(** The gateway's log.  A record goes to the file and then to the console as
    soon as one of them is enabled for its level, also to the one that is not;
    both see the same record, with the trace of the context and, exactly at
    level ERROR, the stack; and the console gets nothing when the file fails. *)
Theorem gateway_log {L W : Type} `{LogSink L W} (file console : L) (service env version : string)
    (c : LogCtx) (r : LogRecord) (w : W) :
  let base := [("service", service); ("env", env); ("version", version)] in
  let ls := [sink_WithAttrs base file; sink_WithAttrs base console] in
  log c (Init file console service env version) r w =
  if existsb (λ l, sink_Enabled l (lr_Level r)) ls then write_all ls (enrich c r) w else (None, w).
Proof.
  cbn zeta. unfold log. rewrite Enabled_sinks. unfold Init. rewrite sinks_WithAttrs. cbn [sinks app fmap list_fmap].
  by destruct (existsb _ _).
Qed.

(** ** [middleware.go]: the request's context and the headers of its answer *)
Definition GenerateTraceID (uuid : string) : string := uuid.
Definition TraceMiddleware {A : Type} (uuid : string) (next : LogCtx → gmap string string → A)
    (c : LogCtx) (headers : gmap string string) : A :=
  next (mkLogCtx (Some uuid) (lc_stack c)) (<["X-Trace-ID" := uuid]> headers).

(** What a handler logs with the request's context names the trace that the
    answer names, whatever context and headers the request came with. *)
Lemma trace_in_log_and_answer {L W : Type} `{LogSink L W} uuid (l : L) (r : LogRecord) (w : W) c headers :
  TraceMiddleware uuid (λ c' hs, (log c' (CustomHandler (SinkHandler l)) r w, hs !! "X-Trace-ID")) c headers =
  (if sink_Enabled l (lr_Level r)
   then sink_Handle l (if (lr_Level r =? LevelError)%Z then AddAttrs [("stack", lc_stack c)] (AddAttrs [("trace_id", uuid)] r)
                       else AddAttrs [("trace_id", uuid)] r) w
   else (None, w), Some uuid).
Proof. unfold TraceMiddleware. rewrite lookup_insert_eq. done. Qed.

(** ** [metrics.go] *)
Inductive metric : Set := connNum | upstreamMsgTotal | downstreamMsgTotal | SessionCreated.
#[export] Instance metric_eq_dec : EqDecision metric.
Proof. solve_decision. Defined.

(** [prometheus.MustRegister] in [init] *)
Definition registered : list metric := [connNum; upstreamMsgTotal; downstreamMsgTotal].
Definition Metrics : Type := metric → Z.
Definition add_metric (m : metric) (d : Z) (v : Metrics) : Metrics :=
  λ m', if decide (m' = m) then (v m' + d)%Z else v m'.
Definition IncConnNum : Metrics → Metrics := add_metric connNum 1.
Definition DecConnNum : Metrics → Metrics := add_metric connNum (-1).
Definition IncUpstreamMsg : Metrics → Metrics := add_metric upstreamMsgTotal 1.
Definition IncDownstreamMsg : Metrics → Metrics := add_metric downstreamMsgTotal 1.
Definition IncSessionCreated : Metrics → Metrics := add_metric SessionCreated 1.
(** What the page [/metrics] shows of them. *)
Definition exposed (v : Metrics) : list (metric * Z) := (λ m, (m, v m)) <$> registered.

(** New sessions are counted, but nobody can see the count. *)
Lemma sessions_not_exposed v : exposed (IncSessionCreated v) = exposed v ∧ IncSessionCreated v SessionCreated = (v SessionCreated + 1)%Z.
Proof. done. Qed.

(** The [Collector]: its channel, its server, its goroutines.  [wg.Add(1)] and
    [wg.Go] both count a goroutine, and its deferred [Done] and the end of [Go]
    both uncount it. *)
Record Collector := mkCollector {
  co_stopped : bool;           (* stopCh is closed *)
  co_server : option bool;     (* the server; closed? *)
  co_serving : bool; co_looping : bool;  (* the two goroutines run *)
  co_wg : nat;
}.
Definition NewCollector : Collector := mkCollector false None false false 0.
Definition Collector_Start (c : Collector) : Collector :=
  mkCollector (co_stopped c) (Some false) true true (co_wg c + 4).
(** [ListenAndServe] returns when the server is closed (or cannot listen). *)
Definition serve_returns (fails : bool) (c : Collector) : option Collector :=
  if co_serving c && (fails || bool_decide (co_server c = Some true))
  then Some (mkCollector (co_stopped c) (co_server c) false (co_looping c) (co_wg c - 2)) else None.
(** A turn of [collectLoop]; a tick collects nothing. *)
Definition collectLoop_turn (ctx_done : bool) (c : Collector) : option Collector :=
  if co_looping c then
    Some (if ctx_done || co_stopped c
          then mkCollector (co_stopped c) (co_server c) (co_serving c) false (co_wg c - 2) else c)
  else None.
(** [Stop]: [None] while it waits. *)
Definition Collector_Stop (c : Collector) : option (outcome error * Collector) :=
  if co_stopped c then Some (Panic "close of closed channel", c)
  else match co_server c with
       | Some _ => Some (Ret None, mkCollector true (Some true) (co_serving c) (co_looping c) (co_wg c))
       | None => if decide (co_wg c = 0) then Some (Ret None, mkCollector true None (co_serving c) (co_looping c) (co_wg c))
                 else None
       end.

(** [Stop] of a started collector returns while its goroutines still run: the
    [Wait] behind the return is never reached.  They end afterwards, and a
    second [Stop] panics. *)
Lemma collector_stop_does_not_wait :
  ∃ c, Collector_Stop (Collector_Start NewCollector) = Some (Ret None, c) ∧ co_wg c = 4 ∧
    co_serving c = true ∧ co_looping c = true ∧
    (∃ c1 c2, serve_returns false c = Some c1 ∧ collectLoop_turn false c1 = Some c2 ∧ co_wg c2 = 0 ∧
       co_serving c2 = false ∧ co_looping c2 = false) ∧
    Collector_Stop c = Some (Panic "close of closed channel", c).
Proof. eexists. split_and!; [done..| |done]. by eexists _, _. Qed.
