(* ===== verification/ServiceLog.v ===== *)
(** * The logs and the entry points of the services ([auth], [business])

    Both services have the same package [internal/logger] around zap: a level, an
    encoder, one or two outputs, made by [Init] or on first use.  zap itself is
    only asked to write a line of a level to the outputs of a core.  The entry
    points load the configuration, make the log and run the server. *)

From stdpp Require Import base list gmap strings numbers.
From S2P Require Import Prelude.
Local Open Scope gw_scope.

(** ** zap *)
Definition DebugLevel : Z := -1.
Definition InfoLevel : Z := 0.
Definition WarnLevel : Z := 1.
Definition ErrorLevel : Z := 2.
Definition FatalLevel : Z := 5.
Inductive encoder : Set := ConsoleEncoder | JSONEncoder.
Inductive output : Set := Stdout | LogFile (name : string).
#[export] Instance output_eq_dec : EqDecision output.
Proof. solve_decision. Defined.

(** [*zap.Logger]: the core and the fields added by [With]. *)
Record Logger := mkLogger {
  lg_level : Z; lg_encoder : encoder; lg_outputs : list output; lg_fields : list (string * string);
}.
Record Line := mkLine { ln_level : Z; ln_encoder : encoder; ln_msg : string; ln_fields : list (string * string) }.

(** The package's variable, what was written, and whether the process exited. *)
Record LogState := mkLogState {
  globalLogger : option Logger; written : list (output * Line); exited : option Z;
}.
Abbreviation ML := (M LogState).

Section logger.
(** [os.OpenFile] of a log file: whether it succeeds. *)
Context (OpenFile : string → bool).

Definition parse_level (level : string) : Z :=
  if decide (level = "debug") then DebugLevel
  else if decide (level = "info") then InfoLevel
  else if decide (level = "warn") then WarnLevel
  else if decide (level = "error") then ErrorLevel
  else InfoLevel.

Definition log_outputs (file : string) : list output :=
  if decide (file ≠ "") then (if OpenFile file then [Stdout; LogFile file] else [Stdout]) else [Stdout].

Definition new_logger (level format file : string) : Logger :=
  mkLogger (parse_level level) (if decide (format = "console") then ConsoleEncoder else JSONEncoder)
    (log_outputs file) [].

Definition log_Init (level format file : string) : ML unit :=
  modify (λ s, mkLogState (Some (new_logger level format file)) (written s) (exited s)).

Definition log_Get : ML Logger :=
  o ← gets globalLogger;
  match o with
  | Some l => mret l
  | None => log_Init "info" "json" "" ≫= λ _, mret (new_logger "info" "json" "")
  end.

(** [Logger.Check] and [Write] of zap. *)
Definition zap_write (l : Logger) (level : Z) (msg : string) (fields : list (string * string)) : ML unit :=
  when (lg_level l <=? level)%Z
    (modify (λ s, mkLogState (globalLogger s)
       (written s ++ ((λ o, (o, mkLine level (lg_encoder l) msg (lg_fields l ++ fields))) <$> lg_outputs l)) (exited s))).
Definition os_Exit (code : Z) : ML unit :=
  modify (λ s, mkLogState (globalLogger s) (written s) (Some code)).

Definition log_at (level : Z) (msg : string) (fields : list (string * string)) : ML unit :=
  l ← log_Get; zap_write l level msg fields.
Definition log_Debug := log_at DebugLevel.
Definition log_Info := log_at InfoLevel.
Definition log_Warn := log_at WarnLevel.
Definition log_Error := log_at ErrorLevel.
(** zap exits after a line of this level, enabled or not. *)
Definition log_Fatal (msg : string) (fields : list (string * string)) : ML unit :=
  log_at FatalLevel msg fields ≫= λ _, os_Exit 1.
(** [With] of the backend's logger. *)
Definition log_With (fields : list (string * string)) : ML Logger :=
  l ← log_Get; mret (mkLogger (lg_level l) (lg_encoder l) (lg_outputs l) (lg_fields l ++ fields)).

(** ** The entry points *)
Record ServiceConfig := mkServiceConfig {
  sc_Addr : string; sc_LogLevel : string; sc_LogFormat : string; sc_LogFile : string;
}.

(** [main] of the auth service, over what [config.Load] gave and how
    [AuthServer.Start] returned. *)
Definition auth_main (load : string + ServiceConfig) (start : string → error) : ML unit :=
  match load with
  | inl err => log_Error "failed to load config" [("error", err)]
  | inr cfg =>
      log_Init (sc_LogLevel cfg) (sc_LogFormat cfg) (sc_LogFile cfg) ≫= λ _,
      log_Info "auth server starting" [("addr", sc_Addr cfg)] ≫= λ _,
      match start (sc_Addr cfg) with
      | Some err => log_Error "auth server error" [("error", err)]
      | None => mret tt
      end
  end.
(** [main] of the backend; [Run] is that of [BusinessLife.v]. *)
Definition business_main (load : string + ServiceConfig) (server_Run : ML unit) : ML unit :=
  match load with
  | inl err => log_Error "failed to load config" [("error", err)] ≫= λ _, os_Exit 1
  | inr cfg => log_Init (sc_LogLevel cfg) (sc_LogFormat cfg) (sc_LogFile cfg) ≫= λ _, server_Run
  end.

(** ** What they do *)
Implicit Types s : LogState.

(** The logger in effect: the one that was made, or the default. *)
Definition effective s : Logger := default (new_logger "info" "json" "") (globalLogger s).

Lemma log_Get_run s :
  log_Get s = (Ret (effective s), mkLogState (Some (effective s)) (written s) (exited s)).
Proof. unfold log_Get. rewrite bind_run. unfold gets. destruct s as [[l|] ws e]; done. Qed.

Lemma log_at_run level msg fields s :
  log_at level msg fields s =
    (Ret tt, mkLogState (Some (effective s))
       (written s ++ if (lg_level (effective s) <=? level)%Z
                     then (λ o, (o, mkLine level (lg_encoder (effective s)) msg (lg_fields (effective s) ++ fields))) <$>
                          lg_outputs (effective s)
                     else []) (exited s)).
Proof.
  unfold log_at. rewrite (bind_ret_run _ _ _ _ _ (log_Get_run s)). unfold zap_write, when.
  destruct (_ <=? _)%Z; cbn; [done|]. by rewrite app_nil_r.
Qed.

Lemma elem_log_outputs file o :
  o ∈ log_outputs file ↔ o = Stdout ∨ o = LogFile file ∧ file ≠ "" ∧ OpenFile file = true.
Proof.
  unfold log_outputs. case_decide as Hf; [destruct (OpenFile file)|];
    rewrite ?list.elem_of_cons, ?list_elem_of_singleton; rewrite ?list.elem_of_nil; naive_solver.
Qed.

(** What a service writes.  After [Init], or without it as after
    [Init("info", "json", "")], a line reaches standard output exactly if its
    level is at least the configured one - [info] when that is not one of the
    four names - and the file exactly if, besides, a file is configured and can
    be opened: a log file that cannot be opened is dropped without a word. *)
Theorem service_log level format file lvl msg fields s o line :
  let s' := (log_at lvl msg fields (log_Init level format file s).2).2 in
  ((o, line) ∈ written s' ↔ (o, line) ∈ written s ∨
     line = mkLine lvl (if decide (format = "console") then ConsoleEncoder else JSONEncoder) msg fields ∧
     (parse_level level ≤ lvl)%Z ∧ (o = Stdout ∨ o = LogFile file ∧ file ≠ "" ∧ OpenFile file = true)) ∧
  (globalLogger s = None → written (log_at lvl msg fields s).2 = written (log_at lvl msg fields (log_Init "info" "json" "" s).2).2).
Proof.
  cbn zeta. rewrite !log_at_run. split.
  - cbn. rewrite elem_of_app. f_equiv. destruct (Z.leb_spec (parse_level level) lvl) as [Hl|Hl].
    + rewrite list_elem_of_fmap. setoid_rewrite elem_log_outputs. split.
      * intros (o' & [= -> ->] & Ho). by split_and!.
      * intros (-> & _ & Ho). by exists o.
    + split; [by intros ?%not_elem_of_nil|]. intros (_ & ? & _). lia.
  - intros Hn. unfold effective. by rewrite Hn.
Qed.

(** A service that cannot read its configuration says so, on standard output and
    as JSON; the backend then exits with 1, the auth service with 0, as it does
    when its server fails. *)
Lemma failed_start s err start srv : globalLogger s = None → exited s = None →
  written (auth_main (inl err) start s).2 = written s ++ [(Stdout, mkLine ErrorLevel JSONEncoder "failed to load config" [("error", err)])] ∧
  exited (auth_main (inl err) start s).2 = None ∧
  (∀ cfg, exited (auth_main (inr cfg) start s).2 = None) ∧
  written (business_main (inl err) srv s).2 = written (auth_main (inl err) start s).2 ∧
  exited (business_main (inl err) srv s).2 = Some 1%Z.
Proof.
  intros Hn He. unfold auth_main, business_main, log_Error, log_Info.
  rewrite (bind_ret_run _ _ _ _ _ (log_at_run _ _ _ _)), log_at_run. unfold effective. rewrite Hn. cbn. split_and!; [done..| |done|done].
  intros cfg. rewrite !bind_run. unfold log_Init at 1, modify. rewrite (bind_ret_run _ _ _ _ _ (log_at_run _ _ _ _)).
  destruct (start _); [rewrite log_at_run|]; done.
Qed.
End logger.
