(* ===== verification/Validate.v ===== *)
(** * Validation of messages: the shape of the generated validators

    [common-protocol/gen] has a [Validate] and a [ValidateAll] for every message
    of the protocol.  This file holds what they share: the errors, the steps a
    validator is made of, and the reference it is measured by, the rules of the
    [.proto] files as data with the violations a value commits. *)

From Stdlib Require Import Ascii String.
From stdpp Require Import base list gmap strings numbers option pretty.
From S2P Require Import Prelude Utf8.
Local Open Scope Z_scope.

(** ** Errors

    [<Message>ValidationError] and [<Message>MultiError]: the types differ by
    the message they are named after. *)
Inductive verror :=
  | ValidationError (message field reason : string) (cause : option verror)
  | MultiError (message : string) (errs : list verror).

Fixpoint join (sep : string) (l : list string) : string :=
  match l with
  | [] => EmptyString
  | [x] => x
  | x :: l' => x +:+ sep +:+ join sep l'
  end.

(** [Error()]; [key] is false in every error the validators build. *)
Fixpoint verror_Error (e : verror) : string :=
  match e with
  | ValidationError n f r c =>
      "invalid " +:+ n +:+ "." +:+ f +:+ ": " +:+ r +:+
      match c with Some c => " | caused by: " +:+ verror_Error c | None => EmptyString end
  | MultiError n es => join "; " (map verror_Error es)
  end.

(** ** The steps of a validator

    A step knows the message's name and [all]; it returns from the validator
    ([inl]) or goes on with the errors collected so far. *)
Definition step : Type := string → bool → list verror → verror + list verror.

Definition raise (e : verror) (all : bool) (errs : list verror) : verror + list verror :=
  if all then inr (errs ++ [e]) else inl e.

(** [if bad { err := ...; if !all { return err }; errors = append(errors, err) }] *)
Definition failif (bad : bool) (field reason : string) : step := λ name all errs,
  if bad then raise (ValidationError name field reason None) all errs else inr errs.

(** The block for an embedded message; [sub] is its [validate]. *)
Definition embed (field : string) (sub : bool → option verror) : step := λ name all errs,
  match sub all with
  | Some c => raise (ValidationError name field "embedded message failed validation" (Some c)) all errs
  | None => inr errs
  end.

Fixpoint run_steps (name : string) (all : bool) (steps : list step) (errs : list verror)
    : verror + list verror :=
  match steps with
  | [] => inr errs
  | s :: steps' =>
      match s name all errs with
      | inl e => inl e
      | inr errs' => run_steps name all steps' errs'
      end
  end.

(** [for idx, item := range xs { ... }] with [fmt.Sprintf("Field[%v]", idx)]. *)
Definition indexed (field : string) (i : nat) : string := field +:+ "[" +:+ pretty i +:+ "]".
Fixpoint each_from {X} (field : string) (sub : bool → X → option verror) (i : nat) (xs : list X) : list step :=
  match xs with
  | [] => []
  | x :: xs' => embed (indexed field i) (λ all, sub all x) :: each_from field sub (S i) xs'
  end.
Definition each {X} (field : string) (sub : bool → X → option verror) (xs : list X) : step :=
  λ name all errs, run_steps name all (each_from field sub 0 xs) errs.

(** A whole validator: nil is valid; what was collected becomes a [MultiError]. *)
Definition validating {X} (name : string) (all : bool) (m : option X) (body : X → list step)
    : option verror :=
  m ≫= λ x,
  match run_steps name all (body x) [] with
  | inl e => Some e
  | inr [] => None
  | inr errs => Some (MultiError name errs)
  end.

(** Membership in the generated tables: [X_name] of an enumeration, keyed by
    number, and the sets of forbidden numbers. *)
Definition named (table : list (Z * string)) (n : Z) : bool := existsb (λ p, p.1 =? n) table.
Definition in_lookup (set : list Z) (n : Z) : bool := existsb (Z.eqb n) set.
Definition is_nil {X} (m : option X) : bool := match m with None => true | Some _ => false end.
Definition llen {X} (l : list X) : Z := Z.of_nat (length l).
Definition mlen (m : gmap string string) : Z := Z.of_nat (size m).

(** ** The reference: rules of the [.proto] files and their violations *)
Inductive rule :=
  | any
  | len (lo hi : option Z)              (* string: min_len, max_len *)
  | num (lo hi : option Z)              (* integers: gte, lte *)
  | enum (numbers not_in : list Z)      (* defined_only, not_in *)
  | items (lo hi : option Z)            (* repeated: min_items, max_items *)
  | pairs (hi : Z)                      (* map: max_pairs *)
  | required.                           (* message.required *)

(** A message's value as the protobuf runtime sees it: its fields with the
    names and rules of the [.proto] file. *)
Inductive value :=
  | VString (s : string)
  | VBytes (b : list Z)
  | VInt (n : Z)
  | VBool (b : bool)
  | VMap (m : gmap string string)
  | VList (n : nat)                     (* repeated scalars *)
  | VMsgs (vs : list value)             (* repeated messages *)
  | VMsg (o : option (list (string * rule * value))).

Definition violation : Type := list string * string.

Definition within (lo hi : option Z) (n : Z) : Prop :=
  default True ((λ l, l ≤ n) <$> lo) ∧ default True ((λ h, n ≤ h) <$> hi).
#[export] Instance within_dec lo hi n : Decision (within lo hi n).
Proof. unfold within. destruct lo, hi; simpl; apply _. Defined.

Definition len_reason (lo hi : option Z) : string :=
  match lo, hi with
  | None, Some h => "value length must be at most " +:+ pretty h +:+ " runes"
  | Some l, None => "value length must be at least " +:+ pretty l +:+ " runes"
  | Some l, Some h =>
      "value length must be between " +:+ pretty l +:+ " and " +:+ pretty h +:+ " runes, inclusive"
  | None, None => EmptyString
  end.
Definition num_reason (lo hi : option Z) : string :=
  match lo, hi with
  | Some l, None => "value must be greater than or equal to " +:+ pretty l
  | None, Some h => "value must be less than or equal to " +:+ pretty h
  | Some l, Some h => "value must be inside range [" +:+ pretty l +:+ ", " +:+ pretty h +:+ "]"
  | None, None => EmptyString
  end.
Definition items_reason (lo hi : option Z) : string :=
  match lo, hi with
  | Some l, None => "value must contain at least " +:+ pretty l +:+ " item(s)"
  | None, Some h => "value must contain no more than " +:+ pretty h +:+ " item(s)"
  | Some l, Some h =>
      "value must contain between " +:+ pretty l +:+ " and " +:+ pretty h +:+ " items, inclusive"
  | None, None => EmptyString
  end.

(** The Go name of a field. *)
Fixpoint camel (up : bool) (s : string) : string :=
  match s with
  | EmptyString => EmptyString
  | String c s' =>
      if Ascii.eqb c "_" then camel true s'
      else String (if up && between 97 122 (byte_of c) then char_of (byte_of c - 32) else c) (camel false s')
  end.
Definition GoCamelCase : string → string := camel true.

Definition unless (P : Prop) `{Decision P} (field reason : string) : list violation :=
  if decide P then [] else [([GoCamelCase field], reason)].
Definition under (field : string) (vs : list violation) : list violation :=
  prod_map (cons field) id <$> vs.

(** What a field's own rule says of its value. *)
Definition own (field : string) (r : rule) (v : value) : list violation :=
  match r with
  | any => []
  | len lo hi =>
      match v with VString s => unless (within lo hi (RuneCountInString s)) field (len_reason lo hi) | _ => [] end
  | num lo hi =>
      match v with VInt n => unless (within lo hi n) field (num_reason lo hi) | _ => [] end
  | enum numbers not_in =>
      match v with
      | VInt n =>
          unless (n ∉ not_in) field "value must not be in list [0]" ++
          unless (n ∈ numbers) field "value must be one of the defined enum values"
      | _ => []
      end
  | items lo hi =>
      match v with
      | VList n => unless (within lo hi (Z.of_nat n)) field (items_reason lo hi)
      | VMsgs vs => unless (within lo hi (llen vs)) field (items_reason lo hi)
      | _ => []
      end
  | pairs hi =>
      match v with
      | VMap m => unless (mlen m ≤ hi) field ("value must contain no more than " +:+ pretty hi +:+ " pair(s)")
      | _ => []
      end
  | required => match v with VMsg None => [([GoCamelCase field], "value is required")] | _ => [] end
  end.

(** All violations, in the order of the fields; those of an embedded message
    under the name of its field. *)
Fixpoint violations (v : value) : list violation :=
  match v with
  | VMsg (Some fs) =>
      (fix fields fs := match fs with
       | [] => []
       | (f, r, fv) :: fs' =>
           own f r fv ++
           (match fv with
            | VMsg _ => under (GoCamelCase f) (violations fv)
            | VMsgs vs =>
                (fix elems i vs := match vs with
                 | [] => []
                 | v :: vs' => under (indexed (GoCamelCase f) i) (violations v) ++ elems (S i) vs'
                 end) 0%nat vs
            | _ => []
            end ++ fields fs')
       end) fs
  | _ => []
  end.

(** The violations of a message, field by field. *)
Fixpoint elems (field : string) (i : nat) (vs : list value) : list violation :=
  match vs with
  | [] => []
  | v :: vs' => under (indexed (GoCamelCase field) i) (violations v) ++ elems field (S i) vs'
  end.
Definition nested (field : string) (v : value) : list violation :=
  match v with
  | VMsg _ => under (GoCamelCase field) (violations v)
  | VMsgs vs => elems field 0 vs
  | _ => []
  end.
Fixpoint of_fields (fs : list (string * rule * value)) : list violation :=
  match fs with
  | [] => []
  | (f, r, v) :: fs' => own f r v ++ (nested f v ++ of_fields fs')
  end.

Lemma violations_fields (fs : list (string * rule * value)) :
  violations (VMsg (Some fs)) = of_fields fs.
Proof.
  cbn [violations]. induction fs as [|[[f r] v] fs IH]; [done|]. rewrite IH. cbn [of_fields].
  do 2 f_equal. destruct v as [| | | | | |vs|]; try done. unfold nested.
  generalize 0%nat as i. clear. induction vs as [|v vs IH]; [done|]; intros i. cbn [elems].
  by rewrite <- IH.
Qed.

(** ** What an error says: the violations at its leaves *)
Fixpoint leaves (e : verror) : list violation :=
  match e with
  | ValidationError _ f r None => [([f], r)]
  | ValidationError _ f _ (Some c) => under f (leaves c)
  | MultiError _ es => (fix go es := match es with [] => [] | e :: es' => leaves e ++ go es' end) es
  end.
Definition report (r : option verror) : list violation := from_option leaves [] r.
Definition all_leaves (es : list verror) : list violation := mjoin (leaves <$> es).

Lemma leaves_multi (n : string) (es : list verror) : leaves (MultiError n es) = all_leaves es.
Proof. cbn [leaves]. induction es as [|e es IH]; [done|]. by rewrite IH. Qed.

(** A validator of a message with the violations [vs]: [ValidateAll] reports
    them, [Validate] the first one, and both are nil when there is none. *)
Definition valid (sub : bool → option verror) (vs : list violation) : Prop :=
  report (sub true) = vs ∧ report (sub false) = take 1 vs ∧ ∀ all, sub all = None ↔ vs = [].

(** The same of a list of steps in the middle of a validator. *)
Definition checks (name : string) (steps : list step) (vs : list violation) : Prop :=
  ∀ errs,
    (∃ es, run_steps name true steps errs = inr (errs ++ es) ∧ all_leaves es = vs ∧ (vs = [] → es = [])) ∧
    match vs with
    | [] => run_steps name false steps errs = inr errs
    | v :: _ => ∃ e, run_steps name false steps errs = inl e ∧ leaves e = [v]
    end.

Lemma run_steps_app (name : string) (all : bool) (a b : list step) (errs : list verror) :
  run_steps name all (a ++ b) errs =
  match run_steps name all a errs with inl e => inl e | inr errs' => run_steps name all b errs' end.
Proof.
  revert errs. induction a as [|s a IH]; intros errs; [done|]. simpl.
  by destruct (s name all errs).
Qed.

Lemma checks_nil (name : string) : checks name [] [].
Proof. intros errs. split; [exists []; by rewrite app_nil_r|done]. Qed.

Lemma checks_app (name : string) (a b : list step) (v w : list violation) :
  checks name a v → checks name b w → checks name (a ++ b) (v ++ w).
Proof.
  intros Ha Hb errs. rewrite !run_steps_app. destruct (Ha errs) as [(es & -> & He & Hn) Hf].
  destruct (Hb (errs ++ es)) as [(es' & -> & He' & Hn') _]. split.
  - exists (es ++ es'). unfold all_leaves. rewrite fmap_app, join_app, app_assoc.
    split; [done|]. fold (all_leaves es) (all_leaves es'). rewrite He, He'. split; [done|].
    intros [-> ->]%app_eq_nil. by rewrite Hn, Hn'.
  - destruct v as [|x v]; simpl.
    + rewrite Hf. apply Hb.
    + destruct Hf as (e & -> & ?). eauto.
Qed.

Lemma checks_cons (name : string) (s : step) (b : list step) (v w : list violation) :
  checks name [s] v → checks name b w → checks name (s :: b) (v ++ w).
Proof. apply (checks_app name [s]). Qed.

(** A field without rule has no step. *)
Lemma checks_none (name : string) (b : list step) (v w : list violation) :
  v = [] → checks name b w → checks name b (v ++ w).
Proof. by intros ->. Qed.

Lemma checks_validating {X} (name : string) (m : option X) (body : X → list step)
    (value_of : X → list (string * rule * value)) :
  (∀ x, checks name (body x) (of_fields (value_of x))) →
  valid (λ all, validating name all m body) (violations (VMsg (value_of <$> m))).
Proof.
  intros Hb. destruct m as [x|]; [|repeat split; done].
  cbn [fmap option_fmap option_map]. rewrite violations_fields.
  destruct (Hb x []) as [(es & Ht & He & Hn) Hf]. unfold valid, validating; simpl. rewrite Ht. simpl.
  assert (es = [] ↔ of_fields (value_of x) = []) as Hes by (split; [by intros ->|done]).
  assert (report (match es with [] => None | _ => Some (MultiError name es) end)
          = of_fields (value_of x)) as Hr.
  { destruct es as [|e es]; [done|]. rewrite <- He. apply leaves_multi. }
  destruct (of_fields (value_of x)) as [|v vs].
  - rewrite Hf. assert (es = []) as -> by (by apply Hes). split; [done|split; [done|]].
    intros []; by rewrite ?Ht, ?Hf.
  - destruct Hf as (e & Hf & Hl). rewrite Hf. split; [by rewrite <- Hr; destruct es|].
    split; [done|]. destruct es as [|e' es]; [by discriminate (proj1 Hes eq_refl)|].
    intros []; by rewrite ?Ht, ?Hf.
Qed.

Lemma all_leaves_one (e : verror) : all_leaves [e] = leaves e.
Proof. unfold all_leaves. simpl. apply app_nil_r. Qed.

(** A step that raises [e] when [vs] are committed. *)
Lemma checks_one (name : string) (s : step) (vs : list violation) :
  (∀ all errs, match vs with
    | [] => s name all errs = inr errs
    | v :: _ => ∃ e, s name all errs = raise e all errs ∧ leaves e = if all then vs else [v]
    end) →
  checks name [s] vs.
Proof.
  intros Hs errs. pose proof (Hs true errs) as Ht. pose proof (Hs false errs) as Hf. simpl.
  destruct vs as [|v vs].
  - rewrite Ht, Hf. split; [|done]. exists []. by rewrite app_nil_r.
  - destruct Ht as (e & -> & Ht), Hf as (e' & -> & Hf). split; [|by exists e'].
    exists [e]. by rewrite all_leaves_one.
Qed.

Lemma checks_unless (name : string) (P : Prop) `{Decision P} (bad : bool) (field F reason R : string) :
  (bad = true ↔ ¬ P) → F = GoCamelCase field → R = reason →
  checks name [failif bad F R] (unless P field reason).
Proof.
  intros Hb -> ->. apply checks_one. intros all errs. unfold unless, failif.
  destruct (decide P).
  - destruct bad; [|done]. by apply Hb in p.
  - destruct bad; [|by apply Hb in n]. eexists. split; [done|]. by destruct all.
Qed.

Lemma checks_embed (name F : string) (sub : bool → option verror) (v : value) :
  valid sub (violations v) →
  checks name [embed F sub] (under F (violations v)).
Proof.
  intros (Ht & Hf & Hn). apply checks_one. intros all errs. unfold embed.
  destruct (violations v) as [|x vs].
  - by destruct (Hn all) as [_ ->].
  - destruct (sub all) as [c|] eqn:Hc; [|by apply Hn in Hc].
    eexists. split; [done|]. cbn [leaves].
    destruct all; [rewrite Hc in Ht|rewrite Hc in Hf]; cbn [report from_option] in *; [by rewrite Ht|by rewrite Hf].
Qed.

Lemma checks_nested (name f F : string) (sub : bool → option verror) (v : value) :
  F = GoCamelCase f → (∃ o, v = VMsg o) → valid sub (violations v) →
  checks name [embed F sub] (nested f v).
Proof. intros -> [o ->] Hv. by apply (checks_embed name _ _ (VMsg o)). Qed.

Lemma checks_each_from {X} (name f : string) (sub : bool → X → option verror) (g : X → value) (xs : list X) (i : nat) :
  (∀ x, valid (λ all, sub all x) (violations (g x))) →
  checks name (each_from (GoCamelCase f) sub i xs) (elems f i (g <$> xs)).
Proof.
  intros Hsub. revert i. induction xs as [|x xs IH]; intros i; [apply checks_nil|].
  apply checks_cons; [by apply checks_embed|apply IH].
Qed.

Lemma checks_each {X} (name f F : string) (sub : bool → X → option verror) (g : X → value) (xs : list X) :
  F = GoCamelCase f → (∀ x, valid (λ all, sub all x) (violations (g x))) →
  checks name [each F sub xs] (nested f (VMsgs (g <$> xs))).
Proof.
  intros -> Hsub errs. destruct (checks_each_from name f sub g xs 0 Hsub errs) as [(es & Ht & He) Hf].
  simpl. unfold each. rewrite Ht. split; [by exists es|].
  cbn [nested]. destruct (elems _ _ _); [by rewrite Hf|]. destruct Hf as (e & -> & ?). by exists e.
Qed.

Lemma checks_required {X} (name f F : string) (m : option X) (g : X → list (string * rule * value)) (v : value) :
  F = GoCamelCase f → v = VMsg (g <$> m) →
  checks name [failif (is_nil m) F "value is required"] (own f required v).
Proof.
  intros -> ->. apply checks_one. intros all errs. unfold failif.
  destruct m; simpl; [done|]. eexists. split; [done|]. by destruct all.
Qed.

Lemma named_spec (table : list (Z * string)) (n : Z) : named table n = bool_decide (n ∈ table.*1).
Proof.
  apply eq_true_iff_eq. unfold named. rewrite existsb_exists, bool_decide_eq_true, list_elem_of_fmap.
  split.
  - intros (p & Hp & He). exists p. rewrite list_elem_of_In. split; [lia|done].
  - intros (p & -> & Hp%list_elem_of_In). exists p. split; [done|lia].
Qed.
Lemma in_lookup_spec (set : list Z) (n : Z) : in_lookup set n = bool_decide (n ∈ set).
Proof.
  apply eq_true_iff_eq. unfold in_lookup. rewrite existsb_exists, bool_decide_eq_true. split.
  - intros (x & Hx & He). rewrite list_elem_of_In. by replace n with x by lia.
  - intros Hn. exists n. rewrite <- list_elem_of_In. split; [done|lia].
Qed.

Lemma checks_enum (name f F : string) (table : list (Z * string)) (set numbers : list Z) (n : Z) :
  F = GoCamelCase f → numbers = table.*1 →
  checks name
    [failif (in_lookup set n) F "value must not be in list [0]";
     failif (negb (named table n)) F "value must be one of the defined enum values"]
    (own f (enum numbers set) (VInt n)).
Proof.
  intros -> ->. apply checks_cons; apply checks_unless; try done.
  - rewrite in_lookup_spec, bool_decide_eq_true. destruct (decide (n ∈ set)); naive_solver.
  - by rewrite negb_true_iff, named_spec, bool_decide_eq_false.
Qed.

(** ** Reading the rules off: when a message has no violation *)
Lemma unless_nil (P : Prop) `{Decision P} (f r : string) : unless P f r = [] ↔ P.
Proof. unfold unless. destruct (decide P); naive_solver. Qed.
Lemma under_nil (f : string) (vs : list violation) : under f vs = [] ↔ vs = [].
Proof. unfold under. destruct vs; naive_solver. Qed.
Lemma nested_nil (f : string) (v : value) : (∃ o, v = VMsg o) → nested f v = [] ↔ violations v = [].
Proof. intros [o ->]. apply under_nil. Qed.
Lemma app_nil_iff {A} (a b : list A) : a ++ b = [] ↔ a = [] ∧ b = [].
Proof. split; [apply app_eq_nil|by intros [-> ->]]. Qed.
Lemma valid_nil (sub : bool → option verror) (v : value) (all : bool) :
  valid sub (violations v) → sub all = None ↔ violations v = [].
Proof. intros (_ & _ & Hn). apply Hn. Qed.

(** ** Automation: a validator against its message's rules, field by field *)
Create HintDb validators.

Ltac rule_holds :=
  unfold within, llen, mlen; rewrite ?length_fmap;
  cbn [default from_option fmap option_fmap option_map id]; lia.

Ltac check_field :=
  lazymatch goal with
  | |- checks _ [] [] => apply checks_nil
  | |- checks _ _ (own _ any _ ++ _) => apply checks_none; [reflexivity|]
  | |- checks _ _ (own _ (enum _ _) _ ++ _) =>
      apply (checks_app _ [_; _]); [apply checks_enum; reflexivity|]
  | |- checks _ _ (own _ required _ ++ _) =>
      apply checks_cons; [eapply checks_required; reflexivity|]
  | |- checks _ _ (own _ _ _ ++ _) =>
      apply checks_cons; [cbn [own]; apply checks_unless; [rule_holds|reflexivity|vm_compute; reflexivity]|]
  | |- checks _ _ (nested _ (VMsgs _) ++ _) =>
      apply checks_cons; [apply checks_each; [reflexivity|intros; auto with validators]|]
  | |- checks _ _ (nested _ (VString _) ++ _) => apply checks_none; [reflexivity|]
  | |- checks _ _ (nested _ (VBytes _) ++ _) => apply checks_none; [reflexivity|]
  | |- checks _ _ (nested _ (VInt _) ++ _) => apply checks_none; [reflexivity|]
  | |- checks _ _ (nested _ (VBool _) ++ _) => apply checks_none; [reflexivity|]
  | |- checks _ _ (nested _ (VMap _) ++ _) => apply checks_none; [reflexivity|]
  | |- checks _ _ (nested _ (VList _) ++ _) => apply checks_none; [reflexivity|]
  | |- checks _ _ (nested _ _ ++ _) =>
      apply checks_cons;
        [apply checks_nested; [reflexivity|eexists; reflexivity|auto with validators]|]
  end.

(** [follows value fields]: the validator of the message is the one its rules ask for. *)
Ltac follows value fields :=
  unfold value; apply checks_validating; intros ?; unfold fields;
  cbn [zip zip_with of_fields]; repeat check_field.
