(* ===== verification/ProtoCommon.v ===== *)
(** * The common messages of the protocol ([gateway/v1/common.proto])

    The enumerations and messages of [gen/gateway/v1/common.pb.go], their
    validators ([common.pb.validate.go]) and the rules of the [.proto] file
    ([X_fields], [X_numbers]), with [X_value] as the value that the rules are
    about.  Integers and enumerations are [Z]. *)

From stdpp Require Import base list gmap strings numbers option.
From S2P Require Import Prelude Utf8 Validate.
Local Open Scope Z_scope.

(** ** [gateway/v1/common.proto] *)
Definition OpCode : Type := Z.
Definition QosClass : Type := Z.
Definition Codec : Type := Z.
Definition CompressAlgo : Type := Z.
Definition RouteTargetType : Type := Z.
Definition MessageOrigin : Type := Z.
Definition HeartbeatBufferLevel : Type := Z.
Definition ErrorCode : Type := Z.
Definition OpCode_name : list (Z * string) :=
  [(0, "OP_CODE_UNSPECIFIED"); (1, "DISPATCH"); (2, "HELLO"); (3, "HANDSHAKE"); (4, "READY"); (5, "HEARTBEAT");
   (6, "HEARTBEAT_ACK"); (7, "RESUME"); (8, "RECONNECT"); (9, "ACK"); (10, "ERROR"); (11, "KICK");
   (12, "AUTH_REFRESH"); (13, "AUTH_REFRESH_ACK")].
Definition OpCode_numbers : list Z :=
  [0; 1; 2; 3; 4; 5; 6; 7; 8; 9; 10; 11; 12; 13].
Definition QosClass_name : list (Z * string) :=
  [(0, "QOS_CLASS_UNSPECIFIED"); (1, "AT_MOST_ONCE"); (2, "AT_LEAST_ONCE")].
Definition QosClass_numbers : list Z :=
  [0; 1; 2].
Definition Codec_name : list (Z * string) :=
  [(0, "CODEC_UNSPECIFIED"); (1, "JSON"); (2, "PROTOBUF"); (3, "MSGPACK")].
Definition Codec_numbers : list Z :=
  [0; 1; 2; 3].
Definition CompressAlgo_name : list (Z * string) :=
  [(0, "COMPRESS_ALGO_UNSPECIFIED"); (1, "NONE"); (2, "GZIP"); (3, "ZSTD"); (4, "SNAPPY")].
Definition CompressAlgo_numbers : list Z :=
  [0; 1; 2; 3; 4].
Definition RouteTargetType_name : list (Z * string) :=
  [(0, "ROUTE_TARGET_TYPE_UNSPECIFIED"); (1, "USER"); (2, "DEVICE"); (3, "SESSION"); (4, "ROOM"); (5, "TOPIC");
   (6, "GROUP"); (7, "NODE"); (8, "BROADCAST")].
Definition RouteTargetType_numbers : list Z :=
  [0; 1; 2; 3; 4; 5; 6; 7; 8].
Definition MessageOrigin_name : list (Z * string) :=
  [(0, "ORIGIN_UNSPECIFIED"); (1, "CLIENT"); (2, "RETRY"); (3, "REPLAY"); (4, "ORIGIN_BROADCAST");
   (5, "PUSHAPI"); (6, "SYSTEM")].
Definition MessageOrigin_numbers : list Z :=
  [0; 1; 2; 3; 4; 5; 6].
Definition HeartbeatBufferLevel_name : list (Z * string) :=
  [(0, "BUFFER_LEVEL_UNSPECIFIED"); (1, "NORMAL"); (2, "WARNING"); (3, "FULL")].
Definition HeartbeatBufferLevel_numbers : list Z :=
  [0; 1; 2; 3].
Definition ErrorCode_name : list (Z * string) :=
  [(0, "ERROR_CODE_UNSPECIFIED"); (1001, "ERR_HEARTBEAT_TIMEOUT"); (1002, "ERR_HANDSHAKE_FAILED");
   (1003, "ERR_AUTH_EXPIRED"); (1004, "ERR_REPLACED_BY_NEW_LOGIN"); (1005, "ERR_SESSION_SUSPENDED");
   (1006, "ERR_SESSION_CLOSED"); (1007, "ERR_PROTOCOL_VERSION"); (1008, "ERR_CONN_RATE_LIMITED");
   (1009, "ERR_RESUME_FAILED"); (2001, "ERR_TOKEN_INVALID"); (2002, "ERR_TOKEN_EXPIRED");
   (2003, "ERR_PERMISSION_DENIED"); (2004, "ERR_DEVICE_BLOCKED"); (2005, "ERR_IP_BLOCKED");
   (2006, "ERR_APP_ID_INVALID"); (3001, "ERR_MESSAGE_TOO_LARGE"); (3002, "ERR_INVALID_OPCODE");
   (3003, "ERR_MESSAGE_MALFORMED"); (3004, "ERR_MESSAGE_EXPIRED"); (3005, "ERR_RATE_LIMITED");
   (3006, "ERR_BAD_REQUEST"); (3007, "ERR_OPCODE_UNEXPECTED"); (4001, "ERR_UPSTREAM_SEND_FAILED");
   (4002, "ERR_OFFLINE_STORE_FAILED"); (4003, "ERR_MAX_RETRY_EXCEEDED"); (4004, "ERR_ROUTE_NOT_FOUND");
   (4005, "ERR_TARGET_UNAVAILABLE"); (4006, "ERR_DELIVERY_TIMEOUT"); (5001, "ERR_ROOM_NOT_FOUND");
   (5002, "ERR_TOPIC_NOT_FOUND"); (5003, "ERR_ALREADY_SUBSCRIBED"); (5004, "ERR_NOT_SUBSCRIBED");
   (5005, "ERR_ROOM_FULL")].
Definition ErrorCode_numbers : list Z :=
  [0; 1001; 1002; 1003; 1004; 1005; 1006; 1007; 1008; 1009; 2001; 2002; 2003; 2004; 2005; 2006; 3001; 3002;
   3003; 3004; 3005; 3006; 3007; 4001; 4002; 4003; 4004; 4005; 4006; 5001; 5002; 5003; 5004; 5005].
Definition GatewayFrame_Op_NotInLookup : list OpCode := [0].
Record GatewayFrame := mkGatewayFrame {
  GatewayFrame_GetOp : OpCode; GatewayFrame_GetData : list Z }.
Definition GatewayFrame_fields : list (string * rule) :=
  [("op", enum OpCode_numbers [0]); ("data", any)].
Definition GatewayFrame_value (m : option GatewayFrame) : value :=
  VMsg ((λ m, zip GatewayFrame_fields
    [VInt (GatewayFrame_GetOp m); VBytes (GatewayFrame_GetData m)]) <$> m).
Definition GatewayFrame_validate (all : bool) (m : option GatewayFrame) : option verror :=
  validating "GatewayFrame" all m (λ m, [
    failif (in_lookup GatewayFrame_Op_NotInLookup (GatewayFrame_GetOp m)) "Op"
      "value must not be in list [0]";
    failif (negb (named OpCode_name (GatewayFrame_GetOp m))) "Op"
      "value must be one of the defined enum values"]).
Definition RouteTarget_Type_NotInLookup : list RouteTargetType := [0].
Record RouteTarget := mkRouteTarget {
  RouteTarget_GetType : RouteTargetType; RouteTarget_GetTarget : string;
  RouteTarget_GetLabels : gmap string string }.
Definition RouteTarget_fields : list (string * rule) :=
  [("type", enum RouteTargetType_numbers [0]); ("target", len (Some 1) (Some 128)); ("labels", pairs 32)].
Definition RouteTarget_value (m : option RouteTarget) : value :=
  VMsg ((λ m, zip RouteTarget_fields
    [VInt (RouteTarget_GetType m); VString (RouteTarget_GetTarget m); VMap (RouteTarget_GetLabels m)]) <$> m).
Definition RouteTarget_validate (all : bool) (m : option RouteTarget) : option verror :=
  validating "RouteTarget" all m (λ m, [
    failif (in_lookup RouteTarget_Type_NotInLookup (RouteTarget_GetType m)) "Type"
      "value must not be in list [0]";
    failif (negb (named RouteTargetType_name (RouteTarget_GetType m))) "Type"
      "value must be one of the defined enum values";
    failif (let l := RuneCountInString (RouteTarget_GetTarget m) in (l <? 1) || (l >? 128)) "Target"
      "value length must be between 1 and 128 runes, inclusive";
    failif (mlen (RouteTarget_GetLabels m) >? 32) "Labels" "value must contain no more than 32 pair(s)"]).
Definition Delivery_Qos_NotInLookup : list QosClass := [0].
Record Delivery := mkDelivery {
  Delivery_GetQos : QosClass; Delivery_GetOffline : bool; Delivery_GetPriority : Z }.
Definition Delivery_fields : list (string * rule) :=
  [("qos", enum QosClass_numbers [0]); ("offline", any); ("priority", num (Some 0) (Some 9))].
Definition Delivery_value (m : option Delivery) : value :=
  VMsg ((λ m, zip Delivery_fields
    [VInt (Delivery_GetQos m); VBool (Delivery_GetOffline m); VInt (Delivery_GetPriority m)]) <$> m).
Definition Delivery_validate (all : bool) (m : option Delivery) : option verror :=
  validating "Delivery" all m (λ m, [
    failif (in_lookup Delivery_Qos_NotInLookup (Delivery_GetQos m)) "Qos" "value must not be in list [0]";
    failif (negb (named QosClass_name (Delivery_GetQos m))) "Qos"
      "value must be one of the defined enum values";
    failif (let val := Delivery_GetPriority m in (val <? 0) || (val >? 9)) "Priority"
      "value must be inside range [0, 9]"]).
Record TraceContext := mkTraceContext {
  TraceContext_GetTraceId : string; TraceContext_GetSpanId : string; TraceContext_GetParentSpanId : string;
  TraceContext_GetSampled : bool; TraceContext_GetBaggage : gmap string string }.
Definition TraceContext_fields : list (string * rule) :=
  [("trace_id", len None (Some 128)); ("span_id", len None (Some 64)); ("parent_span_id", len None (Some 64));
   ("sampled", any); ("baggage", pairs 64)].
Definition TraceContext_value (m : option TraceContext) : value :=
  VMsg ((λ m, zip TraceContext_fields
    [VString (TraceContext_GetTraceId m); VString (TraceContext_GetSpanId m);
     VString (TraceContext_GetParentSpanId m); VBool (TraceContext_GetSampled m);
     VMap (TraceContext_GetBaggage m)]) <$> m).
Definition TraceContext_validate (all : bool) (m : option TraceContext) : option verror :=
  validating "TraceContext" all m (λ m, [
    failif (RuneCountInString (TraceContext_GetTraceId m) >? 128) "TraceId"
      "value length must be at most 128 runes";
    failif (RuneCountInString (TraceContext_GetSpanId m) >? 64) "SpanId"
      "value length must be at most 64 runes";
    failif (RuneCountInString (TraceContext_GetParentSpanId m) >? 64) "ParentSpanId"
      "value length must be at most 64 runes";
    failif (mlen (TraceContext_GetBaggage m) >? 64) "Baggage" "value must contain no more than 64 pair(s)"]).
Definition Dispatch_Origin_NotInLookup : list MessageOrigin := [0].
Record Dispatch := mkDispatch {
  Dispatch_GetPayload : list Z; Dispatch_GetSeqId : Z; Dispatch_GetMsgId : string; Dispatch_GetBizCode : string;
  Dispatch_GetEventType : string; Dispatch_GetExpireAt : Z; Dispatch_GetFrom : option RouteTarget;
  Dispatch_GetTo : option RouteTarget; Dispatch_GetDelivery : option Delivery;
  Dispatch_GetTrace : option TraceContext; Dispatch_GetTimestamp : Z; Dispatch_GetOrigin : MessageOrigin;
  Dispatch_GetRecvAt : Z; Dispatch_GetMetadata : gmap string string }.
Definition Dispatch_fields : list (string * rule) :=
  [("payload", any); ("seq_id", num (Some 0) None); ("msg_id", len (Some 1) (Some 128));
   ("biz_code", len (Some 1) (Some 128)); ("event_type", len (Some 1) (Some 128)); ("expire_at", any);
   ("from", any); ("to", any); ("delivery", any); ("trace", any); ("timestamp", num (Some 0) None);
   ("origin", enum MessageOrigin_numbers [0]); ("recv_at", num (Some 0) None); ("metadata", pairs 64)].
Definition Dispatch_value (m : option Dispatch) : value :=
  VMsg ((λ m, zip Dispatch_fields
    [VBytes (Dispatch_GetPayload m); VInt (Dispatch_GetSeqId m); VString (Dispatch_GetMsgId m);
     VString (Dispatch_GetBizCode m); VString (Dispatch_GetEventType m); VInt (Dispatch_GetExpireAt m);
     RouteTarget_value (Dispatch_GetFrom m); RouteTarget_value (Dispatch_GetTo m);
     Delivery_value (Dispatch_GetDelivery m); TraceContext_value (Dispatch_GetTrace m);
     VInt (Dispatch_GetTimestamp m); VInt (Dispatch_GetOrigin m); VInt (Dispatch_GetRecvAt m);
     VMap (Dispatch_GetMetadata m)]) <$> m).
Definition Dispatch_validate (all : bool) (m : option Dispatch) : option verror :=
  validating "Dispatch" all m (λ m, [
    failif (Dispatch_GetSeqId m <? 0) "SeqId" "value must be greater than or equal to 0";
    failif (let l := RuneCountInString (Dispatch_GetMsgId m) in (l <? 1) || (l >? 128)) "MsgId"
      "value length must be between 1 and 128 runes, inclusive";
    failif (let l := RuneCountInString (Dispatch_GetBizCode m) in (l <? 1) || (l >? 128)) "BizCode"
      "value length must be between 1 and 128 runes, inclusive";
    failif (let l := RuneCountInString (Dispatch_GetEventType m) in (l <? 1) || (l >? 128)) "EventType"
      "value length must be between 1 and 128 runes, inclusive";
    embed "From" (λ all, RouteTarget_validate all (Dispatch_GetFrom m));
    embed "To" (λ all, RouteTarget_validate all (Dispatch_GetTo m));
    embed "Delivery" (λ all, Delivery_validate all (Dispatch_GetDelivery m));
    embed "Trace" (λ all, TraceContext_validate all (Dispatch_GetTrace m));
    failif (Dispatch_GetTimestamp m <? 0) "Timestamp" "value must be greater than or equal to 0";
    failif (in_lookup Dispatch_Origin_NotInLookup (Dispatch_GetOrigin m)) "Origin"
      "value must not be in list [0]";
    failif (negb (named MessageOrigin_name (Dispatch_GetOrigin m))) "Origin"
      "value must be one of the defined enum values";
    failif (Dispatch_GetRecvAt m <? 0) "RecvAt" "value must be greater than or equal to 0";
    failif (mlen (Dispatch_GetMetadata m) >? 64) "Metadata" "value must contain no more than 64 pair(s)"]).
Record Hello := mkHello {
  Hello_GetSupportedCodecs : list Codec; Hello_GetSupportedCompress : list CompressAlgo;
  Hello_GetHeartbeatInterval : Z; Hello_GetMaxBodySize : Z; Hello_GetProtocolVersion : string;
  Hello_GetNodeId : string; Hello_GetServerTime : Z }.
Definition Hello_fields : list (string * rule) :=
  [("supported_codecs", items (Some 1) None); ("supported_compress", items (Some 1) None);
   ("heartbeat_interval", num (Some 1) (Some 3600)); ("max_body_size", num (Some 1) None);
   ("protocol_version", len (Some 1) (Some 32)); ("node_id", len (Some 1) (Some 128));
   ("server_time", num (Some 0) None)].
Definition Hello_value (m : option Hello) : value :=
  VMsg ((λ m, zip Hello_fields
    [VList (length (Hello_GetSupportedCodecs m)); VList (length (Hello_GetSupportedCompress m));
     VInt (Hello_GetHeartbeatInterval m); VInt (Hello_GetMaxBodySize m); VString (Hello_GetProtocolVersion m);
     VString (Hello_GetNodeId m); VInt (Hello_GetServerTime m)]) <$> m).
Definition Hello_validate (all : bool) (m : option Hello) : option verror :=
  validating "Hello" all m (λ m, [
    failif (llen (Hello_GetSupportedCodecs m) <? 1) "SupportedCodecs"
      "value must contain at least 1 item(s)";
    failif (llen (Hello_GetSupportedCompress m) <? 1) "SupportedCompress"
      "value must contain at least 1 item(s)";
    failif (let val := Hello_GetHeartbeatInterval m in (val <? 1) || (val >? 3600)) "HeartbeatInterval"
      "value must be inside range [1, 3600]";
    failif (Hello_GetMaxBodySize m <? 1) "MaxBodySize" "value must be greater than or equal to 1";
    failif (let l := RuneCountInString (Hello_GetProtocolVersion m) in (l <? 1) || (l >? 32)) "ProtocolVersion"
      "value length must be between 1 and 32 runes, inclusive";
    failif (let l := RuneCountInString (Hello_GetNodeId m) in (l <? 1) || (l >? 128)) "NodeId"
      "value length must be between 1 and 128 runes, inclusive";
    failif (Hello_GetServerTime m <? 0) "ServerTime" "value must be greater than or equal to 0"]).
Record Handshake := mkHandshake {
  Handshake_GetToken : string; Handshake_GetDeviceId : string; Handshake_GetDeviceType : string;
  Handshake_GetSdkVersion : string; Handshake_GetSupportedExtensions : list string }.
Definition Handshake_fields : list (string * rule) :=
  [("token", len (Some 1) (Some 4096)); ("device_id", len (Some 1) (Some 128));
   ("device_type", len (Some 1) (Some 128)); ("sdk_version", len (Some 1) (Some 128));
   ("supported_extensions", items None (Some 64))].
Definition Handshake_value (m : option Handshake) : value :=
  VMsg ((λ m, zip Handshake_fields
    [VString (Handshake_GetToken m); VString (Handshake_GetDeviceId m); VString (Handshake_GetDeviceType m);
     VString (Handshake_GetSdkVersion m); VList (length (Handshake_GetSupportedExtensions m))]) <$> m).
Definition Handshake_validate (all : bool) (m : option Handshake) : option verror :=
  validating "Handshake" all m (λ m, [
    failif (let l := RuneCountInString (Handshake_GetToken m) in (l <? 1) || (l >? 4096)) "Token"
      "value length must be between 1 and 4096 runes, inclusive";
    failif (let l := RuneCountInString (Handshake_GetDeviceId m) in (l <? 1) || (l >? 128)) "DeviceId"
      "value length must be between 1 and 128 runes, inclusive";
    failif (let l := RuneCountInString (Handshake_GetDeviceType m) in (l <? 1) || (l >? 128)) "DeviceType"
      "value length must be between 1 and 128 runes, inclusive";
    failif (let l := RuneCountInString (Handshake_GetSdkVersion m) in (l <? 1) || (l >? 128)) "SdkVersion"
      "value length must be between 1 and 128 runes, inclusive";
    failif (llen (Handshake_GetSupportedExtensions m) >? 64) "SupportedExtensions"
      "value must contain no more than 64 item(s)"]).
Definition Ready_SelectedCodec_NotInLookup : list Codec := [0].
Definition Ready_SelectedCompress_NotInLookup : list CompressAlgo := [0].
Record Ready := mkReady {
  Ready_GetSessionId : string; Ready_GetUserId : string; Ready_GetServerTime : Z;
  Ready_GetHeartbeatInterval : Z; Ready_GetReplayFrom : Z; Ready_GetSelectedCodec : Codec;
  Ready_GetSelectedCompress : CompressAlgo; Ready_GetExtensions : list string }.
Definition Ready_fields : list (string * rule) :=
  [("session_id", len (Some 1) (Some 128)); ("user_id", len (Some 1) (Some 128));
   ("server_time", num (Some 0) None); ("heartbeat_interval", num (Some 1) (Some 3600));
   ("replay_from", num (Some 0) None); ("selected_codec", enum Codec_numbers [0]);
   ("selected_compress", enum CompressAlgo_numbers [0]); ("extensions", items None (Some 64))].
Definition Ready_value (m : option Ready) : value :=
  VMsg ((λ m, zip Ready_fields
    [VString (Ready_GetSessionId m); VString (Ready_GetUserId m); VInt (Ready_GetServerTime m);
     VInt (Ready_GetHeartbeatInterval m); VInt (Ready_GetReplayFrom m); VInt (Ready_GetSelectedCodec m);
     VInt (Ready_GetSelectedCompress m); VList (length (Ready_GetExtensions m))]) <$> m).
Definition Ready_validate (all : bool) (m : option Ready) : option verror :=
  validating "Ready" all m (λ m, [
    failif (let l := RuneCountInString (Ready_GetSessionId m) in (l <? 1) || (l >? 128)) "SessionId"
      "value length must be between 1 and 128 runes, inclusive";
    failif (let l := RuneCountInString (Ready_GetUserId m) in (l <? 1) || (l >? 128)) "UserId"
      "value length must be between 1 and 128 runes, inclusive";
    failif (Ready_GetServerTime m <? 0) "ServerTime" "value must be greater than or equal to 0";
    failif (let val := Ready_GetHeartbeatInterval m in (val <? 1) || (val >? 3600)) "HeartbeatInterval"
      "value must be inside range [1, 3600]";
    failif (Ready_GetReplayFrom m <? 0) "ReplayFrom" "value must be greater than or equal to 0";
    failif (in_lookup Ready_SelectedCodec_NotInLookup (Ready_GetSelectedCodec m)) "SelectedCodec"
      "value must not be in list [0]";
    failif (negb (named Codec_name (Ready_GetSelectedCodec m))) "SelectedCodec"
      "value must be one of the defined enum values";
    failif (in_lookup Ready_SelectedCompress_NotInLookup (Ready_GetSelectedCompress m)) "SelectedCompress"
      "value must not be in list [0]";
    failif (negb (named CompressAlgo_name (Ready_GetSelectedCompress m))) "SelectedCompress"
      "value must be one of the defined enum values";
    failif (llen (Ready_GetExtensions m) >? 64) "Extensions" "value must contain no more than 64 item(s)"]).
Definition Error_Code_NotInLookup : list ErrorCode := [0].
Record Error := mkError {
  Error_GetCode : ErrorCode; Error_GetMessage : string; Error_GetRefMsgId : string;
  Error_GetDetails : gmap string string }.
Definition Error_fields : list (string * rule) :=
  [("code", enum ErrorCode_numbers [0]); ("message", len (Some 1) (Some 1024));
   ("ref_msg_id", len None (Some 128)); ("details", pairs 64)].
Definition Error_value (m : option Error) : value :=
  VMsg ((λ m, zip Error_fields
    [VInt (Error_GetCode m); VString (Error_GetMessage m); VString (Error_GetRefMsgId m);
     VMap (Error_GetDetails m)]) <$> m).
Definition Error_validate (all : bool) (m : option Error) : option verror :=
  validating "Error" all m (λ m, [
    failif (in_lookup Error_Code_NotInLookup (Error_GetCode m)) "Code" "value must not be in list [0]";
    failif (negb (named ErrorCode_name (Error_GetCode m))) "Code"
      "value must be one of the defined enum values";
    failif (let l := RuneCountInString (Error_GetMessage m) in (l <? 1) || (l >? 1024)) "Message"
      "value length must be between 1 and 1024 runes, inclusive";
    failif (RuneCountInString (Error_GetRefMsgId m) >? 128) "RefMsgId"
      "value length must be at most 128 runes";
    failif (mlen (Error_GetDetails m) >? 64) "Details" "value must contain no more than 64 pair(s)"]).
Record Resume := mkResume {
  Resume_GetSessionId : string; Resume_GetLastSeq : Z; Resume_GetToken : string }.
Definition Resume_fields : list (string * rule) :=
  [("session_id", len (Some 1) (Some 128)); ("last_seq", num (Some 0) None); ("token", len (Some 1) (Some 4096))].
Definition Resume_value (m : option Resume) : value :=
  VMsg ((λ m, zip Resume_fields
    [VString (Resume_GetSessionId m); VInt (Resume_GetLastSeq m); VString (Resume_GetToken m)]) <$> m).
Definition Resume_validate (all : bool) (m : option Resume) : option verror :=
  validating "Resume" all m (λ m, [
    failif (let l := RuneCountInString (Resume_GetSessionId m) in (l <? 1) || (l >? 128)) "SessionId"
      "value length must be between 1 and 128 runes, inclusive";
    failif (Resume_GetLastSeq m <? 0) "LastSeq" "value must be greater than or equal to 0";
    failif (let l := RuneCountInString (Resume_GetToken m) in (l <? 1) || (l >? 4096)) "Token"
      "value length must be between 1 and 4096 runes, inclusive"]).
Definition Heartbeat_BufferLevel_NotInLookup : list HeartbeatBufferLevel := [0].
Record Heartbeat := mkHeartbeat {
  Heartbeat_GetClientTime : Z; Heartbeat_GetBufferLevel : HeartbeatBufferLevel }.
Definition Heartbeat_fields : list (string * rule) :=
  [("client_time", num (Some 0) None); ("buffer_level", enum HeartbeatBufferLevel_numbers [0])].
Definition Heartbeat_value (m : option Heartbeat) : value :=
  VMsg ((λ m, zip Heartbeat_fields
    [VInt (Heartbeat_GetClientTime m); VInt (Heartbeat_GetBufferLevel m)]) <$> m).
Definition Heartbeat_validate (all : bool) (m : option Heartbeat) : option verror :=
  validating "Heartbeat" all m (λ m, [
    failif (Heartbeat_GetClientTime m <? 0) "ClientTime" "value must be greater than or equal to 0";
    failif (in_lookup Heartbeat_BufferLevel_NotInLookup (Heartbeat_GetBufferLevel m)) "BufferLevel"
      "value must not be in list [0]";
    failif (negb (named HeartbeatBufferLevel_name (Heartbeat_GetBufferLevel m))) "BufferLevel"
      "value must be one of the defined enum values"]).
Record HeartbeatAck := mkHeartbeatAck {
  HeartbeatAck_GetServerTime : Z; HeartbeatAck_GetHeartbeatInterval : Z }.
Definition HeartbeatAck_fields : list (string * rule) :=
  [("server_time", num (Some 0) None); ("heartbeat_interval", num (Some 1) (Some 3600))].
Definition HeartbeatAck_value (m : option HeartbeatAck) : value :=
  VMsg ((λ m, zip HeartbeatAck_fields
    [VInt (HeartbeatAck_GetServerTime m); VInt (HeartbeatAck_GetHeartbeatInterval m)]) <$> m).
Definition HeartbeatAck_validate (all : bool) (m : option HeartbeatAck) : option verror :=
  validating "HeartbeatAck" all m (λ m, [
    failif (HeartbeatAck_GetServerTime m <? 0) "ServerTime" "value must be greater than or equal to 0";
    failif (let val := HeartbeatAck_GetHeartbeatInterval m in (val <? 1) || (val >? 3600)) "HeartbeatInterval"
      "value must be inside range [1, 3600]"]).
Record AuthRefresh := mkAuthRefresh {
  AuthRefresh_GetToken : string; AuthRefresh_GetDeviceId : string }.
Definition AuthRefresh_fields : list (string * rule) :=
  [("token", len (Some 1) (Some 4096)); ("device_id", len (Some 1) (Some 128))].
Definition AuthRefresh_value (m : option AuthRefresh) : value :=
  VMsg ((λ m, zip AuthRefresh_fields
    [VString (AuthRefresh_GetToken m); VString (AuthRefresh_GetDeviceId m)]) <$> m).
Definition AuthRefresh_validate (all : bool) (m : option AuthRefresh) : option verror :=
  validating "AuthRefresh" all m (λ m, [
    failif (let l := RuneCountInString (AuthRefresh_GetToken m) in (l <? 1) || (l >? 4096)) "Token"
      "value length must be between 1 and 4096 runes, inclusive";
    failif (let l := RuneCountInString (AuthRefresh_GetDeviceId m) in (l <? 1) || (l >? 128)) "DeviceId"
      "value length must be between 1 and 128 runes, inclusive"]).
Record AuthRefreshAck := mkAuthRefreshAck {
  AuthRefreshAck_GetSuccess : bool; AuthRefreshAck_GetExpireAt : Z }.
Definition AuthRefreshAck_fields : list (string * rule) :=
  [("success", any); ("expire_at", any)].
Definition AuthRefreshAck_value (m : option AuthRefreshAck) : value :=
  VMsg ((λ m, zip AuthRefreshAck_fields
    [VBool (AuthRefreshAck_GetSuccess m); VInt (AuthRefreshAck_GetExpireAt m)]) <$> m).
Definition AuthRefreshAck_validate (all : bool) (m : option AuthRefreshAck) : option verror :=
  validating "AuthRefreshAck" all m (λ m, []).
Record Reconnect := mkReconnect {
  Reconnect_GetAfterMs : Z; Reconnect_GetResumeUrl : string; Reconnect_GetCanResume : bool }.
Definition Reconnect_fields : list (string * rule) :=
  [("after_ms", num (Some 0) (Some 600000)); ("resume_url", len None (Some 2048)); ("can_resume", any)].
Definition Reconnect_value (m : option Reconnect) : value :=
  VMsg ((λ m, zip Reconnect_fields
    [VInt (Reconnect_GetAfterMs m); VString (Reconnect_GetResumeUrl m); VBool (Reconnect_GetCanResume m)]) <$> m).
Definition Reconnect_validate (all : bool) (m : option Reconnect) : option verror :=
  validating "Reconnect" all m (λ m, [
    failif (let val := Reconnect_GetAfterMs m in (val <? 0) || (val >? 600000)) "AfterMs"
      "value must be inside range [0, 600000]";
    failif (RuneCountInString (Reconnect_GetResumeUrl m) >? 2048) "ResumeUrl"
      "value length must be at most 2048 runes"]).
Definition Kick_Code_NotInLookup : list ErrorCode := [0].
Record Kick := mkKick {
  Kick_GetCode : ErrorCode; Kick_GetReason : string; Kick_GetReconnectAfter : Z; Kick_GetPermanent : bool }.
Definition Kick_fields : list (string * rule) :=
  [("code", enum ErrorCode_numbers [0]); ("reason", len (Some 1) (Some 1024));
   ("reconnect_after", num (Some 0) (Some 600000)); ("permanent", any)].
Definition Kick_value (m : option Kick) : value :=
  VMsg ((λ m, zip Kick_fields
    [VInt (Kick_GetCode m); VString (Kick_GetReason m); VInt (Kick_GetReconnectAfter m);
     VBool (Kick_GetPermanent m)]) <$> m).
Definition Kick_validate (all : bool) (m : option Kick) : option verror :=
  validating "Kick" all m (λ m, [
    failif (in_lookup Kick_Code_NotInLookup (Kick_GetCode m)) "Code" "value must not be in list [0]";
    failif (negb (named ErrorCode_name (Kick_GetCode m))) "Code"
      "value must be one of the defined enum values";
    failif (let l := RuneCountInString (Kick_GetReason m) in (l <? 1) || (l >? 1024)) "Reason"
      "value length must be between 1 and 1024 runes, inclusive";
    failif (let val := Kick_GetReconnectAfter m in (val <? 0) || (val >? 600000)) "ReconnectAfter"
      "value must be inside range [0, 600000]"]).
Record Ack := mkAck {
  Ack_GetMsgIds : list string; Ack_GetRecvTime : Z }.
Definition Ack_fields : list (string * rule) :=
  [("msg_ids", items (Some 1) (Some 100)); ("recv_time", num (Some 0) None)].
Definition Ack_value (m : option Ack) : value :=
  VMsg ((λ m, zip Ack_fields
    [VList (length (Ack_GetMsgIds m)); VInt (Ack_GetRecvTime m)]) <$> m).
Definition Ack_validate (all : bool) (m : option Ack) : option verror :=
  validating "Ack" all m (λ m, [
    failif (let l := llen (Ack_GetMsgIds m) in (l <? 1) || (l >? 100)) "MsgIds"
      "value must contain between 1 and 100 items, inclusive";
    failif (Ack_GetRecvTime m <? 0) "RecvTime" "value must be greater than or equal to 0"]).

(** ** Each validator is the one its rules ask for *)
Lemma GatewayFrame_valid (m : option GatewayFrame) :
  valid (λ all, GatewayFrame_validate all m) (violations (GatewayFrame_value m)).
Proof. follows GatewayFrame_value GatewayFrame_fields. Qed.
#[export] Hint Resolve GatewayFrame_valid : validators.
Lemma RouteTarget_valid (m : option RouteTarget) :
  valid (λ all, RouteTarget_validate all m) (violations (RouteTarget_value m)).
Proof. follows RouteTarget_value RouteTarget_fields. Qed.
#[export] Hint Resolve RouteTarget_valid : validators.
Lemma Delivery_valid (m : option Delivery) :
  valid (λ all, Delivery_validate all m) (violations (Delivery_value m)).
Proof. follows Delivery_value Delivery_fields. Qed.
#[export] Hint Resolve Delivery_valid : validators.
Lemma TraceContext_valid (m : option TraceContext) :
  valid (λ all, TraceContext_validate all m) (violations (TraceContext_value m)).
Proof. follows TraceContext_value TraceContext_fields. Qed.
#[export] Hint Resolve TraceContext_valid : validators.
Lemma Dispatch_valid (m : option Dispatch) :
  valid (λ all, Dispatch_validate all m) (violations (Dispatch_value m)).
Proof. follows Dispatch_value Dispatch_fields. Qed.
#[export] Hint Resolve Dispatch_valid : validators.
Lemma Hello_valid (m : option Hello) :
  valid (λ all, Hello_validate all m) (violations (Hello_value m)).
Proof. follows Hello_value Hello_fields. Qed.
#[export] Hint Resolve Hello_valid : validators.
Lemma Handshake_valid (m : option Handshake) :
  valid (λ all, Handshake_validate all m) (violations (Handshake_value m)).
Proof. follows Handshake_value Handshake_fields. Qed.
#[export] Hint Resolve Handshake_valid : validators.
Lemma Ready_valid (m : option Ready) :
  valid (λ all, Ready_validate all m) (violations (Ready_value m)).
Proof. follows Ready_value Ready_fields. Qed.
#[export] Hint Resolve Ready_valid : validators.
Lemma Error_valid (m : option Error) :
  valid (λ all, Error_validate all m) (violations (Error_value m)).
Proof. follows Error_value Error_fields. Qed.
#[export] Hint Resolve Error_valid : validators.
Lemma Resume_valid (m : option Resume) :
  valid (λ all, Resume_validate all m) (violations (Resume_value m)).
Proof. follows Resume_value Resume_fields. Qed.
#[export] Hint Resolve Resume_valid : validators.
Lemma Heartbeat_valid (m : option Heartbeat) :
  valid (λ all, Heartbeat_validate all m) (violations (Heartbeat_value m)).
Proof. follows Heartbeat_value Heartbeat_fields. Qed.
#[export] Hint Resolve Heartbeat_valid : validators.
Lemma HeartbeatAck_valid (m : option HeartbeatAck) :
  valid (λ all, HeartbeatAck_validate all m) (violations (HeartbeatAck_value m)).
Proof. follows HeartbeatAck_value HeartbeatAck_fields. Qed.
#[export] Hint Resolve HeartbeatAck_valid : validators.
Lemma AuthRefresh_valid (m : option AuthRefresh) :
  valid (λ all, AuthRefresh_validate all m) (violations (AuthRefresh_value m)).
Proof. follows AuthRefresh_value AuthRefresh_fields. Qed.
#[export] Hint Resolve AuthRefresh_valid : validators.
Lemma AuthRefreshAck_valid (m : option AuthRefreshAck) :
  valid (λ all, AuthRefreshAck_validate all m) (violations (AuthRefreshAck_value m)).
Proof. follows AuthRefreshAck_value AuthRefreshAck_fields. Qed.
#[export] Hint Resolve AuthRefreshAck_valid : validators.
Lemma Reconnect_valid (m : option Reconnect) :
  valid (λ all, Reconnect_validate all m) (violations (Reconnect_value m)).
Proof. follows Reconnect_value Reconnect_fields. Qed.
#[export] Hint Resolve Reconnect_valid : validators.
Lemma Kick_valid (m : option Kick) :
  valid (λ all, Kick_validate all m) (violations (Kick_value m)).
Proof. follows Kick_value Kick_fields. Qed.
#[export] Hint Resolve Kick_valid : validators.
Lemma Ack_valid (m : option Ack) :
  valid (λ all, Ack_validate all m) (violations (Ack_value m)).
Proof. follows Ack_value Ack_fields. Qed.
#[export] Hint Resolve Ack_valid : validators.
