(* ===== verification/ProtoEvents.v ===== *)
(** * Batches, client events and presence ([batch.proto], [client.proto], [social.proto])

    The messages of three files of [gen/gateway/v1] with their validators and
    rules, as in [ProtoCommon]. *)

From stdpp Require Import base list gmap strings numbers option.
From S2P Require Import Prelude Utf8 Validate ProtoCommon.
Local Open Scope Z_scope.

(** ** [gateway/v1/batch.proto] *)
Record BatchDispatch_SharedMeta := mkBatchDispatch_SharedMeta {
  BatchDispatch_SharedMeta_GetFrom : option RouteTarget; BatchDispatch_SharedMeta_GetBizCode : string;
  BatchDispatch_SharedMeta_GetEventType : string; BatchDispatch_SharedMeta_GetTrace : option TraceContext;
  BatchDispatch_SharedMeta_GetDelivery : option Delivery;
  BatchDispatch_SharedMeta_GetMetadata : gmap string string }.
Definition BatchDispatch_SharedMeta_fields : list (string * rule) :=
  [("from", any); ("biz_code", any); ("event_type", any); ("trace", any); ("delivery", any); ("metadata", any)].
Definition BatchDispatch_SharedMeta_value (m : option BatchDispatch_SharedMeta) : value :=
  VMsg ((λ m, zip BatchDispatch_SharedMeta_fields
    [RouteTarget_value (BatchDispatch_SharedMeta_GetFrom m); VString (BatchDispatch_SharedMeta_GetBizCode m);
     VString (BatchDispatch_SharedMeta_GetEventType m);
     TraceContext_value (BatchDispatch_SharedMeta_GetTrace m);
     Delivery_value (BatchDispatch_SharedMeta_GetDelivery m); VMap (BatchDispatch_SharedMeta_GetMetadata m)]) <$> m).
Definition BatchDispatch_SharedMeta_validate (all : bool) (m : option BatchDispatch_SharedMeta) : option verror :=
  validating "BatchDispatch_SharedMeta" all m (λ m, [
    embed "From" (λ all, RouteTarget_validate all (BatchDispatch_SharedMeta_GetFrom m));
    embed "Trace" (λ all, TraceContext_validate all (BatchDispatch_SharedMeta_GetTrace m));
    embed "Delivery" (λ all, Delivery_validate all (BatchDispatch_SharedMeta_GetDelivery m))]).
Record BatchDispatch_Item := mkBatchDispatch_Item {
  BatchDispatch_Item_GetMsgId : string; BatchDispatch_Item_GetSeqId : Z;
  BatchDispatch_Item_GetTo : option RouteTarget; BatchDispatch_Item_GetPayload : list Z;
  BatchDispatch_Item_GetExpireAt : Z }.
Definition BatchDispatch_Item_fields : list (string * rule) :=
  [("msg_id", any); ("seq_id", any); ("to", any); ("payload", any); ("expire_at", any)].
Definition BatchDispatch_Item_value (m : option BatchDispatch_Item) : value :=
  VMsg ((λ m, zip BatchDispatch_Item_fields
    [VString (BatchDispatch_Item_GetMsgId m); VInt (BatchDispatch_Item_GetSeqId m);
     RouteTarget_value (BatchDispatch_Item_GetTo m); VBytes (BatchDispatch_Item_GetPayload m);
     VInt (BatchDispatch_Item_GetExpireAt m)]) <$> m).
Definition BatchDispatch_Item_validate (all : bool) (m : option BatchDispatch_Item) : option verror :=
  validating "BatchDispatch_Item" all m (λ m, [
    embed "To" (λ all, RouteTarget_validate all (BatchDispatch_Item_GetTo m))]).
Record BatchDispatch := mkBatchDispatch {
  BatchDispatch_GetShared : option BatchDispatch_SharedMeta;
  BatchDispatch_GetItems : list (option BatchDispatch_Item) }.
Definition BatchDispatch_fields : list (string * rule) :=
  [("shared", any); ("items", items (Some 1) (Some 100))].
Definition BatchDispatch_value (m : option BatchDispatch) : value :=
  VMsg ((λ m, zip BatchDispatch_fields
    [BatchDispatch_SharedMeta_value (BatchDispatch_GetShared m);
     VMsgs (BatchDispatch_Item_value <$> BatchDispatch_GetItems m)]) <$> m).
Definition BatchDispatch_validate (all : bool) (m : option BatchDispatch) : option verror :=
  validating "BatchDispatch" all m (λ m, [
    embed "Shared" (λ all, BatchDispatch_SharedMeta_validate all (BatchDispatch_GetShared m));
    failif (let l := llen (BatchDispatch_GetItems m) in (l <? 1) || (l >? 100)) "Items"
      "value must contain between 1 and 100 items, inclusive";
    each "Items" BatchDispatch_Item_validate (BatchDispatch_GetItems m)]).

(** ** [gateway/v1/client.proto] *)
Record RateLimited := mkRateLimited {
  RateLimited_GetCode : ErrorCode; RateLimited_GetLimitType : string; RateLimited_GetCurrentQps : Z;
  RateLimited_GetLimitQps : Z; RateLimited_GetRetryAfterMs : Z; RateLimited_GetDetails : gmap string string }.
Definition RateLimited_fields : list (string * rule) :=
  [("code", any); ("limit_type", any); ("current_qps", any); ("limit_qps", any); ("retry_after_ms", any);
   ("details", any)].
Definition RateLimited_value (m : option RateLimited) : value :=
  VMsg ((λ m, zip RateLimited_fields
    [VInt (RateLimited_GetCode m); VString (RateLimited_GetLimitType m); VInt (RateLimited_GetCurrentQps m);
     VInt (RateLimited_GetLimitQps m); VInt (RateLimited_GetRetryAfterMs m); VMap (RateLimited_GetDetails m)]) <$> m).
Definition RateLimited_validate (all : bool) (m : option RateLimited) : option verror :=
  validating "RateLimited" all m (λ m, []).
Record SystemBroadcast := mkSystemBroadcast {
  SystemBroadcast_GetBroadcastId : string; SystemBroadcast_GetTitle : string;
  SystemBroadcast_GetContent : string; SystemBroadcast_GetPriority : string; SystemBroadcast_GetExpireAt : Z;
  SystemBroadcast_GetExt : gmap string string }.
Definition SystemBroadcast_fields : list (string * rule) :=
  [("broadcast_id", len None (Some 128)); ("title", any); ("content", any); ("priority", any);
   ("expire_at", any); ("ext", any)].
Definition SystemBroadcast_value (m : option SystemBroadcast) : value :=
  VMsg ((λ m, zip SystemBroadcast_fields
    [VString (SystemBroadcast_GetBroadcastId m); VString (SystemBroadcast_GetTitle m);
     VString (SystemBroadcast_GetContent m); VString (SystemBroadcast_GetPriority m);
     VInt (SystemBroadcast_GetExpireAt m); VMap (SystemBroadcast_GetExt m)]) <$> m).
Definition SystemBroadcast_validate (all : bool) (m : option SystemBroadcast) : option verror :=
  validating "SystemBroadcast" all m (λ m, [
    failif (RuneCountInString (SystemBroadcast_GetBroadcastId m) >? 128) "BroadcastId"
      "value length must be at most 128 runes"]).
Record AdminNotice := mkAdminNotice {
  AdminNotice_GetCode : ErrorCode; AdminNotice_GetMessage : string; AdminNotice_GetEffectiveAt : Z;
  AdminNotice_GetExpireAt : Z; AdminNotice_GetActions : gmap string string }.
Definition AdminNotice_fields : list (string * rule) :=
  [("code", any); ("message", any); ("effective_at", any); ("expire_at", any); ("actions", any)].
Definition AdminNotice_value (m : option AdminNotice) : value :=
  VMsg ((λ m, zip AdminNotice_fields
    [VInt (AdminNotice_GetCode m); VString (AdminNotice_GetMessage m); VInt (AdminNotice_GetEffectiveAt m);
     VInt (AdminNotice_GetExpireAt m); VMap (AdminNotice_GetActions m)]) <$> m).
Definition AdminNotice_validate (all : bool) (m : option AdminNotice) : option verror :=
  validating "AdminNotice" all m (λ m, []).

(** ** [gateway/v1/social.proto] *)
Definition PresenceUpdate_PresenceState : Type := Z.
Record PresenceUpdate := mkPresenceUpdate {
  PresenceUpdate_GetState : PresenceUpdate_PresenceState; PresenceUpdate_GetStatusText : string;
  PresenceUpdate_GetLastActiveAt : Z; PresenceUpdate_GetChangeReason : string;
  PresenceUpdate_GetExt : gmap string string }.
Definition PresenceUpdate_fields : list (string * rule) :=
  [("state", any); ("status_text", any); ("last_active_at", any); ("change_reason", any); ("ext", any)].
Definition PresenceUpdate_value (m : option PresenceUpdate) : value :=
  VMsg ((λ m, zip PresenceUpdate_fields
    [VInt (PresenceUpdate_GetState m); VString (PresenceUpdate_GetStatusText m);
     VInt (PresenceUpdate_GetLastActiveAt m); VString (PresenceUpdate_GetChangeReason m);
     VMap (PresenceUpdate_GetExt m)]) <$> m).
Definition PresenceUpdate_validate (all : bool) (m : option PresenceUpdate) : option verror :=
  validating "PresenceUpdate" all m (λ m, []).
Record PresenceBatch_Item := mkPresenceBatch_Item {
  PresenceBatch_Item_GetUserId : string; PresenceBatch_Item_GetState : PresenceUpdate_PresenceState;
  PresenceBatch_Item_GetStatusText : string; PresenceBatch_Item_GetLastActiveAt : Z;
  PresenceBatch_Item_GetChangeReason : string }.
Definition PresenceBatch_Item_fields : list (string * rule) :=
  [("user_id", any); ("state", any); ("status_text", any); ("last_active_at", any); ("change_reason", any)].
Definition PresenceBatch_Item_value (m : option PresenceBatch_Item) : value :=
  VMsg ((λ m, zip PresenceBatch_Item_fields
    [VString (PresenceBatch_Item_GetUserId m); VInt (PresenceBatch_Item_GetState m);
     VString (PresenceBatch_Item_GetStatusText m); VInt (PresenceBatch_Item_GetLastActiveAt m);
     VString (PresenceBatch_Item_GetChangeReason m)]) <$> m).
Definition PresenceBatch_Item_validate (all : bool) (m : option PresenceBatch_Item) : option verror :=
  validating "PresenceBatch_Item" all m (λ m, []).
Record PresenceBatch := mkPresenceBatch {
  PresenceBatch_GetBatchTime : Z; PresenceBatch_GetBatchWindowMs : Z;
  PresenceBatch_GetItems : list (option PresenceBatch_Item) }.
Definition PresenceBatch_fields : list (string * rule) :=
  [("batch_time", any); ("batch_window_ms", any); ("items", any)].
Definition PresenceBatch_value (m : option PresenceBatch) : value :=
  VMsg ((λ m, zip PresenceBatch_fields
    [VInt (PresenceBatch_GetBatchTime m); VInt (PresenceBatch_GetBatchWindowMs m);
     VMsgs (PresenceBatch_Item_value <$> PresenceBatch_GetItems m)]) <$> m).
Definition PresenceBatch_validate (all : bool) (m : option PresenceBatch) : option verror :=
  validating "PresenceBatch" all m (λ m, [
    each "Items" PresenceBatch_Item_validate (PresenceBatch_GetItems m)]).
Record Subscribe_RoomTarget := mkSubscribe_RoomTarget {
  Subscribe_RoomTarget_GetRoomId : string; Subscribe_RoomTarget_GetPassword : string }.
Definition Subscribe_RoomTarget_fields : list (string * rule) :=
  [("room_id", any); ("password", any)].
Definition Subscribe_RoomTarget_value (m : option Subscribe_RoomTarget) : value :=
  VMsg ((λ m, zip Subscribe_RoomTarget_fields
    [VString (Subscribe_RoomTarget_GetRoomId m); VString (Subscribe_RoomTarget_GetPassword m)]) <$> m).
Definition Subscribe_RoomTarget_validate (all : bool) (m : option Subscribe_RoomTarget) : option verror :=
  validating "Subscribe_RoomTarget" all m (λ m, []).
Record Subscribe_TopicTarget := mkSubscribe_TopicTarget {
  Subscribe_TopicTarget_GetTopic : string; Subscribe_TopicTarget_GetLastSeq : Z }.
Definition Subscribe_TopicTarget_fields : list (string * rule) :=
  [("topic", any); ("last_seq", any)].
Definition Subscribe_TopicTarget_value (m : option Subscribe_TopicTarget) : value :=
  VMsg ((λ m, zip Subscribe_TopicTarget_fields
    [VString (Subscribe_TopicTarget_GetTopic m); VInt (Subscribe_TopicTarget_GetLastSeq m)]) <$> m).
Definition Subscribe_TopicTarget_validate (all : bool) (m : option Subscribe_TopicTarget) : option verror :=
  validating "Subscribe_TopicTarget" all m (λ m, []).
Record Subscribe_GroupTarget := mkSubscribe_GroupTarget {
  Subscribe_GroupTarget_GetGroupId : string }.
Definition Subscribe_GroupTarget_fields : list (string * rule) :=
  [("group_id", any)].
Definition Subscribe_GroupTarget_value (m : option Subscribe_GroupTarget) : value :=
  VMsg ((λ m, zip Subscribe_GroupTarget_fields
    [VString (Subscribe_GroupTarget_GetGroupId m)]) <$> m).
Definition Subscribe_GroupTarget_validate (all : bool) (m : option Subscribe_GroupTarget) : option verror :=
  validating "Subscribe_GroupTarget" all m (λ m, []).
(** The wrapper of a [oneof] is a pointer, and may be nil. *)
Inductive Subscribe_Target :=
  | Subscribe_Room (w : option (option Subscribe_RoomTarget))
  | Subscribe_Topic (w : option (option Subscribe_TopicTarget))
  | Subscribe_Group (w : option (option Subscribe_GroupTarget)).
Record Subscribe := mkSubscribe {
  Subscribe_GetTarget : option Subscribe_Target; Subscribe_GetSubscribe : bool }.
Definition Subscribe_fields : list (string * rule) :=
  [("room", any); ("topic", any); ("group", any); ("subscribe", any)].
Definition Subscribe_value (m : option Subscribe) : value :=
  VMsg ((λ m, zip Subscribe_fields
    [match Subscribe_GetTarget m with Some (Subscribe_Room (Some v)) => Subscribe_RoomTarget_value v | _ => VMsg None end;
     match Subscribe_GetTarget m with Some (Subscribe_Topic (Some v)) => Subscribe_TopicTarget_value v | _ => VMsg None end;
     match Subscribe_GetTarget m with Some (Subscribe_Group (Some v)) => Subscribe_GroupTarget_value v | _ => VMsg None end;
     VBool (Subscribe_GetSubscribe m)]) <$> m).
(** One case of the switch over the target: [ValidateAll] goes on after a nil
    wrapper, and the getter dereferences it. *)
Definition Subscribe_case {X} (all : bool) (w : option X) (body : X → step) : outcome (option verror) :=
  match w with
  | None =>
      if all then Panic "invalid memory address or nil pointer dereference"
      else Ret (Some (ValidationError "Subscribe" "Target" "oneof value cannot be a typed-nil" None))
  | Some v => Ret (validating "Subscribe" all (Some v) (λ v, [body v]))
  end.
Definition Subscribe_validate (all : bool) (m : option Subscribe) : outcome (option verror) :=
  match m with
  | None => Ret None
  | Some m =>
      match Subscribe_GetTarget m with
      | Some (Subscribe_Room w) =>
          Subscribe_case all w (λ v, embed "Room" (λ all, Subscribe_RoomTarget_validate all v))
      | Some (Subscribe_Topic w) =>
          Subscribe_case all w (λ v, embed "Topic" (λ all, Subscribe_TopicTarget_validate all v))
      | Some (Subscribe_Group w) =>
          Subscribe_case all w (λ v, embed "Group" (λ all, Subscribe_GroupTarget_validate all v))
      | None => Ret None
      end
  end.
(** No nil wrapper, as in every message that was decoded. *)
Definition target_set (m : option Subscribe) : Prop :=
  match m ≫= Subscribe_GetTarget with
  | Some (Subscribe_Room None) | Some (Subscribe_Topic None) | Some (Subscribe_Group None) => False
  | _ => True
  end.
Record SubscribeAck := mkSubscribeAck {
  SubscribeAck_GetErrorCode : ErrorCode; SubscribeAck_GetErrorMessage : string; SubscribeAck_GetMemberCount : Z;
  SubscribeAck_GetLastSeq : Z }.
Definition SubscribeAck_fields : list (string * rule) :=
  [("error_code", any); ("error_message", any); ("member_count", any); ("last_seq", any)].
Definition SubscribeAck_value (m : option SubscribeAck) : value :=
  VMsg ((λ m, zip SubscribeAck_fields
    [VInt (SubscribeAck_GetErrorCode m); VString (SubscribeAck_GetErrorMessage m);
     VInt (SubscribeAck_GetMemberCount m); VInt (SubscribeAck_GetLastSeq m)]) <$> m).
Definition SubscribeAck_validate (all : bool) (m : option SubscribeAck) : option verror :=
  validating "SubscribeAck" all m (λ m, []).
Record UnsubscribeAck := mkUnsubscribeAck {
  UnsubscribeAck_GetErrorCode : ErrorCode; UnsubscribeAck_GetErrorMessage : string }.
Definition UnsubscribeAck_fields : list (string * rule) :=
  [("error_code", any); ("error_message", any)].
Definition UnsubscribeAck_value (m : option UnsubscribeAck) : value :=
  VMsg ((λ m, zip UnsubscribeAck_fields
    [VInt (UnsubscribeAck_GetErrorCode m); VString (UnsubscribeAck_GetErrorMessage m)]) <$> m).
Definition UnsubscribeAck_validate (all : bool) (m : option UnsubscribeAck) : option verror :=
  validating "UnsubscribeAck" all m (λ m, []).

(** ** Each validator is the one its rules ask for *)
Lemma BatchDispatch_SharedMeta_valid (m : option BatchDispatch_SharedMeta) :
  valid (λ all, BatchDispatch_SharedMeta_validate all m) (violations (BatchDispatch_SharedMeta_value m)).
Proof. follows BatchDispatch_SharedMeta_value BatchDispatch_SharedMeta_fields. Qed.
#[export] Hint Resolve BatchDispatch_SharedMeta_valid : validators.
Lemma BatchDispatch_Item_valid (m : option BatchDispatch_Item) :
  valid (λ all, BatchDispatch_Item_validate all m) (violations (BatchDispatch_Item_value m)).
Proof. follows BatchDispatch_Item_value BatchDispatch_Item_fields. Qed.
#[export] Hint Resolve BatchDispatch_Item_valid : validators.
Lemma BatchDispatch_valid (m : option BatchDispatch) :
  valid (λ all, BatchDispatch_validate all m) (violations (BatchDispatch_value m)).
Proof. follows BatchDispatch_value BatchDispatch_fields. Qed.
#[export] Hint Resolve BatchDispatch_valid : validators.
Lemma RateLimited_valid (m : option RateLimited) :
  valid (λ all, RateLimited_validate all m) (violations (RateLimited_value m)).
Proof. follows RateLimited_value RateLimited_fields. Qed.
#[export] Hint Resolve RateLimited_valid : validators.
Lemma SystemBroadcast_valid (m : option SystemBroadcast) :
  valid (λ all, SystemBroadcast_validate all m) (violations (SystemBroadcast_value m)).
Proof. follows SystemBroadcast_value SystemBroadcast_fields. Qed.
#[export] Hint Resolve SystemBroadcast_valid : validators.
Lemma AdminNotice_valid (m : option AdminNotice) :
  valid (λ all, AdminNotice_validate all m) (violations (AdminNotice_value m)).
Proof. follows AdminNotice_value AdminNotice_fields. Qed.
#[export] Hint Resolve AdminNotice_valid : validators.
Lemma PresenceUpdate_valid (m : option PresenceUpdate) :
  valid (λ all, PresenceUpdate_validate all m) (violations (PresenceUpdate_value m)).
Proof. follows PresenceUpdate_value PresenceUpdate_fields. Qed.
#[export] Hint Resolve PresenceUpdate_valid : validators.
Lemma PresenceBatch_Item_valid (m : option PresenceBatch_Item) :
  valid (λ all, PresenceBatch_Item_validate all m) (violations (PresenceBatch_Item_value m)).
Proof. follows PresenceBatch_Item_value PresenceBatch_Item_fields. Qed.
#[export] Hint Resolve PresenceBatch_Item_valid : validators.
Lemma PresenceBatch_valid (m : option PresenceBatch) :
  valid (λ all, PresenceBatch_validate all m) (violations (PresenceBatch_value m)).
Proof. follows PresenceBatch_value PresenceBatch_fields. Qed.
#[export] Hint Resolve PresenceBatch_valid : validators.
Lemma Subscribe_RoomTarget_valid (m : option Subscribe_RoomTarget) :
  valid (λ all, Subscribe_RoomTarget_validate all m) (violations (Subscribe_RoomTarget_value m)).
Proof. follows Subscribe_RoomTarget_value Subscribe_RoomTarget_fields. Qed.
#[export] Hint Resolve Subscribe_RoomTarget_valid : validators.
Lemma Subscribe_TopicTarget_valid (m : option Subscribe_TopicTarget) :
  valid (λ all, Subscribe_TopicTarget_validate all m) (violations (Subscribe_TopicTarget_value m)).
Proof. follows Subscribe_TopicTarget_value Subscribe_TopicTarget_fields. Qed.
#[export] Hint Resolve Subscribe_TopicTarget_valid : validators.
Lemma Subscribe_GroupTarget_valid (m : option Subscribe_GroupTarget) :
  valid (λ all, Subscribe_GroupTarget_validate all m) (violations (Subscribe_GroupTarget_value m)).
Proof. follows Subscribe_GroupTarget_value Subscribe_GroupTarget_fields. Qed.
#[export] Hint Resolve Subscribe_GroupTarget_valid : validators.
Lemma Subscribe_case_valid {X} (v : X) (F : string) (sub : bool → X → option verror) :
  (∀ all, sub all v = None) →
  ∀ all, Subscribe_case all (Some v) (λ v, embed F (λ all, sub all v)) = Ret None.
Proof. intros Hv []; unfold Subscribe_case, validating, embed; simpl; by rewrite Hv. Qed.

(** The targets have no rules, so a subscription is always valid. *)
Lemma Subscribe_valid (m : option Subscribe) :
  target_set m →
  violations (Subscribe_value m) = [] ∧ ∀ all, Subscribe_validate all m = Ret None.
Proof.
  destruct m as [[[[[t|]|[t|]|[t|]]|] b]|]; try done; intros _; split;
    try (by destruct t); intros all; unfold Subscribe_validate; simpl; try done;
    apply Subscribe_case_valid; intros; by destruct t.
Qed.

(** A nil wrapper, which only a program can build: [Validate] reports it,
    [ValidateAll] crashes on it. *)
Lemma Subscribe_typed_nil (m : option Subscribe) :
  ¬ target_set m →
  Subscribe_validate true m = Panic "invalid memory address or nil pointer dereference" ∧
  Subscribe_validate false m =
    Ret (Some (ValidationError "Subscribe" "Target" "oneof value cannot be a typed-nil" None)).
Proof. unfold target_set, Subscribe_validate. intros Hm. repeat case_match; naive_solver. Qed.
Lemma SubscribeAck_valid (m : option SubscribeAck) :
  valid (λ all, SubscribeAck_validate all m) (violations (SubscribeAck_value m)).
Proof. follows SubscribeAck_value SubscribeAck_fields. Qed.
#[export] Hint Resolve SubscribeAck_valid : validators.
Lemma UnsubscribeAck_valid (m : option UnsubscribeAck) :
  valid (λ all, UnsubscribeAck_validate all m) (violations (UnsubscribeAck_value m)).
Proof. follows UnsubscribeAck_value UnsubscribeAck_fields. Qed.
#[export] Hint Resolve UnsubscribeAck_valid : validators.
