(* ===== verification/ProtoService.v ===== *)
(** * The messages of the internal service ([gateway/v1/gateway_service.proto])

    Requests and answers of the [GatewayInternal] service with their validators
    and rules, as in [ProtoCommon]. *)

From stdpp Require Import base list gmap strings numbers option.
From S2P Require Import Prelude Utf8 Validate ProtoCommon.
Local Open Scope Z_scope.

(** ** [gateway/v1/gateway_service.proto] *)
Definition PushMessageResp_Status : Type := Z.
Definition BatchPushMessageResp_SuccessItem_DeliverType : Type := Z.
Definition ForwardToSessionReq_Reliability : Type := Z.
Definition ForwardToSessionResp_DeliveryStatus : Type := Z.
Definition DrainNodeResp_DrainState : Type := Z.
Definition Payload_Codec_NotInLookup : list Codec := [0].
Definition Payload_Compress_NotInLookup : list CompressAlgo := [0].
Record Payload := mkPayload {
  Payload_GetEventType : string; Payload_GetData : list Z; Payload_GetCodec : Codec;
  Payload_GetCompress : CompressAlgo }.
Definition Payload_fields : list (string * rule) :=
  [("event_type", len None (Some 128)); ("data", any); ("codec", enum Codec_numbers [0]);
   ("compress", enum CompressAlgo_numbers [0])].
Definition Payload_value (m : option Payload) : value :=
  VMsg ((λ m, zip Payload_fields
    [VString (Payload_GetEventType m); VBytes (Payload_GetData m); VInt (Payload_GetCodec m);
     VInt (Payload_GetCompress m)]) <$> m).
Definition Payload_validate (all : bool) (m : option Payload) : option verror :=
  validating "Payload" all m (λ m, [
    failif (RuneCountInString (Payload_GetEventType m) >? 128) "EventType"
      "value length must be at most 128 runes";
    failif (in_lookup Payload_Codec_NotInLookup (Payload_GetCodec m)) "Codec"
      "value must not be in list [0]";
    failif (negb (named Codec_name (Payload_GetCodec m))) "Codec"
      "value must be one of the defined enum values";
    failif (in_lookup Payload_Compress_NotInLookup (Payload_GetCompress m)) "Compress"
      "value must not be in list [0]";
    failif (negb (named CompressAlgo_name (Payload_GetCompress m))) "Compress"
      "value must be one of the defined enum values"]).
Record PushMessageReq := mkPushMessageReq {
  PushMessageReq_GetTo : option RouteTarget; PushMessageReq_GetBizCode : string;
  PushMessageReq_GetDelivery : option Delivery; PushMessageReq_GetPayload : option Payload;
  PushMessageReq_GetOrigin : string; PushMessageReq_GetHeaders : gmap string string }.
Definition PushMessageReq_fields : list (string * rule) :=
  [("to", required); ("biz_code", len None (Some 128)); ("delivery", any); ("payload", required);
   ("origin", any); ("headers", any)].
Definition PushMessageReq_value (m : option PushMessageReq) : value :=
  VMsg ((λ m, zip PushMessageReq_fields
    [RouteTarget_value (PushMessageReq_GetTo m); VString (PushMessageReq_GetBizCode m);
     Delivery_value (PushMessageReq_GetDelivery m); Payload_value (PushMessageReq_GetPayload m);
     VString (PushMessageReq_GetOrigin m); VMap (PushMessageReq_GetHeaders m)]) <$> m).
Definition PushMessageReq_validate (all : bool) (m : option PushMessageReq) : option verror :=
  validating "PushMessageReq" all m (λ m, [
    failif (is_nil (PushMessageReq_GetTo m)) "To" "value is required";
    embed "To" (λ all, RouteTarget_validate all (PushMessageReq_GetTo m));
    failif (RuneCountInString (PushMessageReq_GetBizCode m) >? 128) "BizCode"
      "value length must be at most 128 runes";
    embed "Delivery" (λ all, Delivery_validate all (PushMessageReq_GetDelivery m));
    failif (is_nil (PushMessageReq_GetPayload m)) "Payload" "value is required";
    embed "Payload" (λ all, Payload_validate all (PushMessageReq_GetPayload m))]).
Record PushMessageResp := mkPushMessageResp {
  PushMessageResp_GetAccepted : bool; PushMessageResp_GetStatus : PushMessageResp_Status;
  PushMessageResp_GetSessionId : string; PushMessageResp_GetSeqId : Z; PushMessageResp_GetErrorCode : ErrorCode;
  PushMessageResp_GetErrorMessage : string }.
Definition PushMessageResp_fields : list (string * rule) :=
  [("accepted", any); ("status", any); ("session_id", any); ("seq_id", any); ("error_code", any);
   ("error_message", any)].
Definition PushMessageResp_value (m : option PushMessageResp) : value :=
  VMsg ((λ m, zip PushMessageResp_fields
    [VBool (PushMessageResp_GetAccepted m); VInt (PushMessageResp_GetStatus m);
     VString (PushMessageResp_GetSessionId m); VInt (PushMessageResp_GetSeqId m);
     VInt (PushMessageResp_GetErrorCode m); VString (PushMessageResp_GetErrorMessage m)]) <$> m).
Definition PushMessageResp_validate (all : bool) (m : option PushMessageResp) : option verror :=
  validating "PushMessageResp" all m (λ m, []).
Record BatchPushMessageReq := mkBatchPushMessageReq {
  BatchPushMessageReq_GetToList : list (option RouteTarget); BatchPushMessageReq_GetBizCode : string;
  BatchPushMessageReq_GetDelivery : option Delivery; BatchPushMessageReq_GetPayload : option Payload;
  BatchPushMessageReq_GetOrigin : string }.
Definition BatchPushMessageReq_fields : list (string * rule) :=
  [("to_list", items (Some 1) (Some 1000)); ("biz_code", len None (Some 128)); ("delivery", any);
   ("payload", required); ("origin", any)].
Definition BatchPushMessageReq_value (m : option BatchPushMessageReq) : value :=
  VMsg ((λ m, zip BatchPushMessageReq_fields
    [VMsgs (RouteTarget_value <$> BatchPushMessageReq_GetToList m); VString (BatchPushMessageReq_GetBizCode m);
     Delivery_value (BatchPushMessageReq_GetDelivery m); Payload_value (BatchPushMessageReq_GetPayload m);
     VString (BatchPushMessageReq_GetOrigin m)]) <$> m).
Definition BatchPushMessageReq_validate (all : bool) (m : option BatchPushMessageReq) : option verror :=
  validating "BatchPushMessageReq" all m (λ m, [
    failif (let l := llen (BatchPushMessageReq_GetToList m) in (l <? 1) || (l >? 1000)) "ToList"
      "value must contain between 1 and 1000 items, inclusive";
    each "ToList" RouteTarget_validate (BatchPushMessageReq_GetToList m);
    failif (RuneCountInString (BatchPushMessageReq_GetBizCode m) >? 128) "BizCode"
      "value length must be at most 128 runes";
    embed "Delivery" (λ all, Delivery_validate all (BatchPushMessageReq_GetDelivery m));
    failif (is_nil (BatchPushMessageReq_GetPayload m)) "Payload" "value is required";
    embed "Payload" (λ all, Payload_validate all (BatchPushMessageReq_GetPayload m))]).
Record BatchPushMessageResp_SuccessItem := mkBatchPushMessageResp_SuccessItem {
  BatchPushMessageResp_SuccessItem_GetTargetKey : string;
  BatchPushMessageResp_SuccessItem_GetSessionId : string; BatchPushMessageResp_SuccessItem_GetSeqId : Z;
  BatchPushMessageResp_SuccessItem_GetDeliverType : BatchPushMessageResp_SuccessItem_DeliverType }.
Definition BatchPushMessageResp_SuccessItem_fields : list (string * rule) :=
  [("target_key", any); ("session_id", any); ("seq_id", any); ("deliver_type", any)].
Definition BatchPushMessageResp_SuccessItem_value (m : option BatchPushMessageResp_SuccessItem) : value :=
  VMsg ((λ m, zip BatchPushMessageResp_SuccessItem_fields
    [VString (BatchPushMessageResp_SuccessItem_GetTargetKey m);
     VString (BatchPushMessageResp_SuccessItem_GetSessionId m);
     VInt (BatchPushMessageResp_SuccessItem_GetSeqId m);
     VInt (BatchPushMessageResp_SuccessItem_GetDeliverType m)]) <$> m).
Definition BatchPushMessageResp_SuccessItem_validate (all : bool) (m : option BatchPushMessageResp_SuccessItem) : option verror :=
  validating "BatchPushMessageResp_SuccessItem" all m (λ m, []).
Record BatchPushMessageResp_FailedItem := mkBatchPushMessageResp_FailedItem {
  BatchPushMessageResp_FailedItem_GetTargetKey : string;
  BatchPushMessageResp_FailedItem_GetErrorCode : ErrorCode;
  BatchPushMessageResp_FailedItem_GetErrorMessage : string }.
Definition BatchPushMessageResp_FailedItem_fields : list (string * rule) :=
  [("target_key", any); ("error_code", any); ("error_message", any)].
Definition BatchPushMessageResp_FailedItem_value (m : option BatchPushMessageResp_FailedItem) : value :=
  VMsg ((λ m, zip BatchPushMessageResp_FailedItem_fields
    [VString (BatchPushMessageResp_FailedItem_GetTargetKey m);
     VInt (BatchPushMessageResp_FailedItem_GetErrorCode m);
     VString (BatchPushMessageResp_FailedItem_GetErrorMessage m)]) <$> m).
Definition BatchPushMessageResp_FailedItem_validate (all : bool) (m : option BatchPushMessageResp_FailedItem) : option verror :=
  validating "BatchPushMessageResp_FailedItem" all m (λ m, []).
Record BatchPushMessageResp := mkBatchPushMessageResp {
  BatchPushMessageResp_GetTotalCount : Z; BatchPushMessageResp_GetSuccessCount : Z;
  BatchPushMessageResp_GetFailCount : Z;
  BatchPushMessageResp_GetSuccessItems : list (option BatchPushMessageResp_SuccessItem);
  BatchPushMessageResp_GetFailedItems : list (option BatchPushMessageResp_FailedItem);
  BatchPushMessageResp_GetPendingItems : list string }.
Definition BatchPushMessageResp_fields : list (string * rule) :=
  [("total_count", any); ("success_count", any); ("fail_count", any); ("success_items", any);
   ("failed_items", any); ("pending_items", any)].
Definition BatchPushMessageResp_value (m : option BatchPushMessageResp) : value :=
  VMsg ((λ m, zip BatchPushMessageResp_fields
    [VInt (BatchPushMessageResp_GetTotalCount m); VInt (BatchPushMessageResp_GetSuccessCount m);
     VInt (BatchPushMessageResp_GetFailCount m);
     VMsgs (BatchPushMessageResp_SuccessItem_value <$> BatchPushMessageResp_GetSuccessItems m);
     VMsgs (BatchPushMessageResp_FailedItem_value <$> BatchPushMessageResp_GetFailedItems m);
     VList (length (BatchPushMessageResp_GetPendingItems m))]) <$> m).
Definition BatchPushMessageResp_validate (all : bool) (m : option BatchPushMessageResp) : option verror :=
  validating "BatchPushMessageResp" all m (λ m, [
    each "SuccessItems" BatchPushMessageResp_SuccessItem_validate (BatchPushMessageResp_GetSuccessItems m);
    each "FailedItems" BatchPushMessageResp_FailedItem_validate (BatchPushMessageResp_GetFailedItems m)]).
Record BroadcastToRoomReq := mkBroadcastToRoomReq {
  BroadcastToRoomReq_GetRoomId : string; BroadcastToRoomReq_GetBizCode : string;
  BroadcastToRoomReq_GetDelivery : option Delivery; BroadcastToRoomReq_GetPayload : option Payload;
  BroadcastToRoomReq_GetExcludeSender : bool; BroadcastToRoomReq_GetSenderUserId : string;
  BroadcastToRoomReq_GetFilterLabels : gmap string string }.
Definition BroadcastToRoomReq_fields : list (string * rule) :=
  [("room_id", len (Some 1) (Some 256)); ("biz_code", len None (Some 128)); ("delivery", any);
   ("payload", required); ("exclude_sender", any); ("sender_user_id", any); ("filter_labels", any)].
Definition BroadcastToRoomReq_value (m : option BroadcastToRoomReq) : value :=
  VMsg ((λ m, zip BroadcastToRoomReq_fields
    [VString (BroadcastToRoomReq_GetRoomId m); VString (BroadcastToRoomReq_GetBizCode m);
     Delivery_value (BroadcastToRoomReq_GetDelivery m); Payload_value (BroadcastToRoomReq_GetPayload m);
     VBool (BroadcastToRoomReq_GetExcludeSender m); VString (BroadcastToRoomReq_GetSenderUserId m);
     VMap (BroadcastToRoomReq_GetFilterLabels m)]) <$> m).
Definition BroadcastToRoomReq_validate (all : bool) (m : option BroadcastToRoomReq) : option verror :=
  validating "BroadcastToRoomReq" all m (λ m, [
    failif (let l := RuneCountInString (BroadcastToRoomReq_GetRoomId m) in (l <? 1) || (l >? 256)) "RoomId"
      "value length must be between 1 and 256 runes, inclusive";
    failif (RuneCountInString (BroadcastToRoomReq_GetBizCode m) >? 128) "BizCode"
      "value length must be at most 128 runes";
    embed "Delivery" (λ all, Delivery_validate all (BroadcastToRoomReq_GetDelivery m));
    failif (is_nil (BroadcastToRoomReq_GetPayload m)) "Payload" "value is required";
    embed "Payload" (λ all, Payload_validate all (BroadcastToRoomReq_GetPayload m))]).
Record BroadcastToRoomResp := mkBroadcastToRoomResp {
  BroadcastToRoomResp_GetAccepted : bool; BroadcastToRoomResp_GetTargetCount : Z;
  BroadcastToRoomResp_GetOnlineCount : Z; BroadcastToRoomResp_GetNodeCount : Z;
  BroadcastToRoomResp_GetErrorCode : ErrorCode; BroadcastToRoomResp_GetErrorMessage : string }.
Definition BroadcastToRoomResp_fields : list (string * rule) :=
  [("accepted", any); ("target_count", any); ("online_count", any); ("node_count", any); ("error_code", any);
   ("error_message", any)].
Definition BroadcastToRoomResp_value (m : option BroadcastToRoomResp) : value :=
  VMsg ((λ m, zip BroadcastToRoomResp_fields
    [VBool (BroadcastToRoomResp_GetAccepted m); VInt (BroadcastToRoomResp_GetTargetCount m);
     VInt (BroadcastToRoomResp_GetOnlineCount m); VInt (BroadcastToRoomResp_GetNodeCount m);
     VInt (BroadcastToRoomResp_GetErrorCode m); VString (BroadcastToRoomResp_GetErrorMessage m)]) <$> m).
Definition BroadcastToRoomResp_validate (all : bool) (m : option BroadcastToRoomResp) : option verror :=
  validating "BroadcastToRoomResp" all m (λ m, []).
Record BroadcastToTopicReq := mkBroadcastToTopicReq {
  BroadcastToTopicReq_GetTopic : string; BroadcastToTopicReq_GetBizCode : string;
  BroadcastToTopicReq_GetDelivery : option Delivery; BroadcastToTopicReq_GetPayload : option Payload;
  BroadcastToTopicReq_GetExcludeSender : bool; BroadcastToTopicReq_GetSenderUserId : string }.
Definition BroadcastToTopicReq_fields : list (string * rule) :=
  [("topic", len (Some 1) (Some 256)); ("biz_code", len None (Some 128)); ("delivery", any);
   ("payload", required); ("exclude_sender", any); ("sender_user_id", any)].
Definition BroadcastToTopicReq_value (m : option BroadcastToTopicReq) : value :=
  VMsg ((λ m, zip BroadcastToTopicReq_fields
    [VString (BroadcastToTopicReq_GetTopic m); VString (BroadcastToTopicReq_GetBizCode m);
     Delivery_value (BroadcastToTopicReq_GetDelivery m); Payload_value (BroadcastToTopicReq_GetPayload m);
     VBool (BroadcastToTopicReq_GetExcludeSender m); VString (BroadcastToTopicReq_GetSenderUserId m)]) <$> m).
Definition BroadcastToTopicReq_validate (all : bool) (m : option BroadcastToTopicReq) : option verror :=
  validating "BroadcastToTopicReq" all m (λ m, [
    failif (let l := RuneCountInString (BroadcastToTopicReq_GetTopic m) in (l <? 1) || (l >? 256)) "Topic"
      "value length must be between 1 and 256 runes, inclusive";
    failif (RuneCountInString (BroadcastToTopicReq_GetBizCode m) >? 128) "BizCode"
      "value length must be at most 128 runes";
    embed "Delivery" (λ all, Delivery_validate all (BroadcastToTopicReq_GetDelivery m));
    failif (is_nil (BroadcastToTopicReq_GetPayload m)) "Payload" "value is required";
    embed "Payload" (λ all, Payload_validate all (BroadcastToTopicReq_GetPayload m))]).
Record BroadcastToTopicResp := mkBroadcastToTopicResp {
  BroadcastToTopicResp_GetAccepted : bool; BroadcastToTopicResp_GetSubscriberCount : Z;
  BroadcastToTopicResp_GetNodeCount : Z; BroadcastToTopicResp_GetErrorCode : ErrorCode;
  BroadcastToTopicResp_GetErrorMessage : string }.
Definition BroadcastToTopicResp_fields : list (string * rule) :=
  [("accepted", any); ("subscriber_count", any); ("node_count", any); ("error_code", any);
   ("error_message", any)].
Definition BroadcastToTopicResp_value (m : option BroadcastToTopicResp) : value :=
  VMsg ((λ m, zip BroadcastToTopicResp_fields
    [VBool (BroadcastToTopicResp_GetAccepted m); VInt (BroadcastToTopicResp_GetSubscriberCount m);
     VInt (BroadcastToTopicResp_GetNodeCount m); VInt (BroadcastToTopicResp_GetErrorCode m);
     VString (BroadcastToTopicResp_GetErrorMessage m)]) <$> m).
Definition BroadcastToTopicResp_validate (all : bool) (m : option BroadcastToTopicResp) : option verror :=
  validating "BroadcastToTopicResp" all m (λ m, []).
Record BroadcastToAllReq := mkBroadcastToAllReq {
  BroadcastToAllReq_GetBizCode : string; BroadcastToAllReq_GetDelivery : option Delivery;
  BroadcastToAllReq_GetPayload : option Payload; BroadcastToAllReq_GetFilterBizCodes : list string;
  BroadcastToAllReq_GetBatchSize : Z; BroadcastToAllReq_GetBatchIntervalMs : Z }.
Definition BroadcastToAllReq_fields : list (string * rule) :=
  [("biz_code", len None (Some 128)); ("delivery", any); ("payload", required); ("filter_biz_codes", any);
   ("batch_size", any); ("batch_interval_ms", any)].
Definition BroadcastToAllReq_value (m : option BroadcastToAllReq) : value :=
  VMsg ((λ m, zip BroadcastToAllReq_fields
    [VString (BroadcastToAllReq_GetBizCode m); Delivery_value (BroadcastToAllReq_GetDelivery m);
     Payload_value (BroadcastToAllReq_GetPayload m); VList (length (BroadcastToAllReq_GetFilterBizCodes m));
     VInt (BroadcastToAllReq_GetBatchSize m); VInt (BroadcastToAllReq_GetBatchIntervalMs m)]) <$> m).
Definition BroadcastToAllReq_validate (all : bool) (m : option BroadcastToAllReq) : option verror :=
  validating "BroadcastToAllReq" all m (λ m, [
    failif (RuneCountInString (BroadcastToAllReq_GetBizCode m) >? 128) "BizCode"
      "value length must be at most 128 runes";
    embed "Delivery" (λ all, Delivery_validate all (BroadcastToAllReq_GetDelivery m));
    failif (is_nil (BroadcastToAllReq_GetPayload m)) "Payload" "value is required";
    embed "Payload" (λ all, Payload_validate all (BroadcastToAllReq_GetPayload m))]).
Record BroadcastToAllResp := mkBroadcastToAllResp {
  BroadcastToAllResp_GetAccepted : bool; BroadcastToAllResp_GetTotalOnlineUsers : Z;
  BroadcastToAllResp_GetEstimatedDurationMs : Z; BroadcastToAllResp_GetErrorCode : ErrorCode;
  BroadcastToAllResp_GetErrorMessage : string }.
Definition BroadcastToAllResp_fields : list (string * rule) :=
  [("accepted", any); ("total_online_users", any); ("estimated_duration_ms", any); ("error_code", any);
   ("error_message", any)].
Definition BroadcastToAllResp_value (m : option BroadcastToAllResp) : value :=
  VMsg ((λ m, zip BroadcastToAllResp_fields
    [VBool (BroadcastToAllResp_GetAccepted m); VInt (BroadcastToAllResp_GetTotalOnlineUsers m);
     VInt (BroadcastToAllResp_GetEstimatedDurationMs m); VInt (BroadcastToAllResp_GetErrorCode m);
     VString (BroadcastToAllResp_GetErrorMessage m)]) <$> m).
Definition BroadcastToAllResp_validate (all : bool) (m : option BroadcastToAllResp) : option verror :=
  validating "BroadcastToAllResp" all m (λ m, []).
Record ForwardToSessionReq := mkForwardToSessionReq {
  ForwardToSessionReq_GetSessionId : string; ForwardToSessionReq_GetUserId : string;
  ForwardToSessionReq_GetDeviceId : string; ForwardToSessionReq_GetMsgId : string;
  ForwardToSessionReq_GetSeqId : Z; ForwardToSessionReq_GetBizCode : string;
  ForwardToSessionReq_GetEventType : string; ForwardToSessionReq_GetDelivery : option Delivery;
  ForwardToSessionReq_GetPayload : option Payload; ForwardToSessionReq_GetHeaders : gmap string string;
  ForwardToSessionReq_GetFromNodeId : string; ForwardToSessionReq_GetHopCount : Z;
  ForwardToSessionReq_GetReliability : ForwardToSessionReq_Reliability;
  ForwardToSessionReq_GetDeliveryTag : string }.
Definition ForwardToSessionReq_fields : list (string * rule) :=
  [("session_id", len None (Some 128)); ("user_id", len None (Some 128)); ("device_id", len None (Some 128));
   ("msg_id", any); ("seq_id", any); ("biz_code", any); ("event_type", any); ("delivery", any);
   ("payload", any); ("headers", any); ("from_node_id", any); ("hop_count", any); ("reliability", any);
   ("delivery_tag", any)].
Definition ForwardToSessionReq_value (m : option ForwardToSessionReq) : value :=
  VMsg ((λ m, zip ForwardToSessionReq_fields
    [VString (ForwardToSessionReq_GetSessionId m); VString (ForwardToSessionReq_GetUserId m);
     VString (ForwardToSessionReq_GetDeviceId m); VString (ForwardToSessionReq_GetMsgId m);
     VInt (ForwardToSessionReq_GetSeqId m); VString (ForwardToSessionReq_GetBizCode m);
     VString (ForwardToSessionReq_GetEventType m); Delivery_value (ForwardToSessionReq_GetDelivery m);
     Payload_value (ForwardToSessionReq_GetPayload m); VMap (ForwardToSessionReq_GetHeaders m);
     VString (ForwardToSessionReq_GetFromNodeId m); VInt (ForwardToSessionReq_GetHopCount m);
     VInt (ForwardToSessionReq_GetReliability m); VString (ForwardToSessionReq_GetDeliveryTag m)]) <$> m).
Definition ForwardToSessionReq_validate (all : bool) (m : option ForwardToSessionReq) : option verror :=
  validating "ForwardToSessionReq" all m (λ m, [
    failif (RuneCountInString (ForwardToSessionReq_GetSessionId m) >? 128) "SessionId"
      "value length must be at most 128 runes";
    failif (RuneCountInString (ForwardToSessionReq_GetUserId m) >? 128) "UserId"
      "value length must be at most 128 runes";
    failif (RuneCountInString (ForwardToSessionReq_GetDeviceId m) >? 128) "DeviceId"
      "value length must be at most 128 runes";
    embed "Delivery" (λ all, Delivery_validate all (ForwardToSessionReq_GetDelivery m));
    embed "Payload" (λ all, Payload_validate all (ForwardToSessionReq_GetPayload m))]).
Record ForwardToSessionResp := mkForwardToSessionResp {
  ForwardToSessionResp_GetStatus : ForwardToSessionResp_DeliveryStatus;
  ForwardToSessionResp_GetErrorCode : ErrorCode; ForwardToSessionResp_GetErrorMessage : string;
  ForwardToSessionResp_GetQueryToken : string }.
Definition ForwardToSessionResp_fields : list (string * rule) :=
  [("status", any); ("error_code", any); ("error_message", any); ("query_token", any)].
Definition ForwardToSessionResp_value (m : option ForwardToSessionResp) : value :=
  VMsg ((λ m, zip ForwardToSessionResp_fields
    [VInt (ForwardToSessionResp_GetStatus m); VInt (ForwardToSessionResp_GetErrorCode m);
     VString (ForwardToSessionResp_GetErrorMessage m); VString (ForwardToSessionResp_GetQueryToken m)]) <$> m).
Definition ForwardToSessionResp_validate (all : bool) (m : option ForwardToSessionResp) : option verror :=
  validating "ForwardToSessionResp" all m (λ m, []).
Record ForwardToRoomReq := mkForwardToRoomReq {
  ForwardToRoomReq_GetRoomId : string; ForwardToRoomReq_GetBizCode : string;
  ForwardToRoomReq_GetDelivery : option Delivery; ForwardToRoomReq_GetPayload : option Payload;
  ForwardToRoomReq_GetTargetNodeIds : list string; ForwardToRoomReq_GetFromNodeId : string;
  ForwardToRoomReq_GetHopCount : Z }.
Definition ForwardToRoomReq_fields : list (string * rule) :=
  [("room_id", len (Some 1) (Some 256)); ("biz_code", len None (Some 128)); ("delivery", any);
   ("payload", required); ("target_node_ids", any); ("from_node_id", any); ("hop_count", any)].
Definition ForwardToRoomReq_value (m : option ForwardToRoomReq) : value :=
  VMsg ((λ m, zip ForwardToRoomReq_fields
    [VString (ForwardToRoomReq_GetRoomId m); VString (ForwardToRoomReq_GetBizCode m);
     Delivery_value (ForwardToRoomReq_GetDelivery m); Payload_value (ForwardToRoomReq_GetPayload m);
     VList (length (ForwardToRoomReq_GetTargetNodeIds m)); VString (ForwardToRoomReq_GetFromNodeId m);
     VInt (ForwardToRoomReq_GetHopCount m)]) <$> m).
Definition ForwardToRoomReq_validate (all : bool) (m : option ForwardToRoomReq) : option verror :=
  validating "ForwardToRoomReq" all m (λ m, [
    failif (let l := RuneCountInString (ForwardToRoomReq_GetRoomId m) in (l <? 1) || (l >? 256)) "RoomId"
      "value length must be between 1 and 256 runes, inclusive";
    failif (RuneCountInString (ForwardToRoomReq_GetBizCode m) >? 128) "BizCode"
      "value length must be at most 128 runes";
    embed "Delivery" (λ all, Delivery_validate all (ForwardToRoomReq_GetDelivery m));
    failif (is_nil (ForwardToRoomReq_GetPayload m)) "Payload" "value is required";
    embed "Payload" (λ all, Payload_validate all (ForwardToRoomReq_GetPayload m))]).
Record ForwardToRoomResp := mkForwardToRoomResp {
  ForwardToRoomResp_GetAccepted : bool; ForwardToRoomResp_GetForwardedNodes : Z;
  ForwardToRoomResp_GetErrorCode : ErrorCode; ForwardToRoomResp_GetErrorMessage : string }.
Definition ForwardToRoomResp_fields : list (string * rule) :=
  [("accepted", any); ("forwarded_nodes", any); ("error_code", any); ("error_message", any)].
Definition ForwardToRoomResp_value (m : option ForwardToRoomResp) : value :=
  VMsg ((λ m, zip ForwardToRoomResp_fields
    [VBool (ForwardToRoomResp_GetAccepted m); VInt (ForwardToRoomResp_GetForwardedNodes m);
     VInt (ForwardToRoomResp_GetErrorCode m); VString (ForwardToRoomResp_GetErrorMessage m)]) <$> m).
Definition ForwardToRoomResp_validate (all : bool) (m : option ForwardToRoomResp) : option verror :=
  validating "ForwardToRoomResp" all m (λ m, []).
Record KickUserReq := mkKickUserReq {
  KickUserReq_GetUserId : string; KickUserReq_GetDeviceId : string; KickUserReq_GetCode : ErrorCode;
  KickUserReq_GetReason : string; KickUserReq_GetReconnectAfter : Z; KickUserReq_GetPermanent : bool }.
Definition KickUserReq_fields : list (string * rule) :=
  [("user_id", len None (Some 128)); ("device_id", any); ("code", any); ("reason", any);
   ("reconnect_after", any); ("permanent", any)].
Definition KickUserReq_value (m : option KickUserReq) : value :=
  VMsg ((λ m, zip KickUserReq_fields
    [VString (KickUserReq_GetUserId m); VString (KickUserReq_GetDeviceId m); VInt (KickUserReq_GetCode m);
     VString (KickUserReq_GetReason m); VInt (KickUserReq_GetReconnectAfter m);
     VBool (KickUserReq_GetPermanent m)]) <$> m).
Definition KickUserReq_validate (all : bool) (m : option KickUserReq) : option verror :=
  validating "KickUserReq" all m (λ m, [
    failif (RuneCountInString (KickUserReq_GetUserId m) >? 128) "UserId"
      "value length must be at most 128 runes"]).
Record KickUserResp := mkKickUserResp {
  KickUserResp_GetKickedSessions : Z; KickUserResp_GetKickedDevices : Z }.
Definition KickUserResp_fields : list (string * rule) :=
  [("kicked_sessions", any); ("kicked_devices", any)].
Definition KickUserResp_value (m : option KickUserResp) : value :=
  VMsg ((λ m, zip KickUserResp_fields
    [VInt (KickUserResp_GetKickedSessions m); VInt (KickUserResp_GetKickedDevices m)]) <$> m).
Definition KickUserResp_validate (all : bool) (m : option KickUserResp) : option verror :=
  validating "KickUserResp" all m (λ m, []).
Record KickSessionReq := mkKickSessionReq {
  KickSessionReq_GetSessionId : string; KickSessionReq_GetCode : ErrorCode; KickSessionReq_GetReason : string }.
Definition KickSessionReq_fields : list (string * rule) :=
  [("session_id", len None (Some 128)); ("code", any); ("reason", any)].
Definition KickSessionReq_value (m : option KickSessionReq) : value :=
  VMsg ((λ m, zip KickSessionReq_fields
    [VString (KickSessionReq_GetSessionId m); VInt (KickSessionReq_GetCode m);
     VString (KickSessionReq_GetReason m)]) <$> m).
Definition KickSessionReq_validate (all : bool) (m : option KickSessionReq) : option verror :=
  validating "KickSessionReq" all m (λ m, [
    failif (RuneCountInString (KickSessionReq_GetSessionId m) >? 128) "SessionId"
      "value length must be at most 128 runes"]).
Record KickSessionResp := mkKickSessionResp {
  KickSessionResp_GetFound : bool; KickSessionResp_GetKicked : bool; KickSessionResp_GetErrorCode : ErrorCode;
  KickSessionResp_GetErrorMessage : string }.
Definition KickSessionResp_fields : list (string * rule) :=
  [("found", any); ("kicked", any); ("error_code", any); ("error_message", any)].
Definition KickSessionResp_value (m : option KickSessionResp) : value :=
  VMsg ((λ m, zip KickSessionResp_fields
    [VBool (KickSessionResp_GetFound m); VBool (KickSessionResp_GetKicked m);
     VInt (KickSessionResp_GetErrorCode m); VString (KickSessionResp_GetErrorMessage m)]) <$> m).
Definition KickSessionResp_validate (all : bool) (m : option KickSessionResp) : option verror :=
  validating "KickSessionResp" all m (λ m, []).
Record KickDeviceReq := mkKickDeviceReq {
  KickDeviceReq_GetDeviceId : string; KickDeviceReq_GetCode : ErrorCode; KickDeviceReq_GetReason : string }.
Definition KickDeviceReq_fields : list (string * rule) :=
  [("device_id", len None (Some 128)); ("code", any); ("reason", any)].
Definition KickDeviceReq_value (m : option KickDeviceReq) : value :=
  VMsg ((λ m, zip KickDeviceReq_fields
    [VString (KickDeviceReq_GetDeviceId m); VInt (KickDeviceReq_GetCode m); VString (KickDeviceReq_GetReason m)]) <$> m).
Definition KickDeviceReq_validate (all : bool) (m : option KickDeviceReq) : option verror :=
  validating "KickDeviceReq" all m (λ m, [
    failif (RuneCountInString (KickDeviceReq_GetDeviceId m) >? 128) "DeviceId"
      "value length must be at most 128 runes"]).
Record KickDeviceResp := mkKickDeviceResp {
  KickDeviceResp_GetKickedSessions : Z }.
Definition KickDeviceResp_fields : list (string * rule) :=
  [("kicked_sessions", any)].
Definition KickDeviceResp_value (m : option KickDeviceResp) : value :=
  VMsg ((λ m, zip KickDeviceResp_fields
    [VInt (KickDeviceResp_GetKickedSessions m)]) <$> m).
Definition KickDeviceResp_validate (all : bool) (m : option KickDeviceResp) : option verror :=
  validating "KickDeviceResp" all m (λ m, []).
Record DrainNodeReq := mkDrainNodeReq {
  DrainNodeReq_GetTimeoutSec : Z; DrainNodeReq_GetGraceful : bool; DrainNodeReq_GetReason : string }.
Definition DrainNodeReq_fields : list (string * rule) :=
  [("timeout_sec", any); ("graceful", any); ("reason", any)].
Definition DrainNodeReq_value (m : option DrainNodeReq) : value :=
  VMsg ((λ m, zip DrainNodeReq_fields
    [VInt (DrainNodeReq_GetTimeoutSec m); VBool (DrainNodeReq_GetGraceful m); VString (DrainNodeReq_GetReason m)]) <$> m).
Definition DrainNodeReq_validate (all : bool) (m : option DrainNodeReq) : option verror :=
  validating "DrainNodeReq" all m (λ m, []).
Record DrainNodeResp := mkDrainNodeResp {
  DrainNodeResp_GetAccepted : bool; DrainNodeResp_GetState : DrainNodeResp_DrainState;
  DrainNodeResp_GetRemainingConnections : Z; DrainNodeResp_GetRemainingSessions : Z }.
Definition DrainNodeResp_fields : list (string * rule) :=
  [("accepted", any); ("state", any); ("remaining_connections", any); ("remaining_sessions", any)].
Definition DrainNodeResp_value (m : option DrainNodeResp) : value :=
  VMsg ((λ m, zip DrainNodeResp_fields
    [VBool (DrainNodeResp_GetAccepted m); VInt (DrainNodeResp_GetState m);
     VInt (DrainNodeResp_GetRemainingConnections m); VInt (DrainNodeResp_GetRemainingSessions m)]) <$> m).
Definition DrainNodeResp_validate (all : bool) (m : option DrainNodeResp) : option verror :=
  validating "DrainNodeResp" all m (λ m, []).
Record UndrainNodeReq := mkUndrainNodeReq {}.
Definition UndrainNodeReq_fields : list (string * rule) :=
  [].
Definition UndrainNodeReq_value (m : option UndrainNodeReq) : value :=
  VMsg ((λ m, zip UndrainNodeReq_fields []) <$> m).
Definition UndrainNodeReq_validate (all : bool) (m : option UndrainNodeReq) : option verror :=
  validating "UndrainNodeReq" all m (λ m, []).
Record UndrainNodeResp := mkUndrainNodeResp {
  UndrainNodeResp_GetSuccess : bool; UndrainNodeResp_GetPreviousState : DrainNodeResp_DrainState }.
Definition UndrainNodeResp_fields : list (string * rule) :=
  [("success", any); ("previous_state", any)].
Definition UndrainNodeResp_value (m : option UndrainNodeResp) : value :=
  VMsg ((λ m, zip UndrainNodeResp_fields
    [VBool (UndrainNodeResp_GetSuccess m); VInt (UndrainNodeResp_GetPreviousState m)]) <$> m).
Definition UndrainNodeResp_validate (all : bool) (m : option UndrainNodeResp) : option verror :=
  validating "UndrainNodeResp" all m (λ m, []).
Record GetNodeStatusReq := mkGetNodeStatusReq {}.
Definition GetNodeStatusReq_fields : list (string * rule) :=
  [].
Definition GetNodeStatusReq_value (m : option GetNodeStatusReq) : value :=
  VMsg ((λ m, zip GetNodeStatusReq_fields []) <$> m).
Definition GetNodeStatusReq_validate (all : bool) (m : option GetNodeStatusReq) : option verror :=
  validating "GetNodeStatusReq" all m (λ m, []).
Record GetNodeStatusResp := mkGetNodeStatusResp {
  GetNodeStatusResp_GetNodeId : string; GetNodeStatusResp_GetNodeAddr : string;
  GetNodeStatusResp_GetDrainState : DrainNodeResp_DrainState; GetNodeStatusResp_GetConnectionCount : Z;
  GetNodeStatusResp_GetSessionCount : Z; GetNodeStatusResp_GetUserCount : Z;
  GetNodeStatusResp_GetCpuPercent : Z; GetNodeStatusResp_GetMemoryPercent : Z;
  GetNodeStatusResp_GetGoroutineCount : Z; GetNodeStatusResp_GetUpstreamQps : Z;
  GetNodeStatusResp_GetDownstreamQps : Z; GetNodeStatusResp_GetBroadcastQps : Z;
  GetNodeStatusResp_GetStartTime : Z }.
Definition GetNodeStatusResp_fields : list (string * rule) :=
  [("node_id", any); ("node_addr", any); ("drain_state", any); ("connection_count", any);
   ("session_count", any); ("user_count", any); ("cpu_percent", any); ("memory_percent", any);
   ("goroutine_count", any); ("upstream_qps", any); ("downstream_qps", any); ("broadcast_qps", any);
   ("start_time", any)].
Definition GetNodeStatusResp_value (m : option GetNodeStatusResp) : value :=
  VMsg ((λ m, zip GetNodeStatusResp_fields
    [VString (GetNodeStatusResp_GetNodeId m); VString (GetNodeStatusResp_GetNodeAddr m);
     VInt (GetNodeStatusResp_GetDrainState m); VInt (GetNodeStatusResp_GetConnectionCount m);
     VInt (GetNodeStatusResp_GetSessionCount m); VInt (GetNodeStatusResp_GetUserCount m);
     VInt (GetNodeStatusResp_GetCpuPercent m); VInt (GetNodeStatusResp_GetMemoryPercent m);
     VInt (GetNodeStatusResp_GetGoroutineCount m); VInt (GetNodeStatusResp_GetUpstreamQps m);
     VInt (GetNodeStatusResp_GetDownstreamQps m); VInt (GetNodeStatusResp_GetBroadcastQps m);
     VInt (GetNodeStatusResp_GetStartTime m)]) <$> m).
Definition GetNodeStatusResp_validate (all : bool) (m : option GetNodeStatusResp) : option verror :=
  validating "GetNodeStatusResp" all m (λ m, []).
Record GetStatsReq := mkGetStatsReq {
  GetStatsReq_GetWindowSec : Z; GetStatsReq_GetIncludeBizBreakdown : bool; GetStatsReq_GetTopRooms : Z }.
Definition GetStatsReq_fields : list (string * rule) :=
  [("window_sec", any); ("include_biz_breakdown", any); ("top_rooms", any)].
Definition GetStatsReq_value (m : option GetStatsReq) : value :=
  VMsg ((λ m, zip GetStatsReq_fields
    [VInt (GetStatsReq_GetWindowSec m); VBool (GetStatsReq_GetIncludeBizBreakdown m);
     VInt (GetStatsReq_GetTopRooms m)]) <$> m).
Definition GetStatsReq_validate (all : bool) (m : option GetStatsReq) : option verror :=
  validating "GetStatsReq" all m (λ m, []).
Record GetStatsResp_BizStat := mkGetStatsResp_BizStat {
  GetStatsResp_BizStat_GetBizCode : string; GetStatsResp_BizStat_GetConnectionCount : Z;
  GetStatsResp_BizStat_GetSessionCount : Z; GetStatsResp_BizStat_GetUpstreamQps : Z;
  GetStatsResp_BizStat_GetDownstreamQps : Z }.
Definition GetStatsResp_BizStat_fields : list (string * rule) :=
  [("biz_code", any); ("connection_count", any); ("session_count", any); ("upstream_qps", any);
   ("downstream_qps", any)].
Definition GetStatsResp_BizStat_value (m : option GetStatsResp_BizStat) : value :=
  VMsg ((λ m, zip GetStatsResp_BizStat_fields
    [VString (GetStatsResp_BizStat_GetBizCode m); VInt (GetStatsResp_BizStat_GetConnectionCount m);
     VInt (GetStatsResp_BizStat_GetSessionCount m); VInt (GetStatsResp_BizStat_GetUpstreamQps m);
     VInt (GetStatsResp_BizStat_GetDownstreamQps m)]) <$> m).
Definition GetStatsResp_BizStat_validate (all : bool) (m : option GetStatsResp_BizStat) : option verror :=
  validating "GetStatsResp_BizStat" all m (λ m, []).
Record GetStatsResp_RoomStat := mkGetStatsResp_RoomStat {
  GetStatsResp_RoomStat_GetRoomId : string; GetStatsResp_RoomStat_GetMemberCount : Z;
  GetStatsResp_RoomStat_GetOnlineCount : Z; GetStatsResp_RoomStat_GetMsgQps : Z }.
Definition GetStatsResp_RoomStat_fields : list (string * rule) :=
  [("room_id", any); ("member_count", any); ("online_count", any); ("msg_qps", any)].
Definition GetStatsResp_RoomStat_value (m : option GetStatsResp_RoomStat) : value :=
  VMsg ((λ m, zip GetStatsResp_RoomStat_fields
    [VString (GetStatsResp_RoomStat_GetRoomId m); VInt (GetStatsResp_RoomStat_GetMemberCount m);
     VInt (GetStatsResp_RoomStat_GetOnlineCount m); VInt (GetStatsResp_RoomStat_GetMsgQps m)]) <$> m).
Definition GetStatsResp_RoomStat_validate (all : bool) (m : option GetStatsResp_RoomStat) : option verror :=
  validating "GetStatsResp_RoomStat" all m (λ m, []).
Record GetStatsResp := mkGetStatsResp {
  GetStatsResp_GetTotalNodes : Z; GetStatsResp_GetTotalConnections : Z; GetStatsResp_GetTotalSessions : Z;
  GetStatsResp_GetTotalUsers : Z; GetStatsResp_GetUpstreamQps : Z; GetStatsResp_GetDownstreamQps : Z;
  GetStatsResp_GetBroadcastQps : Z; GetStatsResp_GetBizStats : list (option GetStatsResp_BizStat);
  GetStatsResp_GetRoomStats : list (option GetStatsResp_RoomStat) }.
Definition GetStatsResp_fields : list (string * rule) :=
  [("total_nodes", any); ("total_connections", any); ("total_sessions", any); ("total_users", any);
   ("upstream_qps", any); ("downstream_qps", any); ("broadcast_qps", any); ("biz_stats", any);
   ("room_stats", any)].
Definition GetStatsResp_value (m : option GetStatsResp) : value :=
  VMsg ((λ m, zip GetStatsResp_fields
    [VInt (GetStatsResp_GetTotalNodes m); VInt (GetStatsResp_GetTotalConnections m);
     VInt (GetStatsResp_GetTotalSessions m); VInt (GetStatsResp_GetTotalUsers m);
     VInt (GetStatsResp_GetUpstreamQps m); VInt (GetStatsResp_GetDownstreamQps m);
     VInt (GetStatsResp_GetBroadcastQps m); VMsgs (GetStatsResp_BizStat_value <$> GetStatsResp_GetBizStats m);
     VMsgs (GetStatsResp_RoomStat_value <$> GetStatsResp_GetRoomStats m)]) <$> m).
Definition GetStatsResp_validate (all : bool) (m : option GetStatsResp) : option verror :=
  validating "GetStatsResp" all m (λ m, [
    each "BizStats" GetStatsResp_BizStat_validate (GetStatsResp_GetBizStats m);
    each "RoomStats" GetStatsResp_RoomStat_validate (GetStatsResp_GetRoomStats m)]).
Record GetBizStatsReq := mkGetBizStatsReq {
  GetBizStatsReq_GetBizCode : string }.
Definition GetBizStatsReq_fields : list (string * rule) :=
  [("biz_code", len None (Some 128))].
Definition GetBizStatsReq_value (m : option GetBizStatsReq) : value :=
  VMsg ((λ m, zip GetBizStatsReq_fields
    [VString (GetBizStatsReq_GetBizCode m)]) <$> m).
Definition GetBizStatsReq_validate (all : bool) (m : option GetBizStatsReq) : option verror :=
  validating "GetBizStatsReq" all m (λ m, [
    failif (RuneCountInString (GetBizStatsReq_GetBizCode m) >? 128) "BizCode"
      "value length must be at most 128 runes"]).
Record GetBizStatsResp := mkGetBizStatsResp {
  GetBizStatsResp_GetBizCode : string; GetBizStatsResp_GetConnectionCount : Z;
  GetBizStatsResp_GetSessionCount : Z; GetBizStatsResp_GetUserCount : Z; GetBizStatsResp_GetUpstreamQps : Z;
  GetBizStatsResp_GetDownstreamQps : Z; GetBizStatsResp_GetOfflineQueueSize : Z }.
Definition GetBizStatsResp_fields : list (string * rule) :=
  [("biz_code", any); ("connection_count", any); ("session_count", any); ("user_count", any);
   ("upstream_qps", any); ("downstream_qps", any); ("offline_queue_size", any)].
Definition GetBizStatsResp_value (m : option GetBizStatsResp) : value :=
  VMsg ((λ m, zip GetBizStatsResp_fields
    [VString (GetBizStatsResp_GetBizCode m); VInt (GetBizStatsResp_GetConnectionCount m);
     VInt (GetBizStatsResp_GetSessionCount m); VInt (GetBizStatsResp_GetUserCount m);
     VInt (GetBizStatsResp_GetUpstreamQps m); VInt (GetBizStatsResp_GetDownstreamQps m);
     VInt (GetBizStatsResp_GetOfflineQueueSize m)]) <$> m).
Definition GetBizStatsResp_validate (all : bool) (m : option GetBizStatsResp) : option verror :=
  validating "GetBizStatsResp" all m (λ m, []).
Record GetRoomStatsReq := mkGetRoomStatsReq {
  GetRoomStatsReq_GetRoomId : string }.
Definition GetRoomStatsReq_fields : list (string * rule) :=
  [("room_id", len (Some 1) (Some 256))].
Definition GetRoomStatsReq_value (m : option GetRoomStatsReq) : value :=
  VMsg ((λ m, zip GetRoomStatsReq_fields
    [VString (GetRoomStatsReq_GetRoomId m)]) <$> m).
Definition GetRoomStatsReq_validate (all : bool) (m : option GetRoomStatsReq) : option verror :=
  validating "GetRoomStatsReq" all m (λ m, [
    failif (let l := RuneCountInString (GetRoomStatsReq_GetRoomId m) in (l <? 1) || (l >? 256)) "RoomId"
      "value length must be between 1 and 256 runes, inclusive"]).
Record GetRoomStatsResp := mkGetRoomStatsResp {
  GetRoomStatsResp_GetRoomId : string; GetRoomStatsResp_GetTotalMembers : Z;
  GetRoomStatsResp_GetOnlineMembers : Z; GetRoomStatsResp_GetNodeIds : list string;
  GetRoomStatsResp_GetMsgQps : Z }.
Definition GetRoomStatsResp_fields : list (string * rule) :=
  [("room_id", any); ("total_members", any); ("online_members", any); ("node_ids", any); ("msg_qps", any)].
Definition GetRoomStatsResp_value (m : option GetRoomStatsResp) : value :=
  VMsg ((λ m, zip GetRoomStatsResp_fields
    [VString (GetRoomStatsResp_GetRoomId m); VInt (GetRoomStatsResp_GetTotalMembers m);
     VInt (GetRoomStatsResp_GetOnlineMembers m); VList (length (GetRoomStatsResp_GetNodeIds m));
     VInt (GetRoomStatsResp_GetMsgQps m)]) <$> m).
Definition GetRoomStatsResp_validate (all : bool) (m : option GetRoomStatsResp) : option verror :=
  validating "GetRoomStatsResp" all m (λ m, []).
Record QueryRouteReq := mkQueryRouteReq {
  QueryRouteReq_GetUserId : string; QueryRouteReq_GetDeviceId : string }.
Definition QueryRouteReq_fields : list (string * rule) :=
  [("user_id", len None (Some 128)); ("device_id", any)].
Definition QueryRouteReq_value (m : option QueryRouteReq) : value :=
  VMsg ((λ m, zip QueryRouteReq_fields
    [VString (QueryRouteReq_GetUserId m); VString (QueryRouteReq_GetDeviceId m)]) <$> m).
Definition QueryRouteReq_validate (all : bool) (m : option QueryRouteReq) : option verror :=
  validating "QueryRouteReq" all m (λ m, [
    failif (RuneCountInString (QueryRouteReq_GetUserId m) >? 128) "UserId"
      "value length must be at most 128 runes"]).
Record QueryRouteResp_RouteInfo := mkQueryRouteResp_RouteInfo {
  QueryRouteResp_RouteInfo_GetDeviceId : string; QueryRouteResp_RouteInfo_GetNodeId : string;
  QueryRouteResp_RouteInfo_GetNodeAddr : string; QueryRouteResp_RouteInfo_GetSessionId : string;
  QueryRouteResp_RouteInfo_GetConnId : string; QueryRouteResp_RouteInfo_GetState : string;
  QueryRouteResp_RouteInfo_GetLastActiveAt : Z; QueryRouteResp_RouteInfo_GetConnectTime : Z }.
Definition QueryRouteResp_RouteInfo_fields : list (string * rule) :=
  [("device_id", any); ("node_id", any); ("node_addr", any); ("session_id", any); ("conn_id", any);
   ("state", any); ("last_active_at", any); ("connect_time", any)].
Definition QueryRouteResp_RouteInfo_value (m : option QueryRouteResp_RouteInfo) : value :=
  VMsg ((λ m, zip QueryRouteResp_RouteInfo_fields
    [VString (QueryRouteResp_RouteInfo_GetDeviceId m); VString (QueryRouteResp_RouteInfo_GetNodeId m);
     VString (QueryRouteResp_RouteInfo_GetNodeAddr m); VString (QueryRouteResp_RouteInfo_GetSessionId m);
     VString (QueryRouteResp_RouteInfo_GetConnId m); VString (QueryRouteResp_RouteInfo_GetState m);
     VInt (QueryRouteResp_RouteInfo_GetLastActiveAt m); VInt (QueryRouteResp_RouteInfo_GetConnectTime m)]) <$> m).
Definition QueryRouteResp_RouteInfo_validate (all : bool) (m : option QueryRouteResp_RouteInfo) : option verror :=
  validating "QueryRouteResp_RouteInfo" all m (λ m, []).
Record QueryRouteResp := mkQueryRouteResp {
  QueryRouteResp_GetFound : bool; QueryRouteResp_GetRoutes : list (option QueryRouteResp_RouteInfo) }.
Definition QueryRouteResp_fields : list (string * rule) :=
  [("found", any); ("routes", any)].
Definition QueryRouteResp_value (m : option QueryRouteResp) : value :=
  VMsg ((λ m, zip QueryRouteResp_fields
    [VBool (QueryRouteResp_GetFound m); VMsgs (QueryRouteResp_RouteInfo_value <$> QueryRouteResp_GetRoutes m)]) <$> m).
Definition QueryRouteResp_validate (all : bool) (m : option QueryRouteResp) : option verror :=
  validating "QueryRouteResp" all m (λ m, [
    each "Routes" QueryRouteResp_RouteInfo_validate (QueryRouteResp_GetRoutes m)]).
Record QuerySessionReq := mkQuerySessionReq {
  QuerySessionReq_GetSessionId : string }.
Definition QuerySessionReq_fields : list (string * rule) :=
  [("session_id", len None (Some 128))].
Definition QuerySessionReq_value (m : option QuerySessionReq) : value :=
  VMsg ((λ m, zip QuerySessionReq_fields
    [VString (QuerySessionReq_GetSessionId m)]) <$> m).
Definition QuerySessionReq_validate (all : bool) (m : option QuerySessionReq) : option verror :=
  validating "QuerySessionReq" all m (λ m, [
    failif (RuneCountInString (QuerySessionReq_GetSessionId m) >? 128) "SessionId"
      "value length must be at most 128 runes"]).
Record QuerySessionResp := mkQuerySessionResp {
  QuerySessionResp_GetFound : bool; QuerySessionResp_GetUserId : string; QuerySessionResp_GetDeviceId : string;
  QuerySessionResp_GetState : string; QuerySessionResp_GetLastActiveAt : Z; QuerySessionResp_GetCreateTime : Z;
  QuerySessionResp_GetBizCode : string; QuerySessionResp_GetRooms : list string;
  QuerySessionResp_GetTopics : list string; QuerySessionResp_GetConnId : string;
  QuerySessionResp_GetRemoteAddr : string; QuerySessionResp_GetDeviceType : string }.
Definition QuerySessionResp_fields : list (string * rule) :=
  [("found", any); ("user_id", any); ("device_id", any); ("state", any); ("last_active_at", any);
   ("create_time", any); ("biz_code", any); ("rooms", any); ("topics", any); ("conn_id", any);
   ("remote_addr", any); ("device_type", any)].
Definition QuerySessionResp_value (m : option QuerySessionResp) : value :=
  VMsg ((λ m, zip QuerySessionResp_fields
    [VBool (QuerySessionResp_GetFound m); VString (QuerySessionResp_GetUserId m);
     VString (QuerySessionResp_GetDeviceId m); VString (QuerySessionResp_GetState m);
     VInt (QuerySessionResp_GetLastActiveAt m); VInt (QuerySessionResp_GetCreateTime m);
     VString (QuerySessionResp_GetBizCode m); VList (length (QuerySessionResp_GetRooms m));
     VList (length (QuerySessionResp_GetTopics m)); VString (QuerySessionResp_GetConnId m);
     VString (QuerySessionResp_GetRemoteAddr m); VString (QuerySessionResp_GetDeviceType m)]) <$> m).
Definition QuerySessionResp_validate (all : bool) (m : option QuerySessionResp) : option verror :=
  validating "QuerySessionResp" all m (λ m, []).
Record ListSessionsReq := mkListSessionsReq {
  ListSessionsReq_GetUserId : string; ListSessionsReq_GetRoomId : string; ListSessionsReq_GetTopic : string;
  ListSessionsReq_GetBizCode : string; ListSessionsReq_GetPage : Z; ListSessionsReq_GetPageSize : Z }.
Definition ListSessionsReq_fields : list (string * rule) :=
  [("user_id", any); ("room_id", any); ("topic", any); ("biz_code", any); ("page", num (Some 1) None);
   ("page_size", num (Some 1) (Some 1000))].
Definition ListSessionsReq_value (m : option ListSessionsReq) : value :=
  VMsg ((λ m, zip ListSessionsReq_fields
    [VString (ListSessionsReq_GetUserId m); VString (ListSessionsReq_GetRoomId m);
     VString (ListSessionsReq_GetTopic m); VString (ListSessionsReq_GetBizCode m);
     VInt (ListSessionsReq_GetPage m); VInt (ListSessionsReq_GetPageSize m)]) <$> m).
Definition ListSessionsReq_validate (all : bool) (m : option ListSessionsReq) : option verror :=
  validating "ListSessionsReq" all m (λ m, [
    failif (ListSessionsReq_GetPage m <? 1) "Page" "value must be greater than or equal to 1";
    failif (let val := ListSessionsReq_GetPageSize m in (val <? 1) || (val >? 1000)) "PageSize"
      "value must be inside range [1, 1000]"]).
Record ListSessionsResp_SessionItem := mkListSessionsResp_SessionItem {
  ListSessionsResp_SessionItem_GetSessionId : string; ListSessionsResp_SessionItem_GetUserId : string;
  ListSessionsResp_SessionItem_GetDeviceId : string; ListSessionsResp_SessionItem_GetState : string;
  ListSessionsResp_SessionItem_GetLastActiveAt : Z; ListSessionsResp_SessionItem_GetNodeId : string }.
Definition ListSessionsResp_SessionItem_fields : list (string * rule) :=
  [("session_id", any); ("user_id", any); ("device_id", any); ("state", any); ("last_active_at", any);
   ("node_id", any)].
Definition ListSessionsResp_SessionItem_value (m : option ListSessionsResp_SessionItem) : value :=
  VMsg ((λ m, zip ListSessionsResp_SessionItem_fields
    [VString (ListSessionsResp_SessionItem_GetSessionId m); VString (ListSessionsResp_SessionItem_GetUserId m);
     VString (ListSessionsResp_SessionItem_GetDeviceId m); VString (ListSessionsResp_SessionItem_GetState m);
     VInt (ListSessionsResp_SessionItem_GetLastActiveAt m); VString (ListSessionsResp_SessionItem_GetNodeId m)]) <$> m).
Definition ListSessionsResp_SessionItem_validate (all : bool) (m : option ListSessionsResp_SessionItem) : option verror :=
  validating "ListSessionsResp_SessionItem" all m (λ m, []).
Record ListSessionsResp := mkListSessionsResp {
  ListSessionsResp_GetTotal : Z; ListSessionsResp_GetPage : Z; ListSessionsResp_GetPageSize : Z;
  ListSessionsResp_GetItems : list (option ListSessionsResp_SessionItem) }.
Definition ListSessionsResp_fields : list (string * rule) :=
  [("total", any); ("page", any); ("page_size", any); ("items", any)].
Definition ListSessionsResp_value (m : option ListSessionsResp) : value :=
  VMsg ((λ m, zip ListSessionsResp_fields
    [VInt (ListSessionsResp_GetTotal m); VInt (ListSessionsResp_GetPage m);
     VInt (ListSessionsResp_GetPageSize m);
     VMsgs (ListSessionsResp_SessionItem_value <$> ListSessionsResp_GetItems m)]) <$> m).
Definition ListSessionsResp_validate (all : bool) (m : option ListSessionsResp) : option verror :=
  validating "ListSessionsResp" all m (λ m, [
    each "Items" ListSessionsResp_SessionItem_validate (ListSessionsResp_GetItems m)]).

(** ** Each validator is the one its rules ask for *)
Lemma Payload_valid (m : option Payload) :
  valid (λ all, Payload_validate all m) (violations (Payload_value m)).
Proof. follows Payload_value Payload_fields. Qed.
#[export] Hint Resolve Payload_valid : validators.
Lemma PushMessageReq_valid (m : option PushMessageReq) :
  valid (λ all, PushMessageReq_validate all m) (violations (PushMessageReq_value m)).
Proof. follows PushMessageReq_value PushMessageReq_fields. Qed.
#[export] Hint Resolve PushMessageReq_valid : validators.
Lemma PushMessageResp_valid (m : option PushMessageResp) :
  valid (λ all, PushMessageResp_validate all m) (violations (PushMessageResp_value m)).
Proof. follows PushMessageResp_value PushMessageResp_fields. Qed.
#[export] Hint Resolve PushMessageResp_valid : validators.
Lemma BatchPushMessageReq_valid (m : option BatchPushMessageReq) :
  valid (λ all, BatchPushMessageReq_validate all m) (violations (BatchPushMessageReq_value m)).
Proof. follows BatchPushMessageReq_value BatchPushMessageReq_fields. Qed.
#[export] Hint Resolve BatchPushMessageReq_valid : validators.
Lemma BatchPushMessageResp_SuccessItem_valid (m : option BatchPushMessageResp_SuccessItem) :
  valid (λ all, BatchPushMessageResp_SuccessItem_validate all m) (violations (BatchPushMessageResp_SuccessItem_value m)).
Proof. follows BatchPushMessageResp_SuccessItem_value BatchPushMessageResp_SuccessItem_fields. Qed.
#[export] Hint Resolve BatchPushMessageResp_SuccessItem_valid : validators.
Lemma BatchPushMessageResp_FailedItem_valid (m : option BatchPushMessageResp_FailedItem) :
  valid (λ all, BatchPushMessageResp_FailedItem_validate all m) (violations (BatchPushMessageResp_FailedItem_value m)).
Proof. follows BatchPushMessageResp_FailedItem_value BatchPushMessageResp_FailedItem_fields. Qed.
#[export] Hint Resolve BatchPushMessageResp_FailedItem_valid : validators.
Lemma BatchPushMessageResp_valid (m : option BatchPushMessageResp) :
  valid (λ all, BatchPushMessageResp_validate all m) (violations (BatchPushMessageResp_value m)).
Proof. follows BatchPushMessageResp_value BatchPushMessageResp_fields. Qed.
#[export] Hint Resolve BatchPushMessageResp_valid : validators.
Lemma BroadcastToRoomReq_valid (m : option BroadcastToRoomReq) :
  valid (λ all, BroadcastToRoomReq_validate all m) (violations (BroadcastToRoomReq_value m)).
Proof. follows BroadcastToRoomReq_value BroadcastToRoomReq_fields. Qed.
#[export] Hint Resolve BroadcastToRoomReq_valid : validators.
Lemma BroadcastToRoomResp_valid (m : option BroadcastToRoomResp) :
  valid (λ all, BroadcastToRoomResp_validate all m) (violations (BroadcastToRoomResp_value m)).
Proof. follows BroadcastToRoomResp_value BroadcastToRoomResp_fields. Qed.
#[export] Hint Resolve BroadcastToRoomResp_valid : validators.
Lemma BroadcastToTopicReq_valid (m : option BroadcastToTopicReq) :
  valid (λ all, BroadcastToTopicReq_validate all m) (violations (BroadcastToTopicReq_value m)).
Proof. follows BroadcastToTopicReq_value BroadcastToTopicReq_fields. Qed.
#[export] Hint Resolve BroadcastToTopicReq_valid : validators.
Lemma BroadcastToTopicResp_valid (m : option BroadcastToTopicResp) :
  valid (λ all, BroadcastToTopicResp_validate all m) (violations (BroadcastToTopicResp_value m)).
Proof. follows BroadcastToTopicResp_value BroadcastToTopicResp_fields. Qed.
#[export] Hint Resolve BroadcastToTopicResp_valid : validators.
Lemma BroadcastToAllReq_valid (m : option BroadcastToAllReq) :
  valid (λ all, BroadcastToAllReq_validate all m) (violations (BroadcastToAllReq_value m)).
Proof. follows BroadcastToAllReq_value BroadcastToAllReq_fields. Qed.
#[export] Hint Resolve BroadcastToAllReq_valid : validators.
Lemma BroadcastToAllResp_valid (m : option BroadcastToAllResp) :
  valid (λ all, BroadcastToAllResp_validate all m) (violations (BroadcastToAllResp_value m)).
Proof. follows BroadcastToAllResp_value BroadcastToAllResp_fields. Qed.
#[export] Hint Resolve BroadcastToAllResp_valid : validators.
Lemma ForwardToSessionReq_valid (m : option ForwardToSessionReq) :
  valid (λ all, ForwardToSessionReq_validate all m) (violations (ForwardToSessionReq_value m)).
Proof. follows ForwardToSessionReq_value ForwardToSessionReq_fields. Qed.
#[export] Hint Resolve ForwardToSessionReq_valid : validators.
Lemma ForwardToSessionResp_valid (m : option ForwardToSessionResp) :
  valid (λ all, ForwardToSessionResp_validate all m) (violations (ForwardToSessionResp_value m)).
Proof. follows ForwardToSessionResp_value ForwardToSessionResp_fields. Qed.
#[export] Hint Resolve ForwardToSessionResp_valid : validators.
Lemma ForwardToRoomReq_valid (m : option ForwardToRoomReq) :
  valid (λ all, ForwardToRoomReq_validate all m) (violations (ForwardToRoomReq_value m)).
Proof. follows ForwardToRoomReq_value ForwardToRoomReq_fields. Qed.
#[export] Hint Resolve ForwardToRoomReq_valid : validators.
Lemma ForwardToRoomResp_valid (m : option ForwardToRoomResp) :
  valid (λ all, ForwardToRoomResp_validate all m) (violations (ForwardToRoomResp_value m)).
Proof. follows ForwardToRoomResp_value ForwardToRoomResp_fields. Qed.
#[export] Hint Resolve ForwardToRoomResp_valid : validators.
Lemma KickUserReq_valid (m : option KickUserReq) :
  valid (λ all, KickUserReq_validate all m) (violations (KickUserReq_value m)).
Proof. follows KickUserReq_value KickUserReq_fields. Qed.
#[export] Hint Resolve KickUserReq_valid : validators.
Lemma KickUserResp_valid (m : option KickUserResp) :
  valid (λ all, KickUserResp_validate all m) (violations (KickUserResp_value m)).
Proof. follows KickUserResp_value KickUserResp_fields. Qed.
#[export] Hint Resolve KickUserResp_valid : validators.
Lemma KickSessionReq_valid (m : option KickSessionReq) :
  valid (λ all, KickSessionReq_validate all m) (violations (KickSessionReq_value m)).
Proof. follows KickSessionReq_value KickSessionReq_fields. Qed.
#[export] Hint Resolve KickSessionReq_valid : validators.
Lemma KickSessionResp_valid (m : option KickSessionResp) :
  valid (λ all, KickSessionResp_validate all m) (violations (KickSessionResp_value m)).
Proof. follows KickSessionResp_value KickSessionResp_fields. Qed.
#[export] Hint Resolve KickSessionResp_valid : validators.
Lemma KickDeviceReq_valid (m : option KickDeviceReq) :
  valid (λ all, KickDeviceReq_validate all m) (violations (KickDeviceReq_value m)).
Proof. follows KickDeviceReq_value KickDeviceReq_fields. Qed.
#[export] Hint Resolve KickDeviceReq_valid : validators.
Lemma KickDeviceResp_valid (m : option KickDeviceResp) :
  valid (λ all, KickDeviceResp_validate all m) (violations (KickDeviceResp_value m)).
Proof. follows KickDeviceResp_value KickDeviceResp_fields. Qed.
#[export] Hint Resolve KickDeviceResp_valid : validators.
Lemma DrainNodeReq_valid (m : option DrainNodeReq) :
  valid (λ all, DrainNodeReq_validate all m) (violations (DrainNodeReq_value m)).
Proof. follows DrainNodeReq_value DrainNodeReq_fields. Qed.
#[export] Hint Resolve DrainNodeReq_valid : validators.
Lemma DrainNodeResp_valid (m : option DrainNodeResp) :
  valid (λ all, DrainNodeResp_validate all m) (violations (DrainNodeResp_value m)).
Proof. follows DrainNodeResp_value DrainNodeResp_fields. Qed.
#[export] Hint Resolve DrainNodeResp_valid : validators.
Lemma UndrainNodeReq_valid (m : option UndrainNodeReq) :
  valid (λ all, UndrainNodeReq_validate all m) (violations (UndrainNodeReq_value m)).
Proof. follows UndrainNodeReq_value UndrainNodeReq_fields. Qed.
#[export] Hint Resolve UndrainNodeReq_valid : validators.
Lemma UndrainNodeResp_valid (m : option UndrainNodeResp) :
  valid (λ all, UndrainNodeResp_validate all m) (violations (UndrainNodeResp_value m)).
Proof. follows UndrainNodeResp_value UndrainNodeResp_fields. Qed.
#[export] Hint Resolve UndrainNodeResp_valid : validators.
Lemma GetNodeStatusReq_valid (m : option GetNodeStatusReq) :
  valid (λ all, GetNodeStatusReq_validate all m) (violations (GetNodeStatusReq_value m)).
Proof. follows GetNodeStatusReq_value GetNodeStatusReq_fields. Qed.
#[export] Hint Resolve GetNodeStatusReq_valid : validators.
Lemma GetNodeStatusResp_valid (m : option GetNodeStatusResp) :
  valid (λ all, GetNodeStatusResp_validate all m) (violations (GetNodeStatusResp_value m)).
Proof. follows GetNodeStatusResp_value GetNodeStatusResp_fields. Qed.
#[export] Hint Resolve GetNodeStatusResp_valid : validators.
Lemma GetStatsReq_valid (m : option GetStatsReq) :
  valid (λ all, GetStatsReq_validate all m) (violations (GetStatsReq_value m)).
Proof. follows GetStatsReq_value GetStatsReq_fields. Qed.
#[export] Hint Resolve GetStatsReq_valid : validators.
Lemma GetStatsResp_BizStat_valid (m : option GetStatsResp_BizStat) :
  valid (λ all, GetStatsResp_BizStat_validate all m) (violations (GetStatsResp_BizStat_value m)).
Proof. follows GetStatsResp_BizStat_value GetStatsResp_BizStat_fields. Qed.
#[export] Hint Resolve GetStatsResp_BizStat_valid : validators.
Lemma GetStatsResp_RoomStat_valid (m : option GetStatsResp_RoomStat) :
  valid (λ all, GetStatsResp_RoomStat_validate all m) (violations (GetStatsResp_RoomStat_value m)).
Proof. follows GetStatsResp_RoomStat_value GetStatsResp_RoomStat_fields. Qed.
#[export] Hint Resolve GetStatsResp_RoomStat_valid : validators.
Lemma GetStatsResp_valid (m : option GetStatsResp) :
  valid (λ all, GetStatsResp_validate all m) (violations (GetStatsResp_value m)).
Proof. follows GetStatsResp_value GetStatsResp_fields. Qed.
#[export] Hint Resolve GetStatsResp_valid : validators.
Lemma GetBizStatsReq_valid (m : option GetBizStatsReq) :
  valid (λ all, GetBizStatsReq_validate all m) (violations (GetBizStatsReq_value m)).
Proof. follows GetBizStatsReq_value GetBizStatsReq_fields. Qed.
#[export] Hint Resolve GetBizStatsReq_valid : validators.
Lemma GetBizStatsResp_valid (m : option GetBizStatsResp) :
  valid (λ all, GetBizStatsResp_validate all m) (violations (GetBizStatsResp_value m)).
Proof. follows GetBizStatsResp_value GetBizStatsResp_fields. Qed.
#[export] Hint Resolve GetBizStatsResp_valid : validators.
Lemma GetRoomStatsReq_valid (m : option GetRoomStatsReq) :
  valid (λ all, GetRoomStatsReq_validate all m) (violations (GetRoomStatsReq_value m)).
Proof. follows GetRoomStatsReq_value GetRoomStatsReq_fields. Qed.
#[export] Hint Resolve GetRoomStatsReq_valid : validators.
Lemma GetRoomStatsResp_valid (m : option GetRoomStatsResp) :
  valid (λ all, GetRoomStatsResp_validate all m) (violations (GetRoomStatsResp_value m)).
Proof. follows GetRoomStatsResp_value GetRoomStatsResp_fields. Qed.
#[export] Hint Resolve GetRoomStatsResp_valid : validators.
Lemma QueryRouteReq_valid (m : option QueryRouteReq) :
  valid (λ all, QueryRouteReq_validate all m) (violations (QueryRouteReq_value m)).
Proof. follows QueryRouteReq_value QueryRouteReq_fields. Qed.
#[export] Hint Resolve QueryRouteReq_valid : validators.
Lemma QueryRouteResp_RouteInfo_valid (m : option QueryRouteResp_RouteInfo) :
  valid (λ all, QueryRouteResp_RouteInfo_validate all m) (violations (QueryRouteResp_RouteInfo_value m)).
Proof. follows QueryRouteResp_RouteInfo_value QueryRouteResp_RouteInfo_fields. Qed.
#[export] Hint Resolve QueryRouteResp_RouteInfo_valid : validators.
Lemma QueryRouteResp_valid (m : option QueryRouteResp) :
  valid (λ all, QueryRouteResp_validate all m) (violations (QueryRouteResp_value m)).
Proof. follows QueryRouteResp_value QueryRouteResp_fields. Qed.
#[export] Hint Resolve QueryRouteResp_valid : validators.
Lemma QuerySessionReq_valid (m : option QuerySessionReq) :
  valid (λ all, QuerySessionReq_validate all m) (violations (QuerySessionReq_value m)).
Proof. follows QuerySessionReq_value QuerySessionReq_fields. Qed.
#[export] Hint Resolve QuerySessionReq_valid : validators.
Lemma QuerySessionResp_valid (m : option QuerySessionResp) :
  valid (λ all, QuerySessionResp_validate all m) (violations (QuerySessionResp_value m)).
Proof. follows QuerySessionResp_value QuerySessionResp_fields. Qed.
#[export] Hint Resolve QuerySessionResp_valid : validators.
Lemma ListSessionsReq_valid (m : option ListSessionsReq) :
  valid (λ all, ListSessionsReq_validate all m) (violations (ListSessionsReq_value m)).
Proof. follows ListSessionsReq_value ListSessionsReq_fields. Qed.
#[export] Hint Resolve ListSessionsReq_valid : validators.
Lemma ListSessionsResp_SessionItem_valid (m : option ListSessionsResp_SessionItem) :
  valid (λ all, ListSessionsResp_SessionItem_validate all m) (violations (ListSessionsResp_SessionItem_value m)).
Proof. follows ListSessionsResp_SessionItem_value ListSessionsResp_SessionItem_fields. Qed.
#[export] Hint Resolve ListSessionsResp_SessionItem_valid : validators.
Lemma ListSessionsResp_valid (m : option ListSessionsResp) :
  valid (λ all, ListSessionsResp_validate all m) (violations (ListSessionsResp_value m)).
Proof. follows ListSessionsResp_value ListSessionsResp_fields. Qed.
#[export] Hint Resolve ListSessionsResp_valid : validators.
