(* ===== verification/ProtoDomains.v ===== *)
(** * The messages of the business domains ([im], [call], [file], [live], [data], [message])

    The payloads that travel in a [Dispatch], with their validators and rules, as
    in [ProtoCommon].  [float32] fields, which have no rules, are their bits. *)

From stdpp Require Import base list gmap strings numbers option.
From S2P Require Import Prelude Utf8 Validate.
Local Open Scope Z_scope.

(** ** [im/im.proto] *)
Record IMChat := mkIMChat {
  IMChat_GetConvId : string; IMChat_GetContentType : string; IMChat_GetContent : list Z;
  IMChat_GetMentions : list string; IMChat_GetReplyTo : string; IMChat_GetExt : gmap string string }.
Definition IMChat_fields : list (string * rule) :=
  [("conv_id", len None (Some 256)); ("content_type", len None (Some 64)); ("content", any); ("mentions", any);
   ("reply_to", len None (Some 128)); ("ext", any)].
Definition IMChat_value (m : option IMChat) : value :=
  VMsg ((λ m, zip IMChat_fields
    [VString (IMChat_GetConvId m); VString (IMChat_GetContentType m); VBytes (IMChat_GetContent m);
     VList (length (IMChat_GetMentions m)); VString (IMChat_GetReplyTo m); VMap (IMChat_GetExt m)]) <$> m).
Definition IMChat_validate (all : bool) (m : option IMChat) : option verror :=
  validating "IMChat" all m (λ m, [
    failif (RuneCountInString (IMChat_GetConvId m) >? 256) "ConvId" "value length must be at most 256 runes";
    failif (RuneCountInString (IMChat_GetContentType m) >? 64) "ContentType"
      "value length must be at most 64 runes";
    failif (RuneCountInString (IMChat_GetReplyTo m) >? 128) "ReplyTo"
      "value length must be at most 128 runes"]).
Record IMReceipt := mkIMReceipt {
  IMReceipt_GetConvId : string; IMReceipt_GetReceiptType : string; IMReceipt_GetMsgIds : list string;
  IMReceipt_GetReadSeq : Z }.
Definition IMReceipt_fields : list (string * rule) :=
  [("conv_id", any); ("receipt_type", len None (Some 32)); ("msg_ids", items None (Some 100)); ("read_seq", any)].
Definition IMReceipt_value (m : option IMReceipt) : value :=
  VMsg ((λ m, zip IMReceipt_fields
    [VString (IMReceipt_GetConvId m); VString (IMReceipt_GetReceiptType m);
     VList (length (IMReceipt_GetMsgIds m)); VInt (IMReceipt_GetReadSeq m)]) <$> m).
Definition IMReceipt_validate (all : bool) (m : option IMReceipt) : option verror :=
  validating "IMReceipt" all m (λ m, [
    failif (RuneCountInString (IMReceipt_GetReceiptType m) >? 32) "ReceiptType"
      "value length must be at most 32 runes";
    failif (llen (IMReceipt_GetMsgIds m) >? 100) "MsgIds" "value must contain no more than 100 item(s)"]).
Record IMRevoke := mkIMRevoke {
  IMRevoke_GetConvId : string; IMRevoke_GetMsgId : string; IMRevoke_GetReason : string }.
Definition IMRevoke_fields : list (string * rule) :=
  [("conv_id", any); ("msg_id", len None (Some 128)); ("reason", any)].
Definition IMRevoke_value (m : option IMRevoke) : value :=
  VMsg ((λ m, zip IMRevoke_fields
    [VString (IMRevoke_GetConvId m); VString (IMRevoke_GetMsgId m); VString (IMRevoke_GetReason m)]) <$> m).
Definition IMRevoke_validate (all : bool) (m : option IMRevoke) : option verror :=
  validating "IMRevoke" all m (λ m, [
    failif (RuneCountInString (IMRevoke_GetMsgId m) >? 128) "MsgId" "value length must be at most 128 runes"]).
Record IMEdit := mkIMEdit {
  IMEdit_GetConvId : string; IMEdit_GetMsgId : string; IMEdit_GetContent : list Z;
  IMEdit_GetContentType : string; IMEdit_GetEditAt : Z; IMEdit_GetEditCount : Z }.
Definition IMEdit_fields : list (string * rule) :=
  [("conv_id", len None (Some 256)); ("msg_id", len None (Some 128)); ("content", any);
   ("content_type", len None (Some 64)); ("edit_at", any); ("edit_count", any)].
Definition IMEdit_value (m : option IMEdit) : value :=
  VMsg ((λ m, zip IMEdit_fields
    [VString (IMEdit_GetConvId m); VString (IMEdit_GetMsgId m); VBytes (IMEdit_GetContent m);
     VString (IMEdit_GetContentType m); VInt (IMEdit_GetEditAt m); VInt (IMEdit_GetEditCount m)]) <$> m).
Definition IMEdit_validate (all : bool) (m : option IMEdit) : option verror :=
  validating "IMEdit" all m (λ m, [
    failif (RuneCountInString (IMEdit_GetConvId m) >? 256) "ConvId" "value length must be at most 256 runes";
    failif (RuneCountInString (IMEdit_GetMsgId m) >? 128) "MsgId" "value length must be at most 128 runes";
    failif (RuneCountInString (IMEdit_GetContentType m) >? 64) "ContentType"
      "value length must be at most 64 runes"]).
Record IMTyping := mkIMTyping {
  IMTyping_GetConvId : string; IMTyping_GetContentType : string; IMTyping_GetDurationMs : Z }.
Definition IMTyping_fields : list (string * rule) :=
  [("conv_id", any); ("content_type", any); ("duration_ms", any)].
Definition IMTyping_value (m : option IMTyping) : value :=
  VMsg ((λ m, zip IMTyping_fields
    [VString (IMTyping_GetConvId m); VString (IMTyping_GetContentType m); VInt (IMTyping_GetDurationMs m)]) <$> m).
Definition IMTyping_validate (all : bool) (m : option IMTyping) : option verror :=
  validating "IMTyping" all m (λ m, []).
Record IMReaction := mkIMReaction {
  IMReaction_GetConvId : string; IMReaction_GetMsgId : string; IMReaction_GetReaction : string;
  IMReaction_GetIsAdd : bool }.
Definition IMReaction_fields : list (string * rule) :=
  [("conv_id", any); ("msg_id", len None (Some 128)); ("reaction", any); ("is_add", any)].
Definition IMReaction_value (m : option IMReaction) : value :=
  VMsg ((λ m, zip IMReaction_fields
    [VString (IMReaction_GetConvId m); VString (IMReaction_GetMsgId m); VString (IMReaction_GetReaction m);
     VBool (IMReaction_GetIsAdd m)]) <$> m).
Definition IMReaction_validate (all : bool) (m : option IMReaction) : option verror :=
  validating "IMReaction" all m (λ m, [
    failif (RuneCountInString (IMReaction_GetMsgId m) >? 128) "MsgId"
      "value length must be at most 128 runes"]).
Record IMPin := mkIMPin {
  IMPin_GetConvId : string; IMPin_GetMsgId : string; IMPin_GetIsPin : bool }.
Definition IMPin_fields : list (string * rule) :=
  [("conv_id", any); ("msg_id", len None (Some 128)); ("is_pin", any)].
Definition IMPin_value (m : option IMPin) : value :=
  VMsg ((λ m, zip IMPin_fields
    [VString (IMPin_GetConvId m); VString (IMPin_GetMsgId m); VBool (IMPin_GetIsPin m)]) <$> m).
Definition IMPin_validate (all : bool) (m : option IMPin) : option verror :=
  validating "IMPin" all m (λ m, [
    failif (RuneCountInString (IMPin_GetMsgId m) >? 128) "MsgId" "value length must be at most 128 runes"]).

(** ** [call/call.proto] *)
Record CallOffer := mkCallOffer {
  CallOffer_GetCallId : string; CallOffer_GetCalleeId : string; CallOffer_GetCallType : string;
  CallOffer_GetSdp : list Z; CallOffer_GetExt : gmap string string }.
Definition CallOffer_fields : list (string * rule) :=
  [("call_id", len None (Some 128)); ("callee_id", any); ("call_type", any); ("sdp", any); ("ext", any)].
Definition CallOffer_value (m : option CallOffer) : value :=
  VMsg ((λ m, zip CallOffer_fields
    [VString (CallOffer_GetCallId m); VString (CallOffer_GetCalleeId m); VString (CallOffer_GetCallType m);
     VBytes (CallOffer_GetSdp m); VMap (CallOffer_GetExt m)]) <$> m).
Definition CallOffer_validate (all : bool) (m : option CallOffer) : option verror :=
  validating "CallOffer" all m (λ m, [
    failif (RuneCountInString (CallOffer_GetCallId m) >? 128) "CallId"
      "value length must be at most 128 runes"]).
Record CallAnswer := mkCallAnswer {
  CallAnswer_GetCallId : string; CallAnswer_GetAccepted : bool; CallAnswer_GetReason : string;
  CallAnswer_GetSdp : list Z }.
Definition CallAnswer_fields : list (string * rule) :=
  [("call_id", len None (Some 128)); ("accepted", any); ("reason", any); ("sdp", any)].
Definition CallAnswer_value (m : option CallAnswer) : value :=
  VMsg ((λ m, zip CallAnswer_fields
    [VString (CallAnswer_GetCallId m); VBool (CallAnswer_GetAccepted m); VString (CallAnswer_GetReason m);
     VBytes (CallAnswer_GetSdp m)]) <$> m).
Definition CallAnswer_validate (all : bool) (m : option CallAnswer) : option verror :=
  validating "CallAnswer" all m (λ m, [
    failif (RuneCountInString (CallAnswer_GetCallId m) >? 128) "CallId"
      "value length must be at most 128 runes"]).
Record CallICE := mkCallICE {
  CallICE_GetCallId : string; CallICE_GetCandidate : string; CallICE_GetSdpMid : string;
  CallICE_GetSdpMlineIndex : Z }.
Definition CallICE_fields : list (string * rule) :=
  [("call_id", len None (Some 128)); ("candidate", any); ("sdp_mid", any); ("sdp_mline_index", any)].
Definition CallICE_value (m : option CallICE) : value :=
  VMsg ((λ m, zip CallICE_fields
    [VString (CallICE_GetCallId m); VString (CallICE_GetCandidate m); VString (CallICE_GetSdpMid m);
     VInt (CallICE_GetSdpMlineIndex m)]) <$> m).
Definition CallICE_validate (all : bool) (m : option CallICE) : option verror :=
  validating "CallICE" all m (λ m, [
    failif (RuneCountInString (CallICE_GetCallId m) >? 128) "CallId"
      "value length must be at most 128 runes"]).
Record CallHangup := mkCallHangup {
  CallHangup_GetCallId : string; CallHangup_GetReason : string; CallHangup_GetDurationMs : Z }.
Definition CallHangup_fields : list (string * rule) :=
  [("call_id", len None (Some 128)); ("reason", any); ("duration_ms", any)].
Definition CallHangup_value (m : option CallHangup) : value :=
  VMsg ((λ m, zip CallHangup_fields
    [VString (CallHangup_GetCallId m); VString (CallHangup_GetReason m); VInt (CallHangup_GetDurationMs m)]) <$> m).
Definition CallHangup_validate (all : bool) (m : option CallHangup) : option verror :=
  validating "CallHangup" all m (λ m, [
    failif (RuneCountInString (CallHangup_GetCallId m) >? 128) "CallId"
      "value length must be at most 128 runes"]).
Record CallModify := mkCallModify {
  CallModify_GetCallId : string; CallModify_GetAction : string; CallModify_GetEnabled : bool }.
Definition CallModify_fields : list (string * rule) :=
  [("call_id", len None (Some 128)); ("action", any); ("enabled", any)].
Definition CallModify_value (m : option CallModify) : value :=
  VMsg ((λ m, zip CallModify_fields
    [VString (CallModify_GetCallId m); VString (CallModify_GetAction m); VBool (CallModify_GetEnabled m)]) <$> m).
Definition CallModify_validate (all : bool) (m : option CallModify) : option verror :=
  validating "CallModify" all m (λ m, [
    failif (RuneCountInString (CallModify_GetCallId m) >? 128) "CallId"
      "value length must be at most 128 runes"]).

(** ** [file/file.proto] *)
Record FileOffer := mkFileOffer {
  FileOffer_GetFileId : string; FileOffer_GetFileName : string; FileOffer_GetMimeType : string;
  FileOffer_GetFileSize : Z; FileOffer_GetChecksum : string; FileOffer_GetUploadUrl : string;
  FileOffer_GetDownloadUrl : string; FileOffer_GetTtlSeconds : Z }.
Definition FileOffer_fields : list (string * rule) :=
  [("file_id", len None (Some 128)); ("file_name", len None (Some 256)); ("mime_type", any); ("file_size", any);
   ("checksum", any); ("upload_url", any); ("download_url", any); ("ttl_seconds", any)].
Definition FileOffer_value (m : option FileOffer) : value :=
  VMsg ((λ m, zip FileOffer_fields
    [VString (FileOffer_GetFileId m); VString (FileOffer_GetFileName m); VString (FileOffer_GetMimeType m);
     VInt (FileOffer_GetFileSize m); VString (FileOffer_GetChecksum m); VString (FileOffer_GetUploadUrl m);
     VString (FileOffer_GetDownloadUrl m); VInt (FileOffer_GetTtlSeconds m)]) <$> m).
Definition FileOffer_validate (all : bool) (m : option FileOffer) : option verror :=
  validating "FileOffer" all m (λ m, [
    failif (RuneCountInString (FileOffer_GetFileId m) >? 128) "FileId"
      "value length must be at most 128 runes";
    failif (RuneCountInString (FileOffer_GetFileName m) >? 256) "FileName"
      "value length must be at most 256 runes"]).
Record FileAccept := mkFileAccept {
  FileAccept_GetFileId : string; FileAccept_GetAccepted : bool; FileAccept_GetReason : string }.
Definition FileAccept_fields : list (string * rule) :=
  [("file_id", len None (Some 128)); ("accepted", any); ("reason", any)].
Definition FileAccept_value (m : option FileAccept) : value :=
  VMsg ((λ m, zip FileAccept_fields
    [VString (FileAccept_GetFileId m); VBool (FileAccept_GetAccepted m); VString (FileAccept_GetReason m)]) <$> m).
Definition FileAccept_validate (all : bool) (m : option FileAccept) : option verror :=
  validating "FileAccept" all m (λ m, [
    failif (RuneCountInString (FileAccept_GetFileId m) >? 128) "FileId"
      "value length must be at most 128 runes"]).
Record FileChunk := mkFileChunk {
  FileChunk_GetFileId : string; FileChunk_GetOffset : Z; FileChunk_GetTotal : Z; FileChunk_GetChunkIndex : Z;
  FileChunk_GetTotalChunks : Z }.
Definition FileChunk_fields : list (string * rule) :=
  [("file_id", len None (Some 128)); ("offset", any); ("total", any); ("chunk_index", any);
   ("total_chunks", any)].
Definition FileChunk_value (m : option FileChunk) : value :=
  VMsg ((λ m, zip FileChunk_fields
    [VString (FileChunk_GetFileId m); VInt (FileChunk_GetOffset m); VInt (FileChunk_GetTotal m);
     VInt (FileChunk_GetChunkIndex m); VInt (FileChunk_GetTotalChunks m)]) <$> m).
Definition FileChunk_validate (all : bool) (m : option FileChunk) : option verror :=
  validating "FileChunk" all m (λ m, [
    failif (RuneCountInString (FileChunk_GetFileId m) >? 128) "FileId"
      "value length must be at most 128 runes"]).
Record FileDone := mkFileDone {
  FileDone_GetFileId : string; FileDone_GetChecksum : string; FileDone_GetFileSize : Z }.
Definition FileDone_fields : list (string * rule) :=
  [("file_id", len None (Some 128)); ("checksum", any); ("file_size", any)].
Definition FileDone_value (m : option FileDone) : value :=
  VMsg ((λ m, zip FileDone_fields
    [VString (FileDone_GetFileId m); VString (FileDone_GetChecksum m); VInt (FileDone_GetFileSize m)]) <$> m).
Definition FileDone_validate (all : bool) (m : option FileDone) : option verror :=
  validating "FileDone" all m (λ m, [
    failif (RuneCountInString (FileDone_GetFileId m) >? 128) "FileId"
      "value length must be at most 128 runes"]).
Record FileCancel := mkFileCancel {
  FileCancel_GetFileId : string; FileCancel_GetReason : string }.
Definition FileCancel_fields : list (string * rule) :=
  [("file_id", len None (Some 128)); ("reason", any)].
Definition FileCancel_value (m : option FileCancel) : value :=
  VMsg ((λ m, zip FileCancel_fields
    [VString (FileCancel_GetFileId m); VString (FileCancel_GetReason m)]) <$> m).
Definition FileCancel_validate (all : bool) (m : option FileCancel) : option verror :=
  validating "FileCancel" all m (λ m, [
    failif (RuneCountInString (FileCancel_GetFileId m) >? 128) "FileId"
      "value length must be at most 128 runes"]).

(** ** [live/live.proto] *)
Record LiveJoin := mkLiveJoin {
  LiveJoin_GetRoomId : string; LiveJoin_GetPassword : string; LiveJoin_GetExt : gmap string string }.
Definition LiveJoin_fields : list (string * rule) :=
  [("room_id", len None (Some 128)); ("password", any); ("ext", any)].
Definition LiveJoin_value (m : option LiveJoin) : value :=
  VMsg ((λ m, zip LiveJoin_fields
    [VString (LiveJoin_GetRoomId m); VString (LiveJoin_GetPassword m); VMap (LiveJoin_GetExt m)]) <$> m).
Definition LiveJoin_validate (all : bool) (m : option LiveJoin) : option verror :=
  validating "LiveJoin" all m (λ m, [
    failif (RuneCountInString (LiveJoin_GetRoomId m) >? 128) "RoomId"
      "value length must be at most 128 runes"]).
Record LiveLeave := mkLiveLeave {
  LiveLeave_GetRoomId : string; LiveLeave_GetReason : string }.
Definition LiveLeave_fields : list (string * rule) :=
  [("room_id", len None (Some 128)); ("reason", any)].
Definition LiveLeave_value (m : option LiveLeave) : value :=
  VMsg ((λ m, zip LiveLeave_fields
    [VString (LiveLeave_GetRoomId m); VString (LiveLeave_GetReason m)]) <$> m).
Definition LiveLeave_validate (all : bool) (m : option LiveLeave) : option verror :=
  validating "LiveLeave" all m (λ m, [
    failif (RuneCountInString (LiveLeave_GetRoomId m) >? 128) "RoomId"
      "value length must be at most 128 runes"]).
Record LiveComment := mkLiveComment {
  LiveComment_GetRoomId : string; LiveComment_GetContent : string; LiveComment_GetColor : string;
  LiveComment_GetLevel : Z }.
Definition LiveComment_fields : list (string * rule) :=
  [("room_id", len None (Some 128)); ("content", len None (Some 512)); ("color", any); ("level", any)].
Definition LiveComment_value (m : option LiveComment) : value :=
  VMsg ((λ m, zip LiveComment_fields
    [VString (LiveComment_GetRoomId m); VString (LiveComment_GetContent m); VString (LiveComment_GetColor m);
     VInt (LiveComment_GetLevel m)]) <$> m).
Definition LiveComment_validate (all : bool) (m : option LiveComment) : option verror :=
  validating "LiveComment" all m (λ m, [
    failif (RuneCountInString (LiveComment_GetRoomId m) >? 128) "RoomId"
      "value length must be at most 128 runes";
    failif (RuneCountInString (LiveComment_GetContent m) >? 512) "Content"
      "value length must be at most 512 runes"]).
Record LiveGift := mkLiveGift {
  LiveGift_GetRoomId : string; LiveGift_GetGiftId : string; LiveGift_GetGiftName : string;
  LiveGift_GetCount : Z; LiveGift_GetTotalCost : Z; LiveGift_GetComboId : string }.
Definition LiveGift_fields : list (string * rule) :=
  [("room_id", len None (Some 128)); ("gift_id", len None (Some 128)); ("gift_name", any); ("count", any);
   ("total_cost", any); ("combo_id", any)].
Definition LiveGift_value (m : option LiveGift) : value :=
  VMsg ((λ m, zip LiveGift_fields
    [VString (LiveGift_GetRoomId m); VString (LiveGift_GetGiftId m); VString (LiveGift_GetGiftName m);
     VInt (LiveGift_GetCount m); VInt (LiveGift_GetTotalCost m); VString (LiveGift_GetComboId m)]) <$> m).
Definition LiveGift_validate (all : bool) (m : option LiveGift) : option verror :=
  validating "LiveGift" all m (λ m, [
    failif (RuneCountInString (LiveGift_GetRoomId m) >? 128) "RoomId"
      "value length must be at most 128 runes";
    failif (RuneCountInString (LiveGift_GetGiftId m) >? 128) "GiftId"
      "value length must be at most 128 runes"]).
Record LiveSignal := mkLiveSignal {
  LiveSignal_GetRoomId : string; LiveSignal_GetSignalType : string; LiveSignal_GetPayload : list Z }.
Definition LiveSignal_fields : list (string * rule) :=
  [("room_id", len None (Some 128)); ("signal_type", any); ("payload", any)].
Definition LiveSignal_value (m : option LiveSignal) : value :=
  VMsg ((λ m, zip LiveSignal_fields
    [VString (LiveSignal_GetRoomId m); VString (LiveSignal_GetSignalType m); VBytes (LiveSignal_GetPayload m)]) <$> m).
Definition LiveSignal_validate (all : bool) (m : option LiveSignal) : option verror :=
  validating "LiveSignal" all m (λ m, [
    failif (RuneCountInString (LiveSignal_GetRoomId m) >? 128) "RoomId"
      "value length must be at most 128 runes"]).
Record LiveState := mkLiveState {
  LiveState_GetRoomId : string; LiveState_GetState : string; LiveState_GetViewerCount : Z;
  LiveState_GetLikeCount : Z }.
Definition LiveState_fields : list (string * rule) :=
  [("room_id", len None (Some 128)); ("state", any); ("viewer_count", any); ("like_count", any)].
Definition LiveState_value (m : option LiveState) : value :=
  VMsg ((λ m, zip LiveState_fields
    [VString (LiveState_GetRoomId m); VString (LiveState_GetState m); VInt (LiveState_GetViewerCount m);
     VInt (LiveState_GetLikeCount m)]) <$> m).
Definition LiveState_validate (all : bool) (m : option LiveState) : option verror :=
  validating "LiveState" all m (λ m, [
    failif (RuneCountInString (LiveState_GetRoomId m) >? 128) "RoomId"
      "value length must be at most 128 runes"]).

(** ** [data/data.proto] *)
Record DataUpdate := mkDataUpdate {
  DataUpdate_GetDataType : string; DataUpdate_GetDataId : string; DataUpdate_GetPayload : list Z;
  DataUpdate_GetVersion : Z; DataUpdate_GetIsDelta : bool; DataUpdate_GetExpireAt : Z; DataUpdate_GetSeq : Z }.
Definition DataUpdate_fields : list (string * rule) :=
  [("data_type", len None (Some 64)); ("data_id", len None (Some 128)); ("payload", any); ("version", any);
   ("is_delta", any); ("expire_at", any); ("seq", any)].
Definition DataUpdate_value (m : option DataUpdate) : value :=
  VMsg ((λ m, zip DataUpdate_fields
    [VString (DataUpdate_GetDataType m); VString (DataUpdate_GetDataId m); VBytes (DataUpdate_GetPayload m);
     VInt (DataUpdate_GetVersion m); VBool (DataUpdate_GetIsDelta m); VInt (DataUpdate_GetExpireAt m);
     VInt (DataUpdate_GetSeq m)]) <$> m).
Definition DataUpdate_validate (all : bool) (m : option DataUpdate) : option verror :=
  validating "DataUpdate" all m (λ m, [
    failif (RuneCountInString (DataUpdate_GetDataType m) >? 64) "DataType"
      "value length must be at most 64 runes";
    failif (RuneCountInString (DataUpdate_GetDataId m) >? 128) "DataId"
      "value length must be at most 128 runes"]).

(** ** [message/message.proto] *)
Record PushNotify := mkPushNotify {
  PushNotify_GetTitle : string; PushNotify_GetBody : string; PushNotify_GetSound : string;
  PushNotify_GetBadge : Z; PushNotify_GetData : gmap string string; PushNotify_GetPriority : string;
  PushNotify_GetCollapseKey : string; PushNotify_GetChannelId : string }.
Definition PushNotify_fields : list (string * rule) :=
  [("title", len None (Some 256)); ("body", len None (Some 1024)); ("sound", any); ("badge", any);
   ("data", any); ("priority", any); ("collapse_key", any); ("channel_id", any)].
Definition PushNotify_value (m : option PushNotify) : value :=
  VMsg ((λ m, zip PushNotify_fields
    [VString (PushNotify_GetTitle m); VString (PushNotify_GetBody m); VString (PushNotify_GetSound m);
     VInt (PushNotify_GetBadge m); VMap (PushNotify_GetData m); VString (PushNotify_GetPriority m);
     VString (PushNotify_GetCollapseKey m); VString (PushNotify_GetChannelId m)]) <$> m).
Definition PushNotify_validate (all : bool) (m : option PushNotify) : option verror :=
  validating "PushNotify" all m (λ m, [
    failif (RuneCountInString (PushNotify_GetTitle m) >? 256) "Title"
      "value length must be at most 256 runes";
    failif (RuneCountInString (PushNotify_GetBody m) >? 1024) "Body"
      "value length must be at most 1024 runes"]).

(** ** Each validator is the one its rules ask for *)
Lemma IMChat_valid (m : option IMChat) :
  valid (λ all, IMChat_validate all m) (violations (IMChat_value m)).
Proof. follows IMChat_value IMChat_fields. Qed.
#[export] Hint Resolve IMChat_valid : validators.
Lemma IMReceipt_valid (m : option IMReceipt) :
  valid (λ all, IMReceipt_validate all m) (violations (IMReceipt_value m)).
Proof. follows IMReceipt_value IMReceipt_fields. Qed.
#[export] Hint Resolve IMReceipt_valid : validators.
Lemma IMRevoke_valid (m : option IMRevoke) :
  valid (λ all, IMRevoke_validate all m) (violations (IMRevoke_value m)).
Proof. follows IMRevoke_value IMRevoke_fields. Qed.
#[export] Hint Resolve IMRevoke_valid : validators.
Lemma IMEdit_valid (m : option IMEdit) :
  valid (λ all, IMEdit_validate all m) (violations (IMEdit_value m)).
Proof. follows IMEdit_value IMEdit_fields. Qed.
#[export] Hint Resolve IMEdit_valid : validators.
Lemma IMTyping_valid (m : option IMTyping) :
  valid (λ all, IMTyping_validate all m) (violations (IMTyping_value m)).
Proof. follows IMTyping_value IMTyping_fields. Qed.
#[export] Hint Resolve IMTyping_valid : validators.
Lemma IMReaction_valid (m : option IMReaction) :
  valid (λ all, IMReaction_validate all m) (violations (IMReaction_value m)).
Proof. follows IMReaction_value IMReaction_fields. Qed.
#[export] Hint Resolve IMReaction_valid : validators.
Lemma IMPin_valid (m : option IMPin) :
  valid (λ all, IMPin_validate all m) (violations (IMPin_value m)).
Proof. follows IMPin_value IMPin_fields. Qed.
#[export] Hint Resolve IMPin_valid : validators.
Lemma CallOffer_valid (m : option CallOffer) :
  valid (λ all, CallOffer_validate all m) (violations (CallOffer_value m)).
Proof. follows CallOffer_value CallOffer_fields. Qed.
#[export] Hint Resolve CallOffer_valid : validators.
Lemma CallAnswer_valid (m : option CallAnswer) :
  valid (λ all, CallAnswer_validate all m) (violations (CallAnswer_value m)).
Proof. follows CallAnswer_value CallAnswer_fields. Qed.
#[export] Hint Resolve CallAnswer_valid : validators.
Lemma CallICE_valid (m : option CallICE) :
  valid (λ all, CallICE_validate all m) (violations (CallICE_value m)).
Proof. follows CallICE_value CallICE_fields. Qed.
#[export] Hint Resolve CallICE_valid : validators.
Lemma CallHangup_valid (m : option CallHangup) :
  valid (λ all, CallHangup_validate all m) (violations (CallHangup_value m)).
Proof. follows CallHangup_value CallHangup_fields. Qed.
#[export] Hint Resolve CallHangup_valid : validators.
Lemma CallModify_valid (m : option CallModify) :
  valid (λ all, CallModify_validate all m) (violations (CallModify_value m)).
Proof. follows CallModify_value CallModify_fields. Qed.
#[export] Hint Resolve CallModify_valid : validators.
Lemma FileOffer_valid (m : option FileOffer) :
  valid (λ all, FileOffer_validate all m) (violations (FileOffer_value m)).
Proof. follows FileOffer_value FileOffer_fields. Qed.
#[export] Hint Resolve FileOffer_valid : validators.
Lemma FileAccept_valid (m : option FileAccept) :
  valid (λ all, FileAccept_validate all m) (violations (FileAccept_value m)).
Proof. follows FileAccept_value FileAccept_fields. Qed.
#[export] Hint Resolve FileAccept_valid : validators.
Lemma FileChunk_valid (m : option FileChunk) :
  valid (λ all, FileChunk_validate all m) (violations (FileChunk_value m)).
Proof. follows FileChunk_value FileChunk_fields. Qed.
#[export] Hint Resolve FileChunk_valid : validators.
Lemma FileDone_valid (m : option FileDone) :
  valid (λ all, FileDone_validate all m) (violations (FileDone_value m)).
Proof. follows FileDone_value FileDone_fields. Qed.
#[export] Hint Resolve FileDone_valid : validators.
Lemma FileCancel_valid (m : option FileCancel) :
  valid (λ all, FileCancel_validate all m) (violations (FileCancel_value m)).
Proof. follows FileCancel_value FileCancel_fields. Qed.
#[export] Hint Resolve FileCancel_valid : validators.
Lemma LiveJoin_valid (m : option LiveJoin) :
  valid (λ all, LiveJoin_validate all m) (violations (LiveJoin_value m)).
Proof. follows LiveJoin_value LiveJoin_fields. Qed.
#[export] Hint Resolve LiveJoin_valid : validators.
Lemma LiveLeave_valid (m : option LiveLeave) :
  valid (λ all, LiveLeave_validate all m) (violations (LiveLeave_value m)).
Proof. follows LiveLeave_value LiveLeave_fields. Qed.
#[export] Hint Resolve LiveLeave_valid : validators.
Lemma LiveComment_valid (m : option LiveComment) :
  valid (λ all, LiveComment_validate all m) (violations (LiveComment_value m)).
Proof. follows LiveComment_value LiveComment_fields. Qed.
#[export] Hint Resolve LiveComment_valid : validators.
Lemma LiveGift_valid (m : option LiveGift) :
  valid (λ all, LiveGift_validate all m) (violations (LiveGift_value m)).
Proof. follows LiveGift_value LiveGift_fields. Qed.
#[export] Hint Resolve LiveGift_valid : validators.
Lemma LiveSignal_valid (m : option LiveSignal) :
  valid (λ all, LiveSignal_validate all m) (violations (LiveSignal_value m)).
Proof. follows LiveSignal_value LiveSignal_fields. Qed.
#[export] Hint Resolve LiveSignal_valid : validators.
Lemma LiveState_valid (m : option LiveState) :
  valid (λ all, LiveState_validate all m) (violations (LiveState_value m)).
Proof. follows LiveState_value LiveState_fields. Qed.
#[export] Hint Resolve LiveState_valid : validators.
Lemma DataUpdate_valid (m : option DataUpdate) :
  valid (λ all, DataUpdate_validate all m) (violations (DataUpdate_value m)).
Proof. follows DataUpdate_value DataUpdate_fields. Qed.
#[export] Hint Resolve DataUpdate_valid : validators.
Lemma PushNotify_valid (m : option PushNotify) :
  valid (λ all, PushNotify_validate all m) (violations (PushNotify_value m)).
Proof. follows PushNotify_value PushNotify_fields. Qed.
#[export] Hint Resolve PushNotify_valid : validators.
