(* ===== verification/ProtoSpec.v ===== *)
(** * The protocol as a whole: every validator, and the service that calls none

    Every message of [common-protocol/gen] as one type, its [Validate] and
    [ValidateAll], and the claim that they implement the rules of the [.proto]
    files.  Then the [GatewayInternal] service: what the generated handlers and
    [handler/gatewaygrpc] answer, whether or not a request obeys the rules. *)

From Stdlib Require Import String.
From stdpp Require Import base list gmap strings numbers option.
From S2P Require Import Prelude Utf8 Validate ProtoCommon ProtoEvents ProtoService ProtoDomains.
Local Open Scope Z_scope.

(** ** A message of the protocol

    [interface{ Validate() error; ValidateAll() error }] with its dynamic types. *)
Inductive proto_message :=
  | m_GatewayFrame (m : option GatewayFrame) | m_RouteTarget (m : option RouteTarget)
  | m_Delivery (m : option Delivery) | m_TraceContext (m : option TraceContext)
  | m_Dispatch (m : option Dispatch) | m_Hello (m : option Hello) | m_Handshake (m : option Handshake)
  | m_Ready (m : option Ready) | m_Error (m : option Error) | m_Resume (m : option Resume)
  | m_Heartbeat (m : option Heartbeat) | m_HeartbeatAck (m : option HeartbeatAck)
  | m_AuthRefresh (m : option AuthRefresh) | m_AuthRefreshAck (m : option AuthRefreshAck)
  | m_Reconnect (m : option Reconnect) | m_Kick (m : option Kick) | m_Ack (m : option Ack)
  | m_BatchDispatch_SharedMeta (m : option BatchDispatch_SharedMeta)
  | m_BatchDispatch_Item (m : option BatchDispatch_Item) | m_BatchDispatch (m : option BatchDispatch)
  | m_RateLimited (m : option RateLimited) | m_SystemBroadcast (m : option SystemBroadcast)
  | m_AdminNotice (m : option AdminNotice) | m_PresenceUpdate (m : option PresenceUpdate)
  | m_PresenceBatch_Item (m : option PresenceBatch_Item) | m_PresenceBatch (m : option PresenceBatch)
  | m_Subscribe_RoomTarget (m : option Subscribe_RoomTarget)
  | m_Subscribe_TopicTarget (m : option Subscribe_TopicTarget)
  | m_Subscribe_GroupTarget (m : option Subscribe_GroupTarget) | m_Subscribe (m : option Subscribe)
  | m_SubscribeAck (m : option SubscribeAck) | m_UnsubscribeAck (m : option UnsubscribeAck)
  | m_Payload (m : option Payload) | m_PushMessageReq (m : option PushMessageReq)
  | m_PushMessageResp (m : option PushMessageResp) | m_BatchPushMessageReq (m : option BatchPushMessageReq)
  | m_BatchPushMessageResp_SuccessItem (m : option BatchPushMessageResp_SuccessItem)
  | m_BatchPushMessageResp_FailedItem (m : option BatchPushMessageResp_FailedItem)
  | m_BatchPushMessageResp (m : option BatchPushMessageResp)
  | m_BroadcastToRoomReq (m : option BroadcastToRoomReq)
  | m_BroadcastToRoomResp (m : option BroadcastToRoomResp)
  | m_BroadcastToTopicReq (m : option BroadcastToTopicReq)
  | m_BroadcastToTopicResp (m : option BroadcastToTopicResp)
  | m_BroadcastToAllReq (m : option BroadcastToAllReq) | m_BroadcastToAllResp (m : option BroadcastToAllResp)
  | m_ForwardToSessionReq (m : option ForwardToSessionReq)
  | m_ForwardToSessionResp (m : option ForwardToSessionResp) | m_ForwardToRoomReq (m : option ForwardToRoomReq)
  | m_ForwardToRoomResp (m : option ForwardToRoomResp) | m_KickUserReq (m : option KickUserReq)
  | m_KickUserResp (m : option KickUserResp) | m_KickSessionReq (m : option KickSessionReq)
  | m_KickSessionResp (m : option KickSessionResp) | m_KickDeviceReq (m : option KickDeviceReq)
  | m_KickDeviceResp (m : option KickDeviceResp) | m_DrainNodeReq (m : option DrainNodeReq)
  | m_DrainNodeResp (m : option DrainNodeResp) | m_UndrainNodeReq (m : option UndrainNodeReq)
  | m_UndrainNodeResp (m : option UndrainNodeResp) | m_GetNodeStatusReq (m : option GetNodeStatusReq)
  | m_GetNodeStatusResp (m : option GetNodeStatusResp) | m_GetStatsReq (m : option GetStatsReq)
  | m_GetStatsResp_BizStat (m : option GetStatsResp_BizStat)
  | m_GetStatsResp_RoomStat (m : option GetStatsResp_RoomStat) | m_GetStatsResp (m : option GetStatsResp)
  | m_GetBizStatsReq (m : option GetBizStatsReq) | m_GetBizStatsResp (m : option GetBizStatsResp)
  | m_GetRoomStatsReq (m : option GetRoomStatsReq) | m_GetRoomStatsResp (m : option GetRoomStatsResp)
  | m_QueryRouteReq (m : option QueryRouteReq)
  | m_QueryRouteResp_RouteInfo (m : option QueryRouteResp_RouteInfo)
  | m_QueryRouteResp (m : option QueryRouteResp) | m_QuerySessionReq (m : option QuerySessionReq)
  | m_QuerySessionResp (m : option QuerySessionResp) | m_ListSessionsReq (m : option ListSessionsReq)
  | m_ListSessionsResp_SessionItem (m : option ListSessionsResp_SessionItem)
  | m_ListSessionsResp (m : option ListSessionsResp) | m_IMChat (m : option IMChat)
  | m_IMReceipt (m : option IMReceipt) | m_IMRevoke (m : option IMRevoke) | m_IMEdit (m : option IMEdit)
  | m_IMTyping (m : option IMTyping) | m_IMReaction (m : option IMReaction) | m_IMPin (m : option IMPin)
  | m_CallOffer (m : option CallOffer) | m_CallAnswer (m : option CallAnswer) | m_CallICE (m : option CallICE)
  | m_CallHangup (m : option CallHangup) | m_CallModify (m : option CallModify)
  | m_FileOffer (m : option FileOffer) | m_FileAccept (m : option FileAccept)
  | m_FileChunk (m : option FileChunk) | m_FileDone (m : option FileDone) | m_FileCancel (m : option FileCancel)
  | m_LiveJoin (m : option LiveJoin) | m_LiveLeave (m : option LiveLeave)
  | m_LiveComment (m : option LiveComment) | m_LiveGift (m : option LiveGift)
  | m_LiveSignal (m : option LiveSignal) | m_LiveState (m : option LiveState)
  | m_DataUpdate (m : option DataUpdate) | m_PushNotify (m : option PushNotify).

(** The message with its fields and rules, and the method of its type. *)
Definition value_of (p : proto_message) : value :=
  match p with
  | m_GatewayFrame m => GatewayFrame_value m | m_RouteTarget m => RouteTarget_value m
  | m_Delivery m => Delivery_value m | m_TraceContext m => TraceContext_value m
  | m_Dispatch m => Dispatch_value m | m_Hello m => Hello_value m | m_Handshake m => Handshake_value m
  | m_Ready m => Ready_value m | m_Error m => Error_value m | m_Resume m => Resume_value m
  | m_Heartbeat m => Heartbeat_value m | m_HeartbeatAck m => HeartbeatAck_value m
  | m_AuthRefresh m => AuthRefresh_value m | m_AuthRefreshAck m => AuthRefreshAck_value m
  | m_Reconnect m => Reconnect_value m | m_Kick m => Kick_value m | m_Ack m => Ack_value m
  | m_BatchDispatch_SharedMeta m => BatchDispatch_SharedMeta_value m
  | m_BatchDispatch_Item m => BatchDispatch_Item_value m | m_BatchDispatch m => BatchDispatch_value m
  | m_RateLimited m => RateLimited_value m | m_SystemBroadcast m => SystemBroadcast_value m
  | m_AdminNotice m => AdminNotice_value m | m_PresenceUpdate m => PresenceUpdate_value m
  | m_PresenceBatch_Item m => PresenceBatch_Item_value m | m_PresenceBatch m => PresenceBatch_value m
  | m_Subscribe_RoomTarget m => Subscribe_RoomTarget_value m
  | m_Subscribe_TopicTarget m => Subscribe_TopicTarget_value m
  | m_Subscribe_GroupTarget m => Subscribe_GroupTarget_value m | m_Subscribe m => Subscribe_value m
  | m_SubscribeAck m => SubscribeAck_value m | m_UnsubscribeAck m => UnsubscribeAck_value m
  | m_Payload m => Payload_value m | m_PushMessageReq m => PushMessageReq_value m
  | m_PushMessageResp m => PushMessageResp_value m | m_BatchPushMessageReq m => BatchPushMessageReq_value m
  | m_BatchPushMessageResp_SuccessItem m => BatchPushMessageResp_SuccessItem_value m
  | m_BatchPushMessageResp_FailedItem m => BatchPushMessageResp_FailedItem_value m
  | m_BatchPushMessageResp m => BatchPushMessageResp_value m
  | m_BroadcastToRoomReq m => BroadcastToRoomReq_value m
  | m_BroadcastToRoomResp m => BroadcastToRoomResp_value m
  | m_BroadcastToTopicReq m => BroadcastToTopicReq_value m
  | m_BroadcastToTopicResp m => BroadcastToTopicResp_value m
  | m_BroadcastToAllReq m => BroadcastToAllReq_value m | m_BroadcastToAllResp m => BroadcastToAllResp_value m
  | m_ForwardToSessionReq m => ForwardToSessionReq_value m
  | m_ForwardToSessionResp m => ForwardToSessionResp_value m | m_ForwardToRoomReq m => ForwardToRoomReq_value m
  | m_ForwardToRoomResp m => ForwardToRoomResp_value m | m_KickUserReq m => KickUserReq_value m
  | m_KickUserResp m => KickUserResp_value m | m_KickSessionReq m => KickSessionReq_value m
  | m_KickSessionResp m => KickSessionResp_value m | m_KickDeviceReq m => KickDeviceReq_value m
  | m_KickDeviceResp m => KickDeviceResp_value m | m_DrainNodeReq m => DrainNodeReq_value m
  | m_DrainNodeResp m => DrainNodeResp_value m | m_UndrainNodeReq m => UndrainNodeReq_value m
  | m_UndrainNodeResp m => UndrainNodeResp_value m | m_GetNodeStatusReq m => GetNodeStatusReq_value m
  | m_GetNodeStatusResp m => GetNodeStatusResp_value m | m_GetStatsReq m => GetStatsReq_value m
  | m_GetStatsResp_BizStat m => GetStatsResp_BizStat_value m
  | m_GetStatsResp_RoomStat m => GetStatsResp_RoomStat_value m | m_GetStatsResp m => GetStatsResp_value m
  | m_GetBizStatsReq m => GetBizStatsReq_value m | m_GetBizStatsResp m => GetBizStatsResp_value m
  | m_GetRoomStatsReq m => GetRoomStatsReq_value m | m_GetRoomStatsResp m => GetRoomStatsResp_value m
  | m_QueryRouteReq m => QueryRouteReq_value m
  | m_QueryRouteResp_RouteInfo m => QueryRouteResp_RouteInfo_value m
  | m_QueryRouteResp m => QueryRouteResp_value m | m_QuerySessionReq m => QuerySessionReq_value m
  | m_QuerySessionResp m => QuerySessionResp_value m | m_ListSessionsReq m => ListSessionsReq_value m
  | m_ListSessionsResp_SessionItem m => ListSessionsResp_SessionItem_value m
  | m_ListSessionsResp m => ListSessionsResp_value m | m_IMChat m => IMChat_value m
  | m_IMReceipt m => IMReceipt_value m | m_IMRevoke m => IMRevoke_value m | m_IMEdit m => IMEdit_value m
  | m_IMTyping m => IMTyping_value m | m_IMReaction m => IMReaction_value m | m_IMPin m => IMPin_value m
  | m_CallOffer m => CallOffer_value m | m_CallAnswer m => CallAnswer_value m | m_CallICE m => CallICE_value m
  | m_CallHangup m => CallHangup_value m | m_CallModify m => CallModify_value m
  | m_FileOffer m => FileOffer_value m | m_FileAccept m => FileAccept_value m
  | m_FileChunk m => FileChunk_value m | m_FileDone m => FileDone_value m | m_FileCancel m => FileCancel_value m
  | m_LiveJoin m => LiveJoin_value m | m_LiveLeave m => LiveLeave_value m
  | m_LiveComment m => LiveComment_value m | m_LiveGift m => LiveGift_value m
  | m_LiveSignal m => LiveSignal_value m | m_LiveState m => LiveState_value m
  | m_DataUpdate m => DataUpdate_value m | m_PushNotify m => PushNotify_value m
  end.
Definition validate_message (all : bool) (p : proto_message) : outcome (option verror) :=
  match p with
  | m_GatewayFrame m => Ret (GatewayFrame_validate all m) | m_RouteTarget m => Ret (RouteTarget_validate all m)
  | m_Delivery m => Ret (Delivery_validate all m) | m_TraceContext m => Ret (TraceContext_validate all m)
  | m_Dispatch m => Ret (Dispatch_validate all m) | m_Hello m => Ret (Hello_validate all m)
  | m_Handshake m => Ret (Handshake_validate all m) | m_Ready m => Ret (Ready_validate all m)
  | m_Error m => Ret (Error_validate all m) | m_Resume m => Ret (Resume_validate all m)
  | m_Heartbeat m => Ret (Heartbeat_validate all m) | m_HeartbeatAck m => Ret (HeartbeatAck_validate all m)
  | m_AuthRefresh m => Ret (AuthRefresh_validate all m)
  | m_AuthRefreshAck m => Ret (AuthRefreshAck_validate all m) | m_Reconnect m => Ret (Reconnect_validate all m)
  | m_Kick m => Ret (Kick_validate all m) | m_Ack m => Ret (Ack_validate all m)
  | m_BatchDispatch_SharedMeta m => Ret (BatchDispatch_SharedMeta_validate all m)
  | m_BatchDispatch_Item m => Ret (BatchDispatch_Item_validate all m)
  | m_BatchDispatch m => Ret (BatchDispatch_validate all m)
  | m_RateLimited m => Ret (RateLimited_validate all m)
  | m_SystemBroadcast m => Ret (SystemBroadcast_validate all m)
  | m_AdminNotice m => Ret (AdminNotice_validate all m)
  | m_PresenceUpdate m => Ret (PresenceUpdate_validate all m)
  | m_PresenceBatch_Item m => Ret (PresenceBatch_Item_validate all m)
  | m_PresenceBatch m => Ret (PresenceBatch_validate all m)
  | m_Subscribe_RoomTarget m => Ret (Subscribe_RoomTarget_validate all m)
  | m_Subscribe_TopicTarget m => Ret (Subscribe_TopicTarget_validate all m)
  | m_Subscribe_GroupTarget m => Ret (Subscribe_GroupTarget_validate all m)
  | m_Subscribe m => Subscribe_validate all m | m_SubscribeAck m => Ret (SubscribeAck_validate all m)
  | m_UnsubscribeAck m => Ret (UnsubscribeAck_validate all m) | m_Payload m => Ret (Payload_validate all m)
  | m_PushMessageReq m => Ret (PushMessageReq_validate all m)
  | m_PushMessageResp m => Ret (PushMessageResp_validate all m)
  | m_BatchPushMessageReq m => Ret (BatchPushMessageReq_validate all m)
  | m_BatchPushMessageResp_SuccessItem m => Ret (BatchPushMessageResp_SuccessItem_validate all m)
  | m_BatchPushMessageResp_FailedItem m => Ret (BatchPushMessageResp_FailedItem_validate all m)
  | m_BatchPushMessageResp m => Ret (BatchPushMessageResp_validate all m)
  | m_BroadcastToRoomReq m => Ret (BroadcastToRoomReq_validate all m)
  | m_BroadcastToRoomResp m => Ret (BroadcastToRoomResp_validate all m)
  | m_BroadcastToTopicReq m => Ret (BroadcastToTopicReq_validate all m)
  | m_BroadcastToTopicResp m => Ret (BroadcastToTopicResp_validate all m)
  | m_BroadcastToAllReq m => Ret (BroadcastToAllReq_validate all m)
  | m_BroadcastToAllResp m => Ret (BroadcastToAllResp_validate all m)
  | m_ForwardToSessionReq m => Ret (ForwardToSessionReq_validate all m)
  | m_ForwardToSessionResp m => Ret (ForwardToSessionResp_validate all m)
  | m_ForwardToRoomReq m => Ret (ForwardToRoomReq_validate all m)
  | m_ForwardToRoomResp m => Ret (ForwardToRoomResp_validate all m)
  | m_KickUserReq m => Ret (KickUserReq_validate all m) | m_KickUserResp m => Ret (KickUserResp_validate all m)
  | m_KickSessionReq m => Ret (KickSessionReq_validate all m)
  | m_KickSessionResp m => Ret (KickSessionResp_validate all m)
  | m_KickDeviceReq m => Ret (KickDeviceReq_validate all m)
  | m_KickDeviceResp m => Ret (KickDeviceResp_validate all m)
  | m_DrainNodeReq m => Ret (DrainNodeReq_validate all m)
  | m_DrainNodeResp m => Ret (DrainNodeResp_validate all m)
  | m_UndrainNodeReq m => Ret (UndrainNodeReq_validate all m)
  | m_UndrainNodeResp m => Ret (UndrainNodeResp_validate all m)
  | m_GetNodeStatusReq m => Ret (GetNodeStatusReq_validate all m)
  | m_GetNodeStatusResp m => Ret (GetNodeStatusResp_validate all m)
  | m_GetStatsReq m => Ret (GetStatsReq_validate all m)
  | m_GetStatsResp_BizStat m => Ret (GetStatsResp_BizStat_validate all m)
  | m_GetStatsResp_RoomStat m => Ret (GetStatsResp_RoomStat_validate all m)
  | m_GetStatsResp m => Ret (GetStatsResp_validate all m)
  | m_GetBizStatsReq m => Ret (GetBizStatsReq_validate all m)
  | m_GetBizStatsResp m => Ret (GetBizStatsResp_validate all m)
  | m_GetRoomStatsReq m => Ret (GetRoomStatsReq_validate all m)
  | m_GetRoomStatsResp m => Ret (GetRoomStatsResp_validate all m)
  | m_QueryRouteReq m => Ret (QueryRouteReq_validate all m)
  | m_QueryRouteResp_RouteInfo m => Ret (QueryRouteResp_RouteInfo_validate all m)
  | m_QueryRouteResp m => Ret (QueryRouteResp_validate all m)
  | m_QuerySessionReq m => Ret (QuerySessionReq_validate all m)
  | m_QuerySessionResp m => Ret (QuerySessionResp_validate all m)
  | m_ListSessionsReq m => Ret (ListSessionsReq_validate all m)
  | m_ListSessionsResp_SessionItem m => Ret (ListSessionsResp_SessionItem_validate all m)
  | m_ListSessionsResp m => Ret (ListSessionsResp_validate all m) | m_IMChat m => Ret (IMChat_validate all m)
  | m_IMReceipt m => Ret (IMReceipt_validate all m) | m_IMRevoke m => Ret (IMRevoke_validate all m)
  | m_IMEdit m => Ret (IMEdit_validate all m) | m_IMTyping m => Ret (IMTyping_validate all m)
  | m_IMReaction m => Ret (IMReaction_validate all m) | m_IMPin m => Ret (IMPin_validate all m)
  | m_CallOffer m => Ret (CallOffer_validate all m) | m_CallAnswer m => Ret (CallAnswer_validate all m)
  | m_CallICE m => Ret (CallICE_validate all m) | m_CallHangup m => Ret (CallHangup_validate all m)
  | m_CallModify m => Ret (CallModify_validate all m) | m_FileOffer m => Ret (FileOffer_validate all m)
  | m_FileAccept m => Ret (FileAccept_validate all m) | m_FileChunk m => Ret (FileChunk_validate all m)
  | m_FileDone m => Ret (FileDone_validate all m) | m_FileCancel m => Ret (FileCancel_validate all m)
  | m_LiveJoin m => Ret (LiveJoin_validate all m) | m_LiveLeave m => Ret (LiveLeave_validate all m)
  | m_LiveComment m => Ret (LiveComment_validate all m) | m_LiveGift m => Ret (LiveGift_validate all m)
  | m_LiveSignal m => Ret (LiveSignal_validate all m) | m_LiveState m => Ret (LiveState_validate all m)
  | m_DataUpdate m => Ret (DataUpdate_validate all m) | m_PushNotify m => Ret (PushNotify_validate all m)
  end.
Definition Validate : proto_message → outcome (option verror) := validate_message false.
Definition ValidateAll : proto_message → outcome (option verror) := validate_message true.

(** No nil wrapper of a [oneof]; decoding never makes one. *)
Definition well_built (p : proto_message) : Prop :=
  match p with m_Subscribe m => target_set m | _ => True end.

(** ** The [GatewayInternal] service *)
Definition GatewayInternal_methods : list string :=
  ["PushMessage"; "BatchPushMessage"; "BroadcastToRoom"; "BroadcastToTopic"; "BroadcastToAll";
   "ForwardToSession"; "ForwardToRoom"; "KickUser"; "KickSession"; "KickDevice"; "DrainNode"; "UndrainNode";
   "GetNodeStatus"; "GetStats"; "GetBizStats"; "GetRoomStats"; "QueryRoute"; "QuerySession"; "ListSessions"].

Inductive rpc_answer :=
  | Answer (r : PushMessageResp)
  | DecodeError (e : string)
  | Unimplemented (msg : string).

(** [GrpcServer.PushMessage]: it logs fields of the request and reports delivery. *)
Definition PushMessage (req : option PushMessageReq) : outcome PushMessageResp :=
  match req with
  | Some _ => Ret (mkPushMessageResp true 1 EmptyString 0 0 EmptyString)
  | None => Panic "invalid memory address or nil pointer dereference"
  end.

(** The generated handler: decode, then call; the server has no interceptor.
    The other methods are those of [UnimplementedGatewayInternalServer]. *)
Definition PushMessage_Handler (dec : string + PushMessageReq) : outcome rpc_answer :=
  match dec with
  | inl e => Ret (DecodeError e)
  | inr req => match PushMessage (Some req) with Ret r => Ret (Answer r) | Panic why => Panic why end
  end.
Definition unimplemented (method : string) : rpc_answer :=
  Unimplemented ("method " +:+ method +:+ " not implemented").

(** ** Every validator is the one its rules ask for *)
Lemma validate_message_valid (p : proto_message) :
  well_built p →
  ∃ sub, (∀ all, validate_message all p = Ret (sub all)) ∧ valid sub (violations (value_of p)).
Proof.
  destruct p as []; intros Hw;
    try (eexists; split; [intros all; reflexivity|cbn [value_of]; auto with validators; fail]).
  destruct (Subscribe_valid m Hw) as [Hv Hs]. exists (λ _, None). split; [exact Hs|].
  cbn [value_of]. rewrite Hv. by repeat split.
Qed.

(** C37.  The validators implement the protocol's rules.  For each of the 102
    message types: on every message but one with a nil [oneof] wrapper, neither
    method crashes; [ValidateAll] reports exactly the violations of the rules of
    the [.proto] file, each under the path of fields (and indices) that leads to
    it, in the order of the fields; [Validate] reports the first of them; and
    both are nil exactly when there is none.  With a nil wrapper [Validate]
    fails and [ValidateAll] crashes. *)
Theorem validators_implement_rules (p : proto_message) :
  (well_built p →
   ∃ first every, Validate p = Ret first ∧ ValidateAll p = Ret every ∧
     report every = violations (value_of p) ∧ report first = take 1 (violations (value_of p)) ∧
     (every = None ↔ violations (value_of p) = []) ∧ (first = None ↔ violations (value_of p) = [])) ∧
  (¬ well_built p → (∃ e, Validate p = Ret (Some e)) ∧ ∃ why, ValidateAll p = Panic why).
Proof.
  split.
  - intros Hw. destruct (validate_message_valid p Hw) as (sub & Hsub & Ht & Hf & Hn).
    exists (sub false), (sub true). unfold Validate, ValidateAll. rewrite !Hsub. split_and!; auto; apply Hn.
  - intros Hw. destruct p; try (by destruct Hw). destruct (Subscribe_typed_nil m Hw) as [Ht Hf].
    split; eexists; [exact Hf|exact Ht].
Qed.

(** A batch for two targets, the second of which names none: the path leads to
    the element, and the text of the error is the one of the generated code. *)
Definition bad_batch : BatchPushMessageReq :=
  mkBatchPushMessageReq
    [Some (mkRouteTarget 1 "alice" ∅); Some (mkRouteTarget 1 EmptyString ∅)] "im" None None EmptyString.
Definition bad_batch_msg : proto_message := m_BatchPushMessageReq (Some bad_batch).

Lemma validators_implement_rules_witness :
  violations (value_of bad_batch_msg) =
    [(["ToList[1]"; "Target"], "value length must be between 1 and 128 runes, inclusive");
     (["Payload"], "value is required")] ∧
  ∃ first, Validate bad_batch_msg = Ret (Some first) ∧
    report (Some first) = [(["ToList[1]"; "Target"], "value length must be between 1 and 128 runes, inclusive")] ∧
    verror_Error first = "invalid BatchPushMessageReq.ToList[1]: embedded message failed validation | caused by: invalid RouteTarget.Target: value length must be between 1 and 128 runes, inclusive".
Proof.
  assert (violations (value_of bad_batch_msg) =
    [(["ToList[1]"; "Target"], "value length must be between 1 and 128 runes, inclusive");
     (["Payload"], "value is required")]) as Hv by (vm_compute; reflexivity).
  split; [exact Hv|].
  destruct (proj1 (validators_implement_rules bad_batch_msg) I) as (first & _ & Hf & _ & _ & Hr & _).
  rewrite Hv in Hr. destruct first as [first|]; [|discriminate Hr].
  exists first. split; [exact Hf|]. split; [exact Hr|].
  assert (Validate bad_batch_msg = Ret (Some first)) as He by exact Hf. vm_compute in He.
  injection He as <-. vm_compute. reflexivity.
Defined.

(** ** What the rules ask of a push, and what the service does *)
Ltac read_rules :=
  cbn [fmap option_fmap option_map]; rewrite ?violations_fields;
  cbn [zip zip_with of_fields own nested fmap option_fmap option_map];
  rewrite ?app_nil_l, ?app_nil_iff, ?under_nil, ?unless_nil;
  unfold within; cbn [default from_option fmap option_fmap option_map id].

Lemma enum_range (n k : Z) (numbers : list Z) :
  numbers = seqZ 0 k → n ∉ [0] ∧ n ∈ numbers ↔ 1 ≤ n < k.
Proof. intros ->. rewrite elem_of_seqZ, list_elem_of_singleton. lia. Qed.

Lemma RouteTarget_limits (t : RouteTarget) :
  violations (RouteTarget_value (Some t)) = [] ↔
  1 ≤ RouteTarget_GetType t ≤ 8 ∧ 1 ≤ RuneCountInString (RouteTarget_GetTarget t) ≤ 128 ∧
  mlen (RouteTarget_GetLabels t) ≤ 32.
Proof.
  unfold RouteTarget_value, RouteTarget_fields. read_rules.
  rewrite (enum_range _ 9) by done. intuition lia.
Qed.
Lemma Delivery_limits (d : Delivery) :
  violations (Delivery_value (Some d)) = [] ↔ 1 ≤ Delivery_GetQos d ≤ 2 ∧ 0 ≤ Delivery_GetPriority d ≤ 9.
Proof.
  unfold Delivery_value, Delivery_fields. read_rules. rewrite (enum_range _ 3) by done. intuition lia.
Qed.
Lemma Payload_limits (p : Payload) :
  violations (Payload_value (Some p)) = [] ↔
  RuneCountInString (Payload_GetEventType p) ≤ 128 ∧ 1 ≤ Payload_GetCodec p ≤ 3 ∧ 1 ≤ Payload_GetCompress p ≤ 4.
Proof.
  unfold Payload_value, Payload_fields. read_rules.
  rewrite (enum_range _ 4), (enum_range _ 5) by done. intuition lia.
Qed.

(** A push request is valid exactly when it has a target of a defined type with
    a name of 1 to 128 runes, and a payload with codec and compression. *)
Lemma push_request_limits (r : PushMessageReq) (all : bool) :
  PushMessageReq_validate all (Some r) = None ↔
  (∃ t, PushMessageReq_GetTo r = Some t ∧ 1 ≤ RouteTarget_GetType t ≤ 8 ∧
     1 ≤ RuneCountInString (RouteTarget_GetTarget t) ≤ 128 ∧ mlen (RouteTarget_GetLabels t) ≤ 32) ∧
  RuneCountInString (PushMessageReq_GetBizCode r) ≤ 128 ∧
  (∀ d, PushMessageReq_GetDelivery r = Some d → 1 ≤ Delivery_GetQos d ≤ 2 ∧ 0 ≤ Delivery_GetPriority d ≤ 9) ∧
  (∃ p, PushMessageReq_GetPayload r = Some p ∧ RuneCountInString (Payload_GetEventType p) ≤ 128 ∧
     1 ≤ Payload_GetCodec p ≤ 3 ∧ 1 ≤ Payload_GetCompress p ≤ 4).
Proof.
  rewrite (valid_nil _ _ all (PushMessageReq_valid (Some r))).
  setoid_rewrite <- RouteTarget_limits. setoid_rewrite <- Delivery_limits. setoid_rewrite <- Payload_limits.
  unfold PushMessageReq_value, PushMessageReq_fields. read_rules. rewrite !nested_nil by (eexists; reflexivity).
  destruct (PushMessageReq_GetTo r) as [t|], (PushMessageReq_GetPayload r) as [p|],
    (PushMessageReq_GetDelivery r) as [d|]; unfold RouteTarget_value at 1, Payload_value at 1;
    cbn [fmap option_fmap option_map]; naive_solver.
Qed.

(** The service asks for none of it: every request that decodes is answered as
    accepted and delivered. *)
Lemma push_ignores_rules (r : PushMessageReq) :
  ∃ a, PushMessage_Handler (inr r) = Ret (Answer a) ∧
    PushMessageResp_GetAccepted a = true ∧ PushMessageResp_GetStatus a = 1.
Proof. by eexists. Qed.
Definition empty_push : PushMessageReq := mkPushMessageReq None EmptyString None None EmptyString ∅.
Example empty_push_forbidden :
  report (PushMessageReq_validate true (Some empty_push)) =
    [(["To"], "value is required"); (["Payload"], "value is required")].
Proof. reflexivity. Qed.

(** The identifiers of a valid message fit in 512 bytes. *)
Lemma valid_dispatch_ids (d : Dispatch) (all : bool) :
  Dispatch_validate all (Some d) = None →
  ∀ s, s ∈ [Dispatch_GetMsgId d; Dispatch_GetBizCode d; Dispatch_GetEventType d] →
    0 < Z.of_nat (String.length s) ≤ 512.
Proof.
  rewrite (valid_nil _ _ all (Dispatch_valid (Some d))). unfold Dispatch_value, Dispatch_fields.
  read_rules. intros (_ & Hm & Hb & He & _) s Hs.
  pose proof (length_le_RuneCount s). pose proof (RuneCount_le_length s).
  rewrite !elem_of_cons, elem_of_nil in Hs. destruct Hs as [->|[->|[->|[]]]]; lia.
Qed.
